(* ===== verification/_CoqProject ===== *)
-Q . S2P
Prelude.v
Kernel.v
SimKernel.v
State.v
Fifo.v
Queues.v
Rules.v
Uring.v
Observability.v
Migrate.v
Invariant.v
Masked.v
Policy.v
DiskLinux.v
Remove.v
Reclaim.v
Entry.v
Core.v
Tracked.v
Prefetch.v
Handlers.v
Workers.v
VectorWorker.v
PageRank.v
PageRankPager.v
Unmap.v
Intercept.v
Timer.v
Components.v
FlatMemory.v
Guarantees.v
Operations.v
LruOperations.v
PageRankOperations.v
Uthash.v
UthashProofs.v
TrackedTable.v
