(* ===== verification/Prelude.v ===== *)
(** * ExtMem: a verification development

    ExtMem is a library that does paging in user space: it is loaded into an
    application, takes over its large anonymous mappings, keeps a bounded
    number of their pages in memory (one [memfd], "DRAM") and the others on a
    swap device, and serves the page faults of the application.  This
    development models the C code of [src/src] and proves it correct; the
    root file is also the prelude.

    ** Parts of the program and their files

    - The page lists, [fifo.c]: [Fifo] (pointer level, refinement to
      sequences), [Queues] (the abstract queues), [exec_refines_model] in
      [Components].
    - The storage back ends, [storage_iouring.c] and [storagemanager.c]: [Uring].
    - The page table flags, [observability.c]: [Observability].
    - Moving pages, [core.c] lines 579-1073: [Migrate] (definitions and proofs),
      the batched form in [VectorWorker].
    - The policy interface, the macros of [core.h]: [Policy] (the class
      [PolicyOps] and its laws [PolicyLaws], against which the core is proved).
    - The default policy, [policies/disklinux.c]: [DiskLinux] (definitions),
      [Remove], [Reclaim], [Entry] (proofs up to the laws [lru_laws]),
      [Workers] (kswapd, the eviction worker), [VectorWorker] (the batched
      eviction worker of the default build).
    - The PageRank policy, [policies/pageRank.c]: [PageRank] (definitions),
      [PageRankPager] (proofs up to [pr_laws]).  It shares most of its text
      with the default one; shared functions are defined once, over what
      differs ([fetch_free_with], [kswapd_check_at], [evict_victim], ...).
    - The fault handlers, prefetching, mapping and start-up, the rest of
      [core.c]: [Core] (definitions), [Tracked], [Prefetch], [Handlers],
      [Unmap] (proofs, over any policy).
    - System call interception, [intercept_layer.c]: [Intercept]; time
      differences, [timer.c]: [Timer].
    - The hash table of tracked pages, the macros of [uthash.h] that
      [core.c] expands: [Uthash] (definitions, over a state of its own),
      [UthashProofs] (proof rules for finding, adding, deleting and doubling
      the buckets), [TrackedTable] (the refinement to the finite map that the
      other files use in its place).

    [State] holds the data ([user_page], [fifo_list], the global variables,
    mutexes; the [__thread] ones take the thread as argument and [self] is the
    one that runs) and the statements the functions are made of; [Rules] their
    proof rules; [Kernel] the code that is called but not part of the repository.

    ** The model

    A function is a computation [M (state K) A]: it returns a value and a new
    state or stops with a [fault] (a failed assertion, a null dereference, a
    [perror] followed by [assert(0)], a request on a ring that was never set
    up, undefined arithmetic, a deadlock, a loop out of fuel).  The
    state is a heap of descriptors, the eight list headers, and an
    environment: global variables, flags, the table of tracked pages (the
    uthash table, a finite map from addresses), the mutexes held, the running
    thread, and the kernel state [K].  Thread-local variables and the two
    rings of a thread exist once per [thread]: the application's threads,
    kswapd, the eviction workers, the prefetching threads.

    The kernel (mmap, userfaultfd, madvise, pread/pwrite, pthread_create, the
    ioctls of the custom kernel, liburing) is a parameter: [KernelOps] are its
    calls, [KernelObs] what can be seen of it.  What is assumed of it comes in
    two parts.  [SystemLaws] is its documented behaviour, including that a call
    may fail when [may_fail] holds and that asynchronous requests take effect
    in no particular order; of a request that completes it says nothing about
    the content it read or wrote, since it may have failed or been cut short.
    The code never looks at the result of a request ([cqe->res]), so that the
    content of pages depends on [DeviceCompletes]: the swap device carries out
    what is submitted.  [KernelLaws] is both, and every theorem on the content
    of pages holds on such a device; [failed_write_unnoticed] shows what
    happens on another.  A mapping is fresh and zeroed only if the kernel may
    choose its place: [plain_mapping] excludes [MAP_FIXED], [MAP_GROWSDOWN] and
    [MAP_LOCKED], which [extmem_mmap] passes on.  [calloc] always succeeds.
    [SimKernel] is a concrete kernel that satisfies the laws, and one over a
    device that drops requests that satisfies [SystemLaws]; every witness runs
    on them.

    Integers are [Z] with the wrap-around of their C type written out ([u64],
    [i64], [i32]).  A page has one content of an abstract type [D]: the code
    never looks inside a page.

    [wp E m s Q] says that [m] run in [s] ends in [Q] or stops with a fault
    in [E].  [Invariant] holds the invariant [inv] of the pager: every
    descriptor plays the role of the list it is on, no two own the same frame
    or slot, the logical memory [C] is what is present or on disk, clean pages
    with a copy equal their copy, frames are neither lost nor made.  [at_rest]
    is the invariant between two operations, [pager] and [claimed] are its
    forms while an operation owns pages; [Masked] is its form during
    [extmem_munmap].

    ** What is proved

    - [FlatMemory]: the application sees flat memory ([flat_memory], and
      [pagerank_flat_memory] for the other policy): any program of loads,
      stores, mappings and unmappings inside mapped memory (all of it readable
      and writable, the mappings plain), in any number of
      threads that take turns, with kswapd and the eviction workers
      interleaved between its operations in any order (the classes
      [Background] and [BackgroundLaws] of [Workers], with the instances
      [lru_background] and [pr_background]), computes over the whole library
      what it computes over a flat zeroed memory, or stops for lack of
      resources; no other assertion fails, no pointer is bad, nothing
      deadlocks.  The exception is a worker of the default build that
      submits on a ring it never set up (see [lru_background]).
      [run_from_boot] is the refinement behind it.
    - [Guarantees]: what holds in the concrete state after any program: no
      frame lost, no slot shared, clean copies valid, pages settled, locks
      released.
    - [Operations]: each entry point of [core.c], over any policy: faults,
      first faults, the number of faults an access needs, prefetching,
      mapping, populating, unmapping, start-up and its failures.
    - [LruOperations]: allocation ends within its rounds, victims, shrinking,
      eviction workers, kswapd, the initial lists, migration round trip, the
      write-back that fails unnoticed.
    - [PageRankOperations]: victims outside the window, draining of the
      eviction list before an unmapping, a turn of the prefetching thread (and
      its submission to an unset ring, [prefetchworker_unset_ring]), when the
      policy runs out of memory, and where it coincides with the default policy.
    - [Components]: lists, address arithmetic, the flags of a mapping, the
      system call filter, times (a [double] where the code returns one).
    - [TrackedTable]: [table_refines_map], the hash table is a finite map
      until an allocation fails or 2^31 buckets are to be doubled, where the
      macro's shift is undefined ([expand_undefined] in [UthashProofs]).

    ** Fuel and bounds

    Loops of the code that are bounded carry the bound as fuel and are proved
    to end within it ([wp_loop]): 100 tries per page in the scans, 13 rounds
    in [fetch_free_asynch] (the priority starts at 12 and every round without
    a victim lowers it; the policies take any fuel from 13), one iteration
    per page in populating and unmapping, [CORE_PREFETCH_RATE] = 32 pages per
    prefetch and [EVICT_VECTOR_SIZE] = 8 per batch (both below the 128
    entries of a ring), 8194 rounds of the prefetching thread (its block has
    8192 pages and a round that prefetches nothing ends it), and in the hash
    table one more step per chain than there are hash handles
    ([chain_fuel]).  The number of its buckets is an [unsigned], a power of
    two: below 2^31 doubling stays within it, at 2^31 the model stops with
    [Undefined] as the macro does.  [malloc] may grant or refuse anything.
    Loops that wait
    for another thread spin on [Spinning] when their fuel runs out, and the
    theorems exclude that fault, except where the PageRank policy waits for
    the eviction workers ([wait_for_evictor]).

    ** Not modelled

    - Interleaving inside an operation: threads take turns between operations
      (a load or store with its faults, a system call, one iteration of a
      background thread's loop), a handler is not interrupted.  Mutexes are
      checked for double locking and for being released.  Races are listed
      among the findings only.
    - The prefetching thread among the background threads: its turn is proved
      on its own ([prefetchworker_turn]).
    - [handle_fault] and the fault thread ([USWAP_UFFD] is not defined),
      [handle_first_fault_dummy] (a benchmark build), [TRY_PREFAULT] (the
      function [core_try_prefault] is defined, no handler calls it).
    - [fetch_free_page] and [lrudisk_allocate_page_critical]: nothing calls
      them, and they call [direct_allocate_page], which is defined nowhere.
    - The printing of statistics and log messages; [elapsed] of [timer.c], a
      [double] that only feeds them.
    - The macros of [uthash.h] that the program does not expand: replacing,
      ordered insertion, sorting, selecting, iterating and clearing, the
      other hash functions, bloom filters, recovery from a failed allocation,
      the consistency check.
    - Contents within a page: loads and stores act on the page's content. *)

From Stdlib Require Export ZArith Lia String.
From stdpp Require Export base tactics list gmap strings fin_maps.

#[export] Set Warnings "-clear-no-such-hyp".

Declare Scope extmem_scope.
#[global] Open Scope extmem_scope.
#[global] Open Scope Z_scope.

(** ** Machine integers

    C's [uint64_t]/[size_t], [int64_t] and [int] are kept as [Z] with the
    wrap-around written out. *)

Definition u64 (z : Z) : Z := z mod 2 ^ 64.
Definition i64 (z : Z) : Z := (z + 2 ^ 63) mod 2 ^ 64 - 2 ^ 63.
Definition i32 (z : Z) : Z := (z + 2 ^ 31) mod 2 ^ 32 - 2 ^ 31.
Definition u16 (z : Z) : Z := z mod 2 ^ 16.

Lemma u64_small z : 0 <= z < 2 ^ 64 -> u64 z = z.
Proof. intros. unfold u64. by rewrite Z.mod_small. Qed.

Lemma u64_range z : 0 <= u64 z < 2 ^ 64.
Proof. unfold u64. apply Z.mod_pos_bound. lia. Qed.

Lemma i64_small z : - 2 ^ 63 <= z < 2 ^ 63 -> i64 z = z.
Proof. intros. unfold i64. rewrite Z.mod_small; lia. Qed.

Lemma i32_small z : - 2 ^ 31 <= z < 2 ^ 31 -> i32 z = z.
Proof. intros. unfold i32. rewrite Z.mod_small; lia. Qed.

Lemma i32_range z : - 2 ^ 31 <= i32 z < 2 ^ 31.
Proof.
  unfold i32. pose proof (Z.mod_pos_bound (z + 2 ^ 31) (2 ^ 32)). lia.
Qed.

(** Masking with [~(2^n - 1)] rounds down to a multiple of [2^n]. *)
Lemma land_align a n : 0 <= n <= 64 -> 0 <= a < 2 ^ 64 ->
  Z.land a (u64 (Z.lnot (2 ^ n - 1))) = a / 2 ^ n * 2 ^ n.
Proof.
  intros Hn Ha. rewrite <- Z.shiftr_div_pow2, <- Z.shiftl_mul_pow2 by lia.
  apply Z.bits_inj'. intros i Hi. unfold u64.
  replace (2 ^ n - 1) with (Z.ones n) by (rewrite Z.ones_equiv; lia).
  rewrite Z.land_spec. destruct (decide (i < 64)) as [H64|H64].
  - rewrite Z.mod_pow2_bits_low, Z.lnot_spec by lia.
    destruct (decide (i < n)) as [Hin|Hin].
    + rewrite Z.ones_spec_low, Z.shiftl_spec_low by lia. by rewrite andb_false_r.
    + rewrite Z.ones_spec_high, Z.shiftl_spec, Z.shiftr_spec by lia. rewrite andb_true_r. f_equal. lia.
  - rewrite Z.mod_pow2_bits_high, andb_false_r by lia.
    rewrite Z.shiftl_spec, Z.shiftr_spec by lia. replace (i - n + n) with i by lia.
    symmetry. destruct (decide (a = 0)) as [->|]; [apply Z.bits_0|].
    apply Z.bits_above_log2; [lia|]. apply Z.log2_lt_pow2; [lia|].
    apply Z.lt_le_trans with (2 ^ 64); [lia|]. apply Z.pow_le_mono_r; lia.
Qed.

(** Single bits of masked words. *)
Lemma land_bit f n : 0 <= n -> bool_decide (Z.land f (2 ^ n) = 2 ^ n) = Z.testbit f n.
Proof.
  intros Hn. case_bool_decide as H.
  - assert (Z.testbit (Z.land f (2 ^ n)) n = true) as Ht by (rewrite H; apply Z.pow2_bits_true; lia).
    rewrite Z.land_spec, Z.pow2_bits_true in Ht by lia. by rewrite andb_true_r in Ht.
  - symmetry. apply not_true_is_false. intros Ht. apply H, Z.bits_inj'. intros i Hi.
    rewrite Z.land_spec, Z.pow2_bits_eqb by lia. destruct (Z.eqb_spec n i) as [<-|]; [by rewrite Ht|].
    by rewrite andb_false_r.
Qed.

Lemma lor_bit f n i : 0 <= n -> 0 <= i -> Z.testbit (Z.lor f (2 ^ n)) i = (n =? i) || Z.testbit f i.
Proof. intros. rewrite Z.lor_spec, Z.pow2_bits_eqb by lia. apply orb_comm. Qed.

Lemma ldiff_bit f n i : 0 <= n -> 0 <= i -> Z.testbit (Z.ldiff f (2 ^ n)) i = negb (n =? i) && Z.testbit f i.
Proof. intros. rewrite Z.ldiff_spec, Z.pow2_bits_eqb by lia. apply andb_comm. Qed.

Lemma if_bit (b : bool) f g i : Z.testbit (if b then f else g) i = if b then Z.testbit f i else Z.testbit g i.
Proof. by destruct b. Qed.

(** ** Total functions updated at a point *)

Definition fupd {A B} `{EqDecision A} (f : A -> B) (x : A) (v : B) : A -> B :=
  fun y => if decide (x = y) then v else f y.

Section fupd.
Context {A B : Type} `{EqDecision A}.
Implicit Types (f : A -> B) (x y : A) (v : B).

Lemma fupd_eq f x v : fupd f x v x = v.
Proof. unfold fupd. by rewrite decide_True. Qed.

Lemma fupd_ne f x y v : x <> y -> fupd f x v y = f y.
Proof. intros. unfold fupd. by rewrite decide_False. Qed.
End fupd.

(** [simp_fupd] evaluates point updates whose keys are syntactically equal
    or provably different. *)
Ltac simp_fupd :=
  repeat match goal with
  | |- context [fupd _ ?x _ ?x] => rewrite (fupd_eq _ x)
  | H : context [fupd _ ?x _ ?x] |- _ => rewrite (fupd_eq _ x) in H
  | |- context [fupd _ ?x _ ?y] =>
      rewrite (fupd_ne _ x y) by (first [discriminate | congruence])
  | H : context [fupd _ ?x _ ?y] |- _ =>
      rewrite (fupd_ne _ x y) in H by (first [discriminate | congruence])
  end.

(** ** Outcomes, the state-and-fault monad *)

(** The ways an execution can stop before its C function returns. *)
Inductive fault :=
  | Segv                          (** dereference of NULL or of a dangling pointer *)
  | Undefined (what : string)     (** undefined behaviour of the arithmetic *)
  | BadRing                       (** a request submitted on an io_uring ring that was never set up *)
  | AssertFailed (what : string)  (** a failed [assert] (the build keeps them) *)
  | SysFail (what : string)       (** a failed call whose result is checked: [perror] and [assert(0)],
                                      or an [assert] of the result *)
  | Spinning (what : string)      (** a busy wait or a loop that never exits *)
  | Blocked (what : string)       (** a blocking call nobody will ever wake *)
  | Deadlock                      (** a non-recursive mutex taken twice *)
  | BadUnlock                     (** a mutex released by a thread not holding it *)
  | ThreadFault (f : fault).      (** one of these in a thread of the policy, which ends the process *)

#[export] Instance fault_eq_dec : EqDecision fault.
Proof. solve_decision. Defined.

Inductive res (S A : Type) :=
  | Ok (a : A) (s : S)
  | Fault (f : fault).
Arguments Ok {S A}.
Arguments Fault {S A}.

Definition M (S A : Type) : Type := S -> res S A.

#[export] Instance M_ret S : MRet (M S) := fun A a s => Ok a s.
#[export] Instance M_bind S : MBind (M S) := fun A B f m s =>
  match m s with Ok a s' => f a s' | Fault e => Fault e end.

Definition fail {S A} (f : fault) : M S A := fun _ => Fault f.

(** The faults of [m] are those of another thread than the one that goes on. *)
Definition in_thread {S A} (m : M S A) : M S A := fun s =>
  match m s with Ok a s' => Ok a s' | Fault f => Fault (ThreadFault f) end.

(** [assert(b)] with the text of the asserted condition. *)
Definition assert_ {S} (what : string) (b : bool) : M S unit :=
  if b then mret tt else fail (AssertFailed what).

(** A loop whose body either updates its local variables ([inl]) or leaves
    the loop ([inr]); running out of [fuel] stands for not exiting. *)
Fixpoint loop {S V R} (what : string) (fuel : nat) (body : V -> M S (V + R)) (v : V)
    : M S R :=
  match fuel with
  | O => fail (Spinning what)
  | S n => r ← body v; match r with inl v' => loop what n body v' | inr x => mret x end
  end.

(** [while (c);]: the thread re-reads [c] until another thread clears it. *)
Definition spin_while {S} (what : string) (c : M S bool) : M S unit :=
  b ← c; if (b : bool) then fail (Spinning what) else mret tt.

(** [for each x of the array: f(x)] *)
Fixpoint for_each {S A} (f : A -> M S unit) (l : list A) : M S unit :=
  match l with [] => mret tt | x :: l => f x;; for_each f l end.

(** [for (i = 0; i < n; i++) f();] *)
Fixpoint repeat_m {S} (n : nat) (f : M S unit) : M S unit :=
  match n with O => mret tt | S n => f;; repeat_m n f end.

(** ** Weakest preconditions

    [wp E m s Q]: from state [s] the computation [m] returns with [Q], or
    stops with a fault that [E] tolerates. *)

Definition wp {S A} (E : fault -> Prop) (m : M S A) (s : S) (Q : A -> S -> Prop) : Prop :=
  match m s with Ok a s' => Q a s' | Fault f => E f end.

(** The fault filter of a total-correctness statement. *)
Definition none : fault -> Prop := fun _ => False.

Section wp.
Context {S : Type}.
Implicit Types (E : fault -> Prop) (s : S).

Lemma wp_ret {A} E (a : A) s (Q : A -> S -> Prop) : Q a s -> wp E (mret a) s Q.
Proof. done. Qed.

Lemma wp_bind {A B} E (m : M S A) (f : A -> M S B) s Q :
  wp E m s (fun a s' => wp E (f a) s' Q) -> wp E (m ≫= f) s Q.
Proof. unfold wp, mbind, M_bind. by destruct (m s). Qed.

Lemma wp_mono {A} E (m : M S A) s (Q Q' : A -> S -> Prop) :
  wp E m s Q -> (forall a s', Q a s' -> Q' a s') -> wp E m s Q'.
Proof. unfold wp. destruct (m s); auto. Qed.

Lemma wp_weaken {A} (E E' : fault -> Prop) (m : M S A) s Q :
  wp E m s Q -> (forall f, E f -> E' f) -> wp E' m s Q.
Proof. unfold wp. destruct (m s); auto. Qed.

Lemma wp_in_thread {A} E (m : M S A) s Q :
  wp (fun f => E (ThreadFault f)) m s Q -> wp E (in_thread m) s Q.
Proof. unfold wp, in_thread. by destruct (m s). Qed.

Lemma wp_assert E what (b : bool) s Q : b = true -> Q tt s -> wp E (assert_ what b) s Q.
Proof. by intros ->. Qed.

Lemma wp_fail {A} E (f : fault) s (Q : A -> S -> Prop) : E f -> wp E (fail f) s Q.
Proof. done. Qed.

Lemma wp_spin E what (c : M S bool) s Q :
  wp E c s (fun b s' => b = false /\ Q tt s') -> wp E (spin_while what c) s Q.
Proof. intros H. apply wp_bind. eapply wp_mono; [done|]. by intros ? ? [-> ?]. Qed.

(** The rule for loops with a decreasing measure: no fuel fault. *)
Lemma wp_loop {V R} E what (body : V -> M S (V + R)) (I : nat -> V -> S -> Prop) Q n fuel v s :
  I n v s -> (n < fuel)%nat ->
  (forall n v s, I n v s -> wp E (body v) s (fun r s' =>
     match r with inl v' => exists m, (m < n)%nat /\ I m v' s' | inr x => Q x s' end)) ->
  wp E (loop what fuel body v) s Q.
Proof.
  intros HI Hlt Hbody. revert n v s HI Hlt.
  induction fuel as [|fuel IH]; intros n v s HI Hlt; [lia|].
  simpl. apply wp_bind. eapply wp_mono; [by apply Hbody|].
  intros [v'|x] s' H; simpl in H.
  - destruct H as (m & Hm & HI'). apply (IH m); [done|lia].
  - by apply wp_ret.
Qed.

(** The rule for loops that may spin: [E] tolerates running out of fuel. *)
Lemma wp_loop_spin {V R} E what (body : V -> M S (V + R)) (I : V -> S -> Prop) Q fuel v s :
  E (Spinning what) -> I v s ->
  (forall v s, I v s -> wp E (body v) s (fun r s' =>
     match r with inl v' => I v' s' | inr x => Q x s' end)) ->
  wp E (loop what fuel body v) s Q.
Proof.
  intros HE HI Hbody. revert v s HI.
  induction fuel as [|fuel IH]; intros v s HI; simpl; [done|].
  apply wp_bind. eapply wp_mono; [by apply Hbody|].
  intros [v'|x] s' H; simpl in H; [by apply IH|by apply wp_ret].
Qed.

(** Equal computations: continuations that agree after [m], and loops one of
    which simulates the other step by step, through [f], as long as [I]. *)
Lemma bind_agree {A B} E (m : M S A) (k1 k2 : A -> M S B) s :
  wp E m s (fun a s' => k1 a s' = k2 a s') -> (m ≫= k1) s = (m ≫= k2) s.
Proof. unfold wp, mbind, M_bind. by destruct (m s). Qed.

Lemma bind_is {A B} (m : M S A) (k : A -> M S B) s r :
  wp none m s (fun a s' => k a s' = r) -> (m ≫= k) s = r.
Proof. unfold wp, mbind, M_bind. by destruct (m s). Qed.

Lemma loop_agree {V W R} E what (b1 : V -> M S (V + R)) (b2 : W -> M S (W + R)) (f : V -> W)
    (I : V -> S -> Prop) fuel v s :
  I v s ->
  (forall v s, I v s ->
     b2 (f v) s = (r ← b1 v; mret (match r with inl v' => inl (f v') | inr x => inr x end)) s /\
     wp E (b1 v) s (fun r s' => match r with inl v' => I v' s' | inr _ => True end)) ->
  loop what fuel b2 (f v) s = loop what fuel b1 v s.
Proof.
  intros HI Hb. revert v s HI. induction fuel as [|fuel IH]; intros v s HI; [done|].
  destruct (Hb v s HI) as [Heq Hw]. simpl. unfold mbind, M_bind in *. rewrite Heq.
  unfold wp in Hw. destruct (b1 v s) as [[v'|x] s'|]; [by apply IH|done|done].
Qed.

(** Loops over an array; [g] prepares the argument. *)
Lemma wp_for_each {A B} E (f : B -> M S unit) (g : A -> B) (I : list A -> S -> Prop) l s Q :
  I [] s ->
  (forall xs x ys s, l = xs ++ x :: ys -> I xs s -> wp E (f (g x)) s (fun _ s' => I (xs ++ [x]) s')) ->
  (forall s, I l s -> Q tt s) -> wp E (for_each f (g <$> l)) s Q.
Proof.
  intros HI Hf HQ.
  assert (forall ys xs s, l = xs ++ ys -> I xs s -> wp E (for_each f (g <$> ys)) s (fun _ s' => I l s')) as H.
  { induction ys as [|y ys IH]; intros xs s' -> Hxs; simpl.
    - apply wp_ret. by rewrite app_nil_r.
    - apply wp_bind. eapply wp_mono; [by eapply Hf|]. intros [] s1 H1.
      eapply IH; [|exact H1]. by rewrite <- app_assoc. }
  eapply wp_mono; [by apply (H l [])|]. intros [] s'. apply HQ.
Qed.

Lemma wp_mapM {A B R} E (f : B -> M S R) (g : A -> B) (I : list A -> list R -> S -> Prop) l s Q :
  I [] [] s ->
  (forall xs x ys rs s, l = xs ++ x :: ys -> I xs rs s ->
     wp E (f (g x)) s (fun r s' => I (xs ++ [x]) (rs ++ [r]) s')) ->
  (forall rs s, I l rs s -> Q rs s) -> wp E (mapM f (g <$> l)) s Q.
Proof.
  intros HI Hf HQ.
  assert (forall ys xs rs s, l = xs ++ ys -> I xs rs s ->
    wp E (mapM f (g <$> ys)) s (fun rs' s' => I l (rs ++ rs') s')) as H.
  { induction ys as [|y ys IH]; intros xs rs s' -> Hxs; simpl.
    - apply wp_ret. by rewrite !app_nil_r.
    - apply wp_bind. eapply wp_mono; [by eapply Hf|]. intros r s1 H1. apply wp_bind.
      eapply wp_mono; [eapply (IH (xs ++ [y]) (rs ++ [r])); [by rewrite <- app_assoc|exact H1]|].
      intros rs' s2 H2. apply wp_ret. simpl in H2. by rewrite <- app_assoc in H2. }
  eapply wp_mono; [by apply (H l [] [])|]. intros rs s'. apply HQ.
Qed.

Lemma wp_assoc {A B C} E (m : M S A) (f : A -> M S B) (g : B -> M S C) s Q :
  wp E ((m ≫= f) ≫= g) s Q -> wp E (m ≫= (fun a => f a ≫= g)) s Q.
Proof. unfold wp, mbind, M_bind. by destruct (m s). Qed.

Lemma wp_assoc_seq {A B C R} E (m : M S A) (x : M S B) (f : A -> M S C) (k : M S R) s Q :
  wp E ((a ← m; x;; f a);; k) s Q -> wp E (a ← m; x;; f a;; k) s Q.
Proof. unfold wp, mbind, M_bind. destruct (m s) as [a s1|]; [|done]. by destruct (x s1). Qed.

(** From a weakest precondition to the run itself. *)
Lemma wp_run {A} (m : M S A) s Q :
  wp none m s Q -> exists a s', m s = Ok a s' /\ Q a s'.
Proof. unfold wp, none. destruct (m s) as [a s'|f]; [eauto|done]. Qed.

Lemma wp_Ok {A} E (m : M S A) s Q a s' : wp E m s Q -> m s = Ok a s' -> Q a s'.
Proof. unfold wp. intros H Hm. by rewrite Hm in H. Qed.

Lemma wp_Fault {A} E (m : M S A) s Q f : wp E m s Q -> m s = Fault f -> E f.
Proof. unfold wp. intros H Hm. by rewrite Hm in H. Qed.
End wp.

(** ** Lists without duplicates inside a finite map *)

Lemma NoDup_length_map {A} (m : gmap positive A) (l : list positive) :
  NoDup l -> (forall x, x ∈ l -> is_Some (m !! x)) -> (length l <= size m)%nat.
Proof.
  intros Hnd Hin.
  rewrite <- (size_dom (D := gset positive)).
  rewrite <- (size_list_to_set (C := gset positive) l) by done.
  apply subseteq_size. intros x. rewrite elem_of_list_to_set, elem_of_dom. auto.
Qed.

Lemma last_snoc_inv {A} (l : list A) x : last l = Some x -> exists l', l = l' ++ [x].
Proof. rewrite last_Some. done. Qed.

(** Non-membership in a list written out with [++] and [::], and its
    decomposition in the context. *)
Ltac not_in :=
  repeat first
    [ done | apply not_elem_of_app; split | apply not_elem_of_cons; split
    | apply not_elem_of_nil ]; try congruence.

Ltac inv_in :=
  repeat match goal with
  | H : _ ∈ [] |- _ => by apply elem_of_nil in H
  | H : _ ∈ [_] |- _ => apply list_elem_of_singleton in H; subst
  | H : _ ∈ _ :: _ |- _ => apply elem_of_cons in H as [H|H]; [subst|]
  | H : _ ∈ _ ++ _ |- _ => apply elem_of_app in H as [H|H]
  | H : _ ∉ _ :: _ |- _ => apply not_elem_of_cons in H as [? H]
  | H : _ ∉ _ ++ _ |- _ => let H1 := fresh in apply not_elem_of_app in H as [H1 H]
  | H : _ ∉ [] |- _ => clear H
  end; try congruence.
