(* ===== verification/Kernel.v ===== *)
(** * The code ExtMem calls and does not contain

    The Linux system calls ([mmap], [munmap], [madvise], the [userfaultfd]
    ioctls, [pread]/[pwrite]) and liburing are not part of the repository:
    they are the operations of the class [KernelOps], over an abstract kernel
    state [K].  [KernelObs] names what can be observed of that state, and
    [SystemLaws] lists the documented behaviour the program relies on;
    [DeviceCompletes] is what it takes for granted of the swap device, and
    [KernelLaws] both.
    [may_fail] is the proposition under which a call may fail although its
    arguments are right: [True] for a kernel that can run out of resources,
    [False] for one that never does.  The file [SimKernel] gives a concrete
    kernel that satisfies every law with [may_fail := False]. *)

From S2P Require Import Prelude.

(** ** Constants of [core.h] and of the Linux headers *)

Definition BASEPAGE_SIZE : Z := 4 * 1024.
Definition HUGEPAGE_SIZE : Z := 2 * 1024 * 1024.
Definition PAGE_SIZE : Z := BASEPAGE_SIZE.

Definition MAP_FAILED : Z := 2 ^ 64 - 1.
Definition PROT_RW : Z := 3.                 (* PROT_READ | PROT_WRITE *)
Definition MAP_SHARED : Z := 0x01.
Definition MAP_PRIVATE : Z := 0x02.
Definition MAP_FIXED : Z := 0x10.
Definition MAP_ANONYMOUS : Z := 0x20.
Definition MAP_GROWSDOWN : Z := 0x100.
Definition MAP_LOCKED : Z := 0x2000.
Definition MAP_NORESERVE : Z := 0x4000.
Definition MAP_POPULATE : Z := 0x8000.
Definition MAP_STACK : Z := 0x20000.
Definition MAP_HUGETLB : Z := 0x40000.
Definition UFFDIO_COPY_MODE_DONTWAKE : Z := 1.
Definition UFFDIO_WRITEPROTECT_MODE_WP : Z := 1.
Definition UFFDIO_REGISTER_MODE_MISSING : Z := 1.
Definition UFFDIO_REGISTER_MODE_WP : Z := 2.
Definition IORING_SETUP_IOPOLL : Z := 1.
Definition PT_ACCESSED_FLAG : Z := 0x20.
Definition PT_DIRTY_FLAG : Z := 0x40.

(** ** io_uring requests *)

(** The threads of the process: those of the application, and the ones the
    policies create. *)
Inductive thread :=
  | application (n : nat) | kswapd_thread | eviction_thread (n : nat) | prefetch_thread (n : nat).

#[export] Instance thread_eq_dec : EqDecision thread.
Proof. solve_decision. Defined.

(** The two rings of [storage_iouring.c], which every thread has for itself. *)
Inductive ring := io_ring (t : thread) | io_read_ring (t : thread).

#[export] Instance ring_eq_dec : EqDecision ring.
Proof. solve_decision. Defined.

(** What [io_uring_prep_read] / [io_uring_prep_write] put in a queue entry. *)
Record sqe := Sqe { sq_write : bool; sq_fd : Z; sq_buf : Z; sq_len : Z; sq_off : Z }.

(** ** Operations *)

Class KernelOps (K : Type) := {
  k_mmap : Z -> Z -> Z -> Z -> Z -> Z -> K -> Z * K;   (* addr length prot flags fd offset *)
  k_munmap : Z -> Z -> K -> Z * K;                     (* addr length *)
  k_memset : Z -> Z -> Z -> K -> K;                    (* addr byte length *)
  k_madvise_dontneed : Z -> Z -> K -> Z * K;           (* addr length *)
  k_uffdio_copy : Z -> Z -> Z -> Z -> K -> Z * K;      (* dst src len mode *)
  k_uffdio_writeprotect : Z -> Z -> Z -> K -> Z * K;   (* start len mode *)
  k_uffdio_register : Z -> Z -> Z -> K -> Z * K;       (* start len mode *)
  k_uffdio_tlbflush : Z -> Z -> K -> Z * K;            (* start len *)
  k_uffdio_get_flag : Z -> Z -> Z -> K -> Z * (Z * Z) * K;  (* va flag1 flag2 *)
  k_uffdio_clear_flag : Z -> Z -> Z -> K -> Z * Z * K;      (* va flag1 flag2 *)
  k_pread : Z -> Z -> Z -> Z -> K -> Z * K;            (* fd buf len off *)
  k_pwrite : Z -> Z -> Z -> Z -> K -> Z * K;           (* fd buf len off *)
  k_pthread_create : thread -> K -> Z * K;
  io_uring_queue_init : Z -> ring -> Z -> K -> Z * K;  (* entries ring flags *)
  io_uring_get_sqe : ring -> K -> bool * K;            (* is the result non-NULL? *)
  io_uring_prep : ring -> sqe -> K -> K;
  io_uring_sqe_set_data : ring -> Z -> K -> K;
  io_uring_submit : ring -> K -> option (Z * K);       (* None: the ring was never set up *)
  io_uring_wait_cqe : ring -> K -> option (Z * K);     (* None: nothing will ever complete *)
  io_uring_cqe_seen : ring -> K -> K;
}.

(** ** Observations

    [mem k a] is the content of the page present at address [a], [None] when
    no page is present; [mapped] and [registered] say whether the address is
    mapped, and under userfaultfd; [disk k o] the page stored at byte offset [o] of the
    swap device.  Both are the values that hold once the requests in flight
    have completed: a request in flight makes its target unusable, which the
    laws express through [busy_read] and [busy_write]. *)
Class KernelObs (K D : Type) := {
  mem : K -> Z -> option D;
  disk : K -> Z -> D;
  dirty : K -> Z -> bool;
  mapped : K -> Z -> bool;
  registered : K -> Z -> bool;
  prepared : K -> ring -> list sqe;
  inflight : K -> ring -> list sqe;
  sq_entries : K -> ring -> Z;
  ring_ready : K -> ring -> bool;
  zero_page : D;
}.

Section observations.
Context {K D : Type} `{KernelObs K D}.
Implicit Types k : K.

(** Reading an anonymous page that was never written gives zeroes. *)
Definition content k (a : Z) : D := default zero_page (mem k a).

Definition busy_read k (a : Z) : Prop :=
  exists r x, x ∈ inflight k r /\ sq_write x = false /\ sq_buf x = a.
Definition busy_write k (a : Z) : Prop :=
  exists r x, x ∈ inflight k r /\ sq_write x = true /\ sq_buf x = a.

(** No request in flight shares its buffer or its disk slot with [l]. *)
Definition no_conflict k (l : list sqe) : Prop :=
  forall r y x, y ∈ inflight k r -> x ∈ l -> sq_off y <> sq_off x /\ sq_buf y <> sq_buf x.

Definition in_range (start len a : Z) : Prop := start <= a < start + len.

(** Frames: what a call leaves alone. *)
Record same_rings k k' : Prop := {
  sr_prepared : forall r, prepared k' r = prepared k r;
  sr_inflight : forall r, inflight k' r = inflight k r;
  sr_entries : forall r, sq_entries k' r = sq_entries k r;
  sr_ready : forall r, ring_ready k' r = ring_ready k r }.
Record same_mem_but (P : Z -> Prop) k k' : Prop := {
  sm_mem : forall a, ~ P a -> mem k' a = mem k a;
  sm_dirty : forall a, ~ P a -> dirty k' a = dirty k a }.
Definition same_disk k k' : Prop := forall o, disk k' o = disk k o.
Record same_reg k k' : Prop := {
  sg_registered : forall a, registered k' a = registered k a;
  sg_mapped : forall a, mapped k' a = mapped k a }.

(** Observational equality of kernel states. *)
Record obs_eq k k' : Prop := {
  oe_mem : forall a, mem k' a = mem k a;
  oe_dirty : forall a, dirty k' a = dirty k a;
  oe_disk : forall o, disk k' o = disk k o;
  oe_reg : same_reg k k';
  oe_rings : same_rings k k' }.

#[export] Instance same_rings_equiv : Equivalence same_rings.
Proof.
  split; [by split|intros ? ? []; by split|].
  intros ? ? ? [] []; split; intros; congruence.
Qed.

#[export] Instance same_reg_equiv : Equivalence same_reg.
Proof.
  split; [by split|intros ? ? []; by split|].
  intros ? ? ? [] []; split; intros; congruence.
Qed.

#[export] Instance same_mem_but_preorder (P : Z -> Prop) : PreOrder (same_mem_but P).
Proof.
  split; [by split|]. intros ? ? ? [M1 D1] [M2 D2].
  split; intros; rewrite ?M2, ?D2; auto.
Qed.

Lemma same_mem_but_mono (P Q : Z -> Prop) k k' :
  (forall a, P a -> Q a) -> same_mem_but P k k' -> same_mem_but Q k k'.
Proof. intros HPQ []. split; auto. Qed.

#[export] Instance same_disk_preorder : PreOrder same_disk.
Proof. split; [done|]. intros ? ? ? H1 H2 o. by rewrite H2, H1. Qed.

#[export] Instance obs_eq_equiv : Equivalence obs_eq.
Proof.
  split.
  - intros k. by split.
  - intros k k' []. split; [done..|by symmetry|by symmetry].
  - intros k k' k'' [? ? ? ? R1] [? ? ? ? R2].
    split; [intros; congruence..|by etrans|by etrans].
Qed.

#[export] Instance content_proper : Proper (obs_eq ==> eq ==> eq) content.
Proof. intros k k' [Hm] a ? <-. unfold content. by rewrite Hm. Qed.

#[export] Instance busy_read_proper : Proper (obs_eq ==> eq ==> iff) busy_read.
Proof.
  intros k k' [_ _ _ _ [_ Hi _ _]] a ? <-. unfold busy_read.
  split; intros (r & x & ? & ?); exists r, x; [rewrite Hi|rewrite <- Hi]; done.
Qed.

#[export] Instance busy_write_proper : Proper (obs_eq ==> eq ==> iff) busy_write.
Proof.
  intros k k' [_ _ _ _ [_ Hi _ _]] a ? <-. unfold busy_write.
  split; intros (r & x & ? & ?); exists r, x; [rewrite Hi|rewrite <- Hi]; done.
Qed.
End observations.

(** ** Documented behaviour

    Every law is stated at page granularity: the program only passes
    [PAGE_SIZE] lengths to the calls whose length is fixed below. *)

(** The flags of a mapping whose place the kernel chooses and whose pages it
    does not bring in: neither [MAP_FIXED], which unmaps what is there, nor
    [MAP_GROWSDOWN], nor [MAP_LOCKED], which populates. *)
Definition plain_mapping (flags : Z) : bool :=
  bool_decide (Z.land flags (Z.lor MAP_FIXED (Z.lor MAP_GROWSDOWN MAP_LOCKED)) = 0).

(** The mappings the library makes for itself. *)
Lemma plain_reserve : plain_mapping (Z.lor (Z.lor MAP_PRIVATE MAP_ANONYMOUS) MAP_NORESERVE) = true.
Proof. reflexivity. Qed.

(** Mappings *)
Class MappingLaws (K D : Type) `{KO : KernelOps K, OB : KernelObs K D} : Prop := {
  (* a fresh, untouched, unregistered range *)
  l_mmap addr length prot flags off k ret k' :
    plain_mapping flags = true ->
    k_mmap addr length prot flags (-1) off k = (ret, k') -> ret <> MAP_FAILED ->
    (0 < ret /\ ret mod PAGE_SIZE = 0 /\ ret + length <= 2 ^ 47) /\
    (forall a, in_range ret length a ->
       mem k a = None /\ registered k a = false /\ mapped k a = false) /\
    (forall a, mapped k' a = true <-> (in_range ret length a \/ mapped k a = true)) /\
    (forall a, registered k' a = registered k a) /\
    same_mem_but (fun _ => False) k k' /\ same_disk k k' /\ same_rings k k';
  l_memset_zero addr length k :
    (forall a, in_range addr length a -> content (k_memset addr 0 length k) a = zero_page) /\
    same_mem_but (in_range addr length) k (k_memset addr 0 length k) /\
    same_reg k (k_memset addr 0 length k) /\ same_disk k (k_memset addr 0 length k) /\
    same_rings k (k_memset addr 0 length k);
  l_munmap addr length k ret k' :
    k_munmap addr length k = (ret, k') -> ret = 0 ->
    (forall a, in_range addr length a ->
       mem k' a = None /\ registered k' a = false /\ mapped k' a = false) /\
    same_mem_but (in_range addr length) k k' /\
    (forall a, ~ in_range addr length a ->
       registered k' a = registered k a /\ mapped k' a = mapped k a) /\
    same_disk k k' /\ same_rings k k' }.

(** Userfaultfd, with the ioctls of the custom kernel, and [madvise] *)
Class PagingLaws (K D : Type) `{KO : KernelOps K, OB : KernelObs K D} (may_fail : Prop) : Prop := {
  l_register start len mode k ret k' :
    k_uffdio_register start len mode k = (ret, k') -> ret <> -1 ->
    (forall a, registered k' a = true <-> (in_range start len a \/ registered k a = true)) /\
    (forall a, mapped k' a = mapped k a) /\
    same_mem_but (fun _ => False) k k' /\ same_disk k k' /\ same_rings k k';
  l_register_ok start len mode k ret k' :
    k_uffdio_register start len mode k = (ret, k') -> ret <> -1 \/ may_fail;
  (* UFFDIO_COPY: EEXIST when a page is already present *)
  l_copy_fail dst src mode k ret k' :
    k_uffdio_copy dst src PAGE_SIZE mode k = (ret, k') -> ret = -1 -> obs_eq k k';
  l_copy dst src mode k ret k' :
    k_uffdio_copy dst src PAGE_SIZE mode k = (ret, k') -> ret <> -1 ->
    mem k dst = None /\ registered k dst = true /\ is_Some (mem k' dst) /\
    (~ busy_read k src -> mem k' dst = Some (content k src)) /\
    same_mem_but (fun a => a = dst) k k' /\ same_disk k k' /\ same_reg k k' /\ same_rings k k';
  l_copy_ok dst src mode k ret k' :
    k_uffdio_copy dst src PAGE_SIZE mode k = (ret, k') ->
    registered k dst = true -> mem k dst = None -> ret <> -1 \/ may_fail;
  l_writeprotect start mode k ret k' :
    k_uffdio_writeprotect start PAGE_SIZE mode k = (ret, k') -> 0 <= ret -> obs_eq k k';
  l_writeprotect_ok start mode k ret k' :
    k_uffdio_writeprotect start PAGE_SIZE mode k = (ret, k') ->
    registered k start = true -> 0 <= ret \/ may_fail;
  l_tlbflush start k ret k' :
    k_uffdio_tlbflush start PAGE_SIZE k = (ret, k') -> 0 <= ret -> obs_eq k k';
  (* the two flag ioctls of the custom kernel *)
  l_get_flag va k ret r1 r2 k' :
    k_uffdio_get_flag va PT_ACCESSED_FLAG PT_DIRTY_FLAG k = (ret, (r1, r2), k') -> 0 <= ret ->
    obs_eq k k' /\ (Z.land (Z.lor r1 r2) PT_DIRTY_FLAG <> 0 <-> dirty k va = true);
  l_get_flag_ok va k ret r1 r2 k' :
    k_uffdio_get_flag va PT_ACCESSED_FLAG PT_DIRTY_FLAG k = (ret, (r1, r2), k') ->
    registered k va = true -> 0 <= ret \/ may_fail;
  l_clear_accessed va k ret r1 k' :
    k_uffdio_clear_flag va PT_ACCESSED_FLAG 0 k = (ret, r1, k') -> 0 <= ret -> obs_eq k k';
  l_clear_accessed_ok va k ret r1 k' :
    k_uffdio_clear_flag va PT_ACCESSED_FLAG 0 k = (ret, r1, k') ->
    registered k va = true -> 0 <= ret \/ may_fail;
  l_madvise va k ret k' :
    k_madvise_dontneed va PAGE_SIZE k = (ret, k') -> ret <> -1 ->
    mem k' va = None /\ same_mem_but (fun a => a = va) k k' /\ same_reg k k' /\ same_rings k k' /\
    (~ busy_write k va -> same_disk k k');
  l_madvise_ok va k ret k' :
    k_madvise_dontneed va PAGE_SIZE k = (ret, k') ->
    registered k va = true -> ret <> -1 \/ may_fail }.

(** Threads: a new one does not run before the next operation ends. *)
Class ThreadLaws (K D : Type) `{KO : KernelOps K, OB : KernelObs K D} (may_fail : Prop) : Prop := {
  l_pthread_create t k ret k' : k_pthread_create t k = (ret, k') -> obs_eq k k' /\ (ret = 0 \/ may_fail) }.

(** The swap device.  What a submission leaves alone is documented; whether
    a request transfers its page is for the device to answer, in the
    [cqe->res] that the program never looks at. *)
Class StorageLaws (K D : Type) `{KO : KernelOps K, OB : KernelObs K D} (may_fail : Prop) : Prop := {
  (* synchronous I/O *)
  l_pread fd buf off k ret k' :
    k_pread fd buf PAGE_SIZE off k = (ret, k') -> ret = PAGE_SIZE ->
    mem k' buf = Some (disk k off) /\ same_mem_but (fun a => a = buf) k k' /\
    same_disk k k' /\ same_reg k k' /\ same_rings k k';
  l_pwrite fd buf off k ret k' :
    k_pwrite fd buf PAGE_SIZE off k = (ret, k') -> ret = PAGE_SIZE ->
    disk k' off = content k buf /\ (forall o, o <> off -> disk k' o = disk k o) /\
    same_mem_but (fun _ => False) k k' /\ same_reg k k' /\ same_rings k k';
  (* io_uring *)
  l_queue_init n r flags k ret k' :
    io_uring_queue_init n r flags k = (ret, k') -> 0 <= ret ->
    prepared k' r = [] /\ inflight k' r = [] /\ n <= sq_entries k' r /\ ring_ready k' r = true /\
    (forall r', r' <> r -> prepared k' r' = prepared k r' /\ inflight k' r' = inflight k r' /\
                           sq_entries k' r' = sq_entries k r' /\ ring_ready k' r' = ring_ready k r') /\
    same_mem_but (fun _ => False) k k' /\ same_disk k k' /\ same_reg k k';
  l_queue_init_ok n r flags k ret k' :
    io_uring_queue_init n r flags k = (ret, k') -> 0 <= ret \/ may_fail;
  l_get_sqe r k b k' : io_uring_get_sqe r k = (b, k') -> obs_eq k k';
  l_get_sqe_ok r k b k' :
    io_uring_get_sqe r k = (b, k') ->
    Z.of_nat (length (prepared k r)) < sq_entries k r -> b = true;
  l_prep r x k :
    prepared (io_uring_prep r x k) r = prepared k r ++ [x] /\
    (forall r', r' <> r -> prepared (io_uring_prep r x k) r' = prepared k r') /\
    (forall r', inflight (io_uring_prep r x k) r' = inflight k r') /\
    (forall r', sq_entries (io_uring_prep r x k) r' = sq_entries k r') /\
    (forall r', ring_ready (io_uring_prep r x k) r' = ring_ready k r') /\
    same_mem_but (fun _ => False) k (io_uring_prep r x k) /\
    same_disk k (io_uring_prep r x k) /\ same_reg k (io_uring_prep r x k);
  l_set_data r d k : obs_eq k (io_uring_sqe_set_data r d k);
  (* a batch of writes, or of reads: whatever becomes of its requests *)
  l_submit_writes r k ret k' :
    io_uring_submit r k = Some (ret, k') -> 0 <= ret ->
    Forall (fun x => sq_write x = true /\ sq_len x = PAGE_SIZE) (prepared k r) ->
    (forall o, o ∉ (sq_off <$> prepared k r) -> disk k' o = disk k o) /\
    same_mem_but (fun _ => False) k k';
  l_submit_reads r k ret k' :
    io_uring_submit r k = Some (ret, k') -> 0 <= ret ->
    Forall (fun x => sq_write x = false /\ sq_len x = PAGE_SIZE) (prepared k r) ->
    same_mem_but (fun a => a ∈ (sq_buf <$> prepared k r)) k k' /\ same_disk k k';
  l_submit r k ret k' :
    io_uring_submit r k = Some (ret, k') -> 0 <= ret ->
    prepared k' r = [] /\ inflight k' r = inflight k r ++ prepared k r /\
    (forall r', r' <> r -> prepared k' r' = prepared k r' /\ inflight k' r' = inflight k r') /\
    (forall r', sq_entries k' r' = sq_entries k r') /\
    (forall r', ring_ready k' r' = ring_ready k r') /\ same_reg k k';
  l_submit_ready r k : ring_ready k r = true -> io_uring_submit r k <> None;
  l_submit_ok r k ret k' : io_uring_submit r k = Some (ret, k') -> 0 <= ret \/ may_fail;
  l_wait_blocks r k : inflight k r <> [] -> io_uring_wait_cqe r k <> None;
  l_wait r k ret k' :
    io_uring_wait_cqe r k = Some (ret, k') -> 0 <= ret ->
    (exists x, inflight k r ≡ₚ x :: inflight k' r) /\
    (forall r', r' <> r -> inflight k' r' = inflight k r') /\
    (forall r', prepared k' r' = prepared k r') /\
    (forall r', sq_entries k' r' = sq_entries k r') /\
    (forall r', ring_ready k' r' = ring_ready k r') /\
    same_mem_but (fun _ => False) k k' /\ same_disk k k' /\ same_reg k k';
  l_wait_ok r k ret k' : io_uring_wait_cqe r k = Some (ret, k') -> 0 <= ret \/ may_fail;
  l_seen r k : obs_eq k (io_uring_cqe_seen r k);
}.

(** The documented behaviour of the system. *)
Class SystemLaws (K D : Type) `{KO : KernelOps K, OB : KernelObs K D} (may_fail : Prop) : Prop := {
  sl_mappings :: MappingLaws K D;
  sl_paging :: PagingLaws K D may_fail;
  sl_threads :: ThreadLaws K D may_fail;
  sl_storage :: StorageLaws K D may_fail }.

(** A device that completes every request it is given, in full: batches of
    writes to distinct offsets, and of reads into distinct buffers.  This is
    no documented behaviour but an assumption, which the program makes by not
    looking at the results of its requests. *)
Class DeviceCompletes (K D : Type) `{KO : KernelOps K, OB : KernelObs K D} : Prop := {
  l_completed_writes r k ret k' :
    io_uring_submit r k = Some (ret, k') -> 0 <= ret ->
    Forall (fun x => sq_write x = true /\ sq_len x = PAGE_SIZE) (prepared k r) ->
    NoDup (sq_off <$> prepared k r) -> no_conflict k (prepared k r) ->
    (forall x, x ∈ prepared k r -> disk k' (sq_off x) = content k (sq_buf x));
  l_completed_reads r k ret k' :
    io_uring_submit r k = Some (ret, k') -> 0 <= ret ->
    Forall (fun x => sq_write x = false /\ sq_len x = PAGE_SIZE) (prepared k r) ->
    NoDup (sq_buf <$> prepared k r) -> no_conflict k (prepared k r) ->
    (forall x, x ∈ prepared k r -> mem k' (sq_buf x) = Some (disk k (sq_off x))) }.

Class KernelLaws (K D : Type) `{KO : KernelOps K, OB : KernelObs K D} (may_fail : Prop) : Prop := {
  kl_system :: SystemLaws K D may_fail;
  kl_device :: DeviceCompletes K D }.
