(* ===== verification/SimKernel.v ===== *)
(** * A concrete kernel

    An executable kernel state with page contents in [Z], used to evaluate
    the model on concrete inputs.  It satisfies every law of [KernelLaws]
    with [may_fail := False]: no call fails when its arguments are right.
    [sim_ops_with bad] is the same kernel over a swap device that does not
    carry out the requests [bad]; it satisfies [SystemLaws]. *)

From S2P Require Import Prelude Kernel.

Record sim := Sim {
  s_mem : gmap Z Z;
  s_disk : gmap Z Z;
  s_dirty : gmap Z unit;
  s_accessed : gmap Z unit;
  s_maps : list (Z * Z * bool);           (* (start, length, mapped?), latest first *)
  s_ranges : list (Z * Z * bool);         (* (start, length, registered?), latest first *)
  s_prep : ring -> list sqe;
  s_infl : ring -> list sqe;
  s_entries : ring -> Z;
  s_ready : ring -> bool }.

Definition sim_empty : sim :=
  Sim ∅ ∅ ∅ ∅ [] [] (fun _ => []) (fun _ => []) (fun _ => 0) (fun _ => false).

Definition with_mem m k := Sim m (s_disk k) (s_dirty k) (s_accessed k) (s_maps k) (s_ranges k)
  (s_prep k) (s_infl k) (s_entries k) (s_ready k).
Definition with_disk d k := Sim (s_mem k) d (s_dirty k) (s_accessed k) (s_maps k) (s_ranges k)
  (s_prep k) (s_infl k) (s_entries k) (s_ready k).
Definition with_dirty d k := Sim (s_mem k) (s_disk k) d (s_accessed k) (s_maps k) (s_ranges k)
  (s_prep k) (s_infl k) (s_entries k) (s_ready k).
Definition with_accessed a k := Sim (s_mem k) (s_disk k) (s_dirty k) a (s_maps k) (s_ranges k)
  (s_prep k) (s_infl k) (s_entries k) (s_ready k).
Definition with_maps m k := Sim (s_mem k) (s_disk k) (s_dirty k) (s_accessed k) m (s_ranges k)
  (s_prep k) (s_infl k) (s_entries k) (s_ready k).
Definition with_ranges r k := Sim (s_mem k) (s_disk k) (s_dirty k) (s_accessed k) (s_maps k) r
  (s_prep k) (s_infl k) (s_entries k) (s_ready k).
Definition with_rings p i k := Sim (s_mem k) (s_disk k) (s_dirty k) (s_accessed k) (s_maps k) (s_ranges k)
  p i (s_entries k) (s_ready k).

Definition in_rangeb (start len a : Z) : bool := (start <=? a) && (a <? start + len).

Fixpoint covered (l : list (Z * Z * bool)) (a : Z) : bool :=
  match l with
  | [] => false
  | (start, len, b) :: l => if in_rangeb start len a then b else covered l a
  end.

#[export] Instance sim_obs : KernelObs sim Z := {
  mem k a := s_mem k !! a;
  disk k o := default 0 (s_disk k !! o);
  dirty k a := bool_decide (is_Some (s_dirty k !! a));
  mapped k a := covered (s_maps k) a;
  registered k a := covered (s_ranges k) a;
  prepared k r := s_prep k r;
  inflight k r := s_infl k r;
  sq_entries k r := s_entries k r;
  ring_ready k r := s_ready k r;
  zero_page := 0 }.

(** The address above everything mapped so far, rounded up to a page. *)
Definition sim_top (k : sim) : Z :=
  let ends := fun r : Z * Z * bool => fst (fst r) + snd (fst r) in
  let t := foldr Z.max 0 (((fun p => fst p + PAGE_SIZE) <$> map_to_list (s_mem k)) ++
                          (ends <$> s_maps k) ++ (ends <$> s_ranges k)) in
  PAGE_SIZE * (t / PAGE_SIZE + 1).

(** The effect of one request. *)
Definition sim_request (x : sqe) (k : sim) : sim :=
  if sq_write x then with_disk (<[sq_off x := default 0 (s_mem k !! sq_buf x)]> (s_disk k)) k
  else with_mem (<[sq_buf x := default 0 (s_disk k !! sq_off x)]> (s_mem k)) k.

(** The effect of a batch on a device that fails the requests [bad]. *)
Definition sim_run (bad : sqe -> bool) (l : list sqe) (k : sim) : sim :=
  foldl (fun k x => if bad x then k else sim_request x k) k l.

Definition outside {A} (start len : Z) (m : gmap Z A) : gmap Z A :=
  filter (fun p => in_rangeb start len (fst p) = false) m.

Definition sim_ops_with (bad : sqe -> bool) : KernelOps sim := {|
  k_mmap := fun _ length _ _ _ _ k =>
    let a := sim_top k in
    if decide (a + length <= 2 ^ 47) then (a, with_maps ((a, length, true) :: s_maps k) k)
    else (MAP_FAILED, k);
  k_munmap := fun addr length k =>
    (0, with_maps ((addr, length, false) :: s_maps k)
       (with_ranges ((addr, length, false) :: s_ranges k)
          (with_dirty (outside addr length (s_dirty k))
             (with_mem (outside addr length (s_mem k)) k))));
  (* only used with the byte 0: an absent page reads as zeroes *)
  k_memset := fun addr _ length k =>
    with_dirty (outside addr length (s_dirty k)) (with_mem (outside addr length (s_mem k)) k);
  k_madvise_dontneed := fun a _ k =>
    (0, with_dirty (delete a (s_dirty k)) (with_mem (delete a (s_mem k)) k));
  k_uffdio_copy := fun dst src _ _ k =>
    if covered (s_ranges k) dst then
      match s_mem k !! dst with
      | Some _ => (-1, k)
      | None => (0, with_accessed (<[dst := tt]> (s_accessed k))
                     (with_dirty (delete dst (s_dirty k))
                       (with_mem (<[dst := default 0 (s_mem k !! src)]> (s_mem k)) k)))
      end
    else (-1, k);
  k_uffdio_writeprotect := fun _ _ _ k => (0, k);
  k_uffdio_register := fun start len _ k => (0, with_ranges ((start, len, true) :: s_ranges k) k);
  k_uffdio_tlbflush := fun _ _ k => (0, k);
  k_uffdio_get_flag := fun a _ _ k =>
    (0, (if decide (is_Some (s_accessed k !! a)) then PT_ACCESSED_FLAG else 0,
         if decide (is_Some (s_dirty k !! a)) then PT_DIRTY_FLAG else 0), k);
  k_uffdio_clear_flag := fun a f1 _ k =>
    (0, 0, if decide (f1 = PT_ACCESSED_FLAG) then with_accessed (delete a (s_accessed k)) k
           else with_dirty (delete a (s_dirty k)) k);
  k_pread := fun _ buf len off k => (len, sim_request (Sqe false 0 buf len off) k);
  k_pwrite := fun _ buf len off k => (len, sim_request (Sqe true 0 buf len off) k);
  k_pthread_create := fun _ k => (0, k);
  io_uring_queue_init := fun n r _ k =>
    (0, Sim (s_mem k) (s_disk k) (s_dirty k) (s_accessed k) (s_maps k) (s_ranges k)
          (fupd (s_prep k) r []) (fupd (s_infl k) r []) (fupd (s_entries k) r n)
          (fupd (s_ready k) r true));
  io_uring_get_sqe := fun r k => (bool_decide (Z.of_nat (length (s_prep k r)) < s_entries k r), k);
  io_uring_prep := fun r x k => with_rings (fupd (s_prep k) r (s_prep k r ++ [x])) (s_infl k) k;
  io_uring_sqe_set_data := fun _ _ k => k;
  io_uring_submit := fun r k =>
    if s_ready k r then
      let k' := sim_run bad (s_prep k r) k in
      Some (0, with_rings (fupd (s_prep k) r []) (fupd (s_infl k) r (s_infl k r ++ s_prep k r)) k')
    else None;
  io_uring_wait_cqe := fun r k =>
    match s_infl k r with
    | [] => None
    | x :: l => Some (0, with_rings (s_prep k) (fupd (s_infl k) r l) k)
    end;
  io_uring_cqe_seen := fun _ k => k |}.

#[export] Instance sim_ops : KernelOps sim := sim_ops_with (fun _ => false).

(** What the application does to memory: a write sets both bits. *)
Definition sim_store (a v : Z) (k : sim) : sim :=
  with_accessed (<[a := tt]> (s_accessed k))
    (with_dirty (<[a := tt]> (s_dirty k)) (with_mem (<[a := v]> (s_mem k)) k)).

(** ** The laws *)

Lemma in_rangeb_spec start len a : in_rangeb start len a = true <-> in_range start len a.
Proof. unfold in_rangeb, in_range. rewrite andb_true_iff, Z.leb_le, Z.ltb_lt. done. Qed.

Lemma in_rangeb_false start len a : in_rangeb start len a = false <-> ~ in_range start len a.
Proof. rewrite <- in_rangeb_spec. by destruct (in_rangeb start len a). Qed.

Lemma outside_in {A} start len (m : gmap Z A) a :
  in_range start len a -> outside start len m !! a = None.
Proof.
  intros Ha. apply map_lookup_filter_None. right. intros v _ H. simpl in H.
  by apply in_rangeb_false in H.
Qed.

Lemma outside_out {A} start len (m : gmap Z A) a :
  ~ in_range start len a -> outside start len m !! a = m !! a.
Proof.
  intros Ha. unfold outside. destruct (m !! a) as [v|] eqn:Hm.
  - apply map_lookup_filter_Some. split; [done|]. by apply in_rangeb_false.
  - apply map_lookup_filter_None. by left.
Qed.

Lemma foldr_max_le (l : list Z) x : x ∈ l -> x <= foldr Z.max 0 l.
Proof.
  induction l as [|y l IH]; [by intros ?%elem_of_nil|].
  intros [->|H]%elem_of_cons; simpl; [lia|]. specialize (IH H). lia.
Qed.

Lemma foldr_max_nonneg (l : list Z) : 0 <= foldr Z.max 0 l.
Proof. induction l; simpl; lia. Qed.

(** Everything that is mapped, present or registered lies below [sim_top]. *)
Lemma covered_below (l : list (Z * Z * bool)) b a :
  covered l a = true -> (forall r, r ∈ l -> fst (fst r) + snd (fst r) <= b) -> a < b.
Proof.
  induction l as [|[[s n] c] l IH]; simpl; [done|]. intros H Hb.
  destruct (in_rangeb s n a) eqn:Hr.
  - apply in_rangeb_spec in Hr as [_ ?]. specialize (Hb (s, n, c) ltac:(left)). simpl in Hb. lia.
  - apply IH; [done|]. intros r Hr'. apply Hb. by right.
Qed.

Lemma sim_top_above k : exists t, 0 <= t /\ t < sim_top k /\
  (forall a v, s_mem k !! a = Some v -> a + PAGE_SIZE <= t) /\
  (forall a, covered (s_maps k) a = true -> a < t) /\
  (forall a, covered (s_ranges k) a = true -> a < t).
Proof.
  unfold sim_top. set (t := foldr _ _ _). exists t.
  assert (0 <= t) by apply foldr_max_nonneg. split_and!; [done| | | |].
  - pose proof (Z.mul_div_le t PAGE_SIZE eq_refl).
    pose proof (Z.mul_succ_div_gt t PAGE_SIZE eq_refl). unfold PAGE_SIZE, BASEPAGE_SIZE in *. lia.
  - intros a v Hv. apply foldr_max_le, elem_of_app. left.
    apply list_elem_of_fmap. exists (a, v). split; [done|]. by apply elem_of_map_to_list.
  - intros a Ha. eapply covered_below; [done|]. intros r Hr.
    apply foldr_max_le, elem_of_app. right. apply elem_of_app. left.
    apply list_elem_of_fmap. by exists r.
  - intros a Ha. eapply covered_below; [done|]. intros r Hr.
    apply foldr_max_le, elem_of_app. right. apply elem_of_app. right.
    apply list_elem_of_fmap. by exists r.
Qed.

(** What a batch leaves alone, whether or not its requests are carried out. *)
Lemma sim_run_frame bad l (k : sim) :
  let k' := sim_run bad l k in
  s_entries k' = s_entries k /\ s_ready k' = s_ready k /\ s_ranges k' = s_ranges k /\
  s_maps k' = s_maps k /\ s_dirty k' = s_dirty k.
Proof.
  revert k. induction l as [|x l IH]; intros k; [done|]. simpl.
  destruct (IH (if bad x then k else sim_request x k)) as (-> & -> & -> & -> & ->).
  unfold sim_request. by destruct (bad x), (sq_write x).
Qed.

Lemma sim_run_writes bad l (k : sim) :
  Forall (fun x => sq_write x = true /\ sq_len x = PAGE_SIZE) l ->
  s_mem (sim_run bad l k) = s_mem k /\ (forall o, o ∉ (sq_off <$> l) -> disk (sim_run bad l k) o = disk k o).
Proof.
  revert k. induction l as [|x l IH]; intros k HF; [done|]. apply Forall_cons in HF as [[Hw _] HF]. simpl.
  destruct (IH (if bad x then k else sim_request x k) HF) as [-> Hd].
  split; [unfold sim_request; rewrite Hw; by destruct (bad x)|].
  intros o [Ho Ho']%not_elem_of_cons. etrans; [by apply Hd|].
  unfold sim_request. rewrite Hw. destruct (bad x); [done|]. simpl. by rewrite lookup_insert_ne.
Qed.

Lemma sim_run_reads bad l (k : sim) :
  Forall (fun x => sq_write x = false /\ sq_len x = PAGE_SIZE) l ->
  s_disk (sim_run bad l k) = s_disk k /\ (forall a, a ∉ (sq_buf <$> l) -> mem (sim_run bad l k) a = mem k a).
Proof.
  revert k. induction l as [|x l IH]; intros k HF; [done|]. apply Forall_cons in HF as [[Hw _] HF]. simpl.
  destruct (IH (if bad x then k else sim_request x k) HF) as [-> Hd].
  split; [unfold sim_request; rewrite Hw; by destruct (bad x)|].
  intros o [Ho Ho']%not_elem_of_cons. etrans; [by apply Hd|].
  unfold sim_request. rewrite Hw. destruct (bad x); [done|]. simpl. by rewrite lookup_insert_ne.
Qed.

(** A device that fails none: a batch of writes to distinct offsets, and a
    batch of reads into distinct buffers. *)
Lemma sim_writes (l : list sqe) (k : sim) :
  Forall (fun x => sq_write x = true /\ sq_len x = PAGE_SIZE) l -> NoDup (sq_off <$> l) ->
  forall x, x ∈ l -> disk (sim_run (fun _ => false) l k) (sq_off x) = content k (sq_buf x).
Proof.
  revert k. induction l as [|x l IH]; intros k HF Hnd; [by intros ? ?%elem_of_nil|].
  apply Forall_cons in HF as [[Hw Hl] HF]. apply NoDup_cons in Hnd as [Hx Hnd].
  assert (sim_run (fun _ => false) (x :: l) k = sim_run (fun _ => false) l
    (with_disk (<[sq_off x := default 0 (s_mem k !! sq_buf x)]> (s_disk k)) k)) as ->
    by (unfold sim_run; simpl; unfold sim_request at 2; by rewrite Hw).
  intros y [->|Hy]%elem_of_cons.
  - etrans; [by apply sim_run_writes|]. simpl. by rewrite lookup_insert_eq.
  - by rewrite IH.
Qed.

Lemma sim_reads (l : list sqe) (k : sim) :
  Forall (fun x => sq_write x = false /\ sq_len x = PAGE_SIZE) l -> NoDup (sq_buf <$> l) ->
  forall x, x ∈ l -> mem (sim_run (fun _ => false) l k) (sq_buf x) = Some (disk k (sq_off x)).
Proof.
  revert k. induction l as [|x l IH]; intros k HF Hnd; [by intros ? ?%elem_of_nil|].
  apply Forall_cons in HF as [[Hw Hl] HF]. apply NoDup_cons in Hnd as [Hx Hnd].
  assert (sim_run (fun _ => false) (x :: l) k = sim_run (fun _ => false) l
    (with_mem (<[sq_buf x := default 0 (s_disk k !! sq_off x)]> (s_mem k)) k)) as ->
    by (unfold sim_run; simpl; unfold sim_request at 2; by rewrite Hw).
  intros y [->|Hy]%elem_of_cons.
  - etrans; [by apply sim_run_reads|]. simpl. by rewrite lookup_insert_eq.
  - by rewrite IH.
Qed.

(** Closes a frame that holds by computation. *)
Ltac sim_frame :=
  repeat split; intros; simpl in *; simp_fupd; try done; try congruence.

Section laws.
Variable bad : sqe -> bool.
#[local] Instance sim_mappings : MappingLaws (KO := sim_ops_with bad) sim Z.
Proof.
  split.
  - (* mmap *)
    intros addr len prot flags off k ret k' _ Hm Hret. simpl in Hm.
    case_decide as Hle; simplify_eq.
    destruct (sim_top_above k) as (t & Ht & Hlt & Hmem & Hmap & Hreg).
    split_and!; [lia| |done| | |sim_frame..].
    + unfold sim_top. rewrite Z.mul_comm. apply Z.mod_mul. done.
    + intros a [Ha _]. split_and!.
      * destruct (s_mem k !! a) as [v|] eqn:Hv; [|done]. apply Hmem in Hv.
        unfold PAGE_SIZE, BASEPAGE_SIZE in *. simpl in *. lia.
      * apply not_true_is_false. intros H%Hreg. lia.
      * apply not_true_is_false. intros H%Hmap. lia.
    + intros a. simpl. destruct (in_rangeb (sim_top k) len a) eqn:Hr.
      * apply in_rangeb_spec in Hr. tauto.
      * apply in_rangeb_false in Hr. tauto.
  - (* memset *)
    intros addr len k. split_and!; [|split| | |].
    + intros a Ha. unfold content. simpl. by rewrite outside_in.
    + intros a Ha. simpl. by rewrite outside_out.
    + intros a Ha. simpl. by rewrite outside_out.
    + sim_frame.
    + sim_frame.
    + sim_frame.
  - (* munmap *)
    intros addr len k ret k' Hm _. simpl in Hm. simplify_eq. split_and!; [|split| | |].
    + intros a Ha. simpl. rewrite outside_in by done.
      apply in_rangeb_spec in Ha. by rewrite Ha.
    + intros a Ha. simpl. by rewrite outside_out.
    + intros a Ha. simpl. by rewrite outside_out.
    + intros a Ha%in_rangeb_false. simpl. by rewrite Ha.
    + sim_frame.
    + sim_frame.
Qed.

#[local] Instance sim_paging : PagingLaws (KO := sim_ops_with bad) sim Z False.
Proof.
  split.
  - (* register *)
    intros start len mode k ret k' Hm _. simpl in Hm. simplify_eq.
    split_and!; [|sim_frame..]. intros a. simpl. destruct (in_rangeb start len a) eqn:Hr.
    + apply in_rangeb_spec in Hr. tauto.
    + apply in_rangeb_false in Hr. tauto.
  - intros start len mode k ret k' [= <- <-]. by left.
  - (* copy *)
    intros dst src mode k ret k' Hm ->. simpl in Hm. repeat case_match; by simplify_eq.
  - intros dst src mode k ret k' Hm Hret. simpl in Hm.
    destruct (covered (s_ranges k) dst) eqn:Hr; [|by simplify_eq].
    destruct (s_mem k !! dst) eqn:Hd; simplify_eq. split_and!; try done.
    + eexists. simpl. by rewrite lookup_insert_eq.
    + intros _. simpl. by rewrite lookup_insert_eq.
    + split; intros a Ha; simpl; [by rewrite lookup_insert_ne by congruence|].
      by rewrite lookup_delete_ne by congruence.
  - intros dst src mode k ret k' Hm Hr Hd. simpl in *. rewrite Hr, Hd in Hm.
    simplify_eq. by left.
  - intros start mode k ret k' [= <- <-] _. done.
  - intros start mode k ret k' [= <- <-] _. by left.
  - intros start k ret k' [= <- <-] _. done.
  - (* flags *)
    intros va k ret r1 r2 k' [= <- <- <- <-] _. split; [done|].
    simpl. rewrite bool_decide_eq_true.
    destruct (decide (is_Some (s_accessed k !! va))), (decide (is_Some (s_dirty k !! va))); done.
  - intros va k ret r1 r2 k' [= <- <- <- <-] _. by left.
  - intros va k ret r1 k' [= <- <- <-] _. split; sim_frame.
  - intros va k ret r1 k' [= <- <- <-] _. by left.
  - (* madvise *)
    intros va k ret k' [= <- <-] _. split_and!; [simpl; by rewrite lookup_delete_eq|split|sim_frame..].
    + intros a Ha. simpl. by rewrite lookup_delete_ne by congruence.
    + intros a Ha. simpl. by rewrite lookup_delete_ne by congruence.
  - intros va k ret k' [= <- <-] _. by left.
Qed.

#[local] Instance sim_storage : StorageLaws (KO := sim_ops_with bad) sim Z False.
Proof.
  split.
  - (* pread, pwrite *)
    intros fd buf off k ret k' [= <- <-] _. split_and!; [|split|sim_frame..]; simpl.
    + by rewrite lookup_insert_eq.
    + intros a Ha. by rewrite lookup_insert_ne by congruence.
    + done.
  - intros fd buf off k ret k' [= <- <-] _. split_and!; [| |sim_frame..]; simpl.
    + by rewrite lookup_insert_eq.
    + intros o Ho. by rewrite lookup_insert_ne by congruence.
  - (* queue_init *)
    intros n r flags k ret k' [= <- <-] _. simpl. simp_fupd. split_and!; sim_frame.
  - intros n r flags k ret k' [= <- <-]. by left.
  - intros r k b k' [= <- <-]. done.
  - intros r k b k' [= <- <-] ?. by apply bool_decide_eq_true.
  - (* prep *)
    intros r x k. split_and!; simpl; simp_fupd; sim_frame.
  - done.
  - (* submit *)
    intros r k ret k' Hm _ HF. simpl in Hm, HF. case_match; simplify_eq.
    destruct (sim_run_writes bad _ k HF) as [Hm Hd]. pose proof (sim_run_frame bad (s_prep k r) k) as (_ & _ & _ & _ & Hy).
    split; [done|]. split; intros a _; simpl; by rewrite ?Hm, ?Hy.
  - intros r k ret k' Hm _ HF. simpl in Hm, HF. case_match; simplify_eq.
    destruct (sim_run_reads bad _ k HF) as [Hm Hd]. pose proof (sim_run_frame bad (s_prep k r) k) as (_ & _ & _ & _ & Hy).
    split; [split; [done|]|]; intros a; [intros _|]; simpl; by rewrite ?Hm, ?Hy.
  - intros r k ret k' Hm _. simpl in Hm. case_match; simplify_eq. simpl. simp_fupd.
    destruct (sim_run_frame bad (s_prep k r) k) as (-> & -> & Hr & Hm & _). split_and!; try done.
    + intros r' Hr'. by simp_fupd.
    + split; intros a; simpl; by rewrite ?Hr, ?Hm.
  - intros r k Hr. simpl in *. by rewrite Hr.
  - intros r k ret k' Hm. simpl in Hm. case_match; simplify_eq. by left.
  - (* wait *)
    intros r k Hr. simpl in *. by destruct (s_infl k r).
  - intros r k ret k' Hm _. simpl in *. destruct (s_infl k r) as [|x l] eqn:Hi; simplify_eq.
    simpl. simp_fupd. split_and!; try done; [by exists x|].
    intros r' Hr'. by simp_fupd.
  - intros r k ret k' Hm. simpl in Hm. case_match; simplify_eq. by left.
  - done.
Qed.

#[export] Instance sim_system : SystemLaws (KO := sim_ops_with bad) sim Z False.
Proof. split; [apply _|apply _| |apply _]. split. intros t k ret k' [= <- <-]. split; [done|by left]. Qed.
End laws.

#[export] Instance sim_device : DeviceCompletes sim Z.
Proof.
  split; intros r k ret k' Hm _ HF Hnd _ x Hx; simpl in Hm; case_match; simplify_eq.
  - by apply sim_writes.
  - by apply sim_reads.
Qed.

#[export] Instance sim_laws : KernelLaws sim Z False.
Proof. split; [exact (sim_system (fun _ => false))|apply _]. Qed.
