(* ===== verification/State.v ===== *)
(** * The program's state and its primitive statements

    The data of [core.h] and [fifo.h] ([struct user_page], [struct fifo_list],
    [enum pagetypes]), the global and thread-local variables of [core.c],
    [storage_iouring.c] and the policies, and the statements every function is
    built from: reading and writing a field through a pointer, reading and
    writing a variable, taking and releasing a mutex, calling the kernel. *)

From S2P Require Import Prelude Kernel.

(** ** [enum pagetypes] *)

Inductive pagetypes := HUGEP | BASEP | NPAGETYPES.

#[export] Instance pagetypes_eq_dec : EqDecision pagetypes.
Proof. solve_decision. Defined.

(** ** Constants of [core.h] *)

Definition CORE_PREFAULT_RATE : Z := 128.
Definition CORE_PREFETCH_RATE : Z := 32.
Definition MAX_USER_THREADS : Z := 128.

(** ** Identities of the statically allocated lists and mutexes *)

(** The eight [static struct fifo_list] of the policy. *)
Inductive fifo_id :=
  | active_list | inactive_list | disk_active_list | disk_written_list
  | dram_free_list | disk_free_list | disk_reserve_list | eviction_list.

#[export] Instance fifo_id_eq_dec : EqDecision fifo_id.
Proof. solve_decision. Defined.

Inductive mutex :=
  | list_lock (l : fifo_id) | pages_lock | allocator_lock | handler_lock | kswapd_lock.

#[export] Instance mutex_eq_dec : EqDecision mutex.
Proof. solve_decision. Defined.

(** ** Pointers to [struct user_page] *)

Definition loc : Type := positive.
Abbreviation ptr := (option loc).
Abbreviation NULL := (@None loc).

(** ** [struct user_page]

    The hash handle [hh] is the hash table's own and is modelled with it. *)
Record user_page := UserPage {
  va : Z;
  virtual_offset : Z;
  in_dram : bool;
  swapped_out : bool;
  pt : pagetypes;
  migrating : bool;
  has_reserve : bool;
  present : bool;
  naccesses : Z;
  reserve : ptr;
  next : ptr;
  prev : ptr;
  list_of : option fifo_id;
}.

Definition set_va x p := UserPage x (virtual_offset p) (in_dram p) (swapped_out p) (pt p)
  (migrating p) (has_reserve p) (present p) (naccesses p) (reserve p) (next p) (prev p) (list_of p).
Definition set_virtual_offset x p := UserPage (va p) x (in_dram p) (swapped_out p) (pt p)
  (migrating p) (has_reserve p) (present p) (naccesses p) (reserve p) (next p) (prev p) (list_of p).
Definition set_in_dram x p := UserPage (va p) (virtual_offset p) x (swapped_out p) (pt p)
  (migrating p) (has_reserve p) (present p) (naccesses p) (reserve p) (next p) (prev p) (list_of p).
Definition set_swapped_out x p := UserPage (va p) (virtual_offset p) (in_dram p) x (pt p)
  (migrating p) (has_reserve p) (present p) (naccesses p) (reserve p) (next p) (prev p) (list_of p).
Definition set_pt x p := UserPage (va p) (virtual_offset p) (in_dram p) (swapped_out p) x
  (migrating p) (has_reserve p) (present p) (naccesses p) (reserve p) (next p) (prev p) (list_of p).
Definition set_migrating x p := UserPage (va p) (virtual_offset p) (in_dram p) (swapped_out p) (pt p)
  x (has_reserve p) (present p) (naccesses p) (reserve p) (next p) (prev p) (list_of p).
Definition set_has_reserve x p := UserPage (va p) (virtual_offset p) (in_dram p) (swapped_out p) (pt p)
  (migrating p) x (present p) (naccesses p) (reserve p) (next p) (prev p) (list_of p).
Definition set_present x p := UserPage (va p) (virtual_offset p) (in_dram p) (swapped_out p) (pt p)
  (migrating p) (has_reserve p) x (naccesses p) (reserve p) (next p) (prev p) (list_of p).
Definition set_naccesses x p := UserPage (va p) (virtual_offset p) (in_dram p) (swapped_out p) (pt p)
  (migrating p) (has_reserve p) (present p) x (reserve p) (next p) (prev p) (list_of p).
Definition set_reserve x p := UserPage (va p) (virtual_offset p) (in_dram p) (swapped_out p) (pt p)
  (migrating p) (has_reserve p) (present p) (naccesses p) x (next p) (prev p) (list_of p).
Definition set_next x p := UserPage (va p) (virtual_offset p) (in_dram p) (swapped_out p) (pt p)
  (migrating p) (has_reserve p) (present p) (naccesses p) (reserve p) x (prev p) (list_of p).
Definition set_prev x p := UserPage (va p) (virtual_offset p) (in_dram p) (swapped_out p) (pt p)
  (migrating p) (has_reserve p) (present p) (naccesses p) (reserve p) (next p) x (list_of p).
Definition set_list_of x p := UserPage (va p) (virtual_offset p) (in_dram p) (swapped_out p) (pt p)
  (migrating p) (has_reserve p) (present p) (naccesses p) (reserve p) (next p) (prev p) x.

(** [calloc(1, sizeof(struct user_page))] *)
Definition zeroed_page : user_page :=
  UserPage 0 0 false false HUGEP false false false 0 None None None None.

(** The page without its list links: what the clients of the lists see. *)
Definition payload (p : user_page) : user_page :=
  set_next None (set_prev None (set_list_of None p)).

(** Fields that do not depend on the links, and updates that leave them alone. *)
Class PayloadProj {A} (f : user_page -> A) : Prop :=
  payload_proj : forall p, f (payload p) = f p.
Class PayloadSet (g : user_page -> user_page) : Prop := {
  payload_set : forall p, payload (g p) = g (payload p);
  payload_set_next : forall p, next (g p) = next p;
  payload_set_prev : forall p, prev (g p) = prev p;
  payload_set_list : forall p, list_of (g p) = list_of p }.

#[export] Hint Extern 0 (PayloadProj _) => (intros []; reflexivity) : typeclass_instances.
#[export] Hint Extern 0 (PayloadSet _) => (split; intros []; reflexivity) : typeclass_instances.

(** ** [struct fifo_list] (its mutex is in [held]) *)

Record fifo_list := FifoList { first : ptr; last : ptr; numentries : Z }.

Definition set_first x q := FifoList x (last q) (numentries q).
Definition set_last x q := FifoList (first q) x (numentries q).
Definition set_numentries x q := FifoList (first q) (last q) x.

(** ** Variables *)

(** Integer and address variables; of a [__thread] variable there is one for
    each thread. *)
Inductive gvar :=
  | dramsize | disksize | mem_mmaped | mem_allocated | pages_allocated | pages_freed
  | wp_faults_handled | first_faults_handled | major_faults_handled
  | migrations_up | migrations_down | bytes_migrated | migration_waits
  | main_mmap | page_cache | diskfd | prev_fault_global_1 | prev_fault_global_2
  | safe_to_free | main_vma_va | main_vma_size | main_vma_priority  (* pageRank.c *)
  (* __thread *)
  | buffer_space (t : thread) | prefetch_buffer (t : thread) | prev_fault_1 (t : thread) | prev_fault_2 (t : thread).

#[export] Instance gvar_eq_dec : EqDecision gvar.
Proof. solve_decision. Defined.

Inductive bvar :=
  | is_init | kswapd_running | shrinkage_running
  | kswapd_waiting          (* kswapd sleeps on [kswapd_cv] *)
  (* __thread *)
  | internal_call (t : thread) | buffer_allocated (t : thread) | prefetch_buffer_allocated (t : thread)
  | uring_init (t : thread) | uring_read_init (t : thread) | in_kswapd (t : thread).

#[export] Instance bvar_eq_dec : EqDecision bvar.
Proof. solve_decision. Defined.

(** ** The state *)

Record env (K : Type) := Env {
  glob : gvar -> Z;
  flag : bvar -> bool;
  pages : gmap Z loc;        (* the uthash table [pages], keyed by [va] *)
  held : list mutex;         (* mutexes held by the running thread *)
  kern : K;
  self : thread;                (* the running thread *)
}.
Arguments Env {K}.
Arguments glob {K}.
Arguments flag {K}.
Arguments pages {K}.
Arguments held {K}.
Arguments kern {K}.
Arguments self {K}.

Record state (K : Type) := State {
  heap : gmap loc user_page;
  lists : fifo_id -> fifo_list;
  envt : env K;
}.
Arguments State {K}.
Arguments heap {K}.
Arguments lists {K}.
Arguments envt {K}.

Section setters.
Context {K : Type}.
Implicit Types e : env K.
Definition set_glob x v e := Env (fupd (glob e) x v) (flag e) (pages e) (held e) (kern e) (self e).
Definition set_flag x v e := Env (glob e) (fupd (flag e) x v) (pages e) (held e) (kern e) (self e).
Definition set_pages t e := Env (glob e) (flag e) t (held e) (kern e) (self e).
Definition set_held h e := Env (glob e) (flag e) (pages e) h (kern e) (self e).
Definition set_kern (k : K) e := Env (glob e) (flag e) (pages e) (held e) k (self e).
Definition set_self (t : thread) e := Env (glob e) (flag e) (pages e) (held e) (kern e) t.
End setters.

(** ** Statements *)

Section statements.
Context {K : Type}.
Implicit Types s : state K.

(** [p->f] *)
Definition ld {A} (f : user_page -> A) (p : ptr) : M (state K) A := fun s =>
  match p with
  | None => Fault Segv
  | Some x => match heap s !! x with None => Fault Segv | Some pg => Ok (f pg) s end
  end.

(** [p->f = v] *)
Definition st (g : user_page -> user_page) (p : ptr) : M (state K) unit := fun s =>
  match p with
  | None => Fault Segv
  | Some x =>
    match heap s !! x with
    | None => Fault Segv
    | Some pg => Ok tt (State (<[x := g pg]> (heap s)) (lists s) (envt s))
    end
  end.

(** [l.f] and [l.f = v] for a statically allocated list *)
Definition ldl {A} (f : fifo_list -> A) (l : fifo_id) : M (state K) A := fun s =>
  Ok (f (lists s l)) s.
Definition stl (g : fifo_list -> fifo_list) (l : fifo_id) : M (state K) unit := fun s =>
  Ok tt (State (heap s) (fupd (lists s) l (g (lists s l))) (envt s)).

Definition get_env {A} (f : env K -> A) : M (state K) A := fun s => Ok (f (envt s)) s.
Definition upd_env (g : env K -> env K) : M (state K) unit := fun s =>
  Ok tt (State (heap s) (lists s) (g (envt s))).

(** Variables *)
Definition rd (x : gvar) : M (state K) Z := get_env (fun e => glob e x).
Definition wr (x : gvar) (v : Z) : M (state K) unit := upd_env (set_glob x v).
Definition rdb (x : bvar) : M (state K) bool := get_env (fun e => flag e x).
Definition wrb (x : bvar) (v : bool) : M (state K) unit := upd_env (set_flag x v).

(** The variables and the ring the running thread has for itself *)
Definition rdt (x : thread -> gvar) : M (state K) Z := get_env (fun e => glob e (x (self e))).
Definition wrt (x : thread -> gvar) (v : Z) : M (state K) unit :=
  upd_env (fun e => set_glob (x (self e)) v e).
Definition rdbt (x : thread -> bvar) : M (state K) bool := get_env (fun e => flag e (x (self e))).
Definition wrbt (x : thread -> bvar) (v : bool) : M (state K) unit :=
  upd_env (fun e => set_flag (x (self e)) v e).
Definition own (r : thread -> ring) : M (state K) ring := get_env (fun e => r (self e)).

(** [x += n] on a [uint64_t] *)
Definition add_to (x : gvar) (n : Z) : M (state K) unit :=
  v ← rd x; wr x (u64 (v + n)).

(** [pthread_mutex_lock] / [pthread_mutex_unlock] on a default mutex *)
Definition lock (m : mutex) : M (state K) unit :=
  h ← get_env held;
  if decide (m ∈ h) then fail Deadlock else upd_env (set_held (m :: h)).
Definition unlock (m : mutex) : M (state K) unit :=
  h ← get_env held;
  if decide (m ∈ h) then upd_env (set_held (filter (fun x => x <> m) h)) else fail BadUnlock.

(** A call into the kernel *)
Definition sys {A} (f : K -> A * K) : M (state K) A := fun s =>
  let '(r, k) := f (kern (envt s)) in
  Ok r (State (heap s) (lists s) (set_kern k (envt s))).

(** The same for a call that may not come back, [e] being what happens then. *)
Definition sys_opt {A} (e : fault) (f : K -> option (A * K)) : M (state K) A := fun s =>
  match f (kern (envt s)) with
  | None => Fault e
  | Some (r, k) => Ok r (State (heap s) (lists s) (set_kern k (envt s)))
  end.
Definition sys_do (f : K -> K) : M (state K) unit := sys (fun k => (tt, f k)).

(** [if (failed) { perror(what); assert(0); }] *)
Definition die_if (failed : bool) (what : string) : M (state K) unit :=
  if failed then fail (SysFail what) else mret tt.

(** [calloc] of a [struct user_page] *)
Definition calloc_page : M (state K) ptr := fun s =>
  let x := fresh (dom (heap s)) in
  Ok (Some x) (State (<[x := zeroed_page]> (heap s)) (lists s) (envt s)).
End statements.

(** ** [pt_to_pagesize], [pagesize_to_pt] *)

Definition pt_to_pagesize {K} (t : pagetypes) : M (state K) Z :=
  match t with
  | HUGEP => mret HUGEPAGE_SIZE
  | BASEP => mret BASEPAGE_SIZE
  | NPAGETYPES => fail (AssertFailed "Unknown page type")
  end.

Definition pagesize_to_pt {K} (pagesize : Z) : M (state K) pagetypes :=
  if decide (pagesize = BASEPAGE_SIZE) then mret BASEP
  else if decide (pagesize = HUGEPAGE_SIZE) then mret HUGEP
  else fail (AssertFailed "Unknown page ssize").

(** Comparison of pointers and lists with a [bool] result. *)
Notation "p =p q" := (bool_decide (p = q)) (at level 70, no associativity) : extmem_scope.

(** ** Weakest preconditions of the statements on explicit states *)

Section raw_rules.
Context {K : Type}.
Implicit Types (s : state K) (E : fault -> Prop).

Lemma wp_ld_raw {A} E (f : user_page -> A) x pg s Q :
  heap s !! x = Some pg -> Q (f pg) s -> wp E (ld f (Some x)) s Q.
Proof. intros H ?. unfold wp, ld. by rewrite H. Qed.

Lemma wp_st_raw E g x pg s Q :
  heap s !! x = Some pg -> Q tt (State (<[x := g pg]> (heap s)) (lists s) (envt s)) ->
  wp E (st g (Some x)) s Q.
Proof. intros H ?. unfold wp, st. by rewrite H. Qed.

Lemma wp_ldl E {A} (f : fifo_list -> A) l s Q : Q (f (lists s l)) s -> wp E (ldl f l) s Q.
Proof. done. Qed.

Lemma wp_stl E g l s Q :
  Q tt (State (heap s) (fupd (lists s) l (g (lists s l))) (envt s)) -> wp E (stl g l) s Q.
Proof. done. Qed.

Lemma filter_held (m : mutex) (h : list mutex) :
  m ∉ h -> filter (fun x => x <> m) (m :: h) = h.
Proof.
  intros Hm. rewrite filter_cons_False by (intros H; by apply H).
  induction h as [|x h IH]; [done|]. apply not_elem_of_cons in Hm as [??].
  rewrite filter_cons_True by congruence. f_equal. by apply IH.
Qed.

Lemma wp_lock_raw E m s Q :
  m ∉ held (envt s) ->
  Q tt (State (heap s) (lists s) (set_held (m :: held (envt s)) (envt s))) ->
  wp E (lock m) s Q.
Proof. intros H ?. unfold wp, lock, mbind, M_bind, get_env. simpl. by rewrite decide_False. Qed.

Lemma wp_unlock_raw E m h s Q :
  m ∉ h -> held (envt s) = m :: h ->
  Q tt (State (heap s) (lists s) (set_held h (envt s))) ->
  wp E (unlock m) s Q.
Proof.
  intros H Hh ?. unfold wp, unlock, mbind, M_bind, get_env. simpl.
  rewrite decide_True by (rewrite Hh; left). rewrite Hh, filter_held by done. done.
Qed.
End raw_rules.

(** [raw_step] runs the first statement of the goal on an explicit state;
    the lookups it needs are taken from the context. *)
Ltac raw_simpl := cbn [heap lists envt fst snd].
Ltac raw_step :=
  lazymatch goal with
  | |- wp _ (_ ≫= _) _ _ => apply wp_bind; raw_step
  | |- wp _ (mret _) _ _ => apply wp_ret
  | |- wp _ (ldl _ _) _ _ => apply wp_ldl
  | |- wp _ (stl _ _) _ _ => apply wp_stl
  | |- wp _ (ld _ (Some _)) _ _ => eapply wp_ld_raw; [raw_simpl; simplify_map_eq; done|]
  | |- wp _ (st _ (Some _)) _ _ => eapply wp_st_raw; [raw_simpl; simplify_map_eq; done|]
  | |- wp _ (assert_ _ _) _ _ =>
      apply wp_assert; [raw_simpl; try (apply bool_decide_eq_true_2; raw_simpl; first [congruence | lia])|]
  | |- wp _ (lock _) _ _ => apply wp_lock_raw; [raw_simpl; try done|]
  | |- wp _ (unlock _) _ _ => eapply wp_unlock_raw; [|reflexivity|]; [raw_simpl; try done|]
  end; raw_simpl.

Lemma set_held_id {K} (e : env K) h : set_held (held e) (set_held h e) = e.
Proof. by destruct e. Qed.
