(* ===== verification/Fifo.v ===== *)
(** * The page lists: [fifo.c]

    [fifo.c] keeps [struct user_page]s on doubly linked lists: a page is put
    in at [first] and taken out at [last], and carries a back pointer [list]
    to the list it is on.  The file translates every function statement by
    statement on the pointer level, defines the representation relation
    [View] (the heap and the list headers represent the map of page payloads
    [P] and the sequences [L l]), and proves each function a refinement of
    the operation on sequences. *)

From S2P Require Import Prelude Kernel State.

(** ** The functions *)

Section functions.
Context {K : Type}.
Local Abbreviation M := (M (state K)).

Definition enqueue_fifo (queue : fifo_id) (entry : ptr) : M unit :=
  lock (list_lock queue);;
  e_prev ← ld prev entry;
  assert_ "entry->prev == NULL" (e_prev =p NULL);;
  q_first ← ldl first queue;
  st (set_next q_first) entry;;
  (match q_first with
   | Some _ =>
       f_prev ← ld prev q_first;
       assert_ "queue->first->prev == NULL" (f_prev =p NULL);;
       st (set_prev entry) q_first
   | None =>
       q_last ← ldl last queue;
       assert_ "queue->last == NULL" (q_last =p NULL);;
       n ← ldl numentries queue;
       assert_ "queue->numentries == 0" (n =p 0);;
       stl (set_last entry) queue
   end);;
  stl (set_first entry) queue;;
  st (set_list_of (Some queue)) entry;;
  n ← ldl numentries queue;
  stl (set_numentries (u64 (n + 1))) queue;;
  unlock (list_lock queue).

(** The part of [dequeue_fifo] and of [dequeue_fifo_vector] between taking
    [queue->last] and releasing the lock. *)
Definition take_last (queue : fifo_id) (ret : ptr) : M unit :=
  r_prev ← ld prev ret;
  stl (set_last r_prev) queue;;
  (match r_prev with
   | Some _ => st (set_next NULL) r_prev
   | None => stl (set_first NULL) queue
   end);;
  st (fun p => set_prev NULL (set_next NULL p)) ret;;
  st (set_list_of None) ret;;
  n ← ldl numentries queue;
  assert_ "queue->numentries > 0" (bool_decide (0 < n));;
  stl (set_numentries (u64 (n - 1))) queue.

Definition dequeue_fifo (queue : fifo_id) : M ptr :=
  lock (list_lock queue);;
  ret ← ldl last queue;
  match ret with
  | None => unlock (list_lock queue);; mret ret
  | Some _ => take_last queue ret;; unlock (list_lock queue);; mret ret
  end.

(** Both removal functions: an empty list is only checked. *)
Definition check_empty (l : fifo_id) : M unit :=
  l_last ← ldl last l;
  assert_ "list->last == NULL" (l_last =p NULL);;
  n ← ldl numentries l;
  assert_ "list->numentries == 0" (n =p 0).

(** Both removal functions: take [page] out of the chain. *)
Definition unlink_page (l : fifo_id) (page : ptr) : M unit :=
  l_first ← ldl first l;
  (if l_first =p page then p_next ← ld next page; stl (set_first p_next) l else mret tt);;
  l_last ← ldl last l;
  (if l_last =p page then p_prev ← ld prev page; stl (set_last p_prev) l else mret tt);;
  p_next ← ld next page;
  p_prev ← ld prev page;
  (match p_next with Some _ => st (set_prev p_prev) p_next | None => mret tt end);;
  (match p_prev with Some _ => st (set_next p_next) p_prev | None => mret tt end);;
  n ← ldl numentries l;
  assert_ "list->numentries > 0" (bool_decide (0 < n));;
  stl (set_numentries (u64 (n - 1))) l;;
  st (set_next NULL) page;;
  st (set_prev NULL) page;;
  st (set_list_of None) page.

Definition page_list_remove_page (l : fifo_id) (page : ptr) : M unit :=
  lock (list_lock l);;
  l_first ← ldl first l;
  match l_first with
  | None => check_empty l;; unlock (list_lock l)
  | Some _ => unlink_page l page;; unlock (list_lock l)
  end.

Definition page_list_tryremove_page (list : option fifo_id) (page : ptr) : M Z :=
  match list with
  | None => mret (-1)
  | Some l =>
    lock (list_lock l);;
    p_list ← ld list_of page;
    if negb (p_list =p list) then unlock (list_lock l);; mret (-1)
    else
      l_first ← ldl first l;
      match l_first with
      | None => check_empty l;; unlock (list_lock l);; mret (-1)
      | Some _ => unlink_page l page;; unlock (list_lock l);; mret 0
      end
  end.

(** [next_page] stores its result through [next_page]; here it returns it. *)
Definition next_page (l : fifo_id) (page : ptr) : M ptr :=
  lock (list_lock l);;
  r ← (match page with
       | None => ldl last l
       | Some _ =>
           p_prev ← ld prev page;
           p_list ← ld list_of page;
           assert_ "page->list == list" (p_list =p Some l);;
           mret p_prev
       end);
  unlock (list_lock l);;
  mret r.

(** The loop of [dequeue_fifo_vector]; [vector] is the filled part of the
    caller's array. *)
Definition dequeue_vector_body (queue : fifo_id) (nr_fetch : Z)
    : Z * list ptr -> M ((Z * list ptr) + (Z * list ptr)) := fun '(nr_taken, vector) =>
  if decide (nr_taken < nr_fetch) then
    page ← ldl last queue;
    match page with
    | None => mret (inr (nr_taken, vector))
    | Some _ => take_last queue page;; mret (inl (nr_taken + 1, vector ++ [page]))
    end
  else mret (inr (nr_taken, vector)).

Definition dequeue_fifo_vector (queue : fifo_id) (nr_fetch : Z) : M (Z * list ptr) :=
  lock (list_lock queue);;
  r ← loop "dequeue_fifo_vector" (S (Z.to_nat nr_fetch))
        (dequeue_vector_body queue nr_fetch) (0, []);
  unlock (list_lock queue);;
  mret r.
End functions.

(** ** Doubly linked segments

    [dseg h l pp xs qq]: the pages [xs] are chained in this order on list
    [l], the first one's [prev] is [pp] and the last one's [next] is [qq]. *)

Definition hd_or (xs : list loc) (q : ptr) : ptr :=
  match xs with [] => q | x :: _ => Some x end.
Fixpoint last_or (p : ptr) (xs : list loc) : ptr :=
  match xs with [] => p | x :: tl => last_or (Some x) tl end.

Definition node (h : gmap loc user_page) (l : fifo_id) (pp : ptr) (x : loc) (qq : ptr) : Prop :=
  exists pg, h !! x = Some pg /\ prev pg = pp /\ next pg = qq /\ list_of pg = Some l.

Fixpoint dseg (h : gmap loc user_page) (l : fifo_id) (pp : ptr) (xs : list loc) (qq : ptr) : Prop :=
  match xs with
  | [] => True
  | x :: tl => node h l pp x (hd_or tl qq) /\ dseg h l (Some x) tl qq
  end.

Section segments.
Implicit Types (h : gmap loc user_page) (l : fifo_id) (xs ys : list loc).

Lemma hd_or_app xs ys q : hd_or (xs ++ ys) q = hd_or xs (hd_or ys q).
Proof. by destruct xs. Qed.

Lemma last_or_app p xs ys : last_or p (xs ++ ys) = last_or (last_or p xs) ys.
Proof. revert p. induction xs; simpl; auto. Qed.

Lemma dseg_app h l pp xs ys qq :
  dseg h l pp (xs ++ ys) qq <-> dseg h l pp xs (hd_or ys qq) /\ dseg h l (last_or pp xs) ys qq.
Proof.
  revert pp. induction xs as [|x xs IH]; intros pp; simpl; [tauto|].
  rewrite hd_or_app, IH. tauto.
Qed.

Lemma dseg_frame h l pp xs qq x pg :
  x ∉ xs -> dseg h l pp xs qq -> dseg (<[x := pg]> h) l pp xs qq.
Proof.
  revert pp. induction xs as [|y xs IH]; intros pp Hx; simpl; [done|].
  apply not_elem_of_cons in Hx as [Hne Hx]. intros [(pg' & Hy & ?) Hs].
  split; [|by apply IH]. exists pg'. by rewrite lookup_insert_ne.
Qed.

Lemma dseg_elem h l pp xs qq x :
  dseg h l pp xs qq -> x ∈ xs -> exists pg, h !! x = Some pg /\ list_of pg = Some l.
Proof.
  revert pp. induction xs as [|y xs IH]; intros pp; [by intros _ ?%elem_of_nil|].
  intros [(pg & ? & ? & ? & ?) Hs] [->|Hx]%elem_of_cons; [by exists pg|by eapply IH].
Qed.

(** Changing the outgoing pointer of the first or of the last page. *)
Lemma dseg_set_prev h l pp pp' x xs qq pg :
  h !! x = Some pg -> x ∉ xs -> dseg h l pp (x :: xs) qq ->
  dseg (<[x := set_prev pp' pg]> h) l pp' (x :: xs) qq.
Proof.
  intros Hx Hni [(pg' & Hx' & Hp & Hn & Hl) Hs].
  assert (pg' = pg) as -> by congruence.
  split; [|by apply dseg_frame].
  exists (set_prev pp' pg). by rewrite lookup_insert_eq.
Qed.

Lemma dseg_set_next h l pp xs x qq qq' pg :
  h !! x = Some pg -> x ∉ xs -> dseg h l pp (xs ++ [x]) qq ->
  dseg (<[x := set_next qq' pg]> h) l pp (xs ++ [x]) qq'.
Proof.
  intros Hx Hni [Hs [(pg' & Hx' & Hp & Hn & Hl) _]]%dseg_app.
  assert (pg' = pg) as -> by congruence.
  apply dseg_app. split; [by apply dseg_frame|]. split; [|done].
  exists (set_next qq' pg). by rewrite lookup_insert_eq.
Qed.
End segments.

#[global] Arguments dseg : simpl never.

(** ** The representation relation *)

Record header_ok (h : gmap loc user_page) (l : fifo_id) (q : fifo_list) (xs : list loc) : Prop := {
  h_first : first q = hd_or xs None;
  h_last : last q = last_or None xs;
  h_num : numentries q = Z.of_nat (length xs);
  h_seg : dseg h l None xs None }.

Record View {K} (s : state K) (P : gmap loc user_page) (L : fifo_id -> list loc) (e : env K)
    : Prop := {
  v_payload : payload <$> heap s = P;
  v_env : envt s = e;
  v_header : forall l, header_ok (heap s) l (lists s l) (L l);
  v_nodup : forall l, NoDup (L l);
  v_of : forall x pg, heap s !! x = Some pg ->
    match list_of pg with Some l => x ∈ L l | None => next pg = None /\ prev pg = None end;
  v_size : Z.of_nat (size P) < 2 ^ 63 }.

(** [x] is on no list. *)
Definition floating (L : fifo_id -> list loc) (x : loc) : Prop := forall l, x ∉ L l.

Section view.
Context {K : Type}.
Implicit Types (s : state K) (e : env K) (P : gmap loc user_page) (L : fifo_id -> list loc).

Lemma view_page s P L e x pg :
  View s P L e -> P !! x = Some pg ->
  exists pg', heap s !! x = Some pg' /\ payload pg' = pg.
Proof.
  intros V H. rewrite <- (v_payload _ _ _ _ V), lookup_fmap in H.
  destruct (heap s !! x) as [pg'|]; [|done]. exists pg'. by simplify_option_eq.
Qed.

Lemma view_heap s P L e x pg :
  View s P L e -> heap s !! x = Some pg -> P !! x = Some (payload pg).
Proof. intros V H. by rewrite <- (v_payload _ _ _ _ V), lookup_fmap, H. Qed.

Lemma view_elem s P L e l x :
  View s P L e -> x ∈ L l -> exists pg, heap s !! x = Some pg /\ list_of pg = Some l.
Proof. intros V Hx. eapply dseg_elem; [apply (h_seg _ _ _ _ (v_header _ _ _ _ V l))|done]. Qed.

Lemma view_dom s P L e l x : View s P L e -> x ∈ L l -> is_Some (P !! x).
Proof.
  intros V Hx. destruct (view_elem _ _ _ _ _ _ V Hx) as (pg & H & _).
  eexists. by eapply view_heap.
Qed.

Lemma view_disjoint s P L e l l' x : View s P L e -> x ∈ L l -> x ∈ L l' -> l = l'.
Proof.
  intros V H1 H2. destruct (view_elem _ _ _ _ _ _ V H1) as (pg & ? & ?).
  destruct (view_elem _ _ _ _ _ _ V H2) as (pg' & ? & ?). congruence.
Qed.

Lemma view_floating s P L e x pg :
  View s P L e -> floating L x -> heap s !! x = Some pg ->
  list_of pg = None /\ next pg = None /\ prev pg = None.
Proof.
  intros V Hf Hx. pose proof (v_of _ _ _ _ V _ _ Hx) as H.
  destruct (list_of pg) as [l|]; [by destruct (Hf l)|naive_solver].
Qed.

Lemma view_length s P L e l : View s P L e -> (length (L l) <= size P)%nat.
Proof.
  intros V. apply NoDup_length_map; [apply (v_nodup _ _ _ _ V)|].
  intros x. apply (view_dom _ _ _ _ _ _ V).
Qed.

Lemma dseg_ext h h' l pp xs qq :
  (forall x, x ∈ xs -> h' !! x = h !! x) -> dseg h l pp xs qq -> dseg h' l pp xs qq.
Proof.
  revert pp. induction xs as [|y xs IH]; intros pp Heq; simpl; [done|].
  intros [(pg & Hy & ?) Hs]. split.
  - exists pg. rewrite Heq by left. done.
  - apply IH; [|done]. intros. apply Heq. by right.
Qed.

(** Rewriting one list, its header and its pages. *)
Lemma view_update_list s P L e l xs h' ls' :
  View s P L e ->
  header_ok h' l (ls' l) xs -> (forall l', l' <> l -> ls' l' = lists s l') ->
  NoDup xs -> payload <$> h' = P ->
  (forall x, x ∉ L l -> x ∉ xs -> h' !! x = heap s !! x) ->
  (forall x, x ∈ xs -> x ∈ L l \/ floating L x) ->
  (forall x pg, x ∈ L l -> x ∉ xs -> h' !! x = Some pg ->
     list_of pg = None /\ next pg = None /\ prev pg = None) ->
  View (State h' ls' e) P (fupd L l xs) e.
Proof.
  intros V Hh Hls Hnd Hp Hsame Hin Hout. split; simpl; [done|done| | | |apply V].
  - intros l'. destruct (decide (l = l')) as [<-|Hne]; [by rewrite fupd_eq|].
    rewrite fupd_ne, Hls by done. destruct (v_header _ _ _ _ V l') as [? ? ? Hs].
    split; [done..|]. eapply dseg_ext, Hs. intros x Hx. apply Hsame.
    + intros Hx'. by destruct Hne; eapply view_disjoint.
    + intros Hx'. destruct (Hin _ Hx') as [Hl|Hf]; [by destruct Hne; eapply view_disjoint|].
      by apply (Hf l').
  - intros l'. destruct (decide (l = l')) as [<-|Hne]; [by rewrite fupd_eq|].
    rewrite fupd_ne by done. apply V.
  - intros x pg Hx. destruct (decide (x ∈ xs)) as [Hxs|Hxs].
    { destruct (dseg_elem _ _ _ _ _ _ (h_seg _ _ _ _ Hh) Hxs) as (pg' & ? & Hl).
      simplify_eq. rewrite Hl. by rewrite fupd_eq. }
    destruct (decide (x ∈ L l)) as [Hxl|Hxl].
    { destruct (Hout x pg) as (-> & ? & ?); done. }
    rewrite Hsame in Hx by done. pose proof (v_of _ _ _ _ V _ _ Hx) as H.
    destruct (list_of pg) as [l'|]; [|done].
    rewrite fupd_ne; [done|]. by intros ->.
Qed.

Lemma payload_insert (h : gmap loc user_page) x pg pg' :
  h !! x = Some pg -> payload pg' = payload pg -> payload <$> <[x := pg']> h = payload <$> h.
Proof.
  intros Hx Hp. rewrite fmap_insert, Hp. apply insert_id. by rewrite lookup_fmap, Hx.
Qed.
End view.

(** ** Refinement of the operations on sequences *)

Section specs.
Context {K : Type}.
Implicit Types (s : state K) (e : env K) (P : gmap loc user_page) (L : fifo_id -> list loc).

Lemma view_len_bound s P L e l : View s P L e -> 0 <= Z.of_nat (length (L l)) < 2 ^ 63.
Proof.
  intros V. pose proof (view_length _ _ _ _ l V). pose proof (v_size _ _ _ _ V). lia.
Qed.

Lemma wp_enqueue_fifo E l x s P L e Q :
  View s P L e -> is_Some (P !! x) -> floating L x -> list_lock l ∉ held e ->
  (forall s', View s' P (fupd L l (x :: L l)) e -> Q tt s') ->
  wp E (enqueue_fifo l (Some x)) s Q.
Proof.
  intros V [pg Hx] Hf Hlk HQ.
  destruct (view_page _ _ _ _ _ _ V Hx) as (pg' & Hpg & <-). clear Hx.
  destruct (view_floating _ _ _ _ _ _ V Hf Hpg) as (Hlof & Hnx & Hpv).
  pose proof (v_header _ _ _ _ V l) as [Hfst Hlst Hnum Hseg].
  pose proof (v_nodup _ _ _ _ V l) as Hnd.
  pose proof (view_len_bound _ _ _ _ l V) as Hlen.
  assert (NoDup (x :: L l)) as Hnd' by (by apply NoDup_cons).
  pose proof (fun ls' h' => view_update_list _ _ _ _ l (x :: L l) h' ls' V) as Hupd.
  pose proof (v_payload _ _ _ _ V) as HP.
  destruct s as [h ls e0]. pose proof (v_env _ _ _ _ V) as He. simpl in *. subst e0.
  unfold enqueue_fifo. do 5 raw_step. rewrite Hfst in *.
  destruct (L l) as [|y ys] eqn:HL; simpl in Hlst, Hnum, Hlen, Hseg |- *; cbn [hd_or].
  - repeat raw_step. apply HQ. rewrite set_held_id, insert_insert_eq.
    apply Hupd; [|intros; by simp_fupd|done| | | |]; clear Hupd.
    + simp_fupd. split; simpl; [done..|rewrite Hnum, u64_small; lia |].
      split; [|done]. eexists. by rewrite lookup_insert_eq.
    + by erewrite payload_insert.
    + intros z _ Hz%not_elem_of_cons. by rewrite lookup_insert_ne by naive_solver.
    + intros z [->|[]%not_elem_of_nil]%elem_of_cons. by right.
    + by intros z pz ?%elem_of_nil.
  - destruct Hseg as [(pgy & Hy & Hpy & Hny & Hly) Hs].
    pose proof Hnd' as [Hxn [Hyn _]%NoDup_cons]%NoDup_cons.
    pose proof Hxn as [Hxy Hxys]%not_elem_of_cons.
    repeat raw_step. apply HQ. rewrite set_held_id.
    rewrite (insert_insert_ne _ x y), insert_insert_eq by done.
    rewrite (insert_insert_ne _ y x) by done.
    apply Hupd; [|intros; by simp_fupd|done| | | |]; clear Hupd.
    + simp_fupd. split; simpl; [done..|rewrite Hnum, u64_small; lia |].
      split; [eexists; by rewrite lookup_insert_eq|].
      apply dseg_frame; [done|]. eapply dseg_set_prev; [done..|]. by split; [exists pgy|].
    + erewrite payload_insert; [|by rewrite lookup_insert_ne|done]. by erewrite payload_insert.
    + intros z _ [? [??]%not_elem_of_cons]%not_elem_of_cons. by rewrite !lookup_insert_ne.
    + intros z [->|Hz]%elem_of_cons; [by right|by left].
    + intros z pz Hz Hz'. destruct Hz'. by right.
Qed.

Lemma view_set_env s P L e e' :
  View s P L e -> View (State (heap s) (lists s) e') P L e'.
Proof. intros []. by split. Qed.

Lemma wp_lock E m s P L e Q :
  View s P L e -> m ∉ held e ->
  (forall s', View s' P L (set_held (m :: held e) e) -> Q tt s') -> wp E (lock m) s Q.
Proof.
  intros V Hm HQ. pose proof (v_env _ _ _ _ V) as He.
  apply wp_lock_raw; rewrite He; [done|]. apply HQ. by eapply view_set_env.
Qed.

Lemma wp_unlock E m s P L e Q :
  View s P L (set_held (m :: held e) e) -> m ∉ held e ->
  (forall s', View s' P L e -> Q tt s') -> wp E (unlock m) s Q.
Proof.
  intros V Hm HQ. pose proof (v_env _ _ _ _ V) as He.
  eapply wp_unlock_raw; [done|by rewrite He|]. rewrite He. apply HQ.
  rewrite set_held_id. by eapply view_set_env.
Qed.

Lemma wp_ldl_view E {A} (f : fifo_list -> A) l s P L e Q :
  View s P L e -> (header_ok (heap s) l (lists s l) (L l) -> Q (f (lists s l)) s) ->
  wp E (ldl f l) s Q.
Proof. intros V HQ. apply wp_ldl, HQ, V. Qed.

Lemma wp_take_last E l xs x s P L e Q :
  View s P L e -> L l = xs ++ [x] ->
  (forall s', View s' P (fupd L l xs) e -> Q tt s') ->
  wp E (take_last l (Some x)) s Q.
Proof.
  intros V HL HQ.
  pose proof (v_header _ _ _ _ V l) as [Hfst Hlst Hnum Hseg].
  pose proof (v_nodup _ _ _ _ V l) as Hnd.
  pose proof (view_len_bound _ _ _ _ l V) as Hlen.
  pose proof (fun ls' h' => view_update_list _ _ _ _ l xs h' ls' V) as Hupd.
  pose proof (v_payload _ _ _ _ V) as HP.
  destruct s as [h ls e0]. pose proof (v_env _ _ _ _ V) as He. simpl in *. subst e0.
  rewrite HL in *. rewrite length_app in *. simpl in Hlen, Hnum.
  apply NoDup_app in Hnd as (Hnd & Hxn & _).
  assert (x ∉ xs) as Hx by (intros Hx; apply (Hxn _ Hx); left).
  apply dseg_app in Hseg as [Hs [(pg & Hpg & Hpp & _ & Hlo) _]]. simpl in Hs.
  unfold take_last.
  destruct xs as [|y ys _] using rev_ind; simpl in Hpp.
  - do 2 raw_step. rewrite Hpp. repeat raw_step.
    { apply bool_decide_eq_true_2. simp_fupd. simpl. lia. }
    repeat raw_step. apply HQ. rewrite insert_insert_eq.
    apply Hupd; [|intros; by simp_fupd|done| | | |]; clear Hupd.
    + simp_fupd. split; simpl; [done..| |done]. rewrite Hnum, u64_small; simpl; lia.
    + by erewrite payload_insert by (try done; by destruct pg).
    + intros z Hz%not_elem_of_cons _. by rewrite lookup_insert_ne by naive_solver.
    + by intros z ?%elem_of_nil.
    + intros z pz [->|[]%not_elem_of_nil]%elem_of_cons _. rewrite lookup_insert_eq. by intros [= <-].
  - rewrite last_or_app in Hpp. simpl in Hpp.
    pose proof Hs as [_ [(pgy & Hy & _) _]]%dseg_app.
    apply not_elem_of_app in Hx as [Hxys [Hxy _]%not_elem_of_cons].
    do 2 raw_step. rewrite Hpp. repeat raw_step.
    { apply bool_decide_eq_true_2. simp_fupd. simpl. lia. }
    repeat raw_step. apply HQ. rewrite insert_insert_eq.
    apply NoDup_app in Hnd as (Hndy & Hyn & _).
    assert (y ∉ ys) as Hyys by (intros Hy'; apply (Hyn _ Hy'); left).
    apply Hupd; [|intros; by simp_fupd| | | | |]; clear Hupd.
    + simp_fupd. split; simpl; [|by rewrite last_or_app| |].
      * rewrite Hfst. destruct ys; done.
      * rewrite Hnum, u64_small; simpl; rewrite length_app in *; simpl in *; lia.
      * apply dseg_frame; [not_in|]. by eapply dseg_set_next.
    + apply NoDup_app. split_and!; [done|done|apply NoDup_singleton].
    + erewrite payload_insert; [|by rewrite lookup_insert_ne|by destruct pg].
      by erewrite payload_insert by (try done; by destruct pgy).
    + intros z [Hz ?%not_elem_of_cons]%not_elem_of_app Hz'.
      rewrite !lookup_insert_ne; [done|..]; [|naive_solver].
      intros ->. apply Hz, elem_of_app. right. left.
    + intros z Hz. left. apply elem_of_app. by left.
    + intros z pz [Hz|[->|[]%not_elem_of_nil]%elem_of_cons]%elem_of_app Hz'; [done|].
      rewrite lookup_insert_eq. by intros [= <-].
Qed.
End specs.

Section removal.
Context {K : Type}.
Implicit Types (s : state K) (e : env K) (P : gmap loc user_page) (L : fifo_id -> list loc).

Lemma last_or_snoc p xs x : last_or p (xs ++ [x]) = Some x.
Proof. by rewrite last_or_app. Qed.

Lemma wp_dequeue_fifo E l s P L e Q :
  View s P L e -> list_lock l ∉ held e ->
  (L l = [] -> forall s', View s' P L e -> Q None s') ->
  (forall xs x s', L l = xs ++ [x] -> View s' P (fupd L l xs) e -> Q (Some x) s') ->
  wp E (dequeue_fifo l) s Q.
Proof.
  intros V Hlk HQ0 HQ1. unfold dequeue_fifo.
  apply wp_bind. eapply wp_lock; [done..|]. intros s1 V1.
  apply wp_bind. eapply wp_ldl_view; [done|]. intros [_ -> _ _].
  destruct (L l) as [|x xs _] eqn:HL using rev_ind; simpl.
  - apply wp_bind. eapply wp_unlock; [done..|]. intros s2 V2. apply wp_ret. by apply HQ0.
  - rewrite last_or_snoc. apply wp_bind. eapply wp_take_last; [done..|]. intros s2 V2.
    apply wp_bind. eapply wp_unlock; [done..|]. intros s3 V3. apply wp_ret. by eapply HQ1.
Qed.

(** The heap after unlinking [x] from between [l1] and [l2]. *)
Lemma dseg_unlink h l l1 x l2 a b :
  NoDup (l1 ++ x :: l2) -> dseg h l None (l1 ++ x :: l2) None ->
  last_or None l1 = a -> hd_or l2 None = b ->
  forall h1 h2,
  (match b with
   | None => h1 = h
   | Some y => exists pg, h !! y = Some pg /\ h1 = <[y := set_prev a pg]> h
   end) ->
  (match a with
   | None => h2 = h1
   | Some y => exists pg, h1 !! y = Some pg /\ h2 = <[y := set_next b pg]> h1
   end) ->
  forall pg, dseg (<[x := pg]> h2) l None (l1 ++ l2) None.
Proof.
  intros Hnd Hs Ha Hb h1 h2 Hh1 Hh2 pg.
  apply NoDup_app in Hnd as (Hn1 & Hd & [Hx2 Hn2]%NoDup_cons).
  assert (x ∉ l1) as Hx1 by (intros H; apply (Hd _ H); left).
  assert (forall y, y ∈ l1 -> y ∉ l2) as Hd' by (intros y H H'; apply (Hd _ H); by right).
  apply dseg_app in Hs as [Hs1 [_ Hs2]]. simpl in Hs1.
  apply dseg_frame; [not_in|]. apply dseg_app. rewrite Ha, Hb. clear Hd.
  split.
  - destruct l1 as [|y l1 _] using rev_ind; [done|].
    rewrite last_or_snoc in Ha. subst a. destruct Hh2 as (pgy & Hy & ->).
    apply NoDup_app in Hn1 as (_ & Hy1 & _).
    eapply dseg_set_next; [done|intros H; apply (Hy1 _ H); left|].
    destruct b as [z|]; [|by subst h1]. destruct Hh1 as (pgz & Hz & ->).
    apply dseg_frame; [|done]. intros H. apply (Hd' _ H). destruct l2; [done|].
    injection Hb as ->. left.
  - assert (dseg h1 l a l2 None) as Hs2'.
    { destruct l2 as [|z l2]; [done|]. simpl in Hb. subst b. destruct Hh1 as (pgz & Hz & ->).
      eapply dseg_set_prev; [done|by inversion Hn2|done]. }
    destruct a as [y|]; [|by subst h2]. destruct Hh2 as (pgy & Hy & ->).
    apply dseg_frame; [|done]. destruct l1 as [|y' l1 _] using rev_ind; [done|].
    rewrite last_or_snoc in Ha. injection Ha as ->. apply Hd', elem_of_app. right. left.
Qed.

Lemma first_is_page (l1 l2 : list loc) x :
  NoDup (l1 ++ x :: l2) ->
  bool_decide (hd_or (l1 ++ x :: l2) None = Some x) = bool_decide (l1 = []).
Proof.
  intros Hnd. apply bool_decide_ext. destruct l1 as [|y l1]; [done|]. split; [|done].
  intros [= ->]. apply NoDup_cons in Hnd as [[] _]. apply elem_of_app. right. left.
Qed.

Lemma last_is_page (l1 l2 : list loc) x :
  NoDup (l1 ++ x :: l2) ->
  bool_decide (last_or None (l1 ++ x :: l2) = Some x) = bool_decide (l2 = []).
Proof.
  intros Hnd. apply bool_decide_ext. rewrite last_or_app.
  destruct l2 as [|y l2 _] using rev_ind; [done|]. simpl. rewrite last_or_snoc.
  split; [|by destruct l2]. intros [= ->].
  apply NoDup_app in Hnd as (_ & _ & [[] _]%NoDup_cons). apply elem_of_app. right. left.
Qed.

Lemma hd_or_None_Some l2 b : hd_or l2 None = Some b -> exists tl, l2 = b :: tl.
Proof. destruct l2; [done|]. intros [= ->]. eauto. Qed.

Lemma last_or_None_Some l1 a : last_or None l1 = Some a -> exists tl, l1 = tl ++ [a].
Proof.
  destruct l1 as [|y l1 _] using rev_ind; [done|]. rewrite last_or_snoc. intros [= ->]. eauto.
Qed.

(** What [unlink_page] makes of the list header. *)
Lemma header_unlink q l1 x l2 first' last' n :
  first q = hd_or (l1 ++ x :: l2) None -> last q = last_or None (l1 ++ x :: l2) ->
  numentries q = Z.of_nat (length (l1 ++ x :: l2)) -> numentries q < 2 ^ 64 ->
  first' = (if bool_decide (l1 = []) then hd_or l2 None else first q) ->
  last' = (if bool_decide (l2 = []) then last_or None l1 else last q) ->
  n = u64 (numentries q - 1) ->
  first' = hd_or (l1 ++ l2) None /\ last' = last_or None (l1 ++ l2) /\
  n = Z.of_nat (length (l1 ++ l2)).
Proof.
  intros Hf Hl Hn Hb -> -> ->. split_and!.
  - rewrite Hf. by destruct l1.
  - rewrite Hl, !last_or_app. by destruct l2.
  - rewrite Hn in *. rewrite !length_app in *. simpl in *. rewrite u64_small; lia.
Qed.

(** The two conditional updates of the header. *)
Lemma wp_set_end E l (f : fifo_list -> ptr) (fld : user_page -> ptr) (g : ptr -> fifo_list -> fifo_list)
    (c : bool) x pg (k : M (state K) unit) s Q :
  heap s !! x = Some pg -> (f (lists s l) =p Some x) = c ->
  (forall ls, ls l = (if c then g (fld pg) (lists s l) else lists s l) ->
     (forall l', l' <> l -> ls l' = lists s l') -> wp E k (State (heap s) ls (envt s)) Q) ->
  wp E (v ← ldl f l;
        (if v =p Some x then w ← ld fld (Some x); stl (g w) l else mret tt);; k) s Q.
Proof.
  intros Hx Hc HQ. raw_step. rewrite Hc. apply wp_bind. destruct c.
  - do 2 raw_step. apply HQ; [by simp_fupd|]. intros. by simp_fupd.
  - destruct s. by apply HQ.
Qed.

(** The two conditional updates of the neighbours. *)
Lemma wp_set_neighbour E (g : user_page -> user_page) (p : ptr) s Q :
  (forall y, p = Some y -> is_Some (heap s !! y)) ->
  (forall h, match p with
             | None => h = heap s
             | Some y => exists pg, heap s !! y = Some pg /\ h = <[y := g pg]> (heap s)
             end -> Q tt (State h (lists s) (envt s))) ->
  wp E (match p with Some _ => st g p | None => mret tt end) s Q.
Proof.
  intros Hp HQ. destruct p as [y|].
  - destruct (Hp y eq_refl) as [pg Hy]. raw_step. apply HQ. eauto.
  - destruct s. by apply HQ.
Qed.

Lemma unlink_payload P (h h1 h2 : gmap loc user_page) a b x pg pg' :
  payload <$> h = P -> h !! x = Some pg -> payload pg' = payload pg ->
  b <> Some x -> a <> Some x ->
  (match b with
   | None => h1 = h
   | Some y => exists pg, h !! y = Some pg /\ h1 = <[y := set_prev a pg]> h
   end) ->
  (match a with
   | None => h2 = h1
   | Some y => exists pg, h1 !! y = Some pg /\ h2 = <[y := set_next b pg]> h1
   end) ->
  payload <$> <[x := pg']> h2 = P /\ h1 !! x = Some pg /\ h2 !! x = Some pg /\
  (forall z, b <> Some z -> a <> Some z -> z <> x -> <[x := pg']> h2 !! z = h !! z).
Proof.
  intros HP Hx Hp Hb Ha Hh1 Hh2.
  assert (payload <$> h1 = P /\ h1 !! x = Some pg /\
          forall z, b <> Some z -> h1 !! z = h !! z) as (HP1 & Hx1 & Hz1).
  { destruct b as [y|]; [|by subst]. destruct Hh1 as (pgy & Hy & ->). split_and!.
    - by erewrite payload_insert by (try done; by destruct pgy).
    - rewrite lookup_insert_ne; congruence.
    - intros z Hz. rewrite lookup_insert_ne; congruence. }
  assert (payload <$> h2 = P /\ h2 !! x = Some pg /\
          forall z, b <> Some z -> a <> Some z -> h2 !! z = h !! z) as (HP2 & Hx2 & Hz2).
  { destruct a as [y|]; [|subst; naive_solver]. destruct Hh2 as (pgy & Hy & ->). split_and!.
    - by erewrite payload_insert by (try done; by destruct pgy).
    - rewrite lookup_insert_ne; congruence.
    - intros z Hz Hz'. rewrite lookup_insert_ne; [by apply Hz1|congruence]. }
  split_and!; [|done|done|].
  - by erewrite payload_insert.
  - intros z Hz Hz' Hzx. rewrite lookup_insert_ne by done. by apply Hz2.
Qed.

Lemma wp_unlink_page E l l1 x l2 s P L e Q :
  View s P L e -> L l = l1 ++ x :: l2 ->
  (forall s', View s' P (fupd L l (l1 ++ l2)) e -> Q tt s') ->
  wp E (unlink_page l (Some x)) s Q.
Proof.
  intros V HL HQ.
  pose proof (v_header _ _ _ _ V l) as [Hfst Hlst Hnum Hseg].
  pose proof (v_nodup _ _ _ _ V l) as Hnd.
  pose proof (view_len_bound _ _ _ _ l V) as Hlen.
  pose proof (fun ls' h' => view_update_list _ _ _ _ l (l1 ++ l2) h' ls' V) as Hupd.
  pose proof (v_payload _ _ _ _ V) as HP.
  destruct s as [h ls e0]. pose proof (v_env _ _ _ _ V) as He. simpl in *. subst e0.
  rewrite HL in *.
  pose proof Hseg as [Hs1 [(pg & Hpg & Hpp & Hpn & Hlo) Hs2]]%dseg_app. simpl in Hs1.
  pose proof Hnd as (Hn1 & Hd & [Hx2 Hn2]%NoDup_cons)%NoDup_app.
  assert (x ∉ l1) as Hx1 by (intros H; apply (Hd _ H); left).
  assert (hd_or l2 None <> Some x) as Hbx
    by (intros (? & ->)%hd_or_None_Some; apply Hx2; left).
  assert (last_or None l1 <> Some x) as Hax
    by (intros (? & ->)%last_or_None_Some; apply Hx1, elem_of_app; right; left).
  unfold unlink_page.
  eapply (wp_set_end E l first next set_first);
    [done|simpl; rewrite Hfst; by apply first_is_page|simpl; intros ls1 Hls1 Hls1'].
  eapply (wp_set_end E l last prev set_last);
    [done|simpl; rewrite Hls1; destruct (bool_decide (l1 = [])); simpl; rewrite Hlst;
          by apply last_is_page|simpl; intros ls2 Hls2 Hls2'].
  do 2 raw_step. rewrite Hpp, Hpn.
  apply wp_bind, wp_set_neighbour; simpl.
  { intros y (tl & ->)%hd_or_None_Some. destruct Hs2 as [(pgy & ? & _) _]. eauto. }
  intros h1 Hh1. apply wp_bind, wp_set_neighbour; simpl.
  { intros y (tl & ->)%last_or_None_Some. apply dseg_app in Hs1 as [_ [(pgy & Hy & _) _]].
    destruct (hd_or l2 None) as [z|]; [|by subst; eauto]. destruct Hh1 as (? & ? & ->).
    rewrite lookup_insert. case_decide; eauto. }
  intros h2 Hh2.
  destruct (unlink_payload P h h1 h2 (last_or None l1) (hd_or l2 None) x pg
    (set_list_of None (set_prev None (set_next None pg)))) as (HP' & Hx1' & Hx2' & Hsame);
    [done..|by destruct pg|done|done|done|done|].
  assert (numentries (ls2 l) = numentries (ls l)) as Hn2'.
  { rewrite Hls2. destruct (bool_decide (l2 = [])); simpl; rewrite Hls1;
      by destruct (bool_decide (l1 = [])). }
  destruct (header_unlink (ls l) l1 x l2 (first (ls2 l)) (last (ls2 l)) (u64 (numentries (ls2 l) - 1)))
    as (Hf' & Hl' & Hn'); [done..|lia| | |by rewrite Hn2'|].
  { rewrite Hls2. destruct (bool_decide (l2 = [])); simpl; rewrite ?Hls1;
      destruct (bool_decide (l1 = [])); simpl; congruence. }
  { rewrite Hls2. destruct (bool_decide (l2 = [])); simpl; rewrite ?Hls1;
      destruct (bool_decide (l1 = [])); simpl; congruence. }
  do 2 raw_step.
  { apply bool_decide_eq_true_2. rewrite Hn2', Hnum, length_app. simpl. lia. }
  do 4 raw_step. apply HQ. rewrite !insert_insert_eq.
  apply Hupd; clear Hupd.
  - simp_fupd. split; simpl; [done..|]. 
    by apply (dseg_unlink h l l1 x l2 (last_or None l1) (hd_or l2 None)) with (h1 := h1).
  - intros l' Hl. rewrite fupd_ne by done. by rewrite Hls2', Hls1'.
  - apply NoDup_app. split_and!; [done| |done]. intros y Hy Hy'. apply (Hd _ Hy). by right.
  - done.
  - intros z Hz Hz'. inv_in. apply Hsame; [|by intros (? & ->)%last_or_None_Some; inv_in|done].
    intros (? & ->)%hd_or_None_Some. inv_in.
  - intros z [Hz|Hz]%elem_of_app; left; apply elem_of_app; [by left|right; by right].
  - intros z pz [Hz|[->|Hz]%elem_of_cons]%elem_of_app [Hz1 Hz2]%not_elem_of_app; [done| |done].
    rewrite lookup_insert_eq. by intros [= <-].
Qed.
End removal.

Section vector.
Context {K : Type}.
Implicit Types (s : state K) (e : env K) (P : gmap loc user_page) (L : fifo_id -> list loc).

(** Views only depend on the sequences pointwise. *)
Lemma view_ext s P L L' e : View s P L e -> (forall l, L' l = L l) -> View s P L' e.
Proof.
  intros [? ? ? ? Hof ?] Heq. split; [done..| | | |done].
  - intros l. by rewrite Heq.
  - intros l. by rewrite Heq.
  - intros x pg Hx. specialize (Hof x pg Hx). destruct (list_of pg); by rewrite ?Heq.
Qed.

Lemma fupd_id_view s P L e l : View s P L e -> View s P (fupd L l (L l)) e.
Proof.
  intros V. eapply view_ext; [done|]. intros l'. unfold fupd. by case_decide; subst.
Qed.

Lemma wp_page_list_remove_page E l x s P L e Q :
  View s P L e -> list_lock l ∉ held e -> x ∈ L l ->
  (forall l1 l2 s', L l = l1 ++ x :: l2 -> View s' P (fupd L l (l1 ++ l2)) e -> Q tt s') ->
  wp E (page_list_remove_page l (Some x)) s Q.
Proof.
  intros V Hlk Hx HQ. unfold page_list_remove_page.
  apply list_elem_of_split in Hx as (l1 & l2 & HL).
  apply wp_bind. eapply wp_lock; [done..|]. intros s1 V1.
  apply wp_bind. eapply wp_ldl_view; [done|]. intros [-> _ _ _].
  destruct (L l) as [|y ys] eqn:HL'; [by destruct l1|]. simpl.
  apply wp_bind. eapply wp_unlink_page; [done|by rewrite HL'|]. intros s2 V2.
  eapply wp_unlock; [done..|]. intros s3 V3. by eapply HQ.
Qed.

(** On an empty list the function only checks that the header is empty. *)
Lemma wp_page_list_remove_page_empty E l p s P L e Q :
  View s P L e -> list_lock l ∉ held e -> L l = [] ->
  (forall s', View s' P L e -> Q tt s') ->
  wp E (page_list_remove_page l p) s Q.
Proof.
  intros V Hlk HL HQ. unfold page_list_remove_page.
  apply wp_bind. eapply wp_lock; [done..|]. intros s1 V1.
  pose proof (v_header _ _ _ _ V1 l) as [Hf Hl Hn _]. rewrite HL in Hf, Hl, Hn. simpl in *.
  apply wp_bind, wp_ldl. rewrite Hf. unfold check_empty.
  apply wp_bind, wp_bind, wp_ldl, wp_bind, wp_assert; [by rewrite Hl|].
  apply wp_bind, wp_ldl, wp_assert; [by rewrite Hn|].
  by eapply wp_unlock.
Qed.

Lemma wp_list_of E x s P L e Q pg :
  View s P L e -> P !! x = Some pg ->
  (forall r, (forall l, r = Some l <-> x ∈ L l) -> Q r s) ->
  wp E (ld list_of (Some x)) s Q.
Proof.
  intros V Hx HQ. destruct (view_page _ _ _ _ _ _ V Hx) as (pg' & Hpg & _).
  eapply wp_ld_raw; [done|]. apply HQ. intros l. split.
  - intros Hl. pose proof (v_of _ _ _ _ V _ _ Hpg) as H. by rewrite Hl in H.
  - intros Hl. destruct (view_elem _ _ _ _ _ _ V Hl) as (pg2 & ? & ?). congruence.
Qed.

Lemma wp_tryremove E l x s P L e Q :
  View s P L e -> list_lock l ∉ held e -> is_Some (P !! x) ->
  (forall l1 l2 s', L l = l1 ++ x :: l2 -> View s' P (fupd L l (l1 ++ l2)) e -> Q 0 s') ->
  (x ∉ L l -> forall s', View s' P L e -> Q (-1) s') ->
  wp E (page_list_tryremove_page (Some l) (Some x)) s Q.
Proof.
  intros V Hlk [pg Hx] HQ HQ'. unfold page_list_tryremove_page.
  apply wp_bind. eapply wp_lock; [done..|]. intros s1 V1.
  apply wp_bind. eapply wp_list_of; [done..|]. intros r Hr.
  destruct (decide (x ∈ L l)) as [Hin|Hout].
  - rewrite (bool_decide_eq_true_2 (r = Some l)) by by apply Hr. simpl.
    apply list_elem_of_split in Hin as (l1 & l2 & HL).
    apply wp_bind. eapply wp_ldl_view; [done|]. intros [-> _ _ _].
    destruct (L l) as [|y ys] eqn:HL'; [by destruct l1|]. simpl.
    apply wp_bind. eapply wp_unlink_page; [done|by rewrite HL'|]. intros s2 V2.
    apply wp_bind. eapply wp_unlock; [done..|]. intros s3 V3. apply wp_ret. by eapply HQ.
  - rewrite (bool_decide_eq_false_2 (r = Some l)) by by rewrite Hr. simpl.
    apply wp_bind. eapply wp_unlock; [done..|]. intros s3 V3. apply wp_ret. by apply HQ'.
Qed.

(** Iterating from [last] towards [first]. *)
Lemma wp_next_page E l p s P L e Q :
  View s P L e -> list_lock l ∉ held e ->
  match p with None => True | Some x => x ∈ L l end ->
  (forall s' r, View s' P L e ->
     match p with
     | None => r = last_or None (L l)
     | Some x => exists l1 l2, L l = l1 ++ x :: l2 /\ r = last_or None l1
     end -> Q r s') ->
  wp E (next_page l p) s Q.
Proof.
  intros V Hlk Hp HQ. unfold next_page.
  apply wp_bind. eapply wp_lock; [done..|]. intros s1 V1.
  pose proof (v_header _ _ _ _ V1 l) as [_ Hl _ Hs].
  apply wp_bind. destruct p as [x|].
  - apply list_elem_of_split in Hp as (l1 & l2 & HL). rewrite HL in Hs.
    apply dseg_app in Hs as [_ [(pg & Hx & Hpv & _ & Hlo) _]].
    do 3 raw_step. rewrite Hpv.
    apply wp_ret, wp_bind. eapply wp_unlock; [done..|]. intros s2 V2. apply wp_ret.
    apply HQ; [done|]. eauto.
  - apply wp_ldl, wp_bind. eapply wp_unlock; [done..|]. intros s2 V2. apply wp_ret. by apply HQ.
Qed.

(** The vector is filled with the tail of the list, last page first. *)
Lemma wp_dequeue_fifo_vector E l nr s P L e Q :
  View s P L e -> list_lock l ∉ held e -> 0 <= nr ->
  (forall xs ys s', L l = xs ++ reverse ys -> View s' P (fupd L l xs) e ->
     (Z.of_nat (length ys) = nr \/ xs = [] /\ Z.of_nat (length ys) < nr) ->
     Q (Z.of_nat (length ys), Some <$> ys) s') ->
  wp E (dequeue_fifo_vector l nr) s Q.
Proof.
  intros V Hlk Hnr HQ. unfold dequeue_fifo_vector.
  apply wp_bind. eapply wp_lock; [done..|]. intros s1 V1. apply wp_bind.
  eapply (wp_loop _ _ _ (fun n v s => exists xs ys, L l = xs ++ reverse ys /\
    v = (Z.of_nat (length ys), Some <$> ys) /\ n = Z.to_nat (nr - Z.of_nat (length ys)) /\
    Z.of_nat (length ys) <= nr /\
    View s P (fupd L l xs) (set_held (list_lock l :: held e) e))) with (n := Z.to_nat nr).
  { exists (L l), []. simpl. split_and!; [by rewrite app_nil_r|done|f_equal; lia|done|].
    by apply fupd_id_view. }
  { lia. }
  clear s1 V1. intros n v s1 (xs & ys & HL & -> & -> & Hle & V1). simpl.
  case_decide as Hlt.
  - apply wp_bind. eapply wp_ldl_view; [done|]. intros [_ -> _ _]. rewrite fupd_eq.
    destruct xs as [|x xs _] using rev_ind; simpl.
    + apply wp_ret, wp_bind. eapply wp_unlock; [done..|]. intros s2 V2. apply wp_ret.
      eapply HQ; [done..|]. right. split; [done|lia].
    + rewrite last_or_snoc. apply wp_bind.
      eapply wp_take_last; [done|by rewrite fupd_eq|]. intros s2 V2. apply wp_ret.
      exists (Z.to_nat (nr - Z.of_nat (length (ys ++ [x])))). rewrite length_app. simpl.
      split; [lia|]. exists xs, (ys ++ [x]). rewrite reverse_snoc, length_app, fmap_app. simpl.
      split_and!; [by rewrite HL, <- app_assoc|f_equal; lia|done|lia|].
      eapply view_ext; [done|]. intros l'.
      destruct (decide (l = l')) as [<-|]; by rewrite ?fupd_eq, ?fupd_ne by done.
  - apply wp_ret, wp_bind. eapply wp_unlock; [done..|]. intros s2 V2. apply wp_ret.
    eapply HQ; [done..|]. left. lia.
Qed.
End vector.
