(* ===== verification/Queues.v ===== *)
(** * The page lists as mathematical queues

    The abstract specification of [fifo.c]: each of the eight lists is a
    sequence of pages, first to last, and every function is an operation on
    sequences.  [exec_refines_model] states that any series of calls that
    respects the callers' contract gives the results and the sequences of the
    specification. *)

From S2P Require Import Prelude Kernel State Fifo.

(** ** The specification *)

Inductive qcall :=
  | Enqueue (l : fifo_id) (x : loc)
  | Dequeue (l : fifo_id)
  | DequeueVector (l : fifo_id) (n : Z)
  | RemovePage (l : fifo_id) (x : loc)
  | TryRemove (list : option fifo_id) (x : loc)
  | NextPage (l : fifo_id) (p : ptr).

Inductive qret :=
  | Nothing
  | APage (p : ptr)
  | Pages (n : Z) (v : list ptr)
  | Code (n : Z).

Definition sequences : Type := fifo_id -> list loc.

(** The page before [x], towards [first]. *)
Fixpoint before (p : ptr) (xs : list loc) (x : loc) : ptr :=
  match xs with
  | [] => None
  | y :: xs => if decide (y = x) then p else before (Some y) xs x
  end.

Definition without (x : loc) (xs : list loc) : list loc := filter (fun y => y <> x) xs.

Definition model (c : qcall) (L : sequences) : qret * sequences :=
  match c with
  | Enqueue l x => (Nothing, fupd L l (x :: L l))
  | Dequeue l => (APage (last_or None (L l)), fupd L l (take (pred (length (L l))) (L l)))
  | DequeueVector l n =>
      let taken := take (Z.to_nat n) (reverse (L l)) in
      (Pages (Z.of_nat (length taken)) (Some <$> taken),
       fupd L l (take (length (L l) - Z.to_nat n) (L l)))
  | RemovePage l x => (Nothing, fupd L l (without x (L l)))
  | TryRemove None x => (Code (-1), L)
  | TryRemove (Some l) x =>
      if decide (x ∈ L l) then (Code 0, fupd L l (without x (L l))) else (Code (-1), L)
  | NextPage l None => (APage (last_or None (L l)), L)
  | NextPage l (Some x) => (APage (before None (L l) x), L)
  end.

(** The callers' contract: only free pages are enqueued, only pages of a list
    are removed from it or used to walk it. *)
Definition contract (P : gmap loc user_page) (c : qcall) (L : sequences) : Prop :=
  match c with
  | Enqueue l x => is_Some (P !! x) /\ floating L x
  | Dequeue l => True
  | DequeueVector l n => 0 <= n
  | RemovePage l x => x ∈ L l \/ L l = []
  | TryRemove _ x => is_Some (P !! x)
  | NextPage l None => True
  | NextPage l (Some x) => x ∈ L l
  end.

Fixpoint model_run (cs : list qcall) (L : sequences) : list qret * sequences :=
  match cs with
  | [] => ([], L)
  | c :: cs => let '(r, L) := model c L in let '(rs, L) := model_run cs L in (r :: rs, L)
  end.

Fixpoint contract_run P (cs : list qcall) (L : sequences) : Prop :=
  match cs with
  | [] => True
  | c :: cs => contract P c L /\ contract_run P cs (snd (model c L))
  end.

(** ** The implementation *)

Section refinement.
Context {K : Type}.
Implicit Types (s : state K) (e : env K) (P : gmap loc user_page) (L : sequences).

Definition exec (c : qcall) : M (state K) qret :=
  match c with
  | Enqueue l x => enqueue_fifo l (Some x);; mret Nothing
  | Dequeue l => p ← dequeue_fifo l; mret (APage p)
  | DequeueVector l n => r ← dequeue_fifo_vector l n; mret (Pages (fst r) (snd r))
  | RemovePage l x => page_list_remove_page l (Some x);; mret Nothing
  | TryRemove list x => n ← page_list_tryremove_page list (Some x); mret (Code n)
  | NextPage l p => r ← next_page l p; mret (APage r)
  end.

Fixpoint exec_run (cs : list qcall) : M (state K) (list qret) :=
  match cs with
  | [] => mret []
  | c :: cs => r ← exec c; rs ← exec_run cs; mret (r :: rs)
  end.

Lemma without_id (x : loc) xs : x ∉ xs -> without x xs = xs.
Proof.
  induction xs as [|y xs IH]; [done|]. intros [Hne Hx]%not_elem_of_cons.
  unfold without. rewrite filter_cons_True by congruence. f_equal. by apply IH.
Qed.

Lemma without_split l1 l2 (x : loc) :
  NoDup (l1 ++ x :: l2) -> without x (l1 ++ x :: l2) = l1 ++ l2.
Proof.
  intros (H1 & H12 & [H2 H3]%NoDup_cons)%NoDup_app. unfold without.
  rewrite filter_app, filter_cons_False by (by intros []).
  f_equal; apply without_id; [|done]. intros Hx. apply (H12 x Hx). left.
Qed.

Lemma before_split p l1 l2 (x : loc) :
  x ∉ l1 -> before p (l1 ++ x :: l2) x = last_or p l1.
Proof.
  revert p. induction l1 as [|y l1 IH]; intros p Hx; simpl.
  - by rewrite decide_True.
  - apply not_elem_of_cons in Hx as [Hne Hx]. rewrite decide_False by done. by apply IH.
Qed.

(** One call: the result and the sequences of the specification. *)
Lemma wp_exec c s P L e :
  View s P L e -> held e = [] -> contract P c L ->
  wp none (exec c) s (fun r s' => r = fst (model c L) /\ View s' P (snd (model c L)) e).
Proof.
  intros V Hh Hc. pose proof (v_nodup _ _ _ _ V) as Hnd.
  assert (forall l, list_lock l ∉ held e) as Hlk by (intros; rewrite Hh; not_in).
  destruct c as [l x|l|l n|l x|[l|] x|l [x|]]; simpl in *; apply wp_bind.
  - destruct Hc as [Hx Hf]. by eapply wp_enqueue_fifo.
  - eapply wp_dequeue_fifo; [done..| |].
    + intros HL s1 V1. rewrite HL. split; [done|]. eapply view_ext; [done|].
      intros l'. by destruct (decide (l = l')) as [<-|]; simp_fupd.
    + intros xs x s1 HL V1. rewrite HL, last_or_snoc, length_app. simpl.
      replace (pred (length xs + 1)) with (length xs) by lia. by rewrite take_app_length.
  - eapply wp_dequeue_fifo_vector; [done..|]. intros xs ys s1 HL V1 Hn. rewrite HL.
    rewrite reverse_app, reverse_involutive, length_app, length_reverse.
    assert (take (Z.to_nat n) (ys ++ reverse xs) = ys /\
      take (length xs + length ys - Z.to_nat n) (xs ++ reverse ys) = xs) as [-> ->]; [|done].
    destruct Hn as [<-|[-> Hn]]; rewrite ?Nat2Z.id.
    + rewrite take_app_length. split; [done|].
      replace (length xs + length ys - length ys)%nat with (length xs) by lia. by rewrite take_app_length.
    + simpl. rewrite reverse_nil, app_nil_r. split; [apply take_ge; lia|].
      replace (length ys - Z.to_nat n)%nat with 0%nat by lia. done.
  - destruct (decide (L l = [])) as [HL|Hne].
    + eapply wp_page_list_remove_page_empty; [done..|]. intros s1 V1. split; [done|].
      eapply view_ext; [done|]. intros l'.
      by destruct (decide (l = l')) as [<-|]; simp_fupd; rewrite ?HL.
    + destruct Hc as [Hx|]; [|done]. eapply wp_page_list_remove_page; [done..|].
      intros l1 l2 s1 HL V1. split; [done|]. rewrite HL. rewrite without_split; [done|].
      by rewrite <- HL.
  - eapply wp_tryremove; [done..| |].
    + intros l1 l2 s1 HL V1. rewrite decide_True by (rewrite HL; apply elem_of_app; right; left).
      split; [done|]. simpl. rewrite HL, without_split; [done|]. by rewrite <- HL.
    + intros Hx s1 V1. by rewrite decide_False.
  - done.
  - eapply wp_next_page; [done..|]. intros s1 r V1 (l1 & l2 & HL & ->). split; [|done].
    rewrite HL, before_split; [done|]. specialize (Hnd l). rewrite HL in Hnd.
    apply NoDup_app in Hnd as (_ & Hnd & _). intros Hx. apply (Hnd x Hx). left.
  - eapply wp_next_page; [done..|]. by intros s1 r V1 ->.
Qed.

Lemma wp_exec_run cs s P L e :
  View s P L e -> held e = [] -> contract_run P cs L ->
  wp none (exec_run cs) s
    (fun rs s' => rs = fst (model_run cs L) /\ View s' P (snd (model_run cs L)) e).
Proof.
  revert s L. induction cs as [|c cs IH]; intros s L V Hh; simpl; [done|]. intros [Hc Hcs].
  apply wp_bind. eapply wp_mono; [by apply wp_exec|]. intros r s1 [-> V1].
  destruct (model c L) as [r1 L1]. simpl in *.
  apply wp_bind. eapply wp_mono; [by apply IH|]. intros rs s2 [-> V2].
  by destruct (model_run cs L1).
Qed.
End refinement.
