(* ===== verification/Rules.v ===== *)
(** * Proof rules on views

    The rules below run one statement of a function on a [View]: the goal
    [wp E (c ≫= k) s Q] with [View s P L e] in the context becomes the goal
    for [k] on the next state, whose view is again in the context.  The tactic
    [vstep] picks the rule. *)

From S2P Require Import Prelude Kernel State Fifo.

Section rules.
Context {K : Type}.
Implicit Types (s : state K) (e : env K) (P : gmap loc user_page) (L : fifo_id -> list loc).

Lemma wp_ld {A} (f : user_page -> A) `{!PayloadProj f} E x pg s P L e Q :
  View s P L e -> P !! x = Some pg -> Q (f pg) s -> wp E (ld f (Some x)) s Q.
Proof.
  intros V Hx HQ. destruct (view_page _ _ _ _ _ _ V Hx) as (pg' & Hpg & <-).
  eapply wp_ld_raw; [done|]. by rewrite <- payload_proj.
Qed.

Lemma wp_st g `{!PayloadSet g} E x pg s P L e Q :
  View s P L e -> P !! x = Some pg ->
  (forall s', View s' (<[x := g pg]> P) L e -> Q tt s') -> wp E (st g (Some x)) s Q.
Proof.
  intros V Hx HQ. destruct (view_page _ _ _ _ _ _ V Hx) as (pg' & Hpg & <-).
  eapply wp_st_raw; [done|]. apply HQ. destruct V as [Hp He Hh Hn Hof Hsz].
  assert (forall y pg2, <[x := g pg']> (heap s) !! y = Some pg2 -> exists pg1,
    heap s !! y = Some pg1 /\ list_of pg2 = list_of pg1 /\ next pg2 = next pg1 /\ prev pg2 = prev pg1)
    as Hback.
  { intros y pg2. destruct (decide (x = y)) as [<-|].
    - rewrite lookup_insert_eq. intros [= <-]. exists pg'.
      by rewrite payload_set_list, payload_set_next, payload_set_prev.
    - rewrite lookup_insert_ne by done. naive_solver. }
  assert (forall y pg1, heap s !! y = Some pg1 -> exists pg2,
    <[x := g pg']> (heap s) !! y = Some pg2 /\
    list_of pg2 = list_of pg1 /\ next pg2 = next pg1 /\ prev pg2 = prev pg1) as Hforth.
  { intros y pg1 Hy. destruct (decide (x = y)) as [<-|].
    - exists (g pg'). rewrite lookup_insert_eq. assert (pg1 = pg') as -> by congruence.
      by rewrite payload_set_list, payload_set_next, payload_set_prev.
    - exists pg1. by rewrite lookup_insert_ne. }
  split; simpl; [|done| |done| |].
  - by rewrite fmap_insert, payload_set, Hp.
  - intros l. destruct (Hh l) as [Hf Hl Hnum Hs]. split; [done..|]. clear Hf Hl Hnum.
    revert Hs. generalize (None : ptr) at 1 3 as pp. induction (L l) as [|y ys IH]; [done|].
    intros pp [(pg1 & Hy & ? & ? & ?) Hs]. split; [|by apply IH].
    destruct (Hforth _ _ Hy) as (pg2 & Hy2 & ? & ? & ?). exists pg2. split_and!; congruence.
  - intros y pg2 Hy. destruct (Hback _ _ Hy) as (pg1 & Hy1 & -> & -> & ->). by apply Hof.
  - rewrite map_size_insert_Some; [done|]. by rewrite <- Hp, lookup_fmap, Hpg.
Qed.

Lemma wp_get_env {A} (f : env K -> A) E s P L e Q :
  View s P L e -> Q (f e) s -> wp E (get_env f) s Q.
Proof. intros V. by rewrite <- (v_env _ _ _ _ V). Qed.

Lemma wp_upd_env g E s P L e Q :
  View s P L e -> (forall s', View s' P L (g e) -> Q tt s') -> wp E (upd_env g) s Q.
Proof.
  intros V HQ. apply HQ. rewrite (v_env _ _ _ _ V). by eapply view_set_env.
Qed.

Lemma wp_rd E x s P L e Q : View s P L e -> Q (glob e x) s -> wp E (rd x) s Q.
Proof. intros V HQ. by eapply (wp_get_env (fun e => glob e x)). Qed.
Lemma wp_rdb E x s P L e Q : View s P L e -> Q (flag e x) s -> wp E (rdb x) s Q.
Proof. intros V HQ. by eapply (wp_get_env (fun e => flag e x)). Qed.
Lemma wp_wr E x v s P L e Q :
  View s P L e -> (forall s', View s' P L (set_glob x v e) -> Q tt s') -> wp E (wr x v) s Q.
Proof. intros V HQ. by eapply (wp_upd_env (set_glob x v)). Qed.
Lemma wp_wrb E x v s P L e Q :
  View s P L e -> (forall s', View s' P L (set_flag x v e) -> Q tt s') -> wp E (wrb x v) s Q.
Proof. intros V HQ. by eapply (wp_upd_env (set_flag x v)). Qed.
Lemma wp_rdt E x s P L e Q : View s P L e -> Q (glob e (x (self e))) s -> wp E (rdt x) s Q.
Proof. intros V HQ. by eapply (wp_get_env (fun e => glob e (x (self e)))). Qed.
Lemma wp_rdbt E x s P L e Q : View s P L e -> Q (flag e (x (self e))) s -> wp E (rdbt x) s Q.
Proof. intros V HQ. by eapply (wp_get_env (fun e => flag e (x (self e)))). Qed.
Lemma wp_wrt E x v s P L e Q :
  View s P L e -> (forall s', View s' P L (set_glob (x (self e)) v e) -> Q tt s') -> wp E (wrt x v) s Q.
Proof. intros V HQ. by eapply (wp_upd_env (fun e => set_glob (x (self e)) v e)). Qed.
Lemma wp_wrbt E x v s P L e Q :
  View s P L e -> (forall s', View s' P L (set_flag (x (self e)) v e) -> Q tt s') -> wp E (wrbt x v) s Q.
Proof. intros V HQ. by eapply (wp_upd_env (fun e => set_flag (x (self e)) v e)). Qed.
Lemma wp_own E r s P L e Q : View s P L e -> Q (r (self e)) s -> wp E (own r) s Q.
Proof. intros V HQ. by eapply (wp_get_env (fun e => r (self e))). Qed.
Lemma wp_add_to E x n s P L e Q :
  View s P L e ->
  (forall s', View s' P L (set_glob x (u64 (glob e x + n)) e) -> Q tt s') ->
  wp E (add_to x n) s Q.
Proof. intros V HQ. apply wp_bind. eapply wp_rd; [done|]. by eapply wp_wr. Qed.

Lemma wp_sys {A} (f : K -> A * K) E s P L e Q :
  View s P L e ->
  (forall r k' s', f (kern e) = (r, k') -> View s' P L (set_kern k' e) -> Q r s') ->
  wp E (sys f) s Q.
Proof.
  intros V HQ. unfold wp, sys. rewrite (v_env _ _ _ _ V).
  destruct (f (kern e)) as [r k'] eqn:Hf. apply (HQ r k'); [done|]. by eapply view_set_env.
Qed.

Lemma wp_sys_opt_fault {A} err (f : K -> option (A * K)) E s P L e Q :
  View s P L e -> f (kern e) <> None \/ E err ->
  (forall r k' s', f (kern e) = Some (r, k') -> View s' P L (set_kern k' e) -> Q r s') ->
  wp E (sys_opt err f) s Q.
Proof.
  intros V Hne HQ. unfold wp, sys_opt. rewrite (v_env _ _ _ _ V).
  destruct (f (kern e)) as [[r k']|] eqn:Hf; [|by destruct Hne].
  apply (HQ r k'); [done|]. by eapply view_set_env.
Qed.

Lemma wp_sys_opt {A} err (f : K -> option (A * K)) E s P L e Q :
  View s P L e -> f (kern e) <> None ->
  (forall r k' s', f (kern e) = Some (r, k') -> View s' P L (set_kern k' e) -> Q r s') ->
  wp E (sys_opt err f) s Q.
Proof. intros V Hne. eapply wp_sys_opt_fault; [done|by left]. Qed.

Lemma wp_sys_do f E s P L e Q :
  View s P L e -> (forall s', View s' P L (set_kern (f (kern e)) e) -> Q tt s') ->
  wp E (sys_do f) s Q.
Proof. intros V HQ. eapply wp_sys; [done|]. intros [] k' s' [= <-] V'. by apply HQ. Qed.

(** A failed call stops the program; the rule asks either that it did not
    fail or that [E] tolerates it. *)
Lemma wp_die_if E (b : bool) what s Q :
  (b = false \/ E (SysFail what)) -> (b = false -> Q tt s) -> wp E (die_if b what) s Q.
Proof. unfold die_if. intros [->|HE] HQ; [by apply wp_ret, HQ|]. destruct b; [done|by apply HQ]. Qed.

Lemma wp_pt_BASEP E s (Q : Z -> state K -> Prop) :
  Q PAGE_SIZE s -> wp E (pt_to_pagesize BASEP) s Q.
Proof. done. Qed.

(** Releasing the lock taken last. *)
Lemma wp_unlock_last E m h s P L e Q :
  View s P L e -> held e = m :: h -> m ∉ h ->
  (forall s', View s' P L (set_held h e) -> Q tt s') -> wp E (unlock m) s Q.
Proof.
  intros V Hh Hm HQ. pose proof (v_env _ _ _ _ V) as He.
  eapply wp_unlock_raw; [exact Hm|by rewrite He|]. rewrite He. apply HQ.
  by eapply view_set_env.
Qed.

Lemma wp_list_of_in E l x s P L e Q :
  View s P L e -> x ∈ L l -> Q (Some l) s -> wp E (ld list_of (Some x)) s Q.
Proof.
  intros V Hx HQ. destruct (view_elem _ _ _ _ _ _ V Hx) as (pg & ? & Hl).
  eapply wp_ld_raw; [done|]. by rewrite Hl.
Qed.

Lemma wp_list_of_floating E x s P L e Q :
  View s P L e -> is_Some (P !! x) -> floating L x -> Q None s ->
  wp E (ld list_of (Some x)) s Q.
Proof.
  intros V [pg Hx] Hf HQ. destruct (view_page _ _ _ _ _ _ V Hx) as (pg' & Hpg & _).
  eapply wp_ld_raw; [done|]. by destruct (view_floating _ _ _ _ _ _ V Hf Hpg) as (-> & _).
Qed.

Lemma wp_numentries E l s P L e Q :
  View s P L e -> Q (Z.of_nat (length (L l))) s -> wp E (ldl numentries l) s Q.
Proof. intros V HQ. apply wp_ldl. by destruct (v_header _ _ _ _ V l) as [_ _ -> _]. Qed.

(** [calloc] of a descriptor: a page of its own, on no list. *)
Lemma wp_calloc_page E s P L e (Q : ptr -> state K -> Prop) :
  View s P L e -> Z.of_nat (size P) + 1 < 2 ^ 63 ->
  (forall x s', P !! x = None -> View s' (<[x := zeroed_page]> P) L e -> Q (Some x) s') ->
  wp E calloc_page s Q.
Proof.
  intros V Hsz HQ. unfold wp, calloc_page. set (x := fresh (dom (heap s))).
  assert (heap s !! x = None) as Hx.
  { apply not_elem_of_dom. unfold x. apply is_fresh. }
  assert (P !! x = None) as HPx.
  { rewrite <- (v_payload _ _ _ _ V), lookup_fmap. by rewrite Hx. }
  assert (forall l, x ∉ L l) as Hnl.
  { intros l Hl. destruct (view_elem _ _ _ _ _ _ V Hl) as (pg & ? & _). congruence. }
  apply HQ; [done|]. destruct V as [Hp He Hh Hn Hof Hs]. split; simpl; [|done| |done| |].
  - by rewrite fmap_insert, Hp.
  - intros l. destruct (Hh l) as [? ? ? Hseg]. split; [done..|].
    by apply dseg_frame.
  - intros y pg. destruct (decide (y = x)) as [->|].
    + rewrite lookup_insert_eq. by intros [= <-].
    + rewrite lookup_insert_ne by done. apply Hof.
  - rewrite map_size_insert_None by done. lia.
Qed.
End rules.

(** Membership and floating after a list was updated. *)
Section floating.
Implicit Types (L : fifo_id -> list loc).

Lemma floating_fupd L l xs x : floating L x -> x ∉ xs -> floating (fupd L l xs) x.
Proof.
  intros Hf Hx l'. destruct (decide (l = l')) as [<-|]; [by rewrite fupd_eq|].
  by rewrite fupd_ne.
Qed.

Lemma floating_removed {K} (s : state K) P L e l l1 l2 x :
  View s P L e -> L l = l1 ++ x :: l2 -> floating (fupd L l (l1 ++ l2)) x.
Proof.
  intros V HL l'. destruct (decide (l = l')) as [<-|Hne].
  - rewrite fupd_eq. pose proof (v_nodup _ _ _ _ V l) as Hnd. rewrite HL in Hnd.
    apply NoDup_app in Hnd as (_ & Hd & [Hx _]%NoDup_cons). apply not_elem_of_app.
    split; [|done]. intros H. apply (Hd _ H). left.
  - rewrite fupd_ne by done. intros H. apply Hne. eapply view_disjoint; [done| |done].
    rewrite HL. apply elem_of_app. right. left.
Qed.

Lemma floating_dequeued {K} (s : state K) P L e l xs x :
  View s P L e -> L l = xs ++ [x] -> floating (fupd L l xs) x.
Proof.
  intros V HL. pose proof (floating_removed s P L e l xs [] x V HL) as H.
  by rewrite app_nil_r in H.
Qed.
End floating.

(** Environment projections compute. *)
Ltac esimpl :=
  cbn [glob flag pages held kern self set_glob set_flag set_pages set_held set_kern set_self] in *.

(** Page projections compute. *)
Ltac psimpl :=
  cbn [va virtual_offset in_dram swapped_out pt migrating has_reserve present naccesses reserve
       set_va set_virtual_offset set_in_dram set_swapped_out set_pt set_migrating
       set_has_reserve set_present set_naccesses set_reserve negb].

Ltac vdone := first [eassumption | simplify_map_eq; done | done].

(** Looks [x] up in the map of the view of [s]. *)
Ltac vlookup :=
  first [ eassumption
        | by rewrite lookup_insert_eq
        | repeat (rewrite lookup_insert_ne by congruence);
          first [eassumption | rewrite lookup_insert_eq; reflexivity] ].

Ltac vnext := let s := fresh "s" in let V := fresh "V" in intros s V.

(** Drops the view of a state that is no longer in the goal. *)
Ltac vclear :=
  repeat match goal with
  | V : View ?s _ _ _ |- wp _ _ ?s' _ =>
      lazymatch s with s' => fail | _ => clear V; try clear s end
  end.

Ltac vstep :=
  lazymatch goal with
  | |- wp _ (_ ≫= _) _ _ => apply wp_bind; vstep
  | |- wp _ (mret _) _ _ => apply wp_ret
  | |- wp _ (ld list_of _) _ _ => fail "list_of"
  | |- wp _ (ld _ (Some _)) _ _ => eapply wp_ld; [apply _|eassumption|vlookup|]
  | |- wp _ (st _ (Some _)) _ _ => eapply wp_st; [apply _|eassumption|vlookup|vnext]
  | |- wp _ (rd _) _ _ => eapply wp_rd; [eassumption|]
  | |- wp _ (rdb _) _ _ => eapply wp_rdb; [eassumption|]
  | |- wp _ (wr _ _) _ _ => eapply wp_wr; [eassumption|vnext]
  | |- wp _ (wrb _ _) _ _ => eapply wp_wrb; [eassumption|vnext]
  | |- wp _ (rdt _) _ _ => eapply wp_rdt; [eassumption|]
  | |- wp _ (rdbt _) _ _ => eapply wp_rdbt; [eassumption|]
  | |- wp _ (wrt _ _) _ _ => eapply wp_wrt; [eassumption|vnext]
  | |- wp _ (wrbt _ _) _ _ => eapply wp_wrbt; [eassumption|vnext]
  | |- wp _ (own _) _ _ => eapply wp_own; [eassumption|]
  | |- wp _ (add_to _ _) _ _ => eapply wp_add_to; [eassumption|vnext]
  | |- wp _ (get_env _) _ _ => eapply wp_get_env; [eassumption|]
  | |- wp _ (upd_env _) _ _ => eapply wp_upd_env; [eassumption|vnext]
  | |- wp _ (ldl numentries _) _ _ => eapply wp_numentries; [eassumption|]
  | |- wp _ (assert_ _ _) _ _ =>
      apply wp_assert; [try (first [done | by apply negb_true_iff | apply bool_decide_eq_true_2; first [done | lia | congruence]])|]
  | |- wp _ (pt_to_pagesize BASEP) _ _ => apply wp_pt_BASEP
  | |- wp _ (sys_do _) _ _ => eapply wp_sys_do; [eassumption|vnext]
  | |- wp _ (lock _) _ _ => eapply wp_lock; [eassumption|esimpl; try (by not_in)|vnext]
  | |- wp _ (unlock _) _ _ => eapply wp_unlock_last; [eassumption|reflexivity|esimpl; try (by not_in)|vnext]
  end; vclear; esimpl; psimpl;
  repeat match goal with
  | V : View _ (<[?x := _]> (<[?x := _]> _)) _ _ |- _ => rewrite insert_insert_eq in V
  end.
