(* ===== verification/Uring.v ===== *)
(** * Storage back ends: [storage_iouring.c] and [storagemanager.c]

    [storage_iouring.c] keeps two io_uring rings per thread, set up on first
    use, one for writes (and synchronous reads) and one polled ring for reads;
    it offers a synchronous read and write, a split read (start / finish) and
    batches (prepare, submit all, finish one by one).  [storagemanager.c] is
    the [pread]/[pwrite] back end, not selected in the default build. *)

From S2P Require Import Prelude Kernel State Fifo Rules.

Section functions.
Context {K : Type} `{KernelOps K}.
Local Abbreviation M := (M (state K)).

Definition QD : Z := 128.

Definition uswap_init_iouring : M unit :=
  r ← own io_ring;
  ret ← sys (io_uring_queue_init QD r 0);
  die_if (bool_decide (ret < 0)) "io_uring_queue_init";;
  wrbt uring_init true.

Definition thread_init_iouring : M unit :=
  r ← own io_ring;
  ret ← sys (io_uring_queue_init QD r 0);
  die_if (bool_decide (ret < 0)) "io_uring_queue_init";;
  wrbt uring_init true.

Definition thread_init_read_iouring : M unit :=
  r ← own io_read_ring;
  ret ← sys (io_uring_queue_init QD r IORING_SETUP_IOPOLL);
  die_if (bool_decide (ret < 0)) "io_uring_read_queue_init";;
  wrbt uring_read_init true.

(** [if (uring_init == false) { thread_init_iouring(); uring_init = true; }] *)
Definition ensure_ring : M unit :=
  b ← rdbt uring_init;
  if negb b then thread_init_iouring;; wrbt uring_init true else mret tt.
Definition ensure_read_ring : M unit :=
  b ← rdbt uring_read_init;
  if negb b then thread_init_read_iouring;; wrbt uring_read_init true else mret tt.

(** [sqe = io_uring_get_sqe(r); if (!sqe) ...; io_uring_prep_*(sqe, ...)] *)
Definition prep (r : ring) (x : sqe) : M unit :=
  ok ← sys (io_uring_get_sqe r);
  die_if (negb ok) "io_uring_get_sqe";;
  sys_do (io_uring_prep r x).

(** [if (io_uring_submit(r) < 0) ...]; a ring that was never set up has no
    queues to look at. *)
Definition submit (r : ring) : M unit :=
  ret ← sys_opt BadRing (io_uring_submit r);
  die_if (bool_decide (ret < 0)) "io_uring_submit".

(** [if (io_uring_wait_cqe(r, &cqe) < 0) ...; io_uring_cqe_seen(r, cqe)];
    the result [cqe->res] is not looked at. *)
Definition wait_and_see (r : ring) : M unit :=
  ret ← sys_opt (Blocked "io_uring_wait_cqe") (io_uring_wait_cqe r);
  die_if (bool_decide (ret < 0)) "io_uring_wait_cqe";;
  sys_do (io_uring_cqe_seen r).

Definition ioring_read_store (fd offset buffer size : Z) : M unit :=
  ensure_ring;;
  r ← own io_ring;
  prep r (Sqe false fd buffer size offset);;
  sys_do (io_uring_sqe_set_data r buffer);;
  submit r;;
  wait_and_see r.

Definition ioring_write_store (fd offset data size : Z) : M unit :=
  ensure_ring;;
  r ← own io_ring;
  prep r (Sqe true fd data size offset);;
  submit r;;
  wait_and_see r.

Definition ioring_start_read (fd offset buffer size : Z) : M unit :=
  ensure_read_ring;;
  r ← own io_read_ring;
  prep r (Sqe false fd buffer size offset);;
  sys_do (io_uring_sqe_set_data r buffer);;
  submit r.

Definition ioring_prepare_read (fd offset buffer size : Z) : M unit :=
  ensure_read_ring;;
  r ← own io_read_ring;
  prep r (Sqe false fd buffer size offset).

Definition ioring_submit_all_reads : M unit := r ← own io_read_ring; submit r.

Definition ioring_finish_read (fd offset buffer size : Z) : M unit :=
  b ← rdbt uring_read_init;
  assert_ "uring_read_init == true" b;;
  r ← own io_read_ring;
  wait_and_see r.

Definition ioring_prepare_write (fd offset data size : Z) : M unit :=
  ensure_ring;;
  r ← own io_ring;
  prep r (Sqe true fd data size offset).

Definition ioring_submit_all_writes : M unit := r ← own io_ring; submit r.

Definition ioring_finish_write : M unit := r ← own io_ring; wait_and_see r.

(** ** [storagemanager.c] *)

Definition read_page (fd file_offset dest pagesize : Z) : M unit :=
  ret ← sys (k_pread fd dest pagesize file_offset);
  die_if (bool_decide (ret = -1)) "disk read error".

(** A failed write is reported with [perror] and otherwise ignored. *)
Definition write_page (fd file_offset src pagesize : Z) : M unit :=
  ret ← sys (k_pwrite fd src pagesize file_offset);
  mret tt.
End functions.

(** ** The discipline of the rings

    Between two calls nothing is prepared, the write rings and the rings of
    the other threads are quiet and [infl] are the reads in flight; a ring
    marked as set up is set up. *)

Section discipline.
Context {K D : Type} `{KernelObs K D}.
Implicit Types (e : env K) (infl : list sqe).

(** The variable that says whether the ring was set up. *)
Definition ring_flag (r : ring) : bvar :=
  match r with io_ring t => uring_init t | io_read_ring t => uring_read_init t end.
Lemma ring_flag_inj r r' : ring_flag r = ring_flag r' -> r = r'.
Proof. destruct r, r'; simpl; congruence. Qed.

(** The requests of the thread [t] in flight on each ring. *)
Definition flying (t : thread) infl (r : ring) : list sqe :=
  if decide (r = io_read_ring t) then infl else [].

Lemma flying_own t infl : flying t infl (io_read_ring t) = infl.
Proof. unfold flying. by rewrite decide_True. Qed.
Lemma flying_other t infl r : r <> io_read_ring t -> flying t infl r = [].
Proof. intros Hr. unfold flying. by rewrite decide_False. Qed.
Lemma flying_nil t r : flying t [] r = [].
Proof. unfold flying. by case_decide. Qed.
Lemma in_flying t infl r y : y ∈ flying t infl r -> y ∈ infl.
Proof. unfold flying. case_decide; [done|by intros ?%elem_of_nil]. Qed.

Record rings_ok infl e : Prop := {
  ro_prepared : forall r, prepared (kern e) r = [];
  ro_inflight : forall r, inflight (kern e) r = flying (self e) infl r;
  ro_init : forall r, flag e (ring_flag r) = true ->
    ring_ready (kern e) r = true /\ QD <= sq_entries (kern e) r;
  ro_fresh : forall r, flag e (ring_flag r) = false -> flying (self e) infl r = [];
  ro_reads : Forall (fun y => sq_write y = false) infl }.

Lemma rings_ok_busy_write infl e a : rings_ok infl e -> ~ busy_write (kern e) a.
Proof.
  intros R (r & y & Hy & Hw & _). rewrite (ro_inflight _ _ R) in Hy.
  pose proof (ro_reads _ _ R) as Hr. rewrite Forall_forall in Hr.
  apply in_flying, Hr in Hy. congruence.
Qed.

Lemma rings_ok_busy_read infl e a :
  rings_ok infl e -> busy_read (kern e) a -> exists y, y ∈ infl /\ sq_buf y = a.
Proof.
  intros R (r & y & Hy & _ & Ha). rewrite (ro_inflight _ _ R) in Hy.
  apply in_flying in Hy. eauto.
Qed.

(** The counters, and the variables a policy keeps for its own choices; the
    flags that record what has been set up or who is to be woken. *)
Definition is_counter (x : gvar) : bool :=
  match x with
  | migrations_up | migrations_down | bytes_migrated | migration_waits
  | safe_to_free | main_vma_va | main_vma_size | main_vma_priority => true
  | _ => false
  end.
Definition is_transient (b : bvar) : bool :=
  match b with uring_init _ | uring_read_init _ | kswapd_waiting => true | _ => false end.

Lemma transient_ring r : is_transient (ring_flag r) = true.
Proof. by destruct r. Qed.

(** Steps that change the kernel state and such variables only. *)
Record env_step e e' : Prop := {
  es_glob : forall x, is_counter x = false -> glob e' x = glob e x;
  es_flag : forall b, is_transient b = false -> flag e' b = flag e b;
  es_ring : forall r, flag e (ring_flag r) = true -> flag e' (ring_flag r) = true;
  es_pages : pages e' = pages e;
  es_held : held e' = held e;
  es_self : self e' = self e }.

#[export] Instance env_step_preorder : PreOrder env_step.
Proof.
  split; [by split|]. intros ? ? ? [G1 F1 R1 ? ? ?] [G2 F2 R2 ? ? ?].
  split; [| | |congruence..]; [intros; rewrite G2; auto|intros; rewrite F2; auto|auto].
Qed.

Lemma env_step_set_kern k e : env_step e (set_kern k e).
Proof. by split. Qed.

Lemma env_step_set_glob x v e : is_counter x = true -> env_step e (set_glob x v e).
Proof. intros Hx. split; simpl; intros; [|done..]. rewrite fupd_ne by congruence. done. Qed.

Lemma env_step_set_flag b v e : is_transient b = true -> v = true \/ b = kswapd_waiting ->
  env_step e (set_flag b v e).
Proof.
  intros Hx Hv. split; simpl; [done| | |done..].
  - intros b' Hb'. by rewrite fupd_ne by congruence.
  - intros r Hr. destruct (decide (b = ring_flag r)) as [->|Hne]; [|by rewrite fupd_ne].
    rewrite fupd_eq. destruct Hv as [->|Hv]; [done|by destruct r].
Qed.

(** Memory, disk and mappings as they were. *)
Record same_data (k k' : K) : Prop := {
  sd_mem : same_mem_but (fun _ => False) k k';
  sd_disk : same_disk k k';
  sd_reg : same_reg k k' }.

#[export] Instance same_data_preorder : PreOrder same_data.
Proof.
  split; [by repeat split|]. intros ? ? ? [[M1 D1] O1 ?] [[M2 D2] O2 ?].
  split; [split; intros; rewrite ?M2, ?D2; auto|intros o; by rewrite O2, O1|by etrans].
Qed.

Lemma obs_eq_data (k k' : K) : obs_eq k k' -> same_data k k'.
Proof. intros []. by split. Qed.

Lemma same_data_content (k k' : K) a : same_data k k' -> content k' a = content k a.
Proof. intros [[Hm _] _ _]. unfold content. by rewrite Hm by auto. Qed.

Lemma rings_ok_same infl e k' :
  rings_ok infl e -> same_rings (kern e) k' -> rings_ok infl (set_kern k' e).
Proof.
  intros [Hp Hw Hi Hf] [Sp Si Se Sr].
  split; simpl; intros; rewrite ?Sp, ?Si, ?Se, ?Sr; auto.
Qed.
End discipline.

(** Closes [env_step e e'] for an [e'] written out with the setters. *)
Ltac env_frame :=
  split; esimpl;
  [ intros ? ?; repeat (rewrite fupd_ne by (by intros <-)); done
  | intros ? ?; repeat (rewrite fupd_ne by (by intros <-)); done
  | intros [] ?; repeat (rewrite fupd_ne by (by intros [=])); done | try done | try done | try done ].

(** A filter that tolerates the failure of system calls when the kernel may
    fail them. *)
Class Tolerates (may_fail : Prop) (E : fault -> Prop) : Prop :=
  tolerates : forall what, may_fail -> E (SysFail what).

#[export] Instance tolerates_none : Tolerates False none.
Proof. by intros what []. Qed.

Section proofs.
Context {K D : Type} `{SL : SystemLaws K D may_fail} {E} `{!Tolerates may_fail E}.
Implicit Types (s : state K) (e : env K) (P : gmap loc user_page) (L : fifo_id -> list loc).

(** The error check of a call whose failure is covered by [Tolerates]. *)
Lemma wp_check (b : bool) what s (Q : unit -> state K -> Prop) :
  (b = false \/ may_fail) -> (b = false -> Q tt s) -> wp E (die_if b what) s Q.
Proof. intros Hb HQ. apply wp_die_if; [|done]. destruct Hb; [by left|right; by apply tolerates]. Qed.

(** [thread_init_iouring] and [thread_init_read_iouring]. *)
Lemma wp_thread_init (w : thread -> ring) mode what s P L e infl Q :
  let r := w (self e) in
  View s P L e -> rings_ok infl e -> flag e (ring_flag r) = false ->
  (forall s' k', let e' := set_flag (ring_flag r) true (set_kern k' e) in
     View s' P L e' -> same_data (kern e) k' -> rings_ok infl e' -> Q tt s') ->
  wp E (r ← own w; ret ← sys (io_uring_queue_init QD r mode);
        die_if (bool_decide (ret < 0)) what;; wrbt (fun t => ring_flag (w t)) true) s Q.
Proof.
  intros r V R Hf HQ. apply wp_bind. eapply wp_own; [done|]. fold r.
  apply wp_bind. eapply wp_sys; [done|]. intros ret k' s1 Hk V1.
  apply wp_bind, wp_check.
  { destruct (l_queue_init_ok _ _ _ _ _ _ Hk); [|by right].
    left. apply bool_decide_eq_false_2. lia. }
  intros Hret%bool_decide_eq_false.
  destruct (l_queue_init _ _ _ _ _ _ Hk) as (Hp & Hi & He & Hr & Ho & ? & ? & ?); [lia|].
  eapply wp_wrbt; [done|]. intros s2 V2. apply (HQ _ k'); [done|by split|].
  pose proof (ro_fresh _ _ R _ Hf) as Hfl. destruct R as [Rp Ri Rinit Rf Rrd]. split; simpl.
  - intros r'. destruct (decide (r' = r)) as [->|Hr']; [done|].
    destruct (Ho r' Hr') as (-> & _). done.
  - intros r'. destruct (decide (r' = r)) as [->|Hr']; [congruence|].
    destruct (Ho r' Hr') as (_ & -> & _). done.
  - intros r'. destruct (decide (r' = r)) as [->|Hr']; [done|].
    destruct (Ho r' Hr') as (_ & _ & -> & ->).
    rewrite fupd_ne by (by intros ?%ring_flag_inj). apply Rinit.
  - intros r'. destruct (decide (r' = r)) as [->|Hr']; [by simp_fupd|].
    rewrite fupd_ne by (by intros ?%ring_flag_inj). apply Rf.
  - done.
Qed.

(** [ensure_ring] and [ensure_read_ring]. *)
Lemma wp_ensure (w : thread -> ring) mode what s P L e infl Q :
  let r := w (self e) in
  View s P L e -> rings_ok infl e ->
  (forall s' e', View s' P L e' -> env_step e e' -> same_data (kern e) (kern e') ->
     rings_ok infl e' -> flag e' (ring_flag r) = true -> Q tt s') ->
  wp E (b ← rdbt (fun t => ring_flag (w t));
        if negb b then
          (r ← own w; ret ← sys (io_uring_queue_init QD r mode);
           die_if (bool_decide (ret < 0)) what;; wrbt (fun t => ring_flag (w t)) true);;
          wrbt (fun t => ring_flag (w t)) true
        else mret tt) s Q.
Proof.
  intros r V R HQ. apply wp_bind. eapply wp_rdbt; [done|]. fold r.
  destruct (flag e (ring_flag r)) eqn:Hf; simpl.
  - apply wp_ret. eapply HQ; done.
  - apply wp_bind. eapply wp_thread_init; [done..|]. intros s1 k1 e1 V1 Hd R1.
    eapply wp_wrbt; [done|]. intros s2 V2. eapply HQ; [done|..].
    + etrans; [apply (env_step_set_kern k1)|]. etrans; apply env_step_set_flag; (by left) || apply transient_ring.
    + done.
    + assert (forall b, fupd (fupd (flag e) (ring_flag r) true) (ring_flag r) true b =
        fupd (flag e) (ring_flag r) true b) as Heq.
      { intros b. destruct (decide (ring_flag r = b)) as [<-|]; by simp_fupd. }
      destruct R1 as [? ? Hi Hfr ?]. split; intros; simpl in *; rewrite ?Heq in *; auto.
    + simpl. apply fupd_eq.
Qed.

Lemma wp_ensure_ring s P L e infl Q :
  View s P L e -> rings_ok infl e ->
  (forall s' e', View s' P L e' -> env_step e e' -> same_data (kern e) (kern e') ->
     rings_ok infl e' -> flag e' (uring_init (self e')) = true -> Q tt s') ->
  wp E ensure_ring s Q.
Proof.
  intros V R HQ. eapply (wp_ensure io_ring); [done..|]. intros s' e' V' S D' R' F.
  rewrite <- (es_self _ _ S) in F. by eapply HQ.
Qed.

Lemma wp_ensure_read_ring s P L e infl Q :
  View s P L e -> rings_ok infl e ->
  (forall s' e', View s' P L e' -> env_step e e' -> same_data (kern e) (kern e') ->
     rings_ok infl e' -> flag e' (uring_read_init (self e')) = true -> Q tt s') ->
  wp E ensure_read_ring s Q.
Proof.
  intros V R HQ. eapply (wp_ensure io_read_ring); [done..|]. intros s' e' V' S D' R' F.
  rewrite <- (es_self _ _ S) in F. by eapply HQ.
Qed.

(** Steps that touch the queues of the ring [r] only. *)
Record ring_step r (k k' : K) : Prop := {
  rs_prepared : forall r', r' <> r -> prepared k' r' = prepared k r';
  rs_inflight : forall r', r' <> r -> inflight k' r' = inflight k r';
  rs_entries : forall r', sq_entries k' r' = sq_entries k r';
  rs_ready : forall r', ring_ready k' r' = ring_ready k r' }.

Lemma ring_step_trans r (k k' k'' : K) : ring_step r k k' -> ring_step r k' k'' -> ring_step r k k''.
Proof.
  intros [P1 I1 E1 R1] [P2 I2 E2 R2]. split; intros.
  - by rewrite P2, P1.
  - by rewrite I2, I1.
  - by rewrite E2, E1.
  - by rewrite R2, R1.
Qed.

Lemma ring_step_same r (k k' : K) : same_rings k k' -> ring_step r k k'.
Proof. intros []. by split. Qed.

Lemma wp_prep r x s P L e Q :
  View s P L e -> Z.of_nat (length (prepared (kern e) r)) < sq_entries (kern e) r ->
  (forall s' k', View s' P L (set_kern k' e) -> same_data (kern e) k' ->
     prepared k' r = prepared (kern e) r ++ [x] -> inflight k' r = inflight (kern e) r ->
     ring_step r (kern e) k' -> Q tt s') ->
  wp E (prep r x) s Q.
Proof.
  intros V Hlt HQ. unfold prep.
  apply wp_bind. eapply wp_sys; [done|]. intros b k1 s1 Hk V1.
  pose proof (l_get_sqe _ _ _ _ Hk) as Heq.
  rewrite (l_get_sqe_ok _ _ _ _ Hk) by done. simpl.
  apply wp_bind, wp_ret. eapply wp_sys_do; [done|]. intros s2 V2. simpl in V2.
  destruct (l_prep r x k1) as (Hp & Hp' & Hi & He & Hr & Hm & Hd & Hg).
  destruct Heq as [Hm0 Hd0 Ho0 Hg0 [Sp Si Se Sr]].
  apply (HQ s2 (io_uring_prep r x k1)); [done| | | |].
  - etrans; [|by split]. by split; [split; auto|..].
  - by rewrite Hp, Sp.
  - by rewrite Hi, Si.
  - split; intros; [by rewrite Hp', Sp|by rewrite Hi, Si|by rewrite He, Se|by rewrite Hr, Sr].
Qed.

(** A submission, whatever the batch. *)
Lemma wp_submit r s P L e (Q : unit -> state K -> Prop) :
  View s P L e -> ring_ready (kern e) r = true \/ E BadRing ->
  (forall s' ret k', View s' P L (set_kern k' e) -> io_uring_submit r (kern e) = Some (ret, k') ->
     0 <= ret -> prepared k' r = [] ->
     inflight k' r = inflight (kern e) r ++ prepared (kern e) r ->
     ring_step r (kern e) k' -> same_reg (kern e) k' -> Q tt s') ->
  wp E (submit r) s Q.
Proof.
  intros V Hr HQ. unfold submit. apply wp_bind.
  eapply wp_sys_opt_fault; [done|destruct Hr; [left; by apply l_submit_ready|by right]|]. intros ret k' s1 Hk V1.
  apply wp_check.
  { destruct (l_submit_ok _ _ _ _ Hk); [|by right]. left. apply bool_decide_eq_false_2. lia. }
  intros Hret%bool_decide_eq_false.
  destruct (l_submit _ _ _ _ Hk) as (Hp & Hi & Ho & He & Hrd & Hg); [lia|].
  eapply HQ; [done..|lia|done|done| |done]. split; [| |done|done]; intros r' Hr'; by apply Ho.
Qed.

(** Waiting for one completion of a ring with requests in flight. *)
Lemma wp_wait_and_see r s P L e (Q : unit -> state K -> Prop) :
  View s P L e -> inflight (kern e) r <> [] ->
  (forall s' k', View s' P L (set_kern k' e) -> same_data (kern e) k' ->
     (exists x, inflight (kern e) r ≡ₚ x :: inflight k' r) ->
     prepared k' r = prepared (kern e) r -> ring_step r (kern e) k' -> Q tt s') ->
  wp E (wait_and_see r) s Q.
Proof.
  intros V Hr HQ. unfold wait_and_see. apply wp_bind.
  eapply wp_sys_opt; [done|by apply l_wait_blocks|]. intros ret k' s1 Hk V1.
  apply wp_bind, wp_check.
  { destruct (l_wait_ok _ _ _ _ Hk); [|by right]. left. apply bool_decide_eq_false_2. lia. }
  intros Hret%bool_decide_eq_false.
  destruct (l_wait _ _ _ _ Hk) as ((x & Hx) & Hi & Hp & He & Hrd & Hm & Hd & Hg); [lia|].
  eapply wp_sys_do; [done|]. intros s2 V2. simpl in V2.
  destruct (l_seen r k') as [Hm0 Hd0 Ho0 Hg0 [Sp Si Se Sr]].
  eapply HQ; [done| | | |].
  - etrans; [|by apply obs_eq_data, l_seen]. by split.
  - exists x. by rewrite Si.
  - by rewrite Sp, Hp.
  - split; intros; [by rewrite Sp, Hp|rewrite Si; auto|by rewrite Se, He|by rewrite Sr, Hrd].
Qed.

(** The request [x] shares no disk slot and no buffer with [infl]. *)
Definition apart (infl : list sqe) (x : sqe) : Prop :=
  Forall (fun y => sq_off y <> sq_off x /\ sq_buf y <> sq_buf x) infl.

Lemma apart_no_conflict infl e x l :
  rings_ok infl e -> apart infl x -> l = [x] -> no_conflict (kern e) l.
Proof.
  intros R Ha ->. intros r y z Hy Hz%list_elem_of_singleton. subst z.
  rewrite (ro_inflight _ _ R) in Hy. apply in_flying in Hy.
  unfold apart in Ha. rewrite Forall_forall in Ha. by apply Ha.
Qed.

(** Preparing and submitting one request on a quiet ring that is set up:
    the ring then has this request in flight besides the earlier ones. *)
Lemma wp_prep_submit {A} r x pre (k : M (state K) A) s P L e infl Q :
  View s P L e -> rings_ok infl e -> apart infl x -> sq_len x = PAGE_SIZE ->
  ring_ready (kern e) r = true -> QD <= sq_entries (kern e) r ->
  pre = (mret tt : M (state K) unit) \/ (exists d, pre = sys_do (io_uring_sqe_set_data r d)) ->
  (forall s' k', View s' P L (set_kern k' e) -> ring_step r (kern e) k' ->
     prepared k' r = [] -> inflight k' r = inflight (kern e) r ++ [x] ->
     same_reg (kern e) k' ->
     (if sq_write x
      then (DeviceCompletes K D -> disk k' (sq_off x) = content (kern e) (sq_buf x)) /\
           (forall o, o <> sq_off x -> disk k' o = disk (kern e) o) /\
           same_mem_but (fun _ => False) (kern e) k'
      else (DeviceCompletes K D -> mem k' (sq_buf x) = Some (disk (kern e) (sq_off x))) /\
           same_disk (kern e) k' /\ same_mem_but (fun a => a = sq_buf x) (kern e) k') ->
     wp E k s' Q) ->
  wp E (prep r x;; pre;; submit r;; k) s Q.
Proof.
  intros V R Ha Hlen Hrd Hqd Hpre HQ. unfold QD in *.
  apply wp_bind. eapply wp_prep; [done|rewrite (ro_prepared _ _ R); simpl; lia|].
  intros s1 k1 V1 Hd1 Hp1 Hi1 Hr1. rewrite (ro_prepared _ _ R) in Hp1. simpl in Hp1.
  apply wp_bind.
  assert (forall s2 k2, View s2 P L (set_kern k2 (set_kern k1 e)) -> obs_eq k1 k2 ->
    wp E (submit r;; k) s2 Q) as Hsub.
  { intros s2 k2 V2 [Hm0 Hd0 Ho0 Hg0 S0]. pose proof S0 as [Sp Si Se Sr].
    assert (same_data (kern e) k2) as Hd2 by (etrans; [exact Hd1|by split]).
    apply wp_bind. eapply wp_submit; [done|left; simpl; by rewrite Sr, (rs_ready _ _ _ Hr1)|].
    simpl. intros s3 ret k3 V3 Hk Hret Hp3 Hi3 Hr3 Hg3. rewrite Sp, Si, Hp1, Hi1 in Hi3.
    assert (no_conflict k2 [x]) as Hnc.
    { intros r' y z Hy Hz. eapply (apart_no_conflict infl e x [x]); [done|done|done| |exact Hz].
      destruct (decide (r' = r)) as [->|]; [by rewrite Si, Hi1 in Hy|].
      by rewrite Si, (rs_inflight _ _ _ Hr1) in Hy. }
    assert (prepared k2 r = [x]) as Hpx by by rewrite Sp.
    eapply HQ; [done| |done|done| |].
    - eapply ring_step_trans; [done|]. eapply ring_step_trans; [by apply ring_step_same|done].
    - etrans; [by apply sd_reg|done].
    - destruct (sq_write x) eqn:Hw.
      + assert (Forall (fun x => sq_write x = true /\ sq_len x = PAGE_SIZE) (prepared k2 r)) as HF
          by (rewrite Hpx; by apply Forall_singleton).
        destruct (l_submit_writes r k2 ret k3 Hk Hret HF) as (H2 & H3). rewrite Hpx in H2. split_and!.
        * intros DC. rewrite (l_completed_writes r k2 ret k3 Hk Hret HF)
            by (rewrite Hpx; first [exact Hnc|apply NoDup_singleton|left]).
          by apply same_data_content.
        * intros o Ho. rewrite H2 by (by intros ?%list_elem_of_singleton). by apply sd_disk.
        * destruct Hd2 as [[M2 D2] _ _]. destruct H3 as [M3 D3].
          split; intros a Ha'; rewrite ?M3, ?D3; auto.
      + assert (Forall (fun x => sq_write x = false /\ sq_len x = PAGE_SIZE) (prepared k2 r)) as HF
          by (rewrite Hpx; by apply Forall_singleton).
        destruct (l_submit_reads r k2 ret k3 Hk Hret HF) as (H2 & H3). rewrite Hpx in H2. split_and!.
        * intros DC. rewrite (l_completed_reads r k2 ret k3 Hk Hret HF)
            by (rewrite Hpx; first [exact Hnc|apply NoDup_singleton|left]).
          f_equal. by apply sd_disk.
        * intros o. rewrite H3. by apply sd_disk.
        * destruct Hd2 as [[M2 D2] _ _]. destruct H2 as [M3 D3].
          split; intros a Ha'; simpl in *; rewrite ?M3, ?D3 by (by intros ?%list_elem_of_singleton); auto. }
  destruct Hpre as [->|[d ->]].
  - apply wp_ret. apply (Hsub s1 k1); [by destruct e|done].
  - eapply wp_sys_do; [done|]. intros s2 V2. eapply Hsub; [done|]. apply l_set_data.
Qed.

Lemma wp_seq_ret (m1 m2 m3 : M (state K) unit) s Q :
  wp E (m1;; m2;; m3;; mret tt) s Q -> wp E (m1;; m2;; m3) s Q.
Proof.
  unfold wp, mbind, M_bind, mret, M_ret. destruct (m1 s) as [? s1|]; [|done].
  destruct (m2 s1) as [? s2|]; [|done]. by destruct (m3 s2) as [[]|].
Qed.

Lemma env_step_trans_set e e1 k : env_step e e1 -> env_step e (set_kern k e1).
Proof. intros []. by split. Qed.

(** The ring [r] after its only request was submitted and has completed. *)
Lemma ring_back_quiet r infl e k k' x :
  rings_ok infl e -> ring_step r (kern e) k -> inflight k r = flying (self e) infl r ++ [x] ->
  flag e (ring_flag r) = true -> ring_step r k k' ->
  (exists y, inflight k r ≡ₚ y :: inflight k' r) -> flying (self e) infl r = [] ->
  prepared k' r = [] -> rings_ok infl (set_kern k' e).
Proof.
  intros [Rp Ri Rinit Rf Rrd] H1 Hi Hfl H2 [y Hy] Hnil Hp.
  pose proof (ring_step_trans _ _ _ _ H1 H2) as [Sp Si Se Sr].
  rewrite Hi, Hnil in Hy. apply Permutation_length in Hy. simpl in Hy.
  split; simpl; [| |intros r'; rewrite Sr, Se; apply Rinit|done|done].
  - intros r'. destruct (decide (r' = r)) as [->|]; [done|by rewrite Sp].
  - intros r'. destruct (decide (r' = r)) as [->|]; [|by rewrite Si].
    rewrite Hnil. destruct (inflight k' r); [done|simpl in Hy; lia].
Qed.

(** Writing a page: afterwards the slot holds the content of the buffer, if
    the device completed the request. *)
Lemma wp_ioring_write_store fd off data s P L e infl Q :
  View s P L e -> rings_ok infl e -> apart infl (Sqe true fd data PAGE_SIZE off) ->
  (forall s' e', View s' P L e' -> env_step e e' -> rings_ok infl e' ->
     (DeviceCompletes K D -> disk (kern e') off = content (kern e) data) ->
     (forall o, o <> off -> disk (kern e') o = disk (kern e) o) ->
     same_mem_but (fun _ => False) (kern e) (kern e') ->
     same_reg (kern e) (kern e') -> Q tt s') ->
  wp E (ioring_write_store fd off data PAGE_SIZE) s Q.
Proof.
  intros V R Ha HQ. unfold ioring_write_store. apply wp_bind.
  eapply wp_ensure_ring; [done..|]. intros s1 e1 V1 S1 D1 R1 F1.
  destruct (ro_init _ _ R1 (io_ring (self e1)) F1) as [Hrd Hqd]. vstep. set (r := io_ring (self e1)) in *.
  change (wp E (prep r (Sqe true fd data PAGE_SIZE off);;
    (mret tt : M (state K) unit);; submit r;; wait_and_see r) s1 Q).
  eapply wp_prep_submit; [done..|by left|]. simpl.
  intros s2 k2 V2 T2 Hp2 Hi2 Hg2 (Hdk & Hdk' & Hm).
  rewrite (ro_inflight _ _ R1) in Hi2.
  eapply wp_wait_and_see; [done|simpl; rewrite Hi2; by destruct (flying _ _ _)|]. simpl.
  intros s3 k3 V3 D3 Hx Hp3 T3.
  apply (HQ s3 (set_kern k3 e1)); [done|by apply env_step_trans_set| | | | |]; simpl.
  - eapply (ring_back_quiet r _ _ k2); [done..|by apply flying_other|by rewrite Hp3].
  - intros DC. rewrite (sd_disk _ _ D3), Hdk by done. by apply same_data_content.
  - intros o Ho. rewrite (sd_disk _ _ D3), Hdk' by done. by apply sd_disk.
  - etrans; [apply D1|]. etrans; [apply Hm|apply D3].
  - etrans; [apply D1|]. etrans; [apply Hg2|apply D3].
Qed.

(** Reading a page synchronously: afterwards the buffer holds the slot. *)
Lemma wp_ioring_read_store fd off buf s P L e infl Q :
  View s P L e -> rings_ok infl e -> apart infl (Sqe false fd buf PAGE_SIZE off) ->
  (forall s' e', View s' P L e' -> env_step e e' -> rings_ok infl e' ->
     (DeviceCompletes K D -> mem (kern e') buf = Some (disk (kern e) off)) ->
     same_mem_but (fun a => a = buf) (kern e) (kern e') ->
     same_disk (kern e) (kern e') -> same_reg (kern e) (kern e') -> Q tt s') ->
  wp E (ioring_read_store fd off buf PAGE_SIZE) s Q.
Proof.
  intros V R Ha HQ. unfold ioring_read_store. apply wp_bind.
  eapply wp_ensure_ring; [done..|]. intros s1 e1 V1 S1 D1 R1 F1.
  destruct (ro_init _ _ R1 (io_ring (self e1)) F1) as [Hrd Hqd]. vstep. set (r := io_ring (self e1)) in *.
  eapply wp_prep_submit; [done..|by right; eexists|]. simpl.
  intros s2 k2 V2 T2 Hp2 Hi2 Hg2 (Hbuf & Hdk & Hm).
  rewrite (ro_inflight _ _ R1) in Hi2.
  eapply wp_wait_and_see; [done|simpl; rewrite Hi2; by destruct (flying _ _ _)|]. simpl.
  intros s3 k3 V3 D3 Hx Hp3 T3.
  apply (HQ s3 (set_kern k3 e1)); [done|by apply env_step_trans_set| | | | |]; simpl.
  - eapply (ring_back_quiet r _ _ k2); [done..|by apply flying_other|by rewrite Hp3].
  - intros DC. rewrite (sm_mem _ _ _ (sd_mem _ _ D3)), Hbuf by auto. f_equal. by apply sd_disk.
  - etrans; [eapply same_mem_but_mono, D1; done|].
    etrans; [apply Hm|eapply same_mem_but_mono, D3; done].
  - etrans; [apply D1|]. etrans; [apply Hdk|apply D3].
  - etrans; [apply D1|]. etrans; [apply Hg2|apply D3].
Qed.

(** Starting a read: the buffer counts as filled, but is in flight. *)
Lemma wp_ioring_start_read fd off buf s P L e infl Q :
  let x := Sqe false fd buf PAGE_SIZE off in
  View s P L e -> rings_ok infl e -> apart infl x ->
  (forall s' e', View s' P L e' -> env_step e e' -> rings_ok (infl ++ [x]) e' ->
     (DeviceCompletes K D -> mem (kern e') buf = Some (disk (kern e) off)) ->
     same_mem_but (fun a => a = buf) (kern e) (kern e') ->
     same_disk (kern e) (kern e') -> same_reg (kern e) (kern e') -> Q tt s') ->
  wp E (ioring_start_read fd off buf PAGE_SIZE) s Q.
Proof.
  intros x V R Ha HQ. unfold ioring_start_read. apply wp_bind.
  eapply wp_ensure_read_ring; [done..|]. intros s1 e1 V1 S1 D1 R1 F1.
  destruct (ro_init _ _ R1 (io_read_ring (self e1)) F1) as [Hrd Hqd]. vstep. set (r := io_read_ring (self e1)) in *.
  apply wp_seq_ret.
  eapply wp_prep_submit; [done..|by right; eexists|]. simpl.
  intros s2 k2 V2 T2 Hp2 Hi2 Hg2 (Hbuf & Hdk & Hm). apply wp_ret.
  apply (HQ s2 (set_kern k2 e1)); [done|by apply env_step_trans_set| | | | |]; simpl.
  - destruct T2 as [Tp Ti Te Tr]. destruct R1 as [Rp Ri Rinit Rf Rrd]. split; simpl.
    + intros r'. destruct (decide (r' = r)) as [->|]; [done|by rewrite Tp].
    + intros r'. destruct (decide (r' = r)) as [->|]; [by rewrite Hi2, Ri; unfold r; rewrite !flying_own|].
      by rewrite Ti, Ri, !flying_other.
    + intros r'. rewrite Tr, Te. apply Rinit.
    + intros r' Hf. destruct (decide (r' = r)) as [->|]; [unfold r in Hf; simpl in Hf; congruence|by rewrite flying_other].
    + apply Forall_app. by rewrite Forall_singleton.
  - intros DC. rewrite Hbuf by done. f_equal. by apply sd_disk.
  - etrans; [eapply same_mem_but_mono, D1; done|]. apply Hm.
  - etrans; [apply D1|]. apply Hdk.
  - etrans; [apply D1|]. apply Hg2.
Qed.

(** Waiting for one of the reads in flight. *)
Lemma wp_ioring_finish_one fd off buf size s P L e infl (Q : unit -> state K -> Prop) :
  View s P L e -> rings_ok infl e -> infl <> [] ->
  (forall s' k' y infl', View s' P L (set_kern k' e) -> infl ≡ₚ y :: infl' ->
     rings_ok infl' (set_kern k' e) -> flag e (uring_read_init (self e)) = true ->
     same_data (kern e) k' -> Q tt s') ->
  wp E (ioring_finish_read fd off buf size) s Q.
Proof.
  intros V R Hne HQ. unfold ioring_finish_read. apply wp_bind. eapply wp_rdbt; [done|].
  set (r := io_read_ring (self e)). destruct (flag e (uring_read_init (self e))) eqn:Hf.
  2:{ pose proof (ro_fresh _ _ R r Hf) as Hn. unfold r in Hn. by rewrite flying_own in Hn. }
  apply wp_bind, wp_assert; [done|]. vstep. fold r.
  assert (inflight (kern e) r = infl) as Hir by (rewrite (ro_inflight _ _ R); apply flying_own).
  eapply wp_wait_and_see; [done|by rewrite Hir|].
  intros s1 k1 V1 D1 [y Hy] Hp T1. rewrite Hir in Hy.
  apply (HQ s1 k1 y (inflight k1 r)); [done|done| |done|done].
  destruct R as [Rp Ri Rinit Rf Rrd]. destruct T1 as [Tp Ti Te Tr]. split; simpl.
  - intros r'. destruct (decide (r' = r)) as [->|]; [by rewrite Hp|by rewrite Tp].
  - intros r'. destruct (decide (r' = r)) as [->|]; [unfold r; by rewrite flying_own|].
    by rewrite Ti, Ri, !flying_other.
  - intros r'. rewrite Tr, Te. apply Rinit.
  - intros r' Hr. destruct (decide (r' = r)) as [->|]; [unfold r in Hr; simpl in Hr; congruence|by rewrite flying_other].
  - rewrite Hy in Rrd. by apply Forall_cons in Rrd as [_ ?].
Qed.

Lemma wp_ioring_finish_read fd off buf size x s P L e Q :
  View s P L e -> rings_ok [x] e ->
  (forall s' e', View s' P L e' -> env_step e e' -> rings_ok [] e' ->
     flag e' (uring_read_init (self e')) = true -> same_data (kern e) (kern e') -> Q tt s') ->
  wp E (ioring_finish_read fd off buf size) s Q.
Proof.
  intros V R HQ. eapply wp_ioring_finish_one; [done..|].
  intros s' k' y infl' V' Hperm R' Hf Dt. apply Permutation_length in Hperm.
  destruct infl'; [|done]. apply (HQ s' (set_kern k' e)); [done|by split|done..].
Qed.

(** ** Batches of reads *)

(** [infl] is in flight and [xs] prepared on the read ring. *)
Record rings_batch infl (xs : list sqe) e : Prop := {
  rb_prepared : forall r, prepared (kern e) r = flying (self e) xs r;
  rb_inflight : forall r, inflight (kern e) r = flying (self e) infl r;
  rb_init : forall r, flag e (ring_flag r) = true ->
    ring_ready (kern e) r = true /\ QD <= sq_entries (kern e) r;
  rb_fresh : forall r, flag e (ring_flag r) = false -> flying (self e) infl r = [];
  rb_reads : Forall (fun y => sq_write y = false) infl }.

Lemma rings_batch_nil infl e : rings_ok infl e -> rings_batch infl [] e.
Proof. intros [Rp ????]. split; [|done..]. intros r. by rewrite Rp, flying_nil. Qed.

Lemma wp_ioring_prepare_read fd off buf s P L e infl xs (Q : unit -> state K -> Prop) :
  View s P L e -> rings_batch infl xs e -> flag e (uring_read_init (self e)) = true \/ rings_ok infl e /\ xs = [] ->
  Z.of_nat (length xs) < QD ->
  (forall s' e', View s' P L e' -> env_step e e' ->
     rings_batch infl (xs ++ [Sqe false fd buf PAGE_SIZE off]) e' ->
     same_data (kern e) (kern e') -> flag e' (uring_read_init (self e')) = true -> Q tt s') ->
  wp E (ioring_prepare_read fd off buf PAGE_SIZE) s Q.
Proof.
  intros V R Hor Hlen HQ. unfold ioring_prepare_read.
  assert (forall s1 e1, View s1 P L e1 -> env_step e e1 -> same_data (kern e) (kern e1) ->
    rings_batch infl xs e1 -> flag e1 (uring_read_init (self e1)) = true ->
    wp E (r ← own io_read_ring; prep r (Sqe false fd buf PAGE_SIZE off)) s1 Q) as Hgo.
  { intros s1 e1 V1 S1 D1 [Rp Ri Rinit Rf Rrd] Hf. vstep. set (r := io_read_ring (self e1)) in *.
    destruct (Rinit r Hf) as [_ Hqd].
    assert (prepared (kern e1) r = xs) as Hpr by (rewrite Rp; apply flying_own).
    eapply wp_prep; [done|rewrite Hpr; lia|]. intros s2 k2 V2 D2 Hp2 Hi2 [Tp Ti Te Tr].
    apply (HQ s2 (set_kern k2 e1)); [done|by apply env_step_trans_set| |by etrans|done].
    split; simpl; [| | |done|done].
    - intros r'. destruct (decide (r' = r)) as [->|]; [rewrite Hp2, Hpr; unfold r; by rewrite flying_own|].
      by rewrite Tp, Rp, !flying_other.
    - intros r'. destruct (decide (r' = r)) as [->|]; [by rewrite Hi2, Ri|by rewrite Ti, Ri].
    - intros r'. rewrite Tr, Te. apply Rinit. }
  apply wp_bind. destruct (flag e (uring_read_init (self e))) eqn:Hf.
  - unfold ensure_read_ring. apply wp_bind. eapply wp_rdbt; [done|]. rewrite Hf. simpl. apply wp_ret.
    by apply (Hgo s e).
  - destruct Hor as [|[Ro ->]]; [done|].
    eapply wp_ensure_read_ring; [done..|]. intros s1 e1 V1 S1 D1 R1 Hf1.
    apply (Hgo s1 e1); [done..|by apply rings_batch_nil|done].
Qed.

(** Submission: the buffers are filled, the reads in flight.  A ring that was
    never set up, because no read was ever prepared, is a fault. *)
Lemma wp_ioring_submit_all_reads s P L e infl xs (Q : unit -> state K -> Prop) :
  View s P L e -> rings_batch infl xs e -> flag e (uring_read_init (self e)) = true \/ xs = [] /\ E BadRing ->
  Forall (fun x => sq_write x = false /\ sq_len x = PAGE_SIZE) xs -> NoDup (sq_buf <$> xs) ->
  Forall (apart infl) xs ->
  (forall s' k', View s' P L (set_kern k' e) -> rings_ok (infl ++ xs) (set_kern k' e) ->
     (DeviceCompletes K D -> forall x, x ∈ xs -> mem k' (sq_buf x) = Some (disk (kern e) (sq_off x))) ->
     same_mem_but (fun a => a ∈ (sq_buf <$> xs)) (kern e) k' -> same_disk (kern e) k' ->
     same_reg (kern e) k' -> Q tt s') ->
  wp E ioring_submit_all_reads s Q.
Proof.
  intros V [Rp Ri Rinit Rf Rrd] Hf Hrd Hnd Hap HQ. unfold ioring_submit_all_reads.
  vstep. set (r := io_read_ring (self e)) in *.
  eapply wp_submit; [done|destruct Hf as [Hf|[_ HE]]; [left; by apply Rinit|by right]|]. intros s1 ret k1 V1 Hk Hret Hp1 Hi1 [Tp Ti Te Tr] Hg1.
  assert (prepared (kern e) r = xs) as Hpr by (rewrite Rp; apply flying_own).
  assert (Forall (fun x => sq_write x = false /\ sq_len x = PAGE_SIZE) (prepared (kern e) r)) as HF by by rewrite Hpr.
  destruct (l_submit_reads r (kern e) ret k1 Hk Hret HF) as (Hmo & Hd).
  assert (no_conflict (kern e) xs) as Hnc.
  { intros r' y z Hy Hz. rewrite Ri in Hy. apply in_flying in Hy. rewrite Forall_forall in Hap.
    specialize (Hap z Hz). unfold apart in Hap. rewrite Forall_forall in Hap. by apply Hap. }
  rewrite Hpr in Hmo. apply (HQ s1 k1); [done| | |done..].
  2:{ intros DC. rewrite <- Hpr. by apply (l_completed_reads r (kern e) ret k1); rewrite ?Hpr. }
  split; simpl.
  - intros r'. destruct (decide (r' = r)) as [->|]; [done|by rewrite Tp, Rp, flying_other].
  - intros r'. destruct (decide (r' = r)) as [->|]; [rewrite Hi1, Ri, Hpr; unfold r; by rewrite !flying_own|].
    by rewrite Ti, Ri, !flying_other.
  - intros r'. rewrite Tr, Te. apply Rinit.
  - intros r' Hr. destruct (decide (r' = r)) as [->|]; [|by rewrite flying_other].
    destruct Hf as [Hf|[-> _]]; [unfold r in Hr; simpl in Hr; congruence|rewrite app_nil_r; by apply Rf].
  - apply Forall_app. split; [done|]. eapply Forall_impl; [exact Hrd|]. by intros ? [].
Qed.
(** ** Batches of writes *)

(** [ps] is prepared and [fs] in flight on the write ring of the running
    thread, [infl] in flight on its read ring. *)
Record rings_writes infl (ps fs : list sqe) e : Prop := {
  rw_prepared : forall r, prepared (kern e) r = if decide (r = io_ring (self e)) then ps else [];
  rw_inflight : forall r, inflight (kern e) r = if decide (r = io_ring (self e)) then fs else flying (self e) infl r;
  rw_init : forall r, flag e (ring_flag r) = true ->
    ring_ready (kern e) r = true /\ QD <= sq_entries (kern e) r;
  rw_fresh : flag e (uring_init (self e)) = false -> ps = [] /\ fs = [];
  rw_read_fresh : flag e (uring_read_init (self e)) = false -> infl = [];
  rw_reads : Forall (fun y => sq_write y = false) infl }.

Lemma rings_writes_quiet infl e : rings_writes infl [] [] e <-> rings_ok infl e.
Proof.
  split.
  - intros [Rp Ri Rn _ Rf Rr]. split; [| |done| |done].
    + intros r. rewrite Rp. by case_decide.
    + intros r. rewrite Ri. case_decide; [by subst|done].
    + intros r Hf. unfold flying. case_decide; [subst; by apply Rf|done].
  - intros [Rp Ri Rn Rf Rr]. split; [| |done|done| |done].
    + intros r. rewrite Rp. by case_decide.
    + intros r. rewrite Ri. case_decide; [by subst|done].
    + intros Hf. pose proof (Rf (io_read_ring (self e)) Hf) as Hn. by rewrite flying_own in Hn.
Qed.

Lemma wp_ioring_prepare_write fd off data s P L e infl ps (Q : unit -> state K -> Prop) :
  View s P L e -> rings_writes infl ps [] e -> Z.of_nat (length ps) < QD ->
  (forall s' e', View s' P L e' -> env_step e e' ->
     rings_writes infl (ps ++ [Sqe true fd data PAGE_SIZE off]) [] e' ->
     same_data (kern e) (kern e') -> flag e' (uring_init (self e')) = true -> Q tt s') ->
  wp E (ioring_prepare_write fd off data PAGE_SIZE) s Q.
Proof.
  intros V R Hlen HQ. unfold ioring_prepare_write.
  assert (forall s1 e1, View s1 P L e1 -> env_step e e1 -> same_data (kern e) (kern e1) ->
    rings_writes infl ps [] e1 -> flag e1 (uring_init (self e1)) = true ->
    wp E (r ← own io_ring; prep r (Sqe true fd data PAGE_SIZE off)) s1 Q) as Hgo.
  { intros s1 e1 V1 S1 D1 [Rp Ri Rn Rf Rrf Rr] Hf1. vstep. set (r := io_ring (self e1)) in *. destruct (Rn r Hf1) as [Hrd Hqd].
    assert (prepared (kern e1) r = ps) as Hpr by (rewrite Rp; by rewrite decide_True).
    eapply wp_prep; [done|rewrite Hpr; lia|]. intros s2 k2 V2 D2 Hp2 Hi2 [Tp Ti Te Tr].
    apply (HQ s2 (set_kern k2 e1)); [done|by apply env_step_trans_set| |by etrans|done].
    split; simpl; [| | |congruence|done|done].
    - intros r'. fold r. case_decide as Hr; [subst r'; by rewrite Hp2, Hpr|].
      rewrite Tp, Rp by done. by rewrite decide_False.
    - intros r'. destruct (decide (r' = r)) as [->|]; [by rewrite Hi2, Ri|by rewrite Ti, Ri].
    - intros r'. rewrite Tr, Te. apply Rn. }
  apply wp_bind. destruct (flag e (uring_init (self e))) eqn:Hf.
  - unfold ensure_ring. apply wp_bind. eapply wp_rdbt; [done|]. rewrite Hf. simpl. apply wp_ret.
    by apply (Hgo s e).
  - destruct (rw_fresh _ _ _ _ R Hf) as [-> _].
    eapply wp_ensure_ring; [done|by apply rings_writes_quiet|]. intros s1 e1 V1 S1 D1 R1 Hf1.
    apply (Hgo s1 e1); [done..|by apply rings_writes_quiet|done].
Qed.

(** Submission: the slots hold the contents of the buffers.  A ring that was
    never set up, because no write was ever prepared, is a fault. *)
Lemma wp_ioring_submit_all_writes s P L e infl ps (Q : unit -> state K -> Prop) :
  View s P L e -> rings_writes infl ps [] e -> flag e (uring_init (self e)) = true \/ E BadRing ->
  Forall (fun x => sq_write x = true /\ sq_len x = PAGE_SIZE) ps -> NoDup (sq_off <$> ps) ->
  Forall (apart infl) ps ->
  (forall s' k', View s' P L (set_kern k' e) -> rings_writes infl [] ps (set_kern k' e) ->
     (DeviceCompletes K D -> forall x, x ∈ ps -> disk k' (sq_off x) = content (kern e) (sq_buf x)) ->
     (forall o, o ∉ (sq_off <$> ps) -> disk k' o = disk (kern e) o) ->
     same_mem_but (fun _ => False) (kern e) k' -> same_reg (kern e) k' -> Q tt s') ->
  wp E ioring_submit_all_writes s Q.
Proof.
  intros V [Rp Ri Rn Rf Rrf Rr] Hf Hw Hnd Hap HQ. unfold ioring_submit_all_writes.
  vstep. set (r := io_ring (self e)) in *.
  eapply wp_submit; [done|destruct Hf as [Hf|]; [left; by apply (Rn r)|by right]|]. intros s1 ret k1 V1 Hk Hret Hp1 Hi1 [Tp Ti Te Tr] Hg1.
  assert (prepared (kern e) r = ps) as Hpr by (rewrite Rp; by rewrite decide_True).
  assert (inflight (kern e) r = []) as Hir by (rewrite Ri; by rewrite decide_True).
  assert (Forall (fun x => sq_write x = true /\ sq_len x = PAGE_SIZE) (prepared (kern e) r)) as HF by by rewrite Hpr.
  destruct (l_submit_writes r (kern e) ret k1 Hk Hret HF) as (H2 & H3).
  assert (no_conflict (kern e) ps) as Hnc.
  { intros r' y z Hy Hz. rewrite Ri in Hy. rewrite Forall_forall in Hap.
    specialize (Hap z Hz). unfold apart in Hap. rewrite Forall_forall in Hap.
    case_decide; [by apply elem_of_nil in Hy|]. by eapply Hap, in_flying. }
  rewrite Hpr in H2. apply (HQ s1 k1); [done| | |done..].
  2:{ intros DC. rewrite <- Hpr. by apply (l_completed_writes r (kern e) ret k1); rewrite ?Hpr. }
  split; simpl; [| | |by intros [-> _]%Rf|done|done].
  - intros r'. fold r. case_decide as Hr; [by subst|]. rewrite Tp, Rp by done. by rewrite decide_False.
  - intros r'. fold r. case_decide as Hr; [subst r'; by rewrite Hi1, Hir, Hpr|].
    rewrite Ti, Ri by done. by rewrite decide_False.
  - intros r'. rewrite Tr, Te. apply Rn.
Qed.

Lemma wp_ioring_finish_write s P L e infl fs (Q : unit -> state K -> Prop) :
  View s P L e -> rings_writes infl [] fs e -> fs <> [] ->
  (forall s' k' fs', View s' P L (set_kern k' e) -> S (length fs') = length fs ->
     rings_writes infl [] fs' (set_kern k' e) -> same_data (kern e) k' -> Q tt s') ->
  wp E ioring_finish_write s Q.
Proof.
  intros V [Rp Ri Rn Rf Rrf Rr] Hne HQ. unfold ioring_finish_write.
  vstep. set (r := io_ring (self e)) in *.
  assert (inflight (kern e) r = fs) as Hir by (rewrite Ri; by rewrite decide_True).
  eapply wp_wait_and_see; [done|by rewrite Hir|]. intros s1 k1 V1 D1 [y Hy] Hp [Tp Ti Te Tr].
  rewrite Hir in Hy. apply Permutation_length in Hy. simpl in Hy.
  apply (HQ s1 k1 (inflight k1 r)); [done|done| |done]. split; simpl; [| | | |done|done].
  - intros r'. destruct (decide (r' = r)) as [->|]; [by rewrite Hp, Rp|by rewrite Tp, Rp].
  - intros r'. fold r. case_decide as Hr; [by subst|]. rewrite Ti, Ri by done. by rewrite decide_False.
  - intros r'. rewrite Tr, Te. apply Rn.
  - intros Hf. by destruct (Rf Hf).
Qed.

(** As many waits as there are requests. *)
Lemma wp_finish_writes n fs s P L e infl (Q : unit -> state K -> Prop) :
  View s P L e -> rings_writes infl [] fs e -> length fs = n ->
  (forall s' k', View s' P L (set_kern k' e) -> rings_ok infl (set_kern k' e) ->
     same_data (kern e) k' -> Q tt s') ->
  wp E (repeat_m n ioring_finish_write) s Q.
Proof.
  revert fs s e. induction n as [|n IH]; intros fs s e V R Hn HQ.
  - apply nil_length_inv in Hn as ->. apply wp_ret. apply (HQ s (kern e)); [by destruct e|by destruct e; apply rings_writes_quiet|done].
  - simpl. apply wp_bind. eapply wp_ioring_finish_write; [done..|by intros ->|].
    intros s1 k1 fs1 V1 Hl R1 D1. eapply IH; [exact V1|exact R1|lia|].
    intros s2 k2 V2 R2 D2. apply (HQ s2 k2); [done|done|by etrans].
Qed.
End proofs.
