(* ===== verification/Observability.v ===== *)
(** * Page table flags: [observability.c]

    Reading and clearing the accessed and dirty bits of a page through the
    ioctls of the custom kernel. *)

From S2P Require Import Prelude Kernel State Fifo Rules Uring.

Section functions.
Context {K : Type} `{KernelOps K}.
Local Abbreviation M := (M (state K)).

Definition kernel_tlb_shootdown (a : Z) : M unit :=
  let page_boundry := Z.land a (u64 (Z.lnot (PAGE_SIZE - 1))) in
  ret ← sys (k_uffdio_tlbflush page_boundry PAGE_SIZE);
  die_if (bool_decide (ret < 0)) "uffdio tlbflush".

Definition aligned_va (page : ptr) : M Z :=
  a ← ld va page;
  assert_ "page_flags.va % PAGE_SIZE == 0" (bool_decide (a mod PAGE_SIZE = 0));;
  mret a.

(** The common body of the three clearing functions. *)
Definition clear_flags (page : ptr) (flag1 flag2 : Z) : M unit :=
  a ← aligned_va page;
  r ← sys (k_uffdio_clear_flag a flag1 flag2);
  die_if (bool_decide (fst r < 0)) "userfaultfd_clear_flag returned < 0".

Definition pt_clear_bits (page : ptr) : M unit :=
  clear_flags page PT_ACCESSED_FLAG PT_DIRTY_FLAG.
Definition pt_clear_accessed_flag (page : ptr) : M unit :=
  clear_flags page PT_ACCESSED_FLAG 0.
Definition pt_clear_dirty_flag (page : ptr) : M unit :=
  clear_flags page PT_DIRTY_FLAG 0.

Definition pt_get_bits (page : ptr) : M Z :=
  a ← aligned_va page;
  r ← sys (k_uffdio_get_flag a PT_ACCESSED_FLAG PT_DIRTY_FLAG);
  die_if (bool_decide (fst r < 0)) "userfaultfd_get_flag returned < 0";;
  mret (Z.lor (fst (snd r)) (snd (snd r))).
End functions.

Section proofs.
Context {K D : Type} `{SL : SystemLaws K D may_fail} {E} `{!Tolerates may_fail E}.
Implicit Types (s : state K) (e : env K) (P : gmap loc user_page) (L : fifo_id -> list loc).

Lemma wp_aligned_va x pg s P L e (Q : Z -> state K -> Prop) :
  View s P L e -> P !! x = Some pg -> va pg mod PAGE_SIZE = 0 ->
  Q (va pg) s -> wp E (aligned_va (Some x)) s Q.
Proof.
  intros V Hx Ha HQ. unfold aligned_va. by do 3 vstep.
Qed.

Lemma wp_pt_get_bits x pg s P L e (Q : Z -> state K -> Prop) :
  View s P L e -> P !! x = Some pg -> va pg mod PAGE_SIZE = 0 ->
  registered (kern e) (va pg) = true ->
  (forall s' k' bits, View s' P L (set_kern k' e) -> obs_eq (kern e) k' ->
     (Z.land bits PT_DIRTY_FLAG <> 0 <-> dirty (kern e) (va pg) = true) -> Q bits s') ->
  wp E (pt_get_bits (Some x)) s Q.
Proof.
  intros V Hx Ha Hr HQ. unfold pt_get_bits.
  apply wp_bind. eapply wp_aligned_va; [done..|].
  apply wp_bind. eapply wp_sys; [done|]. intros [ret [r1 r2]] k' s1 Hk V1. simpl.
  apply wp_bind, wp_check.
  { destruct (l_get_flag_ok _ _ _ _ _ _ Hk); [done| |by right].
    left. apply bool_decide_eq_false_2. lia. }
  intros Hret%bool_decide_eq_false. apply wp_ret.
  destruct (l_get_flag _ _ _ _ _ _ Hk) as [Heq Hd]; [lia|]. by eapply HQ.
Qed.

Lemma wp_pt_clear_accessed_flag x pg s P L e (Q : unit -> state K -> Prop) :
  View s P L e -> P !! x = Some pg -> va pg mod PAGE_SIZE = 0 ->
  registered (kern e) (va pg) = true ->
  (forall s' k', View s' P L (set_kern k' e) -> obs_eq (kern e) k' -> Q tt s') ->
  wp E (pt_clear_accessed_flag (Some x)) s Q.
Proof.
  intros V Hx Ha Hr HQ. unfold pt_clear_accessed_flag, clear_flags.
  apply wp_bind. eapply wp_aligned_va; [done..|].
  apply wp_bind. eapply wp_sys; [done|]. intros [ret r1] k' s1 Hk V1. simpl.
  apply wp_check.
  { destruct (l_clear_accessed_ok _ _ _ _ _ Hk); [done| |by right].
    left. apply bool_decide_eq_false_2. lia. }
  intros Hret%bool_decide_eq_false.
  eapply HQ; [done|]. eapply l_clear_accessed; [done|lia].
Qed.
End proofs.
