(* ===== verification/Migrate.v ===== *)
(** * Moving pages between memory and the swap device: [core.c], lines 579-1073

    The copy in ([extmem_migrate_updisk] and its split form
    [core_migrate_up_async_start] / [core_migrate_up_async_finish]), the copy
    out ([extmem_migrate_downdisk] and its batch form) and the write
    protection of a page, in the default build ([USWAP_IOURING]). *)

From S2P Require Import Prelude Kernel State Fifo Rules Uring.

Section functions.
Context {K : Type} `{KernelOps K}.
Local Abbreviation M := (M (state K)).

(** The per-thread one-page buffer, mapped on first use. *)
Definition ensure_buffer : M unit :=
  b ← rdbt buffer_allocated;
  if negb b then
    a ← sys (k_mmap 0 PAGE_SIZE PROT_RW
               (Z.lor (Z.lor MAP_PRIVATE MAP_ANONYMOUS) MAP_NORESERVE) (-1) 0);
    wrt buffer_space a;;
    die_if (a =p MAP_FAILED) "buffer space mmap";;
    wrbt buffer_allocated true
  else mret tt.

(** [ioctl(uffd, UFFDIO_COPY, {dst, src, len, DONTWAKE})], fatal on error *)
Definition uffdio_copy (dst src len : Z) : M unit :=
  ret ← sys (k_uffdio_copy dst src len UFFDIO_COPY_MODE_DONTWAKE);
  die_if (ret =p -1) "UFFDIO_COPY failed ".

Definition madvise_dontneed (a len : Z) : M unit :=
  ret ← sys (k_madvise_dontneed a len);
  die_if (ret =p -1) "madvise DONTNEED failed".

Definition extmem_migrate_updisk (page : ptr) (dram_offset : Z) : M unit :=
  d ← ld in_dram page;
  assert_ "!page->in_dram" (negb d);;
  ensure_buffer;;
  assert_ "page != NULL" (negb (page =p NULL));;
  t ← ld pt page; pagesize ← pt_to_pagesize t;
  disk_addr_offset ← ld virtual_offset page;
  dsz ← rd disksize;
  assert_ "disk_addr_offset < disksize" (bool_decide (disk_addr_offset < dsz));;
  msz ← rd dramsize;
  assert_ "new_addr_offset < dramsize" (bool_decide (dram_offset < msz));;
  fd ← rd diskfd; buf ← rdt buffer_space;
  ioring_read_store fd disk_addr_offset buf pagesize;;
  a ← ld va page;
  uffdio_copy a buf pagesize;;
  assert_ "page->va % PAGE_SIZE == 0" (bool_decide (a mod PAGE_SIZE = 0));;
  add_to migrations_up 1;;
  st (set_virtual_offset dram_offset) page;;
  st (set_in_dram true) page;;
  add_to bytes_migrated pagesize.

Definition core_migrate_up_async_start (page : ptr) : M unit :=
  d ← ld in_dram page;
  assert_ "!page->in_dram" (negb d);;
  ensure_buffer;;
  assert_ "page != NULL" (negb (page =p NULL));;
  t ← ld pt page; pagesize ← pt_to_pagesize t;
  disk_addr_offset ← ld virtual_offset page;
  dsz ← rd disksize;
  assert_ "disk_addr_offset < disksize" (bool_decide (disk_addr_offset < dsz));;
  assert_ "disk_addr_offset + pagesize <= disksize"
    (bool_decide (u64 (disk_addr_offset + pagesize) <= dsz));;
  fd ← rd diskfd; buf ← rdt buffer_space;
  ioring_start_read fd disk_addr_offset buf pagesize.

Definition core_migrate_up_async_finish (page : ptr) (dram_offset : Z) : M unit :=
  d ← ld in_dram page;
  assert_ "!page->in_dram" (negb d);;
  b ← rdbt buffer_allocated;
  assert_ "buffer_allocated == true" b;;
  assert_ "page != NULL" (negb (page =p NULL));;
  t ← ld pt page; pagesize ← pt_to_pagesize t;
  disk_addr_offset ← ld virtual_offset page;
  dsz ← rd disksize;
  assert_ "disk_addr_offset < disksize" (bool_decide (disk_addr_offset < dsz));;
  assert_ "disk_addr_offset + pagesize <= disksize"
    (bool_decide (u64 (disk_addr_offset + pagesize) <= dsz));;
  msz ← rd dramsize;
  assert_ "new_addr_offset < dramsize" (bool_decide (dram_offset < msz));;
  assert_ "new_addr_offset + pagesize <= dramsize"
    (bool_decide (u64 (dram_offset + pagesize) <= msz));;
  fd ← rd diskfd; buf ← rdt buffer_space;
  ioring_finish_read fd disk_addr_offset buf pagesize;;
  a ← ld va page;
  uffdio_copy a buf pagesize;;
  assert_ "page->va % PAGE_SIZE == 0" (bool_decide (a mod PAGE_SIZE = 0));;
  add_to migrations_up 1;;
  st (set_virtual_offset dram_offset) page;;
  st (set_in_dram true) page;;
  add_to bytes_migrated pagesize.

(** [need_wp] is not used by the code. *)
Definition extmem_migrate_downdisk (page : ptr) (disk_offset : Z) (need_wp writeback : bool)
    : M unit :=
  st (set_migrating true) page;;
  d ← ld in_dram page;
  assert_ "page->in_dram" d;;
  t ← ld pt page; pagesize ← pt_to_pagesize t;
  assert_ "page != NULL" (negb (page =p NULL));;
  old_addr_offset ← ld virtual_offset page;
  msz ← rd dramsize;
  assert_ "old_addr_offset < dramsize" (bool_decide (old_addr_offset < msz));;
  assert_ "old_addr_offset + pagesize <= dramsize"
    (bool_decide (u64 (old_addr_offset + pagesize) <= msz));;
  dsz ← rd disksize;
  assert_ "disk_offset < disksize" (bool_decide (disk_offset < dsz));;
  assert_ "disk_offset + pagesize <= disksize"
    (bool_decide (u64 (disk_offset + pagesize) <= dsz));;
  a ← ld va page;
  (if writeback then fd ← rd diskfd; ioring_write_store fd disk_offset a pagesize else mret tt);;
  madvise_dontneed a pagesize;;
  add_to migrations_down 1;;
  st (set_virtual_offset disk_offset) page;;
  st (set_in_dram false) page;;
  add_to bytes_migrated pagesize;;
  lock handler_lock;;
  so ← ld swapped_out page;
  assert_ "page->swapped_out == false" (negb so);;
  st (set_swapped_out true) page;;
  mg ← ld migrating page;
  assert_ "page->migrating == true" mg;;
  unlock handler_lock.

(** One element of the arrays [page], [diskpage] and [writeback]. *)
Record evicting := Evicting { ev_page : ptr; ev_diskpage : ptr; ev_writeback : bool }.

(** The five passes of [extmem_migrate_downdisk_vector]. *)
Definition prepare_one (v : evicting) : M Z :=
  d ← ld in_dram (ev_page v);
  assert_ "page[nr_prepared]->in_dram" d;;
  if ev_writeback v then
    new_addr ← ld virtual_offset (ev_diskpage v);
    fd ← rd diskfd;
    a ← ld va (ev_page v);
    ioring_prepare_write fd new_addr a PAGE_SIZE;;
    mret 1
  else mret 0.

Definition unmap_one (v : evicting) : M unit :=
  a ← ld va (ev_page v);
  madvise_dontneed a PAGE_SIZE.

Definition account_one (v : evicting) : M unit :=
  add_to migrations_down 1;;
  o ← ld virtual_offset (ev_diskpage v);
  st (set_virtual_offset o) (ev_page v);;
  st (set_in_dram false) (ev_page v);;
  add_to bytes_migrated PAGE_SIZE.

Definition mark_one (v : evicting) : M unit :=
  so ← ld swapped_out (ev_page v);
  assert_ "page[nr_prepared]->swapped_out == false" (negb so);;
  st (set_swapped_out true) (ev_page v);;
  mg ← ld migrating (ev_page v);
  assert_ "page[nr_prepared]->migrating == true" mg.

Definition extmem_migrate_downdisk_vector (vs : list evicting) : M unit :=
  ns ← mapM prepare_one vs;
  let nr_submitted := foldr Z.add 0 ns in
  ioring_submit_all_writes;;
  repeat_m (Z.to_nat nr_submitted) ioring_finish_write;;
  for_each unmap_one vs;;
  for_each account_one vs;;
  lock handler_lock;;
  for_each mark_one vs;;
  unlock handler_lock.

Definition extmem_wp_page (page : ptr) (protect : bool) : M unit :=
  addr ← ld va page;
  t ← ld pt page; pagesize ← pt_to_pagesize t;
  assert_ "addr != 0" (negb (addr =p 0));;
  assert_ "addr % PAGE_SIZE == 0" (bool_decide (addr mod PAGE_SIZE = 0));;
  ret ← sys (k_uffdio_writeprotect addr pagesize
               (if protect then UFFDIO_WRITEPROTECT_MODE_WP else 0));
  die_if (bool_decide (ret < 0)) "uffdio writeprotect".

(** [extmem_disk_write], [extmem_disk_read]: the hooks for the
    [pread]/[pwrite] back end. *)
Definition extmem_disk_write (storage_fd src dest pagesize : Z) : M unit :=
  write_page storage_fd dest src pagesize.
Definition extmem_disk_read (storage_fd src dest pagesize : Z) : M unit :=
  read_page storage_fd src dest pagesize.
End functions.

(** ** What the functions do to a page and to the kernel *)

(** The page after its frame was given up for the disk slot [off]. *)
Definition moved_down (off : Z) (pg : user_page) : user_page :=
  set_swapped_out true (set_in_dram false (set_virtual_offset off (set_migrating true pg))).

(** The page after its data was brought into the frame [off]. *)
Definition moved_up (off : Z) (pg : user_page) : user_page :=
  set_in_dram true (set_virtual_offset off pg).

(** [[o, o + PAGE_SIZE)] lies within [[0, size)], without wrap-around. *)
Definition fits (o size : Z) : Prop := 0 <= o /\ o + PAGE_SIZE <= size /\ size < 2 ^ 63.

Lemma fits_u64 o size : fits o size -> u64 (o + PAGE_SIZE) <= size /\ o < size.
Proof. unfold fits, PAGE_SIZE, BASEPAGE_SIZE. intros. rewrite u64_small; lia. Qed.

Section proofs.
Context {K D : Type} `{SL : SystemLaws K D may_fail} {E} `{!Tolerates may_fail E}.
Implicit Types (s : state K) (e : env K) (P : gmap loc user_page) (L : fifo_id -> list loc).

Lemma wp_extmem_wp_page x pg (protect : bool) s P L e (Q : unit -> state K -> Prop) :
  View s P L e -> P !! x = Some pg -> pt pg = BASEP -> va pg <> 0 ->
  va pg mod PAGE_SIZE = 0 -> registered (kern e) (va pg) = true ->
  (forall s' k', View s' P L (set_kern k' e) -> obs_eq (kern e) k' -> Q tt s') ->
  wp E (extmem_wp_page (Some x) protect) s Q.
Proof.
  intros V Hx Ht H0 Ha Hr HQ. unfold extmem_wp_page. do 2 vstep. rewrite Ht. do 2 vstep.
  { by rewrite bool_decide_eq_false_2. }
  vstep. apply wp_bind. eapply wp_sys; [done|]. intros ret k' s1 Hk V1. apply wp_check.
  { destruct (l_writeprotect_ok _ _ _ _ _ Hk); [done| |by right].
    left. apply bool_decide_eq_false_2. lia. }
  intros Hret%bool_decide_eq_false.
  eapply HQ; [done|]. eapply l_writeprotect; [done|lia].
Qed.

(** The write-back of [extmem_migrate_downdisk], when it is asked for. *)
Lemma wp_writeback (writeback : bool) off a s P L e infl (Q : unit -> state K -> Prop) :
  View s P L e -> rings_ok infl e -> (forall fd, apart infl (Sqe true fd a PAGE_SIZE off)) ->
  (forall s' e', View s' P L e' -> env_step e e' -> rings_ok infl e' ->
     (DeviceCompletes K D -> disk (kern e') off = (if writeback then content (kern e) a else disk (kern e) off)) ->
     (forall o, o <> off -> disk (kern e') o = disk (kern e) o) ->
     same_mem_but (fun _ => False) (kern e) (kern e') ->
     same_reg (kern e) (kern e') -> Q tt s') ->
  wp E (if writeback then fd ← rd diskfd; ioring_write_store fd off a PAGE_SIZE else mret tt) s Q.
Proof.
  intros V R Ha HQ. destruct writeback.
  - vstep. by eapply wp_ioring_write_store.
  - vstep. by apply (HQ s e).
Qed.

Lemma wp_madvise a s P L e infl (Q : unit -> state K -> Prop) :
  View s P L e -> rings_ok infl e -> registered (kern e) a = true ->
  (forall s' k', View s' P L (set_kern k' e) -> rings_ok infl (set_kern k' e) ->
     mem k' a = None -> same_mem_but (fun b => b = a) (kern e) k' ->
     same_disk (kern e) k' -> same_reg (kern e) k' -> Q tt s') ->
  wp E (madvise_dontneed a PAGE_SIZE) s Q.
Proof.
  intros V R Hr HQ. unfold madvise_dontneed.
  apply wp_bind. eapply wp_sys; [done|]. intros ret k' s1 Hk V1. apply wp_check.
  { destruct (l_madvise_ok _ _ _ _ Hk); [done| |by right].
    left. by apply bool_decide_eq_false_2. }
  intros Hret%bool_decide_eq_false.
  destruct (l_madvise _ _ _ _ Hk Hret) as (Hm & Hs & Hg & Hrg & Hd).
  eapply HQ; [done|by apply rings_ok_same|done..| |done].
  apply Hd. by eapply rings_ok_busy_write.
Qed.

Lemma wp_extmem_migrate_downdisk x pg off need_wp (writeback : bool) s P L e infl Q :
  View s P L e -> rings_ok infl e -> P !! x = Some pg ->
  pt pg = BASEP -> in_dram pg = true -> swapped_out pg = false ->
  fits (virtual_offset pg) (glob e dramsize) -> fits off (glob e disksize) ->
  registered (kern e) (va pg) = true -> handler_lock ∉ held e ->
  (forall fd, apart infl (Sqe true fd (va pg) PAGE_SIZE off)) ->
  (forall s' e', View s' (<[x := moved_down off pg]> P) L e' -> env_step e e' ->
     rings_ok infl e' -> mem (kern e') (va pg) = None ->
     same_mem_but (fun b => b = va pg) (kern e) (kern e') ->
     (DeviceCompletes K D -> disk (kern e') off =
       (if writeback then content (kern e) (va pg) else disk (kern e) off)) ->
     (forall o, o <> off -> disk (kern e') o = disk (kern e) o) ->
     same_reg (kern e) (kern e') -> Q tt s') ->
  wp E (extmem_migrate_downdisk (Some x) off need_wp writeback) s Q.
Proof.
  intros V R Hx Ht Hd Hso Hf1 Hf2 Hr Hlk Ha HQ. unfold extmem_migrate_downdisk.
  apply fits_u64 in Hf1 as [Hf1 Hf1'], Hf2 as [Hf2 Hf2'].
  do 4 vstep. rewrite Ht. do 10 vstep.
  apply wp_bind. eapply wp_writeback; [done..|]. intros s2 e2 V2 S2 R2 Hd2 Hd2' Hm2 Hg2.
  apply wp_bind. eapply wp_madvise; [done..|by rewrite (sg_registered _ _ Hg2)|].
  intros s3 k3 V3 R3 Hm3 Hm3' Hd3 Hg3.
  do 4 vstep. vstep; [by rewrite (es_held _ _ S2)|]. do 5 vstep.
  vstep; [by rewrite (es_held _ _ S2)|].
  eapply HQ; [eassumption|..]; simpl.
  - etrans; [exact S2|]. by env_frame.
  - destruct R3. by split.
  - done.
  - etrans; [eapply same_mem_but_mono, Hm2; done|done].
  - intros DC. by rewrite Hd3, Hd2.
  - intros o Ho. by rewrite Hd3, Hd2'.
  - by etrans.
Qed.

Lemma wp_uffdio_copy a src infl s P L e (Q : unit -> state K -> Prop) :
  View s P L e -> rings_ok infl e -> Forall (fun y => sq_buf y <> src) infl ->
  registered (kern e) a = true -> mem (kern e) a = None ->
  (forall s' k', View s' P L (set_kern k' e) -> mem k' a = Some (content (kern e) src) ->
     same_mem_but (fun b => b = a) (kern e) k' -> same_disk (kern e) k' ->
     same_reg (kern e) k' -> same_rings (kern e) k' -> Q tt s') ->
  wp E (uffdio_copy a src PAGE_SIZE) s Q.
Proof.
  intros V R Hsrc Hr Hm HQ. unfold uffdio_copy. apply wp_bind.
  eapply wp_sys; [done|]. intros ret k2 s2 Hk V2. apply wp_check.
  { destruct (l_copy_ok _ _ _ _ _ _ Hk Hr Hm); [left; by apply bool_decide_eq_false_2|by right]. }
  intros Hret%bool_decide_eq_false.
  destruct (l_copy _ _ _ _ _ _ Hk Hret) as (_ & _ & _ & Hc & ? & ? & ? & ?).
  eapply HQ; [done|apply Hc|done..].
  intros (y & Hy & Hb)%(rings_ok_busy_read _ _ _ R). rewrite Forall_forall in Hsrc.
  by apply (Hsrc y).
Qed.

(** ** The one-page buffer *)

(** The buffer of a thread, once allocated, is mapped and not under
    userfaultfd. *)
Definition buffer_ok e : Prop := forall t,
  flag e (buffer_allocated t) = true ->
  mapped (kern e) (glob e (buffer_space t)) = true /\
  registered (kern e) (glob e (buffer_space t)) = false.

(** What [ensure_buffer] may change. *)
Record buffer_step e e' : Prop := {
  bs_glob : forall x, x <> buffer_space (self e) -> glob e' x = glob e x;
  bs_flag : forall b, b <> buffer_allocated (self e) -> flag e' b = flag e b;
  bs_pages : pages e' = pages e;
  bs_held : held e' = held e;
  bs_self : self e' = self e;
  bs_mem : same_mem_but (fun _ => False) (kern e) (kern e');
  bs_disk : same_disk (kern e) (kern e');
  bs_rings : same_rings (kern e) (kern e');
  bs_registered : forall a, registered (kern e') a = registered (kern e) a;
  bs_mapped : forall a, mapped (kern e) a = true -> mapped (kern e') a = true;
  bs_allocated : flag e' (buffer_allocated (self e')) = true;
  bs_ok : buffer_ok e';
  bs_new : (flag e (buffer_allocated (self e)) = true /\ glob e' (buffer_space (self e')) = glob e (buffer_space (self e))) \/
           mapped (kern e) (glob e' (buffer_space (self e'))) = false }.

(** [env_step] and [buffer_step] together. *)
Record swap_step e e' : Prop := {
  sp_glob : forall x, is_counter x = false -> x <> buffer_space (self e) -> glob e' x = glob e x;
  sp_flag : forall b, is_transient b = false -> b <> buffer_allocated (self e) -> flag e' b = flag e b;
  sp_pages : pages e' = pages e;
  sp_held : held e' = held e;
  sp_self : self e' = self e }.

#[export] Instance swap_step_preorder : PreOrder swap_step.
Proof.
  split; [by split|]. intros ? ? ? [G1 F1 ? ? S1] [G2 F2 ? ? S2].
  split; [| |congruence..]; intros; rewrite ?G2, ?F2 by (rewrite ?S1; auto); auto.
Qed.

Lemma env_swap_step e e' : env_step e e' -> swap_step e e'.
Proof. intros []. split; auto. Qed.

Lemma buffer_swap_step e e' : buffer_step e e' -> swap_step e e'.
Proof. intros []. split; auto. Qed.

Lemma wp_ensure_buffer s P L e (Q : unit -> state K -> Prop) :
  View s P L e -> buffer_ok e ->
  flag e (buffer_allocated (self e)) = true \/ E (SysFail "buffer space mmap") ->
  (forall s' e', View s' P L e' -> buffer_step e e' -> Q tt s') ->
  wp E ensure_buffer s Q.
Proof.
  intros V Hb HE HQ. unfold ensure_buffer. vstep.
  destruct (flag e (buffer_allocated (self e))) eqn:Hf; simpl.
  { vstep. eapply HQ; [done|]. split; try done; by left. }
  destruct HE as [|HE]; [done|].
  apply wp_bind. eapply wp_sys; [done|]. intros a k1 s1 Hk V1.
  vstep. apply wp_bind, wp_die_if; [by right|]. intros Hne%bool_decide_eq_false.
  destruct (l_mmap _ _ _ _ _ _ _ _ plain_reserve Hk Hne) as (Ha & Hfresh & Hmap & Hreg & Hm & Hd & Hrg).
  destruct (Hfresh a) as (_ & Hr & Hu).
  { unfold in_range, PAGE_SIZE, BASEPAGE_SIZE. lia. }
  vstep. eapply HQ; [exact V|]. split; simpl; try done.
  - intros x Hx. by rewrite fupd_ne by congruence.
  - intros b Hbn. by rewrite fupd_ne by congruence.
  - intros b Hmb. apply Hmap. by right.
  - by simp_fupd.
  - intros t Ht. simpl in *. rewrite Hreg. destruct (decide (t = self e)) as [->|Hne'].
    + simp_fupd. split; [|done]. apply Hmap. left. unfold in_range, PAGE_SIZE, BASEPAGE_SIZE. lia.
    + rewrite !fupd_ne by congruence. rewrite fupd_ne in Ht by congruence. destruct (Hb t Ht) as [Hbm ?]. split; [|done]. apply Hmap. by right.
  - right. by simp_fupd.
Qed.

Lemma rings_ok_buffer infl e e' : buffer_step e e' -> rings_ok infl e -> rings_ok infl e'.
Proof.
  intros B [Rp Ri Rinit Rf Rrd]. destruct (bs_rings _ _ B) as [Sp Si Se Sr].
  split; [intros; by rewrite Sp|intros; by rewrite Si, (bs_self _ _ B)| | |done].
  - intros r. rewrite (bs_flag _ _ B), Sr, Se by by destruct r. apply Rinit.
  - intros r. rewrite (bs_flag _ _ B), (bs_self _ _ B) by by destruct r. apply Rf.
Qed.

(** Starting the copy in: the buffer receives the content of the slot, if
    the device completes the request. *)
Lemma wp_core_migrate_up_async_start x pg s P L e Q :
  View s P L e -> rings_ok [] e -> buffer_ok e ->
  flag e (buffer_allocated (self e)) = true \/ E (SysFail "buffer space mmap") ->
  P !! x = Some pg -> pt pg = BASEP -> in_dram pg = false ->
  fits (virtual_offset pg) (glob e disksize) ->
  (forall s' e1 e', View s' P L e' -> buffer_step e e1 -> env_step e1 e' ->
     let buf := glob e' (buffer_space (self e')) in
     rings_ok [Sqe false (glob e' diskfd) buf PAGE_SIZE (virtual_offset pg)] e' ->
     (DeviceCompletes K D -> mem (kern e') buf = Some (disk (kern e) (virtual_offset pg))) ->
     same_mem_but (fun a => a = buf) (kern e) (kern e') ->
     same_disk (kern e) (kern e') -> same_reg (kern e1) (kern e') -> Q tt s') ->
  wp E (core_migrate_up_async_start (Some x)) s Q.
Proof.
  intros V R Hb HE Hx Ht Hd Hf HQ. unfold core_migrate_up_async_start.
  apply fits_u64 in Hf as [Hf Hf'].
  do 2 vstep. apply wp_bind. eapply wp_ensure_buffer; [done..|]. intros s1 e1 V1 B1.
  assert (glob e1 disksize = glob e disksize) as Hds by by apply (bs_glob _ _ B1).
  do 2 vstep. rewrite Ht. do 7 vstep.
  eapply wp_ioring_start_read; [done|by eapply rings_ok_buffer|by constructor|].
  intros s2 e2 V2 S2 R2 Hm2 Hm2' Hd2 Hg2.
  assert (glob e2 (buffer_space (self e2)) = glob e1 (buffer_space (self e1))) as Heq by (rewrite (es_self _ _ S2); by apply (es_glob _ _ S2)).
  assert (glob e2 diskfd = glob e1 diskfd) as Hfd by by apply (es_glob _ _ S2).
  apply (HQ s2 e1 e2); rewrite ?Heq, ?Hfd; try done.
  - intros DC. rewrite Hm2 by done. f_equal. apply B1.
  - etrans; [eapply same_mem_but_mono, B1; done|done].
  - etrans; [apply B1|done].
Qed.

Lemma wp_core_migrate_up_async_finish x pg off y d s P L e Q :
  View s P L e -> rings_ok [y] e -> flag e (buffer_allocated (self e)) = true ->
  P !! x = Some pg -> pt pg = BASEP -> in_dram pg = false -> va pg mod PAGE_SIZE = 0 ->
  fits (virtual_offset pg) (glob e disksize) -> fits off (glob e dramsize) ->
  registered (kern e) (va pg) = true -> mem (kern e) (va pg) = None ->
  mem (kern e) (glob e (buffer_space (self e))) = Some d ->
  (forall s' e', View s' (<[x := moved_up off pg]> P) L e' -> env_step e e' ->
     rings_ok [] e' -> flag e' (uring_read_init (self e')) = true -> mem (kern e') (va pg) = Some d ->
     same_mem_but (fun a => a = va pg) (kern e) (kern e') ->
     same_disk (kern e) (kern e') -> same_reg (kern e) (kern e') -> Q tt s') ->
  wp E (core_migrate_up_async_finish (Some x) off) s Q.
Proof.
  intros V R Hb Hx Ht Hd Hal Hf1 Hf2 Hr Hva Hbuf HQ. unfold core_migrate_up_async_finish.
  apply fits_u64 in Hf1 as [Hf1 Hf1'], Hf2 as [Hf2 Hf2'].
  do 6 vstep. rewrite Ht. do 10 vstep.
  apply wp_bind. eapply wp_ioring_finish_read; [done..|]. intros s1 e1 V1 S1 R1 Hui D1.
  vstep. apply wp_bind.
  assert (registered (kern e1) (va pg) = true) as Hr1 by by rewrite (sg_registered _ _ (sd_reg _ _ D1)).
  assert (mem (kern e1) (va pg) = None) as Hm1
    by by rewrite (sm_mem _ _ _ (sd_mem _ _ D1)) by auto.
  eapply wp_uffdio_copy; [done|exact R1|by constructor|done..|].
  intros s2 k2 V2 Hc Hm2 Hd2 Hg2 Hr2.
  vstep. do 4 vstep.
  eapply HQ; [eassumption|..]; simpl.
  - etrans; [exact S1|]. by env_frame.
  - pose proof (rings_ok_same _ _ _ R1 Hr2) as [? ? ? ? ?]. by split.
  - exact Hui.
  - rewrite Hc. unfold content. by rewrite (sm_mem _ _ _ (sd_mem _ _ D1)), Hbuf by auto.
  - etrans; [eapply same_mem_but_mono, D1; done|done].
  - etrans; [apply D1|done].
  - etrans; [apply D1|done].
Qed.
End proofs.
