(* ===== verification/Invariant.v ===== *)
(** * The invariant of the pager

    [inv k F C infl P L e] describes the states between two statements of a
    handler: the page descriptors [P], the lists [L] and the environment [e]
    store the logical memory [C] (address of a page to its content), except
    for the pages in [F], which the running operation owns; [k] frames are
    owned by the operation and the reads [infl] are in flight.  With [F] empty
    it is the invariant of the pager at rest. *)

From S2P Require Import Prelude Kernel State Fifo Rules Uring Migrate.

Section invariant.
Context {K D : Type} `{OB : KernelObs K D}.
Implicit Types (e : env K) (P : gmap loc user_page) (L : fifo_id -> list loc).
Implicit Types (C : Z -> D) (T F : list loc).

(** The number of DRAM frames. *)
Definition frames e : Z := glob e dramsize / PAGE_SIZE.

(** The descriptors made by the policy; the dummy page of [extmem_init] is
    not one of them. *)
Definition managed P (x : loc) (pg : user_page) : Prop := P !! x = Some pg /\ pt pg = BASEP.

(** The prefetch buffer of a thread is mapped and not under userfaultfd. *)
Definition prefetch_ok e (t : thread) : Prop :=
  let base := glob e (prefetch_buffer t) in
  0 < base /\ base + PAGE_SIZE * CORE_PREFETCH_RATE <= 2 ^ 47 /\
  forall a, in_range base (PAGE_SIZE * CORE_PREFETCH_RATE) a ->
    mapped (kern e) a = true /\ registered (kern e) a = false /\ a <> glob e page_cache.

Record conf_ok e : Prop := {
  co_dram : 0 <= glob e dramsize <= 2 ^ 42;
  co_disk : 0 <= glob e disksize <= 2 ^ 42;
  co_buffer : buffer_ok e;
  co_cache : mapped (kern e) (glob e page_cache) = true /\
             registered (kern e) (glob e page_cache) = false /\
             content (kern e) (glob e page_cache) = zero_page;
  co_apart : forall t, flag e (buffer_allocated t) = true -> glob e (buffer_space t) <> glob e page_cache;
  co_prefetch : forall t, flag e (prefetch_buffer_allocated t) = true -> prefetch_ok e t }.

(** The variables the invariant mentions. *)
Definition inv_gvar (x : gvar) : bool :=
  match x with
  | dramsize | disksize | page_cache | buffer_space _ | prefetch_buffer _ => true
  | _ => false
  end.
Definition inv_bvar (b : bvar) : bool :=
  match b with
  | buffer_allocated _ | prefetch_buffer_allocated _ | uring_init _ | uring_read_init _ => true
  | _ => false
  end.

(** The size of the device the page's [virtual_offset] points into. *)
Definition limit e (pg : user_page) : Z :=
  if in_dram pg then glob e dramsize else glob e disksize.

(** Every descriptor owns one frame or disk slot, within the device,
    aligned, and its own. *)
Record slots_ok P e : Prop := {
  so_fits : forall x pg, managed P x pg -> fits (virtual_offset pg) (limit e pg);
  so_aligned : forall x pg, managed P x pg -> virtual_offset pg mod PAGE_SIZE = 0;
  so_inj : forall x y px py, managed P x px -> managed P y py ->
    in_dram px = in_dram py -> virtual_offset px = virtual_offset py -> x = y;
  so_present : forall x pg, managed P x pg -> present pg = false }.

(** [x] is the page of the address it claims. *)
Record at_va e (x : loc) (pg : user_page) : Prop := {
  av_table : pages e !! va pg = Some x;
  av_nonzero : va pg <> 0;
  av_aligned : va pg mod PAGE_SIZE = 0;
  av_registered : registered (kern e) (va pg) = true }.

(** The disk copy kept for a page that was read back is good as long as
    the page was not written. *)
Definition reserve_ok C P L e (x : loc) (pg : user_page) : Prop :=
  has_reserve pg = true ->
  exists r rp, reserve pg = Some r /\ r ∈ L disk_reserve_list /\ P !! r = Some rp /\
    reserve rp = Some x /\
    (dirty (kern e) (va pg) = false -> disk (kern e) (virtual_offset rp) = C (va pg)).

(** The data of [x] is in memory / on disk. *)
Record resident C P L e (x : loc) (pg : user_page) : Prop := {
  re_dram : in_dram pg = true;
  re_at : at_va e x pg;
  re_mem : mem (kern e) (va pg) = Some (C (va pg));
  re_reserve : reserve_ok C P L e x pg;
  re_migrating : migrating pg = false;
  re_swapped : swapped_out pg = false }.

Record swapped C e (x : loc) (pg : user_page) : Prop := {
  sw_dram : in_dram pg = false;
  sw_at : at_va e x pg;
  sw_mem : mem (kern e) (va pg) = None;
  sw_disk : disk (kern e) (virtual_offset pg) = C (va pg);
  sw_reserve : has_reserve pg = false;
  sw_migrating : migrating pg = false;
  sw_swapped : swapped_out pg = true }.

(** A free frame or a free slot: no address, no reserve. *)
Record idle (dram : bool) (pg : user_page) : Prop := {
  id_dram : in_dram pg = dram;
  id_va : va pg = 0;
  id_reserve : has_reserve pg = false }.

(** What it means for a page to be on a list. *)
Definition role C P L e (l : fifo_id) (x : loc) (pg : user_page) : Prop :=
  match l with
  | active_list | inactive_list | eviction_list => resident C P L e x pg
  | disk_active_list => swapped C e x pg
  | dram_free_list => idle true pg
  | disk_free_list => idle false pg
  | disk_reserve_list => in_dram pg = false /\ va pg = 0
  | disk_written_list => False
  end.

(** The pages on these lists occupy a frame. *)
Definition on_frames L : Z :=
  Z.of_nat (length (L dram_free_list)) + Z.of_nat (length (L active_list)) +
  Z.of_nat (length (L inactive_list)) + Z.of_nat (length (L eviction_list)).

(** A read in flight fills a buffer outside userfaultfd from the slot of a
    page the operation owns. *)
Definition flying_ok F P e (infl : list sqe) : Prop :=
  Forall (fun y => registered (kern e) (sq_buf y) = false /\
    exists t tp, t ∈ F /\ managed P t tp /\ in_dram tp = false /\ virtual_offset tp = sq_off y) infl.

Record inv (k : Z) F C (infl : list sqe) P L e : Prop := {
  i_held : held e = [];
  i_conf : conf_ok e;
  i_rings : rings_ok infl e;
  i_slots : slots_ok P e;
  i_role : forall l x, x ∈ L l -> x ∉ F -> exists pg, managed P x pg /\ role C P L e l x pg;
  i_owned : forall x, x ∈ F -> exists pg, managed P x pg;
  i_where : forall x pg, managed P x pg -> x ∈ F \/ exists l, x ∈ L l;
  i_table : forall a x, pages e !! a = Some x -> a <> 0 -> exists pg, managed P x pg /\ va pg = a;
  i_closed : forall x, x ∈ F -> x ∉ L disk_reserve_list;
  (* a page that was never touched reads as zeroes *)
  i_untracked : forall a, registered (kern e) a = true -> pages e !! a = None ->
    mem (kern e) a = None /\ C a = zero_page;
  i_flying : flying_ok F P e infl;
  i_count : on_frames L + k = frames e;
  i_range : forall a, registered (kern e) a = true -> 0 < a < 2 ^ 47 }.

(** ** Re-establishing the invariant

    [T] are the descriptors an operation touched: the others, and the
    memory and the disk slots of the others, are as they were. *)

Record untouched (T : list loc) F C C' P P' L L' e e' : Prop := {
  ut_page : forall x pg, x ∉ T -> P !! x = Some pg -> P' !! x = Some pg;
  ut_back : forall x pg, x ∉ T -> managed P' x pg -> managed P x pg;
  ut_list : forall x l, x ∉ T -> (x ∈ L' l <-> x ∈ L l);
  ut_mem : forall x pg, x ∉ T -> x ∉ F -> managed P x pg -> at_va e x pg ->
    C' (va pg) = C (va pg) /\
    mem (kern e') (va pg) = mem (kern e) (va pg) /\
    dirty (kern e') (va pg) = dirty (kern e) (va pg) /\
    registered (kern e') (va pg) = registered (kern e) (va pg) /\
    pages e' !! va pg = Some x;
  ut_disk : forall x pg, x ∉ T -> x ∉ F -> managed P x pg -> in_dram pg = false ->
    disk (kern e') (virtual_offset pg) = disk (kern e) (virtual_offset pg);
  ut_untracked : forall a, registered (kern e') a = true -> pages e' !! a = None ->
    mem (kern e') a = None /\ C' a = zero_page;
  ut_range : forall a, registered (kern e') a = true -> 0 < a < 2 ^ 47;
  (* the reserve of an untouched page is untouched *)
  ut_reserve : forall x, x ∈ T -> x ∈ L disk_reserve_list ->
    exists pg y, P !! x = Some pg /\ reserve pg = Some y /\ (y ∈ T \/ y ∈ F) }.

Lemma at_va_untouched T F C C' P P' L L' e e' x pg :
  untouched T F C C' P P' L L' e e' -> x ∉ T -> x ∉ F -> managed P x pg ->
  at_va e x pg -> at_va e' x pg.
Proof.
  intros U HT HF Hm Hv. destruct (ut_mem _ _ _ _ _ _ _ _ _ _ U x pg HT HF Hm Hv) as (_ & _ & _ & Hr & Ht).
  destruct Hv as [? ? ? Hr']. split; [done..|]. by rewrite Hr.
Qed.

Lemma role_untouched T F C C' P P' L L' e e' l x pg :
  untouched T F C C' P P' L L' e e' ->
  (forall r, r ∈ L disk_reserve_list -> (r ∉ F) /\ (exists rp, managed P r rp /\ in_dram rp = false)) ->
  x ∉ T -> x ∉ F -> managed P x pg -> role C P L e l x pg -> role C' P' L' e' l x pg.
Proof.
  intros U Hres HT HF Hm.
  assert (resident C P L e x pg -> resident C' P' L' e' x pg) as Hresident.
  { intros [Hd Hv Hmem Hr Hmg Hso].
    destruct (ut_mem _ _ _ _ _ _ _ _ _ _ U x pg HT HF Hm Hv) as (HC & Hmm & Hdi & _).
    split; [done|by eapply at_va_untouched|congruence| |done|done].
    intros Hh. destruct (Hr Hh) as (r & rp & Hrv & Hrl & Hrp & Hback & Hclean).
    destruct (Hres r Hrl) as (HrF & rp' & [Hrp' Hrt] & Hrd). assert (rp' = rp) as -> by congruence.
    assert (r ∉ T) as HrT.
    { intros HrT. destruct (ut_reserve _ _ _ _ _ _ _ _ _ _ U r HrT Hrl) as (q & y & Hq & Hy & Hin).
      assert (y = x) as -> by congruence. by destruct Hin. }
    exists r, rp. split_and!; [done| |by apply (ut_page _ _ _ _ _ _ _ _ _ _ U)|done|].
    - by apply (ut_list _ _ _ _ _ _ _ _ _ _ U).
    - rewrite Hdi, HC. intros Hc. rewrite (ut_disk _ _ _ _ _ _ _ _ _ _ U r rp); [by apply Hclean|done..]. }
  assert (swapped C e x pg -> swapped C' e' x pg) as Hswapped.
  { intros [Hd Hv Hmem Hdk Hh Hmg Hso].
    destruct (ut_mem _ _ _ _ _ _ _ _ _ _ U x pg HT HF Hm Hv) as (HC & Hmm & Hdi & _).
    split; [done|by eapply at_va_untouched|congruence| |done..].
    by rewrite (ut_disk _ _ _ _ _ _ _ _ _ _ U x pg), HC. }
  destruct l; simpl; auto.
Qed.

Lemma inv_reserve_list k F C infl P L e r :
  inv k F C infl P L e -> r ∈ L disk_reserve_list ->
  (r ∉ F) /\ (exists rp, managed P r rp /\ in_dram rp = false).
Proof.
  intros I Hr. assert (r ∉ F) as HF by (intros HF; by apply (i_closed _ _ _ _ _ _ _ I r HF)).
  split; [done|]. destruct (i_role _ _ _ _ _ _ _ I _ _ Hr HF) as (pg & Hm & Hd & _). eauto.
Qed.

(** The conditions on the touched pages. *)
Record touched (T : list loc) F P' L' e e' F' C' : Prop := {
  to_page : forall x, x ∈ T -> exists pg', managed P' x pg' /\
    (forall a, pages e' !! a = Some x -> a <> 0 -> va pg' = a);
  to_role : forall x l pg, x ∈ T -> x ∈ L' l -> x ∉ F' -> managed P' x pg -> role C' P' L' e' l x pg;
  to_where : forall x, x ∈ T -> x ∈ F' \/ exists l, x ∈ L' l;
  to_owned : forall x, x ∉ T -> (x ∈ F' <-> x ∈ F);
  to_closed : forall x, x ∈ F' -> x ∉ L' disk_reserve_list;
  to_table : forall a x, x ∉ T -> a <> 0 -> pages e' !! a = Some x -> pages e !! a = Some x }.

Lemma inv_update T k F C infl P L e k' F' C' infl' P' L' e' :
  inv k F C infl P L e ->
  untouched T F C C' P P' L L' e e' -> touched T F P' L' e e' F' C' ->
  slots_ok P' e' -> conf_ok e' -> rings_ok infl' e' -> held e' = [] ->
  flying_ok F' P' e' infl' ->
  on_frames L' + k' = frames e' -> inv k' F' C' infl' P' L' e'.
Proof.
  intros I U [Tp Tr Tw To Tc Tt] Hs Hc Hr Hh Hf Hn. split; try done.
  - intros l x Hx HF. destruct (decide (x ∈ T)) as [HT|HT].
    + destruct (Tp x HT) as (pg & Hm & _). exists pg. split; [done|]. by apply Tr.
    + assert (x ∉ F) as HF0 by (by rewrite <- To).
      apply (ut_list _ _ _ _ _ _ _ _ _ _ U) in Hx; [|done].
      destruct (i_role _ _ _ _ _ _ _ I l x Hx HF0) as (pg & Hm & Hro). exists pg. split.
      { destruct Hm. split; [|done]. by apply (ut_page _ _ _ _ _ _ _ _ _ _ U). }
      eapply role_untouched; [done| |done..]. intros r. by apply (inv_reserve_list _ _ _ _ _ _ _ _ I).
  - intros x Hx. destruct (decide (x ∈ T)) as [HT|HT].
    + destruct (Tp x HT) as (pg & Hm & _). eauto.
    + apply To in Hx; [|done]. destruct (i_owned _ _ _ _ _ _ _ I x Hx) as (pg & Hp & Ht).
      exists pg. split; [|done]. by apply (ut_page _ _ _ _ _ _ _ _ _ _ U).
  - intros x pg Hm. destruct (decide (x ∈ T)) as [HT|HT]; [by apply Tw|].
    apply (ut_back _ _ _ _ _ _ _ _ _ _ U) in Hm; [|done].
    destruct (i_where _ _ _ _ _ _ _ I x pg Hm) as [HF|[l Hl]].
    + left. by apply To.
    + right. exists l. by apply (ut_list _ _ _ _ _ _ _ _ _ _ U).
  - intros a x Ha H0. destruct (decide (x ∈ T)) as [HT|HT].
    + destruct (Tp x HT) as (pg & Hm & Hv). exists pg. split; [done|]. by apply Hv.
    + apply Tt in Ha; [|done..]. destruct (i_table _ _ _ _ _ _ _ I a x Ha H0) as (pg & [Hp Ht] & Hv).
      exists pg. split; [|done]. split; [|done]. by apply (ut_page _ _ _ _ _ _ _ _ _ _ U).
  - apply (ut_untracked _ _ _ _ _ _ _ _ _ _ U).
  - apply (ut_range _ _ _ _ _ _ _ _ _ _ U).
Qed.

(** ** Slots *)

(** Field updates that keep every page's slot. *)
Lemma slots_same P P' e e' :
  slots_ok P e -> glob e' dramsize = glob e dramsize -> glob e' disksize = glob e disksize ->
  (forall x pg', managed P' x pg' -> exists pg, managed P x pg /\
     virtual_offset pg' = virtual_offset pg /\ in_dram pg' = in_dram pg /\
     present pg' = present pg) -> slots_ok P' e'.
Proof.
  intros [Sf Sa Si Sp] Hdr Hdk H. split; unfold limit in *.
  - intros x pg' (pg & Hm & -> & -> & _)%H. rewrite Hdr, Hdk. by apply (Sf x).
  - intros x pg' (pg & Hm & -> & _)%H. by apply (Sa x).
  - intros x y px' py' (px & Hx & -> & -> & _)%H (py & Hy & -> & -> & _)%H. by apply Si.
  - intros x pg' (pg & Hm & _ & _ & ->)%H. by apply (Sp x).
Qed.

Lemma slots_env P e e' :
  slots_ok P e -> glob e' dramsize = glob e dramsize -> glob e' disksize = glob e disksize ->
  slots_ok P e'.
Proof. intros S Hd Hk. eapply slots_same; [done..|]. intros x pg Hm. by exists pg. Qed.

(** [q] has the slot of [o]. *)
Definition takes_slot (q o : user_page) : Prop :=
  virtual_offset q = virtual_offset o /\ in_dram q = in_dram o /\ present q = false.

(** Two pages that exchange their slots. *)
Lemma slots_exchange P P' e e' x y px py px' py' :
  slots_ok P e -> glob e' dramsize = glob e dramsize -> glob e' disksize = glob e disksize ->
  managed P x px -> managed P y py -> x <> y ->
  P' !! x = Some px' -> P' !! y = Some py' -> takes_slot px' py -> takes_slot py' px ->
  (forall z, z <> x -> z <> y -> P' !! z = P !! z) -> slots_ok P' e'.
Proof.
  intros [Sf Sa Si Sp] Hdr Hdk Hx Hy Hxy Hx' Hy' (Ox & Dx & Prx) (Oy & Dy & Pry) Hz.
  assert (forall z pz', managed P' z pz' -> exists w pw, managed P w pw /\
    virtual_offset pz' = virtual_offset pw /\ in_dram pz' = in_dram pw /\ present pz' = false /\
    w = (if decide (z = x) then y else if decide (z = y) then x else z)) as H.
  { intros z pz' [Hpz Ht]. destruct (decide (z = x)) as [->|]; [|destruct (decide (z = y)) as [->|]].
    - exists y, py. assert (pz' = px') as -> by congruence. done.
    - exists x, px. assert (pz' = py') as -> by congruence. done.
    - rewrite Hz in Hpz by done. exists z, pz'. split_and!; try done. by apply (Sp z). }
  split; unfold limit in *.
  - intros z pz' (w & pw & Hw & -> & -> & _)%H. rewrite Hdr, Hdk. by apply (Sf w).
  - intros z pz' (w & pw & Hw & -> & _)%H. by apply (Sa w).
  - intros z1 z2 p1 p2 (w1 & pw1 & Hw1 & -> & -> & _ & E1)%H (w2 & pw2 & Hw2 & -> & -> & _ & E2)%H Hd Ho.
    assert (w1 = w2) as Heq by (by eapply Si). subst w1 w2.
    repeat case_decide; congruence.
  - intros z pz' (w & pw & Hw & _ & _ & -> & _)%H. done.
Qed.

(** ** Kernel changes confined to the pages of an operation *)

Record confined (O : list loc) P e e' : Prop := {
  cn_pages : pages e' = pages e;
  cn_mem : forall a, registered (kern e) a = true -> (forall t, t ∈ O -> pages e !! a <> Some t) ->
    mem (kern e') a = mem (kern e) a /\ dirty (kern e') a = dirty (kern e) a;
  cn_disk : forall o, (forall t tp, t ∈ O -> managed P t tp -> in_dram tp = false ->
    virtual_offset tp <> o) -> disk (kern e') o = disk (kern e) o;
  cn_reg : forall a, registered (kern e') a = registered (kern e) a }.

Lemma untouched_confined T k F C infl P P' L L' e e' :
  inv k F C infl P L e -> confined (T ++ F) P e e' ->
  (forall x, x ∉ T -> P' !! x = P !! x) ->
  (forall x l, x ∉ T -> (x ∈ L' l <-> x ∈ L l)) ->
  (forall x, x ∈ T -> x ∈ L disk_reserve_list ->
    exists pg y, P !! x = Some pg /\ reserve pg = Some y /\ (y ∈ T \/ y ∈ F)) ->
  untouched T F C C P P' L L' e e'.
Proof.
  intros I [Cp Cm Cd Cr] HP HL Hres. split; try done.
  - intros x pg HT. by rewrite HP.
  - intros x pg HT [Hp Ht]. rewrite HP in Hp by done. done.
  - intros x pg HT HF Hm [Ht H0 Ha Hr]. destruct (Cm (va pg)) as [-> ->]; [done| |].
    { rewrite Ht. intros t Hin [= ->]. apply elem_of_app in Hin. tauto. }
    by rewrite Cr, Cp.
  - intros x pg HT HF Hm Hd. apply Cd. intros t tp Hin Hmt Hdt Ho.
    assert (t = x) as ->; [|apply elem_of_app in Hin; tauto].
    eapply (so_inj _ _ (i_slots _ _ _ _ _ _ _ I)); [done..|congruence|done].
  - intros a Hr Ht. rewrite Cp in Ht. rewrite Cr in Hr.
    destruct (Cm a) as [-> _]; [done|intros t _; congruence|]. by apply (i_untracked _ _ _ _ _ _ _ I).
  - intros a. rewrite Cr. apply (i_range _ _ _ _ _ _ _ I).
Qed.

Lemma confined_obs O P e e' :
  pages e' = pages e -> obs_eq (kern e) (kern e') -> confined O P e e'.
Proof. intros Hp [Hm Hd Ho [Hg _] _]. by split. Qed.

Lemma confined_refl O P e : confined O P e e.
Proof. by apply confined_obs. Qed.

(** The configuration survives every step that leaves the zeroed page and
    the buffers alone. *)
Lemma conf_ok_env e e' :
  conf_ok e -> (forall x, inv_gvar x = true -> glob e' x = glob e x) ->
  (forall t, flag e' (buffer_allocated t) = flag e (buffer_allocated t)) ->
  (forall t, flag e' (prefetch_buffer_allocated t) = flag e (prefetch_buffer_allocated t)) ->
  (forall a, mapped (kern e) a = true -> registered (kern e) a = false ->
     mapped (kern e') a = true /\ registered (kern e') a = false) ->
  content (kern e') (glob e page_cache) = content (kern e) (glob e page_cache) -> conf_ok e'.
Proof.
  intros [Hd Hk Hb (Hcm & Hcr & Hcz) Ha Hp] Hg Hf1 Hf2 Hu Hct. unfold buffer_ok, prefetch_ok in *.
  split; unfold buffer_ok, prefetch_ok; rewrite ?Hg by done; try done.
  - intros t. rewrite Hf1, Hg by done. intros Hal. destruct (Hb t Hal). by apply Hu.
  - destruct (Hu _ Hcm Hcr). split_and!; [done..|congruence].
  - intros t. rewrite Hf1, Hg by done. apply Ha.
  - intros t. rewrite Hf2, Hg by done. intros Hal. destruct (Hp t Hal) as (H0 & Hl & Hr). split_and!; [done..|].
    intros a Hin. destruct (Hr a Hin) as (? & ? & ?). destruct (Hu a) as []; done.
Qed.

(** Every step that does not reach the zeroed page nor the registrations. *)
Lemma conf_ok_step e e' :
  conf_ok e -> env_step e e' -> same_reg (kern e) (kern e') ->
  content (kern e') (glob e page_cache) = content (kern e) (glob e page_cache) -> conf_ok e'.
Proof.
  intros Hc S [Hr Hm] Hct. apply (conf_ok_env e); try done.
  - intros x Hx. apply (es_glob _ _ S). by destruct x.
  - intros t. by apply (es_flag _ _ S).
  - intros t. by apply (es_flag _ _ S).
  - intros a. by rewrite Hm, Hr.
Qed.

Lemma conf_ok_obs e e' :
  conf_ok e -> env_step e e' -> obs_eq (kern e) (kern e') -> conf_ok e'.
Proof.
  intros Hc S O. eapply conf_ok_step; [done|done|apply O|]. by rewrite <- O.
Qed.

Lemma rings_ok_obs infl e k' :
  rings_ok infl e -> obs_eq (kern e) k' -> rings_ok infl (set_kern k' e).
Proof. intros R O. apply rings_ok_same; [done|apply O]. Qed.

Lemma flying_ok_obs F P e e' infl :
  flying_ok F P e infl -> same_reg (kern e) (kern e') -> flying_ok F P e' infl.
Proof.
  intros Hf Hg. eapply Forall_impl; [done|]. intros y [Hr ?]. simpl in *.
  by rewrite (sg_registered _ _ Hg).
Qed.

(** A kernel call that changes nothing observable. *)
Lemma inv_obs k F C infl P L e k' :
  inv k F C infl P L e -> obs_eq (kern e) k' -> inv k F C infl P L (set_kern k' e).
Proof.
  intros I H. pose proof I as [Hh Hc Hr Hs Hro Ho Hw Ht Hcl Hun Hf Hn].
  eapply (inv_update []); [done| | |by eapply slots_env|by eapply conf_ok_obs|
    by apply rings_ok_obs|done|eapply flying_ok_obs; [done|apply H]|done].
  - eapply untouched_confined; [done|by apply confined_obs|done|done|].
    by intros x ?%elem_of_nil.
  - split; try done; [by intros x ?%elem_of_nil|by intros x l pg ?%elem_of_nil|
      by intros x ?%elem_of_nil].
Qed.

(** Variables the invariant does not mention, and another running thread as
    long as the one that ran has no requests in flight. *)
Lemma inv_vars_switch k F C infl P L e e' :
  inv k F C infl P L e -> (forall x, inv_gvar x = true -> glob e' x = glob e x) ->
  (forall b, inv_bvar b = true -> flag e' b = flag e b) -> pages e' = pages e ->
  held e' = held e -> kern e' = kern e -> infl = [] \/ self e' = self e -> inv k F C infl P L e'.
Proof.
  intros I Hg Hf Hp Hh Hk Hse.
  assert (forall r, flying (self e') infl r = flying (self e) infl r) as Hfl'
    by (intros r; destruct Hse as [->| ->]; by rewrite ?flying_nil). pose proof I as [H1 Hc Hr Hs _ _ _ _ Hcl Hun Hfl Hn].
  eapply (inv_update []); [done| | |by eapply slots_env; eauto| | |by rewrite Hh| |].
  - eapply untouched_confined; [done| |done|done|by intros x ?%elem_of_nil].
    apply confined_obs; [done|by rewrite Hk].
  - split; try done; [by intros x ?%elem_of_nil|by intros x l pg ?%elem_of_nil|
      by intros x ?%elem_of_nil|by intros a x _ _; rewrite Hp].
  - apply (conf_ok_env e); rewrite ?Hk; auto.
  - destruct Hr as [Rp Ri Rinit Rf Rrd].
    split; rewrite ?Hk; [done| | | |done]; intros r; rewrite ?Hfl'; [done|..];
      rewrite Hf by (by destruct r); auto.
  - eapply flying_ok_obs; [done|by rewrite Hk].
  - unfold frames in *. by rewrite Hg.
Qed.

Lemma inv_vars k F C infl P L e e' :
  inv k F C infl P L e -> (forall x, inv_gvar x = true -> glob e' x = glob e x) ->
  (forall b, inv_bvar b = true -> flag e' b = flag e b) -> pages e' = pages e ->
  held e' = held e -> kern e' = kern e -> self e' = self e -> inv k F C infl P L e'.
Proof. intros. eapply inv_vars_switch; eauto. Qed.

Lemma inv_switch k F C P L e t : inv k F C [] P L e -> inv k F C [] P L (set_self t e).
Proof. intros I. eapply inv_vars_switch; [exact I|done..|by left]. Qed.

Lemma inv_set_flag k F C infl P L e b v :
  inv_bvar b = false -> inv k F C infl P L e -> inv k F C infl P L (set_flag b v e).
Proof.
  intros Hb I. eapply inv_vars; [done..| |done|done|done|done]. intros b' Hb'. simpl.
  rewrite fupd_ne; [done|congruence].
Qed.

Lemma inv_set_glob k F C infl P L e x v :
  inv_gvar x = false -> inv k F C infl P L e -> inv k F C infl P L (set_glob x v e).
Proof.
  intros Hx I. eapply inv_vars; [done| |done..]. intros x' Hx'. simpl.
  rewrite fupd_ne; [done|congruence].
Qed.

(** ** Residents whose descriptor or lists change in passing *)

Lemma resident_lists C P L L' e x pg :
  L' disk_reserve_list = L disk_reserve_list -> resident C P L e x pg -> resident C P L' e x pg.
Proof. intros HL []. split; try done. unfold reserve_ok. by rewrite HL. Qed.

Lemma resident_obs C P L e k' x pg :
  obs_eq (kern e) k' -> resident C P L e x pg -> resident C P L (set_kern k' e) x pg.
Proof.
  intros [Hm Hd Ho [Hg _] _] [Hdr [Ht H0 Ha Hr] Hmem Hres Hmg Hsw].
  split; simpl; try done; [split; [done..|by rewrite <- Hg in Hr]|by rewrite Hm|].
  intros Hh. destruct (Hres Hh) as (r & rp & ? & ? & ? & ? & Hclean). exists r, rp.
  split_and!; try done. simpl. by rewrite Hd, Ho.
Qed.

Lemma resident_naccesses C P L e x pg n :
  x ∉ L disk_reserve_list ->
  resident C P L e x pg -> resident C (<[x := set_naccesses n pg]> P) L e x (set_naccesses n pg).
Proof.
  intros Hx [Hdr Hat Hmem Hres Hmg Hsw]. split; simpl; try done; [by destruct Hat|].
  intros Hh. destruct (Hres Hh) as (r & rp & ? & Hin & ? & ? & Hclean). exists r, rp.
  split_and!; try done. by rewrite lookup_insert_ne by congruence.
Qed.

Lemma resident_other C P L e x pg pg' :
  x ∉ L disk_reserve_list -> resident C P L e x pg -> resident C (<[x := pg']> P) L e x pg.
Proof.
  intros Hx [Hdr Hat Hmem Hres Hmg Hsw]. split; try done.
  intros Hh. destruct (Hres Hh) as (r & rp & ? & Hin & ? & ? & Hclean). exists r, rp.
  split_and!; try done. by rewrite lookup_insert_ne by congruence.
Qed.

Lemma resident_vars C P L e e' x pg :
  pages e' = pages e -> kern e' = kern e -> resident C P L e x pg -> resident C P L e' x pg.
Proof.
  intros Hp Hk [Hdr [] Hmem Hres Hmg Hsw].
  split; unfold reserve_ok; rewrite ?Hk; try done. split; rewrite ?Hp, ?Hk; done.
Qed.

Lemma swapped_vars C e e' x pg :
  pages e' = pages e -> kern e' = kern e -> swapped C e x pg -> swapped C e' x pg.
Proof.
  intros Hp Hk [Hdr [] Hmem Hdk Hr Hmg Hsw].
  split; rewrite ?Hk; try done. split; rewrite ?Hp, ?Hk; done.
Qed.

Lemma flying_ok_pages F P P' e infl :
  (forall t, t ∈ F -> P' !! t = P !! t) -> flying_ok F P e infl -> flying_ok F P' e infl.
Proof.
  intros HP Hf. eapply Forall_impl; [done|]. intros z (Hz & t & tp & Hin & [Hp Htt] & ?).
  split; [done|]. exists t, tp. split; [done|]. split; [|done]. split; [by rewrite HP|done].
Qed.

(** The lists matter pointwise. *)
Lemma inv_ext k F C infl P L L' e :
  inv k F C infl P L e -> (forall l, L' l = L l) -> inv k F C infl P L' e.
Proof.
  intros I HL. pose proof I as [H1 Hc Hr Hs _ _ _ _ Hcl Hun Hfl Hn].
  eapply (inv_update []); [done| | |done..|].
  - eapply untouched_confined; [done|apply confined_refl|done|intros; by rewrite HL|].
    by intros x ?%elem_of_nil.
  - split; try done; [by intros x ?%elem_of_nil|by intros x l pg ?%elem_of_nil|
      by intros x ?%elem_of_nil|intros x; rewrite HL; apply Hcl].
  - unfold on_frames in *. by rewrite !HL.
Qed.

(** ** Moving pages between the lists and the operation *)

Definition framed (l : fifo_id) : Z :=
  match l with dram_free_list | active_list | inactive_list | eviction_list => 1 | _ => 0 end.

Lemma on_frames_fupd L l xs :
  on_frames (fupd L l xs) = on_frames L + framed l * (Z.of_nat (length xs) - Z.of_nat (length (L l))).
Proof. unfold on_frames. destruct l; simpl; simp_fupd; lia. Qed.

Lemma elem_removed L l l1 x l2 :
  L l = l1 ++ x :: l2 -> forall y l', y <> x -> (y ∈ fupd L l (l1 ++ l2) l' <-> y ∈ L l').
Proof.
  intros HL y l' Hy. destruct (decide (l = l')) as [<-|]; [|by rewrite fupd_ne].
  rewrite fupd_eq, HL, !elem_of_app, elem_of_cons. naive_solver.
Qed.

Lemma elem_added L l x y l' : y <> x -> (y ∈ fupd L l (x :: L l) l' <-> y ∈ L l').
Proof.
  intros Hy. destruct (decide (l = l')) as [<-|]; [|by rewrite fupd_ne].
  rewrite fupd_eq, elem_of_cons. naive_solver.
Qed.

(** Changing only who owns [x] and which list it is on. *)
Lemma inv_move x k F C infl P L e k' F' L' :
  inv k F C infl P L e ->
  (forall y l, y <> x -> (y ∈ L' l <-> y ∈ L l)) -> (forall y, y <> x -> (y ∈ F' <-> y ∈ F)) ->
  (x ∈ L disk_reserve_list ->
     exists pg y, P !! x = Some pg /\ reserve pg = Some y /\ (y = x \/ y ∈ F)) ->
  (exists pg, managed P x pg /\ (x ∈ F' \/
     exists l, x ∈ L' l /\ (forall l', x ∈ L' l' -> l' = l) /\ role C P L' e l x pg)) ->
  (forall y, y ∈ F' -> y ∉ L' disk_reserve_list) ->
  flying_ok F' P e infl -> on_frames L' + k' = frames e ->
  inv k' F' C infl P L' e.
Proof.
  intros I HL HF Hres (pg & Hm & Hx) Hcl Hfl Hn. pose proof I as [Hh Hc Hr Hs Hro Ho Hw Ht _ _ _ _].
  eapply (inv_update [x]); [done| | |done..].
  - eapply untouched_confined; [done|by apply confined_refl|done| |].
    + intros y l Hy. apply HL. by intros ->; apply Hy; left.
    + intros y ->%list_elem_of_singleton Hin. destruct (Hres Hin) as (q & z & ? & ? & Hz).
      exists q, z. split_and!; [done..|]. destruct Hz as [->|]; [left; left|by right].
  - split; try done.
    + intros y ->%list_elem_of_singleton. exists pg. split; [done|]. intros a Ha H0.
      destruct (Ht a x Ha H0) as (pg2 & [Hp2 _] & Hv). destruct Hm. congruence.
    + intros y l pg2 ->%list_elem_of_singleton Hl HxF [Hp2 Ht2].
      destruct Hx as [|(l0 & Hl0 & Huniq & Hrole)]; [done|]. destruct Hm.
      assert (pg2 = pg) as -> by congruence. by rewrite (Huniq l Hl).
    + intros y ->%list_elem_of_singleton. destruct Hx as [|(l & Hl & _)]; [by left|right; by exists l].
    + intros y Hy. apply HF. by intros ->; apply Hy; left.
Qed.

(** Taking [x] off the list [l]. *)
Lemma inv_take x l l1 l2 k F C infl P L e :
  inv k F C infl P L e -> L l = l1 ++ x :: l2 -> x ∉ F -> l <> disk_reserve_list ->
  floating (fupd L l (l1 ++ l2)) x ->
  inv (k + framed l) (x :: F) C infl P (fupd L l (l1 ++ l2)) e /\
  exists pg, managed P x pg /\ role C P L e l x pg.
Proof.
  intros I HL HF Hl Hfl.
  destruct (i_role _ _ _ _ _ _ _ I l x) as (pg & Hm & Hrole); [|done|].
  { rewrite HL. apply elem_of_app. right. left. }
  split; [|by exists pg]. eapply (inv_move x); [done|by apply elem_removed| | | | | |].
  - intros y Hy. rewrite elem_of_cons. naive_solver.
  - intros Hx. exfalso. apply (Hfl disk_reserve_list). by rewrite fupd_ne.
  - exists pg. split; [done|]. left. left.
  - intros y [->|Hy]%elem_of_cons; [apply Hfl|].
    rewrite fupd_ne by done. by apply (i_closed _ _ _ _ _ _ _ I).
  - pose proof (i_flying _ _ _ _ _ _ _ I) as H. eapply Forall_impl; [done|].
    intros z (Hz & t & tp & Hin & ?). split; [done|]. exists t, tp. split; [by right|done].
  - rewrite on_frames_fupd, HL, !length_app. simpl.
    pose proof (i_count _ _ _ _ _ _ _ I). lia.
Qed.

(** Putting an owned page on the list [l]. *)
Lemma inv_put x l pg k F C infl P L e :
  inv k (x :: F) C infl P L e -> x ∉ F -> floating L x -> managed P x pg ->
  role C P (fupd L l (x :: L l)) e l x pg ->
  flying_ok F P e infl ->
  inv (k - framed l) F C infl P (fupd L l (x :: L l)) e.
Proof.
  intros I HF Hfl Hm Hrole Hfly.
  eapply (inv_move x); [done|intros; by apply elem_added| | | | |done|].
  - intros y Hy. rewrite elem_of_cons. naive_solver.
  - intros Hx. by destruct (Hfl disk_reserve_list).
  - exists pg. split; [done|]. right. exists l. split_and!; [|intros l'|done].
    + rewrite fupd_eq. left.
    + intros Hin. destruct (decide (l = l')) as [|Hne]; [done|].
      rewrite fupd_ne in Hin by done. by destruct (Hfl l').
  - intros y Hy Hin. destruct (decide (y = x)) as [->|]; [done|].
    apply elem_added in Hin; [|done].
    by apply (i_closed _ _ _ _ _ _ _ I y); [right|].
  - rewrite on_frames_fupd. simpl. pose proof (i_count _ _ _ _ _ _ _ I). lia.
Qed.

(** The operation updates pages it owns; the kernel changes are theirs. *)
Lemma inv_own k F C infl P L e infl' P' e' :
  inv k F C infl P L e ->
  (forall x, x ∉ F -> P' !! x = P !! x) ->
  (forall x, x ∈ F -> exists pg', managed P' x pg' /\ (forall pg, P !! x = Some pg -> va pg' = va pg)) ->
  confined F P e e' -> slots_ok P' e' -> conf_ok e' -> rings_ok infl' e' -> held e' = [] ->
  glob e' dramsize = glob e dramsize -> flying_ok F P' e' infl' ->
  inv k F C infl' P' L e'.
Proof.
  intros I HP HF Hcn Hs Hc Hr Hh Hd Hfl. pose proof I as [_ _ _ _ _ Ho _ Ht Hcl _ _ Hn].
  eapply (inv_update F); [done| | |done..|].
  - eapply untouched_confined; [done| |done|done|].
    + destruct Hcn as [? Hm Hdk ?]. split; [done| | |done].
      * intros a Ha Ht'. apply Hm; [done|]. intros t Hin. apply Ht', elem_of_app. by left.
      * intros o Ho'. apply Hdk. intros t tp Hin. apply Ho', elem_of_app. by left.
    + intros x Hx Hin. by destruct (Hcl x).
  - split; try done.
    + intros x Hx. destruct (HF x Hx) as (pg' & Hm' & Hv). exists pg'. split; [done|].
      rewrite (cn_pages _ _ _ _ Hcn). intros a Ha H0.
      destruct (Ht a x Ha H0) as (pg & [Hp _] & <-). by apply Hv.
    + intros x Hx. by left.
    + intros a x _ _. by rewrite (cn_pages _ _ _ _ Hcn).
  - unfold frames in *. by rewrite Hd.
Qed.

Record same_slot (pg pg' : user_page) : Prop := {
  ss_pt : pt pg' = pt pg;
  ss_va : va pg' = va pg;
  ss_offset : virtual_offset pg' = virtual_offset pg;
  ss_dram : in_dram pg' = in_dram pg;
  ss_present : present pg' = present pg }.

Lemma slots_set P e e' x pg pg' :
  slots_ok P e -> glob e' dramsize = glob e dramsize -> glob e' disksize = glob e disksize ->
  P !! x = Some pg -> same_slot pg pg' -> slots_ok (<[x := pg']> P) e'.
Proof.
  intros Hs Hd Hk Hx []. eapply slots_same; [done..|]. intros y py [Hy Hty].
  destruct (decide (y = x)) as [->|].
  - rewrite lookup_insert_eq in Hy. injection Hy as <-. exists pg. split_and!; try done.
    split; [done|congruence].
  - rewrite lookup_insert_ne in Hy by done. by exists py.
Qed.

Lemma flying_set F P e infl x pg pg' :
  flying_ok F P e infl -> P !! x = Some pg -> same_slot pg pg' ->
  flying_ok F (<[x := pg']> P) e infl.
Proof.
  intros Hf Hx []. eapply Forall_impl; [done|]. intros z (Hz & t & tp & Hin & [Hp Htt] & Hd & Ho).
  split; [done|]. destruct (decide (t = x)) as [->|].
  - assert (tp = pg) as -> by congruence. exists x, pg'. split; [done|].
    split_and!; [split; [by rewrite lookup_insert_eq|congruence]|congruence..].
  - exists t, tp. split; [done|]. split; [|done]. split; [by rewrite lookup_insert_ne|done].
Qed.

(** A field of an owned page is written. *)
Lemma inv_set x pg pg' k F C infl P L e :
  inv k F C infl P L e -> x ∈ F -> managed P x pg -> same_slot pg pg' ->
  inv k F C infl (<[x := pg']> P) L e.
Proof.
  intros I HF [Hx Ht] Hss. pose proof Hss as [].
  eapply (inv_own k F C infl P); [done| | |apply confined_refl| |apply I|apply I|apply I|done|].
  - intros y Hy. rewrite lookup_insert_ne; [done|congruence].
  - intros y Hy. destruct (decide (y = x)) as [->|].
    + exists pg'. split; [split; [by rewrite lookup_insert_eq|congruence]|].
      intros pg2 Hp. congruence.
    + destruct (i_owned _ _ _ _ _ _ _ I y Hy) as (py & Hp & ?). exists py.
      split; [split; [by rewrite lookup_insert_ne|done]|]. intros pg2 ?. congruence.
  - eapply slots_set; [apply I|done..].
  - eapply flying_set; [apply I|done..].
Qed.

(** The exchange at the heart of an eviction: the owned, resident page [x]
    gives its frame to [d], a free or reserved disk slot, and becomes the
    page stored in that slot. *)
Lemma inv_exchange k F C infl P L e x d px pd px' pd' ld l1 l2 P' L' e' :
  inv k (x :: F) C infl P L e ->
  x ∉ F -> floating L x -> managed P x px -> resident C P L e x px ->
  ld = (if has_reserve px then disk_reserve_list else disk_free_list) ->
  L ld = l1 ++ d :: l2 -> d ∉ F -> (forall l, d ∈ L l -> l = ld) ->
  managed P d pd -> in_dram pd = false -> va pd = 0 -> (has_reserve px = true -> reserve pd = Some x) ->
  floating (fupd L ld (l1 ++ l2)) d ->
  (forall z, z <> x -> z <> d -> P' !! z = P !! z) ->
  L' = fupd (fupd L ld (l1 ++ l2)) disk_active_list (x :: L disk_active_list) ->
  P' !! x = Some px' -> pt px' = BASEP -> takes_slot px' pd -> va px' = va px ->
  has_reserve px' = false -> migrating px' = false -> swapped_out px' = true ->
  P' !! d = Some pd' -> pt pd' = BASEP -> takes_slot pd' px -> va pd' = 0 -> has_reserve pd' = false ->
  confined [x; d] P e e' -> same_reg (kern e) (kern e') -> env_step e e' -> rings_ok infl e' ->
  content (kern e') (glob e page_cache) = content (kern e) (glob e page_cache) ->
  mem (kern e') (va px) = None -> disk (kern e') (virtual_offset pd) = C (va px) ->
  flying_ok F P e infl ->
  inv k (d :: F) C infl P' L' e' /\ floating L' d.
Proof.
  intros I HxF Hfx Hmx [Hdx [Hat H0 Hal Hreg] _ _ _ _] -> HL HdF Hdl Hmd Hdd Hvd Hres Hfd HP ->
    Hx' Htx' Hox' Hvx' Hhx' Hmgx' Hswx' Hd' Htd' Hod' Hvd' Hhd' Hcn Hsg S R Hcc Hm Hdk Hfly.
  set (ld := if has_reserve px then disk_reserve_list else disk_free_list) in *.
  assert (x <> d) as Hxd.
  { intros ->. apply (Hfx ld). rewrite HL. apply elem_of_app. right. left. }
  assert (ld <> disk_active_list /\ framed ld = 0) as [Hlda Hld0] by (by unfold ld; destruct (has_reserve px)).
  pose proof I as [_ Hc _ Hs _ _ _ Ht Hcl _ _ Hn].
  assert (floating (fupd (fupd L ld (l1 ++ l2)) disk_active_list (x :: L disk_active_list)) d) as Hfl'.
  { apply floating_fupd; [done|]. intros [?|H]%elem_of_cons; [done|]. by destruct Hlda; rewrite (Hdl _ H). }
  split; [|done].
  assert (forall y l, y <> x -> y <> d -> (y ∈ fupd (fupd L ld (l1 ++ l2)) disk_active_list
    (x :: L disk_active_list) l <-> y ∈ L l)) as Hel.
  { intros y l Hyx Hyd. rewrite <- (elem_removed L ld l1 d l2 HL y l) by done.
    rewrite <- (fupd_ne L ld disk_active_list (l1 ++ l2)) by done. by apply elem_added. }
  eapply (inv_update [x; d]); [done| | | | |done| | |].
  - eapply untouched_confined; [done| | |intros y l Hy; apply Hel; inv_in|].
    + destruct Hcn as [? Hcm Hcd ?]. split; [done| | |done].
      * intros a Ha Ht'. apply Hcm; [done|]. intros t Hin. apply Ht', elem_of_app. by left.
      * intros o Ho'. apply Hcd. intros t tp Hin. apply Ho', elem_of_app. by left.
    + intros y Hy. apply HP; inv_in.
    + intros y Hy Hin. assert (y = d) as -> by (inv_in; by destruct (Hfx disk_reserve_list)).
      specialize (Hdl _ Hin). unfold ld in Hdl. destruct (has_reserve px); [|done].
      exists pd, x. destruct Hmd. split_and!; [done|by apply Hres|left; left].
  - split.
    + intros y Hy. rewrite (es_pages _ _ S). intros. inv_in.
      * exists px'. split; [done|]. intros a Ha Ha0. rewrite Hvx'.
        destruct (Ht a x Ha Ha0) as (pg & [Hp _] & <-). destruct Hmx. congruence.
      * exists pd'. split; [done|]. intros a Ha Ha0.
        destruct (Ht a d Ha Ha0) as (pg & [Hp _] & Hv). destruct Hmd. congruence.
    + intros y l pg Hy Hl HyF [Hp _]. assert (y = x) as -> by (inv_in; by destruct HyF; left).
      assert (pg = px') as -> by congruence.
      assert (l = disk_active_list) as ->.
      { destruct (decide (disk_active_list = l)) as [|Hne]; [done|].
        rewrite fupd_ne in Hl by done. apply (elem_removed L ld l1 d l2 HL) in Hl; [|done].
        by destruct (Hfx l). }
      destruct Hox' as (Ho & Hdr & _). split; try done; rewrite ?Hvx', ?Ho; [congruence| |done..].
      split; rewrite ?Hvx'; [by rewrite (es_pages _ _ S)|done..|].
      by rewrite (cn_reg _ _ _ _ Hcn).
    + intros y Hy. inv_in; [right|left; left]. exists disk_active_list. rewrite fupd_eq. left.
    + intros y Hy. rewrite !elem_of_cons. inv_in. naive_solver.
    + intros y [->|Hy]%elem_of_cons; [apply Hfl'|].
      intros Hin. destruct (decide (y = x)) as [->|]; [done|].
      assert (y <> d) by congruence. apply Hel in Hin; [|done..].
      by apply (Hcl y); [right|].
    + intros a y _ _. by rewrite (es_pages _ _ S).
  - eapply (slots_exchange P P' e e' x d); try done; by apply (es_glob _ _ S).
  - by eapply conf_ok_step.
  - by rewrite (es_held _ _ S), (i_held _ _ _ _ _ _ _ I).
  - eapply Forall_impl; [done|]. intros z (Hz & t & tp & Hin & [Hp Htt] & Hdt & Hot). split.
    { by rewrite (cn_reg _ _ _ _ Hcn). }
    exists t, tp. split; [by right|]. split; [|done]. split; [|done]. rewrite HP; congruence.
  - rewrite !on_frames_fupd. unfold frames in *. rewrite (es_glob _ _ S) by done. simpl.
    rewrite HL, !length_app, Hld0. simpl. lia.
Qed.

(** The owned, idle frame [d] becomes the page of the address [a], which was
    never touched. *)
Lemma inv_adopt k F C infl P L e a d pd pd' e' :
  inv k (d :: F) C infl P L e -> d ∉ F -> managed P d pd -> idle true pd ->
  a <> 0 -> pages e !! a = None -> registered (kern e) a = true ->
  pt pd' = BASEP -> va pd' = a -> takes_slot pd' pd ->
  (forall x, inv_gvar x = true -> glob e' x = glob e x) ->
  (forall b, inv_bvar b = true -> flag e' b = flag e b) ->
  pages e' = <[a := d]> (pages e) -> held e' = held e -> self e' = self e ->
  mem (kern e') a = Some (C a) -> same_mem_but (fun b => b = a) (kern e) (kern e') ->
  same_disk (kern e) (kern e') -> same_reg (kern e) (kern e') -> same_rings (kern e) (kern e') ->
  flying_ok F P e infl ->
  inv k (d :: F) C infl (<[d := pd']> P) L e'.
Proof.
  intros I HdF Hm [Hdr Hvd _] H0 Hnone Hreg Htd Hvd' Hs' Hgl Hfl Hpg Hh Hse Hma Hmo Hdk Hsr Hrings Hfly.
  pose proof I as [Hh0 Hc Hr Hs _ Ho _ Ht Hcl Hun _ Hn]. pose proof Hm as [Hd Hpt].
  assert (forall b x, b <> a -> pages e' !! b = x <-> pages e !! b = x) as Hpages.
  { intros b x Hb. by rewrite Hpg, lookup_insert_ne. }
  eapply (inv_update [d]); [exact I| | | | | |by rewrite Hh| |].
  - split; try done.
    + intros x pg Hx. rewrite lookup_insert_ne; [done|]. intros ->. apply Hx. left.
    + intros x pg Hx [Hp Ht']. rewrite lookup_insert_ne in Hp; [done|]. intros ->. apply Hx. left.
    + intros x pg HT HF Hmx [Hav H0x Hax Hrx].
      assert (va pg <> a) as Hne by (intros Heq; congruence).
      rewrite (sm_mem _ _ _ Hmo), (sm_dirty _ _ _ Hmo), (sg_registered _ _ Hsr) by done.
      split_and!; try done. by apply Hpages.
    + intros b Hrb Hb. rewrite (sg_registered _ _ Hsr) in Hrb.
      assert (b <> a) as Hne by (intros ->; rewrite Hpg, lookup_insert_eq in Hb; done).
      rewrite (sm_mem _ _ _ Hmo) by done. apply Hun; [done|]. by apply Hpages.
    + intros b. rewrite (sg_registered _ _ Hsr). apply (i_range _ _ _ _ _ _ _ I).
    + intros x ->%list_elem_of_singleton Hin. by destruct (Hcl d ltac:(left)).
  - split.
    + intros x ->%list_elem_of_singleton. exists pd'. split; [by split; [rewrite lookup_insert_eq|]|].
      intros b Hb Hb0. destruct (decide (b = a)) as [->|Hne]; [done|]. apply Hpages in Hb; [|done].
      destruct (Ht b d Hb Hb0) as (pg & [Hp _] & Hv). assert (pg = pd) as -> by congruence. congruence.
    + intros x l pg ->%list_elem_of_singleton _ []. left.
    + intros x ->%list_elem_of_singleton. left. left.
    + done.
    + done.
    + intros b x Hx _ Hb. destruct (decide (b = a)) as [->|]; [|by apply Hpages].
      rewrite Hpg, lookup_insert_eq in Hb. injection Hb as ->. destruct Hx. left.
  - destruct Hs' as (Ho' & Hd' & Hp').
    eapply slots_same; [done|by apply Hgl|by apply Hgl|]. intros x pg [Hx Hpx].
    destruct (decide (x = d)) as [->|].
    + rewrite lookup_insert_eq in Hx. injection Hx as <-. exists pd.
      split_and!; [done|done|done|]. by rewrite Hp', (so_present _ _ Hs d pd).
    + rewrite lookup_insert_ne in Hx by done. by exists pg.
  - apply (conf_ok_env e); auto.
    + intros b. by rewrite (sg_registered _ _ Hsr), (sg_mapped _ _ Hsr).
    + unfold content. rewrite (sm_mem _ _ _ Hmo); [done|].
      destruct (co_cache _ Hc) as (_ & Hcr & _). congruence.
  - assert (rings_ok infl (set_kern (kern e') e)) as [Rp Ri Rinit Rf Rrd] by by apply rings_ok_same.
    split; rewrite ?Hse; [done|done| | |done]; intros r; rewrite Hfl by (by destruct r); auto.
  - eapply Forall_impl; [exact Hfly|]. intros z (Hz & t & tp & Hin & [Hp Htt] & ?).
    split; [by rewrite (sg_registered _ _ Hsr)|]. exists t, tp. split; [by right|].
    split; [|done]. split; [by rewrite lookup_insert_ne by congruence|done].
  - unfold frames in *. by rewrite Hgl.
Qed.

(** A descriptor of another page size, entered in the table under the
    address 0, is nobody's business. *)
Lemma inv_dummy k F C infl P L e x pg :
  inv k F C infl P L e -> P !! x = None -> pt pg <> BASEP ->
  inv k F C infl (<[x := pg]> P) L (set_pages (<[0 := x]> (pages e)) e).
Proof.
  intros I Hx Ht. pose proof I as [Hh Hc Hr Hs _ _ _ _ Hcl Hun Hfl Hn].
  assert (forall y py, managed (<[x := pg]> P) y py -> managed P y py) as Hback.
  { intros y py [Hy Hty]. destruct (decide (y = x)) as [->|].
    - rewrite lookup_insert_eq in Hy. congruence.
    - by rewrite lookup_insert_ne in Hy. }
  eapply (inv_update []); [exact I| | | | | |done| |done].
  - split; try done.
    + intros y py _ Hy. by rewrite lookup_insert_ne by congruence.
    + intros y py _ Hm. by apply Hback.
    + intros y py _ _ _ [Hav H0 _ _]. simpl. by rewrite lookup_insert_ne.
    + intros a Hra Ha. simpl in Ha. apply Hun; [done|]. destruct (decide (a = 0)) as [->|].
      * by rewrite lookup_insert_eq in Ha.
      * by rewrite lookup_insert_ne in Ha.
    + by intros y ?%elem_of_nil.
  - split; try done; [by intros y ?%elem_of_nil|by intros y l py ?%elem_of_nil|
      by intros y ?%elem_of_nil|].
    intros a y _ Ha. simpl. by rewrite lookup_insert_ne.
  - eapply slots_same; [done..|]. intros y py Hm%Hback. by exists py.
  - by apply (conf_ok_env e).
  - destruct Hr. by split.
  - eapply Forall_impl; [done|]. intros z (Hz & t & tp & Hin & [Hp Htt] & ?).
    split; [done|]. exists t, tp. split; [done|]. split; [|done].
    split; [by rewrite lookup_insert_ne by congruence|done].
Qed.
End invariant.

(** ** The state of a running handler *)

Section pager.
Context {K D : Type} `{OB : KernelObs K D}.
Implicit Types (s : state K) (e : env K) (P : gmap loc user_page) (L : fifo_id -> list loc).
Implicit Types (C : Z -> D) (F : list loc).

(** The state [s] represents [P], [L], [e]; the invariant holds and the
    pages the operation owns are on no list. *)
Record pager (k : Z) F C infl s P L e : Prop := {
  pg_view : View s P L e;
  pg_inv : inv k F C infl P L e;
  pg_float : forall x, x ∈ F -> floating L x;
  pg_nodup : NoDup F }.

(** What a callee leaves alone of the pages [F] its caller owns: their
    descriptors, memory and disk slots, the memory outside userfaultfd, and
    all variables but the counters. *)
Record frame F P e P' e' : Prop := {
  fr_env : env_step e e';
  fr_page : forall x, x ∈ F -> P' !! x = P !! x;
  fr_mem : forall a, (registered (kern e) a = false \/ exists x, x ∈ F /\ pages e !! a = Some x) ->
    mem (kern e') a = mem (kern e) a /\ dirty (kern e') a = dirty (kern e) a;
  fr_disk : forall x pg, x ∈ F -> managed P x pg -> in_dram pg = false ->
    disk (kern e') (virtual_offset pg) = disk (kern e) (virtual_offset pg);
  fr_reg : same_reg (kern e) (kern e') }.

Lemma frame_refl F P e : frame F P e P e.
Proof. by split. Qed.

Lemma frame_trans F P e P1 e1 P2 e2 : frame F P e P1 e1 -> frame F P1 e1 P2 e2 -> frame F P e P2 e2.
Proof.
  intros [S1 P1' M1 D1 G1] [S2 P2' M2 D2 G2]. split.
  - by etrans.
  - intros x Hx. by rewrite P2', P1'.
  - intros a Ha. destruct (M1 a Ha) as [<- <-]. apply M2.
    rewrite (sg_registered _ _ G1), (es_pages _ _ S1). done.
  - intros x pg Hx [Hp Ht] Hd. rewrite <- (D1 x pg) by done. apply (D2 x); [done| |done].
    split; [by rewrite P1'|done].
  - by etrans.
Qed.

Lemma frame_obs F P e k' : obs_eq (kern e) k' -> frame F P e P (set_kern k' e).
Proof. intros [Hm Hd Ho Hg _]. by split. Qed.

(** A kernel call that changes nothing observable. *)
Lemma pager_obs k F C infl s s' P L e k' :
  pager k F C infl s P L e -> View s' P L (set_kern k' e) -> obs_eq (kern e) k' ->
  pager k F C infl s' P L (set_kern k' e).
Proof. intros [V I Hf Hn] V' O. split; [done|by apply inv_obs|done|done]. Qed.

Lemma pager_ext k F C infl s P L L' e :
  pager k F C infl s P L e -> (forall l, L' l = L l) -> pager k F C infl s P L' e.
Proof.
  intros [V I Hf Hn] HL. split; [by eapply view_ext|by eapply inv_ext| |done].
  intros x Hx l. rewrite HL. by apply Hf.
Qed.

Lemma pager_set_flag k F C infl s s' P L e b v :
  inv_bvar b = false -> pager k F C infl s P L e -> View s' P L (set_flag b v e) ->
  pager k F C infl s' P L (set_flag b v e).
Proof. intros Hb [V I Hf Hn] V'. split; [done|by apply inv_set_flag|done|done]. Qed.

Lemma pager_vars k F C infl s s' P L e e' :
  pager k F C infl s P L e -> View s' P L e' ->
  (forall x, inv_gvar x = true -> glob e' x = glob e x) ->
  (forall b, inv_bvar b = true -> flag e' b = flag e b) -> pages e' = pages e ->
  held e' = held e -> kern e' = kern e -> self e' = self e -> pager k F C infl s' P L e'.
Proof. intros [V I Hf Hn] V' ??????. split; [done|by eapply inv_vars|done|done]. Qed.

Lemma pager_set x pg pg' k F C infl s s' P L e :
  pager k F C infl s P L e -> x ∈ F -> managed P x pg -> same_slot pg pg' ->
  View s' (<[x := pg']> P) L e -> pager k F C infl s' (<[x := pg']> P) L e.
Proof. intros [V I Hf Hn] Hx Hm Hs V'. split; [done|by eapply inv_set|done|done]. Qed.

(** Where a page on a list is, and that no list holds it twice. *)
Lemma pager_uniq k F C infl s P L e l l' x :
  pager k F C infl s P L e -> x ∈ L l -> x ∈ L l' -> l' = l.
Proof. intros G H H'. symmetry. eapply view_disjoint; [apply (pg_view _ _ _ _ _ _ _ _ G)|done..]. Qed.

Lemma pager_not_owned k F C infl s P L e l x : pager k F C infl s P L e -> x ∈ L l -> x ∉ F.
Proof. intros G Hx HF. by apply (pg_float _ _ _ _ _ _ _ _ G x HF l). Qed.

Lemma pager_role k F C infl s P L e l x :
  pager k F C infl s P L e -> x ∈ L l -> exists pg, managed P x pg /\ role C P L e l x pg.
Proof.
  intros G Hx. apply (i_role _ _ _ _ _ _ _ (pg_inv _ _ _ _ _ _ _ _ G)); [done|].
  by eapply pager_not_owned.
Qed.

(** The last page of a list, taken by the operation. *)
Lemma pager_take k F C infl s s' P L e l l1 x l2 :
  pager k F C infl s P L e -> L l = l1 ++ x :: l2 -> l <> disk_reserve_list ->
  View s' P (fupd L l (l1 ++ l2)) e ->
  pager (k + framed l) (x :: F) C infl s' P (fupd L l (l1 ++ l2)) e /\
  exists pg, managed P x pg /\ role C P L e l x pg.
Proof.
  intros G HL Hl V'. assert (x ∈ L l) as Hx by (rewrite HL; apply elem_of_app; right; left).
  assert (x ∉ F) as HF by by eapply pager_not_owned.
  assert (floating (fupd L l (l1 ++ l2)) x) as Hf by by eapply floating_removed; [apply G|].
  destruct (inv_take x l l1 l2 k F C infl P L e) as [I Hrole]; [apply G|done..|].
  split; [|done]. split; [done|done| |].
  - intros y [->|Hy]%elem_of_cons; [done|]. intros l' Hin.
    assert (y <> x) by congruence. apply (elem_removed L l l1 x l2) in Hin; [|done..].
    by apply (pg_float _ _ _ _ _ _ _ _ G y Hy l').
  - apply NoDup_cons. split; [done|apply G].
Qed.

(** An owned page, put on a list. *)
Lemma pager_put k F C infl s s' P L e l x pg :
  pager k (x :: F) C infl s P L e -> managed P x pg ->
  role C P (fupd L l (x :: L l)) e l x pg -> flying_ok F P e infl ->
  View s' P (fupd L l (x :: L l)) e ->
  pager (k - framed l) F C infl s' P (fupd L l (x :: L l)) e.
Proof.
  intros [V I Hf [HxF Hn]%NoDup_cons] Hm Hrole Hfly V'.
  split; [done| | |done].
  - eapply inv_put; [done|done|apply Hf; left|done..].
  - intros y Hy. apply floating_fupd; [apply Hf; by right|].
    intros [->|Hin]%elem_of_cons; [done|]. apply (Hf y ltac:(by right) l Hin).
Qed.

Definition lru (l : fifo_id) : bool :=
  match l with active_list | inactive_list | eviction_list => true | _ => false end.

(** Back to an LRU list, with a new access count. *)
Lemma pager_requeue k F C infl s' P L e l x px n :
  inv k (x :: F) C infl P L e -> (forall y, y ∈ x :: F -> floating L y) -> NoDup (x :: F) ->
  managed P x px -> resident C P L e x px ->
  flying_ok F P e infl -> lru l = true ->
  View s' (<[x := set_naccesses n px]> P) (fupd L l (x :: L l)) e ->
  pager (k - 1) F C infl s' (<[x := set_naccesses n px]> P) (fupd L l (x :: L l)) e.
Proof.
  intros I Hf Hn [Hx Ht] R Hfly Hl V'.
  assert (x ∉ F) as HxF by by apply NoDup_cons in Hn as [??].
  assert (inv k (x :: F) C infl (<[x := set_naccesses n px]> P) L e) as I'.
  { eapply inv_set; [done|left|done|by split]. }
  assert (forall y, y ∈ F -> <[x := set_naccesses n px]> P !! y = P !! y) as HP.
  { intros y Hy. by rewrite lookup_insert_ne by congruence. }
  assert (x ∉ L disk_reserve_list) as Hxr by (apply Hf; left).
  replace (k - 1) with (k - framed l) by (by destruct l).
  split; [done| |intros y Hy; apply floating_fupd|by apply NoDup_cons in Hn as [??]].
  - eapply inv_put; [exact I'|exact HxF|apply Hf; left|split; [by rewrite lookup_insert_eq|exact Ht]| |
      by eapply flying_ok_pages].
    assert (resident C (<[x := set_naccesses n px]> P) (fupd L l (x :: L l)) e x (set_naccesses n px)).
    { apply (resident_lists C _ L); [by rewrite fupd_ne by (by destruct l)|by apply resident_naccesses]. }
    by destruct l.
  - apply Hf. by right.
  - intros [->|Hin]%elem_of_cons; [done|]. apply (Hf y ltac:(by right) l Hin).
Qed.

(** The operation works on [x], which is still on its list. *)
Record claimed k F C infl s P L e (x : loc) : Prop := {
  cl_view : View s P L e;
  cl_inv : inv k (x :: F) C infl P L e;
  cl_float : forall y, y ∈ F -> floating L y;
  cl_nodup : NoDup (x :: F) }.

Lemma pager_claim k F C infl s P L e l x :
  pager k F C infl s P L e -> x ∈ L l -> l <> disk_reserve_list ->
  claimed k F C infl s P L e x /\ exists pg, managed P x pg /\ role C P L e l x pg.
Proof.
  intros G Hx Hl. destruct (pager_role _ _ _ _ _ _ _ _ _ _ G Hx) as (pg & Hm & Hrole).
  pose proof (pager_not_owned _ _ _ _ _ _ _ _ _ _ G Hx) as HF.
  split; [|by exists pg]. destruct G as [V I Hf Hn]. split; [done| |done|by apply NoDup_cons].
  eapply (inv_move x); [done|done| | | | | |apply I].
  - intros y Hy. rewrite elem_of_cons. naive_solver.
  - intros Hin. destruct Hl. by eapply view_disjoint.
  - exists pg. split; [done|]. left. left.
  - intros y [->|Hy]%elem_of_cons; [|by apply (i_closed _ _ _ _ _ _ _ I)].
    intros Hin. destruct Hl. by eapply view_disjoint.
  - eapply Forall_impl; [exact (i_flying _ _ _ _ _ _ _ I)|]. intros z (Hz & t & tp & Hin & ?). split; [done|].
    exists t, tp. split; [by right|done].
Qed.

(** It takes [x] off. *)
Lemma claimed_take k F C infl s s' P L e l l1 x l2 :
  claimed k F C infl s P L e x -> L l = l1 ++ x :: l2 ->
  View s' P (fupd L l (l1 ++ l2)) e ->
  pager (k + framed l) (x :: F) C infl s' P (fupd L l (l1 ++ l2)) e.
Proof.
  intros [V I Hf Hn] HL V'. pose proof Hn as [HxF HnF]%NoDup_cons.
  assert (floating (fupd L l (l1 ++ l2)) x) as Hfx by by eapply floating_removed.
  destruct (i_owned _ _ _ _ _ _ _ I x ltac:(left)) as (pg & Hm).
  split; [done| | |done].
  - eapply (inv_move x); [done|by apply elem_removed|done| | | |apply I|].
    + intros Hin. by destruct (i_closed _ _ _ _ _ _ _ I x ltac:(left)).
    + exists pg. split; [done|]. left. left.
    + intros y [->|Hy]%elem_of_cons; [apply Hfx|].
      intros Hin. assert (y <> x) by congruence.
      apply (elem_removed L l l1 x l2 HL) in Hin; [|done].
      by apply (i_closed _ _ _ _ _ _ _ I y); [right|].
    + rewrite on_frames_fupd, HL, !length_app. simpl. pose proof (i_count _ _ _ _ _ _ _ I). lia.
  - intros y [->|Hy]%elem_of_cons; [done|]. intros l' Hin. assert (y <> x) by congruence.
    apply (elem_removed L l l1 x l2 HL) in Hin; [|done]. by apply (Hf y Hy l').
Qed.

Lemma claimed_set x pg pg' k F C infl s s' P L e :
  claimed k F C infl s P L e x -> managed P x pg -> same_slot pg pg' ->
  View s' (<[x := pg']> P) L e -> claimed k F C infl s' (<[x := pg']> P) L e x.
Proof. intros [V I Hf Hn] Hm Hs V'. split; [done|by eapply inv_set; [|left|..]|done|done]. Qed.

Lemma claimed_vars k F C infl s s' P L e e' x :
  claimed k F C infl s P L e x -> View s' P L e' ->
  (forall y, inv_gvar y = true -> glob e' y = glob e y) ->
  (forall b, inv_bvar b = true -> flag e' b = flag e b) -> pages e' = pages e ->
  held e' = held e -> kern e' = kern e -> self e' = self e -> claimed k F C infl s' P L e' x.
Proof. intros [V I Hf Hn] V' ?????. split; [done|by eapply inv_vars|done|done]. Qed.

(** The operation lets go of [x], which plays its role again. *)
Lemma claimed_release k F C infl s P L e x l pg :
  claimed k F C infl s P L e x -> x ∈ L l -> managed P x pg -> role C P L e l x pg ->
  flying_ok F P e infl -> pager k F C infl s P L e.
Proof.
  intros [V I Hf Hn] Hx Hm Hrole Hfl. pose proof Hn as [HxF HnF]%NoDup_cons.
  split; [done| |done|done]. eapply (inv_move x); [done|done| | | | |done|apply I].
  - intros y Hy. rewrite elem_of_cons. naive_solver.
  - intros Hin. by destruct (i_closed _ _ _ _ _ _ _ I x ltac:(left)).
  - exists pg. split; [done|]. right. exists l. split_and!; [done| |done].
    intros l' Hl'. symmetry. by eapply view_disjoint.
  - intros y Hy. apply (i_closed _ _ _ _ _ _ _ I). by right.
Qed.

(** What a swap-in hands back: [x] on the inactive list with its data in
    memory, still marked as migrating and swapped out. *)
Record brought_in k F C s P L e (x : loc) (px : user_page) : Prop := {
  bi_claimed : claimed k F C [] s P L e x;
  bi_list : x ∈ L inactive_list;
  bi_page : managed P x px;
  bi_resident : resident C P L e x (set_swapped_out false (set_migrating false px));
  bi_migrating : migrating px = true;
  bi_swapped : swapped_out px = true }.
End pager.

(** Variables the invariant does not mention were written, and locks taken
    and released. *)
Ltac vars_done :=
  esimpl;
  lazymatch goal with
  | |- forall _, _ = true -> _ =>
      intros ? ?; repeat (rewrite fupd_ne by (by intros <-)); done
  | |- forall _ : thread, _ => intros; repeat (rewrite fupd_ne by (by intros [=])); done
  | |- _ => done
  end.

(** Finds the invariant behind a [pager]. *)
Ltac pager_facts G :=
  let V := fresh "V" in let I := fresh "I" in
  pose proof (pg_view _ _ _ _ _ _ _ _ G) as V; pose proof (pg_inv _ _ _ _ _ _ _ _ G) as I.
