(* ===== verification/Masked.v ===== *)
(** * Hiding addresses

    [extmem_munmap] untracks the pages of a range one by one and unmaps the
    range at the end.  In between the invariant holds for an observation of
    the kernel in which the addresses dealt with are no longer under
    userfaultfd. *)

From S2P Require Import Prelude Kernel State Fifo Rules Uring Migrate Invariant.

(** ** The invariant over two observations *)

Section transfer.
Context {K D : Type} (OB1 OB2 : KernelObs K D).
Implicit Types (e : env K) (P : gmap loc user_page) (L : fifo_id -> list loc).
Implicit Types (C : Z -> D) (F : list loc).

(** What the first observation says of the pages that are not owned, the
    second says too. *)
Record agree F P e1 e2 : Prop := {
  ag_at : forall y py, y ∉ F -> managed P y py -> at_va (OB := OB1) e1 y py ->
    at_va (OB := OB2) e2 y py /\
    mem (KernelObs := OB2) (kern e2) (va py) = mem (KernelObs := OB1) (kern e1) (va py) /\
    dirty (KernelObs := OB2) (kern e2) (va py) = dirty (KernelObs := OB1) (kern e1) (va py);
  ag_disk : forall o, disk (KernelObs := OB2) (kern e2) o = disk (KernelObs := OB1) (kern e1) o }.

Lemma role_transfer F C P L e1 e2 l y py :
  agree F P e1 e2 -> y ∉ F -> managed P y py ->
  role (OB := OB1) C P L e1 l y py -> role (OB := OB2) C P L e2 l y py.
Proof.
  intros [Hat Hd] HF Hm.
  assert (resident (OB := OB1) C P L e1 y py -> resident (OB := OB2) C P L e2 y py) as Hr.
  { intros [Hdr Hv Hmem Hres Hmg Hso]. destruct (Hat y py HF Hm Hv) as (Hv' & Hm' & Hdi).
    split; try done; [by rewrite Hm'|].
    intros Hh. destruct (Hres Hh) as (r & rp & ? & ? & ? & ? & Hclean). exists r, rp.
    split_and!; try done. rewrite Hdi, Hd. done. }
  assert (swapped (OB := OB1) C e1 y py -> swapped (OB := OB2) C e2 y py) as Hs.
  { intros [Hdr Hv Hmem Hdk ? ? ?]. destruct (Hat y py HF Hm Hv) as (Hv' & Hm' & _).
    split; try done; [by rewrite Hm'|by rewrite Hd]. }
  destruct l; simpl; auto.
Qed.

Lemma inv_transfer k F C infl P L e1 e2 :
  inv (OB := OB1) k F C infl P L e1 -> agree F P e1 e2 ->
  glob e2 dramsize = glob e1 dramsize -> glob e2 disksize = glob e1 disksize -> held e2 = [] ->
  (forall a y, pages e2 !! a = Some y -> pages e1 !! a = Some y) ->
  (forall a, registered (KernelObs := OB2) (kern e2) a = true -> pages e2 !! a = None ->
     mem (KernelObs := OB2) (kern e2) a = None /\ C a = zero_page (KernelObs := OB2)) ->
  (forall a, registered (KernelObs := OB2) (kern e2) a = true -> 0 < a < 2 ^ 47) ->
  conf_ok (OB := OB2) e2 -> @rings_ok K D OB2 infl e2 -> flying_ok (OB := OB2) F P e2 infl ->
  inv (OB := OB2) k F C infl P L e2.
Proof.
  intros [_ _ _ Hs Hro Ho Hw Ht Hcl _ _ Hn _] Hag Hdr Hdk Hh Htab Hun Hrg Hc Hr Hfl. split; try done.
  - by eapply slots_env.
  - intros l x Hl HF. destruct (Hro l x Hl HF) as (pg & Hm & Hrole). exists pg. split; [done|].
    by eapply role_transfer.
  - intros a x Ha. apply Htab in Ha. by apply Ht.
  - unfold frames in *. by rewrite Hdr.
Qed.
End transfer.

(** ** Masks *)

Section masked.
Context {K D : Type} {OB : KernelObs K D}.
Implicit Types (e : env K) (P : gmap loc user_page) (L : fifo_id -> list loc).
Implicit Types (C : Z -> D) (F : list loc) (gone : Z -> bool).

(** The kernel with the addresses [gone] off userfaultfd. *)
Definition masked gone : KernelObs K D := {|
  mem := mem; disk := disk; dirty := dirty; mapped := mapped;
  registered k a := registered k a && negb (gone a);
  prepared := prepared; inflight := inflight; sq_entries := sq_entries; ring_ready := ring_ready;
  zero_page := zero_page |}.

Lemma masked_registered gone k a :
  registered (KernelObs := masked gone) k a = true <-> registered k a = true /\ gone a = false.
Proof. simpl. rewrite andb_true_iff, negb_true_iff. done. Qed.

Lemma conf_ok_masked gone e : conf_ok e -> conf_ok (OB := masked gone) e.
Proof.
  intros [? ? Hb (? & Hcr & ?) ? Hp]. split; try done.
  - intros t Ha. destruct (Hb t Ha) as [? Hr]. split; [done|]. simpl. by rewrite Hr.
  - split_and!; [done| |done]. simpl. by rewrite Hcr.
  - intros t Ha. destruct (Hp t Ha) as (? & ? & Hr). split_and!; [done..|].
    intros a Hin. destruct (Hr a Hin) as (? & Hu & ?). split_and!; [done| |done]. simpl. by rewrite Hu.
Qed.

(** Nothing is hidden. *)
Lemma inv_nothing_gone k F C P L e :
  inv k F C [] P L e -> inv (OB := masked (fun _ => false)) k F C [] P L e.
Proof.
  intros I. pose proof I as [Hh Hc Hr _ _ _ _ _ _ Hun _ _ Hrg].
  eapply (inv_transfer OB); [exact I| |done|done|done|done| | |by apply conf_ok_masked|destruct Hr; by split|constructor].
  - split; [|done]. intros y py HF Hm [? ? ? Hreg]. split_and!; [|done..]. split; try done.
    by apply masked_registered.
  - intros a [Ha _]%masked_registered. by apply Hun.
  - intros a [Ha _]%masked_registered. by apply Hrg.
Qed.

(** More addresses are hidden, and the pages untracked that were there. *)
Lemma inv_hide gone gone' k F C P L e pgs :
  inv (OB := masked gone) k F C [] P L e -> conf_ok e ->
  (forall b, gone b = true -> gone' b = true) ->
  (forall b, gone' b = false -> pgs !! b = pages e !! b) ->
  (forall b y, pgs !! b = Some y -> pages e !! b = Some y) ->
  (forall y py, y ∉ F -> managed P y py -> at_va (OB := masked gone) e y py -> gone' (va py) = false) ->
  inv (OB := masked gone') k F C [] P L (set_pages pgs e).
Proof.
  intros I Hc Hg Hp Hp' Hlive. pose proof I as [Hh _ Hr _ _ _ _ _ _ Hun _ _ Hrg].
  assert (forall a, gone' a = false -> gone a = false) as Hgn.
  { intros a Ha. destruct (gone a) eqn:Hga; [|done]. by rewrite Hg in Ha. }
  eapply (inv_transfer (masked gone)); [exact I| |done|done|done|exact Hp'| | | |destruct Hr; by split|constructor].
  - split; [|done]. intros y py HF Hm Hat. pose proof (Hlive y py HF Hm Hat) as Hgy. destruct Hat as [Ht ? ? Hreg].
    split_and!; [|done..]. split; try done; simpl; [by rewrite Hp|].
    apply masked_registered in Hreg as [-> _]. by rewrite Hgy.
  - intros a [Ha Hga]%masked_registered Hna. simpl in Hna. rewrite Hp in Hna by done.
    apply Hun; [|done]. apply masked_registered. auto.
  - intros a [Ha Hga]%masked_registered. apply Hrg. apply masked_registered. auto.
  - apply conf_ok_masked. by destruct Hc.
Qed.

(** The kernel has caught up. *)
Lemma inv_reveal gone k F C P L e k' :
  inv (OB := masked gone) k F C [] P L e -> conf_ok e ->
  (forall a, gone a = true -> registered (kern e) a = true) ->
  (forall a, registered k' a = registered (kern e) a && negb (gone a)) ->
  (forall a, gone a = false -> mapped k' a = mapped (kern e) a) ->
  same_mem_but (fun a => gone a = true) (kern e) k' -> same_disk (kern e) k' -> same_rings (kern e) k' ->
  inv k F C [] P L (set_kern k' e).
Proof.
  intros I Hc Hown Hreg Hmap Hm Hd Hrg. pose proof I as [Hh _ Hr _ _ _ _ _ _ Hun _ _ Hran].
  assert (forall a, registered (kern e) a = false -> gone a = false) as Hnot.
  { intros a Ha. destruct (gone a) eqn:Hg; [|done]. by rewrite Hown in Ha. }
  assert (forall a, gone a = false -> mem k' a = mem (kern e) a /\ dirty k' a = dirty (kern e) a) as Hmd.
  { intros a Ha. by rewrite (sm_mem _ _ _ Hm), (sm_dirty _ _ _ Hm) by congruence. }
  eapply (inv_transfer (masked gone)); [exact I| |done|done|done|done| | | | |constructor].
  - split; [|intros o; apply Hd]. intros y py HF Hmy [? ? ? Hr'].
    pose proof (proj1 (masked_registered _ _ _) Hr') as [Hr1 Hg]. destruct (Hmd _ Hg). split_and!; [|done..].
    split; try done. simpl. by rewrite Hreg, Hr1, Hg.
  - simpl. intros a Ha Hna. rewrite Hreg in Ha. pose proof (proj1 (masked_registered _ _ _) Ha) as [_ Hg].
    destruct (Hmd a Hg) as [-> _]. by apply Hun.
  - simpl. intros a. rewrite Hreg. apply Hran.
  - eapply (conf_ok_env e); [exact Hc|done|done|done| |].
    + intros a Ha Hu. simpl. rewrite Hmap, Hreg, Hu by by apply Hnot. done.
    + simpl. destruct (co_cache _ Hc) as (_ & Hcr & _). unfold content.
      destruct (Hmd (glob e page_cache)) as [-> _]; [by apply Hnot|done].
  - apply rings_ok_same; [|done]. destruct Hr. by split.
Qed.
End masked.
