(* ===== verification/Policy.v ===== *)
(** * The policy interface of [core.h], lines 111-141

    [core.c] reaches the paging policy through the macros [pagefault],
    [paging_init], [mmgr_remove], ... of [core.h], which a build maps to the
    functions of one policy file.  The class [PolicyOps] is that interface. *)

From S2P Require Import Prelude Kernel State Fifo Rules Uring Migrate Invariant.

Class PolicyOps (K : Type) := {
  pagefault : M (state K) ptr;
  paging_init : M (state K) unit;
  mmgr_remove : ptr -> M (state K) unit;
  page_swapin_external_async : ptr -> M (state K) unit;
  policy_add_page : ptr -> M (state K) unit;
  policy_detach_page : ptr -> M (state K) unit;
  policy_put_freepage : ptr -> M (state K) unit;
  policy_ack_swapped_in : ptr -> ptr -> M (state K) unit;
  policy_ack_vma : Z -> Z -> Z -> M (state K) unit;
  (** does [mmgr_remove] wait for a page on [eviction_list] to be evicted? *)
  mmgr_waits : bool;
}.

(** Where it waits, no other thread running. *)
Definition wait_for_evictor : fault := Spinning "lrudisk_remove_page".

(** What is left of the role of a page once it is untracked. *)
Definition removable (P : gmap loc user_page) (L : fifo_id -> list loc) (l : fifo_id) (x : loc) (px : user_page) : Prop :=
  (lru l = true /\ in_dram px = true /\
   (has_reserve px = true -> exists r rp, reserve px = Some r /\ r ∈ L disk_reserve_list /\
      P !! r = Some rp /\ reserve rp = Some x)) \/
  (l = disk_active_list /\ in_dram px = false /\ swapped_out px = true).

(** ** What the core relies on

    The faults a policy operation may end in when no frame is free. *)
Definition can_run_out (E : fault -> Prop) : Prop :=
  E (AssertFailed "Out of memory") /\ E (AssertFailed "No disk page found").

(** Steps that change the counters and the policy's own variables only. *)
Record own_step {K} (e e' : env K) : Prop := {
  ow_glob : forall y, is_counter y = false -> glob e' y = glob e y;
  ow_flag : flag e' = flag e;
  ow_pages : pages e' = pages e;
  ow_held : held e' = held e;
  ow_self : self e' = self e;
  ow_kern : kern e' = kern e }.

Lemma own_step_refl {K} (e : env K) : own_step e e.
Proof. by split. Qed.

Lemma own_env_step {K} (e e' : env K) : own_step e e' -> env_step e e'.
Proof. intros [Hg Hf Hp Hh Hse _]. split; [done|by rewrite Hf|by rewrite Hf|done..]. Qed.

Lemma pager_own_step `{OB : KernelObs K D} k F (C : Z -> D) infl (s s' : state K) P L e e' :
  pager k F C infl s P L e -> View s' P L e' -> own_step e e' -> pager k F C infl s' P L e'.
Proof.
  intros G V' [Hg Hf Hp Hh Hse Hk]. eapply pager_vars; [exact G|exact V'| |by intros; rewrite Hf|done..].
  intros x Hx. apply Hg. by destruct x.
Qed.

(** A policy keeps the pages' data: it hands out idle frames, brings
    swapped-out pages in, takes pages over and gives them back. *)
Class PolicyLaws (K D : Type) `{KO : KernelOps K, OB : KernelObs K D, PO : PolicyOps K}
    (may_fail : Prop) : Prop := {
  pl_init E C s (e : env K) Q :
    View s ∅ (fun _ => []) e -> held e = [] -> conf_ok e -> rings_ok [] e -> pages e = ∅ ->
    (forall a, registered (kern e) a = false) -> Tolerates may_fail E ->
    (forall s' P' L' k', pager 0 [] C [] s' P' L' (set_kern k' e) -> obs_eq (kern e) k' ->
       Z.of_nat (size P') < 2 ^ 32 -> Q tt s') ->
    wp E paging_init s Q;
  pl_pagefault E k F C infl (P : gmap loc user_page) L (e : env K) s Q :
    Tolerates may_fail E -> can_run_out E ->
    pager k F C infl s P L e -> 0 <= k -> 2 * k < frames e -> flag e shrinkage_running = false ->
    (forall s' d pd P' L' e', pager (k + 1) (d :: F) C infl s' P' L' e' -> frame F P e P' e' ->
       managed P' d pd -> idle true pd -> migrating pd = true -> Q (Some d) s') ->
    wp E pagefault s Q;
  pl_swapin E C P L e s x px Q :
    Tolerates may_fail E -> can_run_out E -> E (SysFail "buffer space mmap") ->
    claimed 0 [] C [] s P L e x -> x ∈ L disk_active_list -> managed P x px ->
    swapped C e x (set_migrating false px) -> migrating px = true ->
    0 < frames e -> flag e shrinkage_running = false ->
    (forall s' P' L' e' px', brought_in 0 [] C s' P' L' e' x px' -> va px' = va px -> swap_step e e' ->
       flag e' (uring_read_init (self e')) = true ->
       (forall a, registered (kern e') a = registered (kern e) a) -> Q tt s') ->
    wp E (page_swapin_external_async (Some x)) s Q;
  pl_put_freepage E x px k F C infl P L e s (Q : unit -> state K -> Prop) :
    pager k (x :: F) C infl s P L e -> managed P x px -> idle true px -> flying_ok F P e infl ->
    (forall s' L', pager (k - 1) F C infl s' P L' e -> Q tt s') ->
    wp E (policy_put_freepage (Some x)) s Q;
  pl_add_page E x px k F C infl P L e s (Q : unit -> state K -> Prop) :
    pager k (x :: F) C infl s P L e -> managed P x px -> resident C P L e x px ->
    flying_ok F P e infl ->
    (forall s' L', pager (k - 1) F C infl s' P L' e -> Q tt s') ->
    wp E (policy_add_page (Some x)) s Q;
  pl_detach_page E x k F C infl P L e s (Q : unit -> state K -> Prop) :
    claimed k F C infl s P L e x -> x ∈ L disk_active_list ->
    (forall s' L', pager k (x :: F) C infl s' P L' e -> Q tt s') ->
    wp E (policy_detach_page (Some x)) s Q;
  pl_ack_swapped_in E x d px pd k F C P L e s (Q : unit -> state K -> Prop) :
    pager (k + 1) (d :: x :: F) C [] s P L e ->
    managed P x px -> in_dram px = false -> has_reserve px = false -> at_va e x px ->
    mem (kern e) (va px) = Some (C (va px)) -> disk (kern e) (virtual_offset px) = C (va px) ->
    migrating px = true -> swapped_out px = true -> managed P d pd -> idle true pd ->
    (forall s' P' L' px', brought_in k F C s' P' L' e x px' -> va px' = va px ->
       (forall z, z <> x -> z <> d -> P' !! z = P !! z) -> Q tt s') ->
    wp E (policy_ack_swapped_in (Some x) (Some d);; st (set_in_dram true) (Some x)) s Q;
  (* [e] is the state with the locks released; the kernel may be observed
     through a mask *)
  pl_remove E (OB' : KernelObs K D) x px l k C P L (e eh : env K) s (Q : unit -> state K -> Prop) :
    View s P L eh -> (forall l, list_lock l ∉ held eh) -> inv (OB := OB') k [x] C [] P L e ->
    x ∈ L l -> managed P x px -> removable P L l x px -> va px <> 0 ->
    (forall a, a <> 0 -> pages e !! a <> Some x) ->
    (mmgr_waits = true -> l = eviction_list -> E wait_for_evictor) ->
    (forall s' P' L' px', View s' P' L' eh -> (L eviction_list = [] -> L' eviction_list = []) ->
       inv (OB := OB') k [] C [] P' L' e -> managed P' x px' -> Q tt s') ->
    wp E (mmgr_remove (Some x)) s Q;
  pl_ack_vma E a n p P L (e : env K) s (Q : unit -> state K -> Prop) :
    View s P L e -> (forall s' e', View s' P L e' -> own_step e e' -> Q tt s') ->
    wp E (policy_ack_vma a n p) s Q;
}.
