(* ===== verification/DiskLinux.v ===== *)
(** * The default policy: [policies/disklinux.c], definitions

    A two-list (active / inactive) LRU in the style of Linux.  Pages move

    - [dram_free_list] -> (a fault) -> [inactive_list] <-> [active_list]
      -> [eviction_list] -> [disk_active_list] -> (a fault) -> [inactive_list];
    - the descriptor of the disk slot of a swapped-in page waits on
      [disk_reserve_list], linked to its page by [reserve];
    - the descriptor of a free disk slot is on [disk_free_list].

    An eviction exchanges the frame of the victim with the slot of the disk
    descriptor: the victim becomes the swapped-out page, the disk descriptor
    becomes a free DRAM frame. *)

From S2P Require Import Prelude Kernel State Fifo Uring Observability Migrate.

Section functions.
Context {K : Type} `{KernelOps K}.
(** How often the retry loops that wait for other threads are unrolled. *)
Context (fuel : nat).
Local Abbreviation M := (M (state K)).

Definition HIGH_WATER_THRESHOLD : Z := 90.
Definition LOW_WATER_THREASHOLD : Z := 85.
Definition EVICT_VECTOR_SIZE : Z := 8.
Definition SWAP_CLUSTER_COUNT : Z := 32.

Definition lrudisk_migrate_down (page : ptr) (offset : Z) (need_wp writeback : bool) : M unit :=
  st (set_migrating true) page;;
  (if need_wp then extmem_wp_page page true else mret tt);;
  extmem_migrate_downdisk page offset false writeback.

Definition lrudisk_migrate_up (page : ptr) (offset : Z) : M unit :=
  extmem_migrate_updisk page offset.

(** [do { list = page->list; assert(list == &l); ret = tryremove(&l, page);
    assert(ret == 0); } while (ret != 0);] *)
Definition detach_from (l : fifo_id) (page : ptr) : M unit :=
  loop "detach" 1 (fun _ : unit =>
    list ← ld list_of page;
    assert_ "list == &l" (list =p Some l);;
    ret ← page_list_tryremove_page (Some l) page;
    assert_ "ret == 0" (ret =p 0);;
    if ret =p 0 then mret (inr tt) else mret (inl tt)) tt.

(** [freepage] becomes the descriptor of the disk slot at [file_offset]. *)
Definition to_disk_slot (freepage : ptr) (file_offset : Z) : M unit :=
  st (set_virtual_offset file_offset) freepage;;
  st (set_in_dram false) freepage;;
  st (set_swapped_out true) freepage;;
  st (set_migrating false) freepage.

(** "keeping the disk data as a reserve backing" *)
Definition keep_reserve (page freepage : ptr) : M unit :=
  st (set_reserve page) freepage;;
  st (set_reserve freepage) page;;
  st (set_has_reserve true) page;;
  st (set_has_reserve true) freepage;;
  enqueue_fifo disk_reserve_list freepage;;
  enqueue_fifo inactive_list page.

Definition lrudisk_swapin (page freepage : ptr) : M unit :=
  offset ← ld virtual_offset freepage;
  file_offset ← ld virtual_offset page;
  d ← ld in_dram freepage;
  assert_ "freepage->in_dram == true" d;;
  fl ← ld list_of freepage;
  assert_ "freepage->list == &active_list" (fl =p Some active_list);;
  page_list_remove_page active_list freepage;;
  pl ← ld list_of page;
  assert_ "page->list == &disk_active_list" (pl =p Some disk_active_list);;
  page_list_remove_page disk_active_list page;;
  offset ← ld virtual_offset freepage;
  lrudisk_migrate_up page offset;;
  to_disk_slot freepage file_offset;;
  enqueue_fifo active_list page;;
  enqueue_fifo disk_free_list freepage.

(** ** Reclaim *)

Definition shrink_active_body (nr_pages : Z) : Z * Z -> M ((Z * Z) + Z) := fun '(ret, tries) =>
  n ← ldl numentries active_list;
  if bool_decide (ret < nr_pages) && bool_decide (0 < n) &&
     bool_decide (tries < u64 (nr_pages * 100)) then
    page ← dequeue_fifo active_list;
    match page with
    | Some _ =>
        st (set_naccesses 0) page;;
        enqueue_fifo inactive_list page;;
        mret (inl (u64 (ret + 1), u64 (tries + 1)))
    | None => mret (inl (ret, tries))
    end
  else mret (inr ret).

Definition shrink_active_list (nr_pages : Z) : M Z :=
  if nr_pages =p 0 then mret 0
  else
    wrb shrinkage_running true;;
    n ← ldl numentries active_list;
    let nr_pages := if bool_decide (n < nr_pages) then n else nr_pages in
    ret ← loop "shrink_active_list" (S (Z.to_nat nr_pages)) (shrink_active_body nr_pages) (0, 0);
    wrb shrinkage_running false;;
    mret (i32 ret).

Definition shrink_inactive_body (nr_pages : Z) : Z * Z -> M ((Z * Z) + Z) := fun '(ret, tries) =>
  n ← ldl numentries inactive_list;
  if bool_decide (ret < nr_pages) && bool_decide (0 < n) &&
     bool_decide (tries < u64 (nr_pages * 100)) then
    page ← dequeue_fifo inactive_list;
    match page with
    | Some _ =>
        bits ← pt_get_bits page;
        ret ← (if Z.land bits PT_ACCESSED_FLAG =p PT_ACCESSED_FLAG then
                 na ← ld naccesses page;
                 st (set_naccesses (u64 (na + 1))) page;;
                 pt_clear_accessed_flag page;;
                 na ← ld naccesses page;
                 (if bool_decide (1 < na) then
                    st (set_naccesses 0) page;;
                    enqueue_fifo active_list page
                  else enqueue_fifo inactive_list page);;
                 mret ret
               else
                 st (set_naccesses 0) page;;
                 enqueue_fifo eviction_list page;;
                 mret (u64 (ret + 1)));
        mret (inl (ret, u64 (tries + 1)))
    | None => mret (inl (ret, tries))
    end
  else mret (inr ret).

Definition shrink_inactive_list (nr_pages : Z) : M Z :=
  n ← ldl numentries inactive_list;
  let nr_pages := if (nr_pages =p 0) || bool_decide (n < nr_pages) then n else nr_pages in
  wrb shrinkage_running true;;
  ret ← loop "shrink_inactive_list" (S (Z.to_nat (u64 (nr_pages * 100))))
          (shrink_inactive_body nr_pages) (0, 0);
  wrb shrinkage_running false;;
  mret (i32 ret).

Record scan := Scan {
  sc_reclaimed : Z; sc_cooled : Z; sc_scanned_active : Z; sc_scanned_inactive : Z }.

Definition direct_allocate_body (nr_pages to_scan_active to_scan_inactive : Z)
    : scan -> M (scan + Z) := fun c =>
  if bool_decide (sc_scanned_inactive c < to_scan_inactive) &&
     bool_decide (sc_reclaimed c < nr_pages) then
    r ← shrink_inactive_list SWAP_CLUSTER_COUNT;
    let reclaimed := i32 (sc_reclaimed c + r) in
    let scanned_inactive := i32 (sc_scanned_inactive c + SWAP_CLUSTER_COUNT) in
    if bool_decide (sc_scanned_active c < to_scan_active) then
      a ← shrink_active_list SWAP_CLUSTER_COUNT;
      mret (inl (Scan reclaimed (i32 (sc_cooled c + a))
                   (i32 (sc_scanned_active c + SWAP_CLUSTER_COUNT)) scanned_inactive))
    else mret (inl (Scan reclaimed (sc_cooled c) (sc_scanned_active c) scanned_inactive))
  else mret (inr (sc_reclaimed c)).

Definition direct_allocate_page_asynch (nr_pages priority : Z) : M Z :=
  a ← ldl numentries active_list;
  i ← ldl numentries inactive_list;
  let to_scan_active := i32 (Z.shiftr a priority) in
  let to_scan_inactive := i32 (Z.shiftr i priority) in
  loop "direct_allocate_page_asynch" (S (Z.to_nat to_scan_inactive))
    (direct_allocate_body nr_pages to_scan_active to_scan_inactive) (Scan 0 0 0 0).

(** ** kswapd

    [lrudisk_synchkswapd] is an endless loop; [kswapd_check] is its part up
    to falling asleep on [kswapd_cv] (the result says whether it did),
    [kswapd_work] the rest of one iteration.  The low-water mark, a
    macro, and the function that reclaims pages are arguments of the bodies,
    which serve every policy with this kswapd. *)

Definition low_water_at (percent : Z) : M Z :=
  d ← rd dramsize; mret (u64 (percent * d) / (PAGE_SIZE * 100)).
Definition low_water : M Z := low_water_at LOW_WATER_THREASHOLD.

Definition kswapd_check_at (percent : Z) : M bool :=
  a ← ldl numentries active_list;
  i ← ldl numentries inactive_list;
  low ← low_water_at percent;
  if bool_decide (u64 (i64 (a + i)) <= low) then
    lock kswapd_lock;;
    wrb kswapd_waiting true;;
    unlock kswapd_lock;;
    mret true
  else mret false.
Definition kswapd_check : M bool := kswapd_check_at LOW_WATER_THREASHOLD.

Definition kswapd_work_at (percent : Z) (reclaim : Z -> Z -> M Z) : M Z :=
  wrb kswapd_running true;;
  a ← ldl numentries active_list;
  i ← ldl numentries inactive_list;
  low ← low_water_at percent;
  let nr_pages := i32 (i64 (i64 (a + i) - i64 low)) in
  if bool_decide (nr_pages <= 0) then wrb kswapd_running false;; mret 0
  else
    nr_reclaimed ← reclaim nr_pages 12;
    wrb kswapd_running false;;
    mret nr_reclaimed.
Definition kswapd_work : M Z := kswapd_work_at LOW_WATER_THREASHOLD direct_allocate_page_asynch.

(** [pthread_cond_signal(&kswapd_cv)] under [kswapd_lock] *)
Definition wake_kswapd_if_high : M unit :=
  r ← rdb kswapd_running;
  a ← ldl numentries active_list;
  i ← ldl numentries inactive_list;
  d ← rd dramsize;
  if negb r && bool_decide (u64 (HIGH_WATER_THRESHOLD * d) / (PAGE_SIZE * 100) < u64 (a + i)) then
    lock kswapd_lock;;
    wrb kswapd_waiting false;;
    unlock kswapd_lock
  else mret tt.

(** ** Eviction workers

    One iteration of the endless loops of the two worker bodies; the
    result is the number of pages evicted (0: the worker sleeps). *)

(** The victim has lost its frame to [diskpage]. *)
Definition to_dram_frame (diskpage : ptr) (old_offset : Z) : M unit :=
  st (set_virtual_offset old_offset) diskpage;;
  st (set_in_dram true) diskpage;;
  st (set_present false) diskpage.

Definition drop_reserve (diskpage victim : ptr) : M unit :=
  st (set_has_reserve false) diskpage;;
  st (set_reserve NULL) diskpage;;
  st (set_has_reserve false) victim;;
  st (set_reserve NULL) victim.

Definition finish_victim (victim : ptr) : M unit :=
  mg ← ld migrating victim;
  assert_ "victim->migrating" mg;;
  so ← ld swapped_out victim;
  assert_ "victim->swapped_out == true" so;;
  st (set_migrating false) victim;;
  st (set_swapped_out true) victim.

(** [diskpage = victim->reserve; ...] with its assertions *)
Definition reserve_of (victim : ptr) : M ptr :=
  diskpage ← ld reserve victim;
  assert_ "diskpage != NULL" (negb (diskpage =p NULL));;
  r ← ld reserve diskpage;
  assert_ "diskpage->reserve == victim" (r =p victim);;
  detach_from disk_reserve_list diskpage;;
  mret diskpage.

Definition is_dirty (page : ptr) : M bool :=
  flags ← pt_get_bits page;
  mret (negb (Z.land flags PT_DIRTY_FLAG =p 0)).

(** What a worker does with the victim it took. *)
(** A victim with a copy on disk goes back to the slot of the copy. *)
Definition evict_to_reserve (victim : ptr) (writeback : bool) : M unit :=
  diskpage ← reserve_of victim;
  old_offset ← ld virtual_offset victim;
  o ← ld virtual_offset diskpage;
  lrudisk_migrate_down victim o false writeback;;
  to_dram_frame diskpage old_offset;;
  drop_reserve diskpage victim;;
  enqueue_fifo dram_free_list diskpage;;
  enqueue_fifo disk_active_list victim;;
  finish_victim victim.

(** Any other victim takes a free slot. *)
Definition evict_to_free (victim : ptr) (writeback : bool) : M unit :=
  diskpage ← dequeue_fifo disk_free_list;
  match diskpage with
  | Some _ =>
      p ← ld present diskpage;
      assert_ "!(diskpage->present)" (negb p);;
      old_offset ← ld virtual_offset victim;
      o ← ld virtual_offset diskpage;
      lrudisk_migrate_down victim o false writeback;;
      enqueue_fifo disk_active_list victim;;
      to_dram_frame diskpage old_offset;;
      enqueue_fifo dram_free_list diskpage;;
      finish_victim victim
  | None => fail (AssertFailed "no disk page found")
  end.

Definition evict_victim (victim : ptr) : M unit :=
  st (set_migrating true) victim;;
  extmem_wp_page victim true;;
  dirty ← is_dirty victim;
  hr ← ld has_reserve victim;
  let writeback := dirty || negb hr in
  if (hr : bool) then evict_to_reserve victim writeback else evict_to_free victim writeback.

Definition lrudisk_evictionworker : M Z :=
  wrbt internal_call true;;
  victim ← dequeue_fifo eviction_list;
  match victim with
  | None => mret 0
  | Some _ => evict_victim victim;; mret 1
  end.

(** The first two passes over the victims: write protection and dirty bits,
    then the disk pages. *)
Definition prepare_victim (victim : ptr) : M (ptr * Z * bool) :=
  st (set_migrating true) victim;;
  old_offset ← ld virtual_offset victim;
  extmem_wp_page victim true;;
  dirty ← is_dirty victim;
  hr ← ld has_reserve victim;
  mret (victim, old_offset, dirty || negb hr).

Definition fetch_diskpage (v : ptr * Z * bool) : M (ptr * Z * bool * ptr) :=
  let victim := fst (fst v) in
  hr ← ld has_reserve victim;
  if (hr : bool) then diskpage ← reserve_of victim; mret (v, diskpage)
  else
    diskpage ← dequeue_fifo disk_free_list;
    match diskpage with
    | Some _ =>
        p ← ld present diskpage;
        assert_ "!(diskpage[nr_prepared]->present)" (negb p);;
        mret (v, diskpage)
    | None => fail (AssertFailed "no disk page found")
    end.

Definition settle_victim (v : ptr * Z * bool * ptr) : M unit :=
  let '(victim, old_offset, _, diskpage) := v in
  hr ← ld has_reserve victim;
  if (hr : bool) then
    to_dram_frame diskpage old_offset;;
    drop_reserve diskpage victim;;
    enqueue_fifo dram_free_list diskpage;;
    enqueue_fifo disk_active_list victim;;
    finish_victim victim
  else
    p ← ld present diskpage;
    assert_ "!(diskpage[nr_prepared]->present)" (negb p);;
    enqueue_fifo disk_active_list victim;;
    to_dram_frame diskpage old_offset;;
    enqueue_fifo dram_free_list diskpage;;
    finish_victim victim.

Definition evictionworker_vector_of (prepare : ptr -> M (ptr * Z * bool)) : M Z :=
  wrbt internal_call true;;
  '(nr_evicting, victim) ← dequeue_fifo_vector eviction_list EVICT_VECTOR_SIZE;
  if nr_evicting =p 0 then mret 0
  else
    vs ← mapM prepare victim;
    ds ← mapM fetch_diskpage vs;
    extmem_migrate_downdisk_vector
      ((fun '(v, _, wb, d) => Evicting v d wb) <$> ds);;
    for_each settle_victim ds;;
    mret nr_evicting.
Definition lrudisk_evictionworker_vector : M Z := evictionworker_vector_of prepare_victim.

(** ** Getting a free frame *)

(** Lines 997-1078: evict the page [page] taken from [eviction_list] and
    return the descriptor of its frame. *)
Definition evict_for_frame (page : ptr) : M ptr :=
  st (set_migrating true) page;;
  extmem_wp_page page true;;
  dirty ← is_dirty page;
  hr ← ld has_reserve page;
  let writeback := dirty || negb hr in
  if (hr : bool) then
    diskpage ← reserve_of page;
    old_offset ← ld virtual_offset page;
    o ← ld virtual_offset diskpage;
    lrudisk_migrate_down page o false writeback;;
    to_dram_frame diskpage old_offset;;
    drop_reserve diskpage page;;
    enqueue_fifo disk_active_list page;;
    finish_victim page;;
    mret diskpage
  else
    diskpage ← dequeue_fifo disk_free_list;
    match diskpage with
    | Some _ =>
        p ← ld present diskpage;
        assert_ "!(diskpage->present)" (negb p);;
        old_offset ← ld virtual_offset page;
        o ← ld virtual_offset diskpage;
        lrudisk_migrate_down page o true writeback;;
        so ← ld swapped_out page;
        assert_ "page->swapped_out" so;;
        enqueue_fifo disk_active_list page;;
        to_dram_frame diskpage old_offset;;
        st (set_migrating false) page;;
        mret diskpage
    | None => fail (AssertFailed "No disk page found")
    end.

(** The loop of [fetch_free_asynch], from [page == NULL].  The policies
    share it up to the function [reclaim] that selects victims. *)
Definition fetch_free_body (reclaim : Z -> Z -> M Z) : Z -> M (Z + ptr) := fun priority =>
  if bool_decide (0 < priority) then
    page ← dequeue_fifo dram_free_list;
    match page with
    | Some _ => mret (inr page)
    | None =>
      sr ← rdb shrinkage_running;
      a ← ldl numentries active_list;
      i ← ldl numentries inactive_list;
      d ← rd dramsize;
      priority ←
        (if negb sr && bool_decide (d / (PAGE_SIZE * 2) < u64 (a + i)) then
           reclaim SWAP_CLUSTER_COUNT priority;;
           mret (priority - 1)
         else mret priority);
      page ← dequeue_fifo eviction_list;
      match page with
      | Some _ => diskpage ← evict_for_frame page; mret (inr diskpage)
      | None => mret (inl priority)
      end
    end
  else fail (AssertFailed "Out of memory").

Definition fetch_free_with (reclaim : Z -> Z -> M Z) : M ptr :=
  wake_kswapd_if_high;;
  loop "fetch_free_asynch" fuel (fetch_free_body reclaim) 12.
Definition fetch_free_asynch : M ptr := fetch_free_with direct_allocate_page_asynch.

(** ** Entry points used by [core.c] *)

Definition lrudisk_swapin_external (page : ptr) : M unit :=
  file_offset ← ld virtual_offset page;
  freepage ← fetch_free_asynch;
  d ← ld in_dram freepage;
  assert_ "freepage->in_dram == true" d;;
  detach_from disk_active_list page;;
  offset ← ld virtual_offset freepage;
  lrudisk_migrate_up page offset;;
  to_disk_slot freepage file_offset;;
  keep_reserve page freepage.

Definition lrudisk_swapin_external_async (page : ptr) : M unit :=
  file_offset ← ld virtual_offset page;
  detach_from disk_active_list page;;
  core_migrate_up_async_start page;;
  freepage ← fetch_free_asynch;
  d ← ld in_dram freepage;
  assert_ "freepage->in_dram == true" d;;
  offset ← ld virtual_offset freepage;
  core_migrate_up_async_finish page offset;;
  to_disk_slot freepage file_offset;;
  keep_reserve page freepage.

Definition lrudisk_ack_swapin (page freepage : ptr) : M unit :=
  offset ← ld virtual_offset freepage;
  file_offset ← ld virtual_offset page;
  d ← ld in_dram freepage;
  assert_ "freepage->in_dram == true" d;;
  fl ← ld list_of freepage;
  assert_ "freepage->list == NULL" (fl =p None);;
  so ← ld swapped_out page;
  assert_ "page->swapped_out == true" so;;
  mg ← ld migrating page;
  assert_ "page->migrating == true" mg;;
  pl ← ld list_of page;
  assert_ "page->list == NULL" (pl =p None);;
  to_disk_slot freepage file_offset;;
  st (set_virtual_offset offset) page;;
  keep_reserve page freepage.

(** Only logs. *)
Definition lrudisk_ack_vma (vma_boundry vma_size priority : Z) : M unit := mret tt.

Definition lrudisk_pagefault : M ptr :=
  page ← fetch_free_asynch;
  assert_ "page != NULL" (negb (page =p NULL));;
  st (set_migrating true) page;;
  mret page.

Definition lrudisk_track_page (page : ptr) : M unit :=
  l ← ld list_of page;
  assert_ "page->list == NULL" (l =p None);;
  enqueue_fifo inactive_list page.

Definition lrudisk_put_page_free (page : ptr) : M unit :=
  l ← ld list_of page;
  assert_ "page->list == NULL" (l =p None);;
  a ← ld va page;
  assert_ "page->va == 0" (a =p 0);;
  enqueue_fifo dram_free_list page.

Definition lrudisk_detach_page (page : ptr) : M unit :=
  detach_from disk_active_list page.

(** [do { list = page->list; ret = tryremove(list, page); } while (ret != 0);] *)
Definition remove_from_any (page : ptr) : M unit :=
  loop "lrudisk_remove_page" fuel (fun _ : unit =>
    list ← ld list_of page;
    ret ← page_list_tryremove_page list page;
    if ret =p 0 then mret (inr tt) else mret (inl tt)) tt.

(** The same on the reserve page, whose list is asserted. *)
Definition remove_reserve (reserve_page : ptr) : M unit :=
  loop "lrudisk_remove_page" fuel (fun _ : unit =>
    list ← ld list_of reserve_page;
    assert_ "list == &disk_reserve_list" (list =p Some disk_reserve_list);;
    ret ← page_list_tryremove_page list reserve_page;
    if ret =p 0 then mret (inr tt) else mret (inl tt)) tt.

(** Lines 1182-1214: the page, off its list, becomes free. *)
Definition recycle_page (page : ptr) : M unit :=
  st (set_present false) page;;
  st (set_va 0) page;;
  d ← ld in_dram page;
  (if (d : bool) then
     hr ← ld has_reserve page;
     (if (hr : bool) then
        reserve_page ← ld reserve page;
        assert_ "reserve_page != NULL" (negb (reserve_page =p NULL));;
        r ← ld reserve reserve_page;
        assert_ "reserve_page->reserve == page" (r =p page);;
        remove_reserve reserve_page;;
        st (set_has_reserve false) reserve_page;;
        st (set_reserve NULL) reserve_page;;
        st (set_present false) reserve_page;;
        enqueue_fifo disk_free_list reserve_page;;
        st (set_has_reserve false) page;;
        st (set_reserve NULL) page
      else mret tt);;
     enqueue_fifo dram_free_list page
   else
     so ← ld swapped_out page;
     if (so : bool) then
       st (set_reserve NULL) page;;
       st (set_has_reserve false) page;;
       enqueue_fifo disk_free_list page
     else fail (AssertFailed "no other configuration")).

Definition lrudisk_remove_page (page : ptr) : M unit :=
  assert_ "page != NULL" (negb (page =p NULL));;
  st (set_migrating true) page;;
  remove_from_any page;;
  recycle_page page;;
  st (set_migrating false) page.

(** ** Initialisation *)

(** One iteration of the two loops of [lrudisk_init]. *)
Definition init_page (l : fifo_id) (dram : bool) (i : Z) : M unit :=
  p ← calloc_page;
  st (set_virtual_offset (u64 (i * PAGE_SIZE))) p;;
  st (set_present false) p;;
  st (set_in_dram dram) p;;
  st (set_swapped_out (negb dram)) p;;
  t ← pagesize_to_pt PAGE_SIZE;
  st (set_pt t) p;;
  st (set_has_reserve false) p;;
  st (set_reserve NULL) p;;
  enqueue_fifo l p.

(** [for (int i = 0; i < n; i++) ...], for [n] up to [INT_MAX]. *)
Definition init_pages (l : fifo_id) (dram : bool) (n : Z) : M unit :=
  for_each (fun i => init_page l dram (Z.of_nat i)) (seq 0 (Z.to_nat n)).

Definition carve_devices : M unit :=
  d ← rd dramsize;
  init_pages dram_free_list true (d / PAGE_SIZE);;
  k ← rd disksize;
  init_pages disk_free_list false (k / PAGE_SIZE).

(** [r = pthread_create(...); assert(r == 0);]  The new thread starts in its
    loop. *)
Definition create_thread (t : thread) : M unit :=
  r ← sys (k_pthread_create t);
  die_if (negb (r =p 0)) "pthread_create".

Definition WRITER_THREADS : nat := 6.

(** The mutex initialisations leave the state alone. *)
Definition lrudisk_init : M unit :=
  carve_devices;;
  create_thread kswapd_thread;;
  for_each (fun i => create_thread (eviction_thread i)) (seq 0 WRITER_THREADS).
End functions.
