(* ===== verification/Remove.v ===== *)
(** * Removing a page: [lrudisk_remove_page] of [policies/disklinux.c]

    The page leaves its list and returns its frame or slot to the free list,
    the disk copy kept as its reserve too. *)

From S2P Require Import Prelude Kernel State Fifo Rules Uring Migrate Invariant Policy DiskLinux.

(** ** Recycled descriptors *)

Section recycle.
Context {K D : Type} {OB : KernelObs K D}.
Implicit Types (e : env K) (P : gmap loc user_page) (L : fifo_id -> list loc).
Implicit Types (C : Z -> D) (F T : list loc).

Definition free_list (dram : bool) : fifo_id := if dram then dram_free_list else disk_free_list.

(** [y] keeps its frame or slot, and is idle on the free list. *)
Record recycled P P' L' (y : loc) : Prop := {
  rc_slot : exists py py', managed P y py /\ managed P' y py' /\
    virtual_offset py' = virtual_offset py /\ in_dram py' = in_dram py /\ present py' = false /\
    idle (in_dram py) py' /\ forall l, y ∈ L' l <-> l = free_list (in_dram py) }.

Lemma inv_recycle T x k C P L e P' L' :
  inv k [x] C [] P L e -> x ∈ T -> (forall y, y ∈ T -> recycled P P' L' y) ->
  (forall y a, y ∈ T -> a <> 0 -> pages e !! a <> Some y) ->
  (forall z, z ∉ T -> P' !! z = P !! z) -> (forall z l, z ∉ T -> (z ∈ L' l <-> z ∈ L l)) ->
  (forall y, y ∈ T -> y ∈ L disk_reserve_list ->
     exists pg z, P !! y = Some pg /\ reserve pg = Some z /\ z ∈ T) ->
  on_frames L' = on_frames L -> inv k [] C [] P' L' e.
Proof.
  intros I Hx Hrc Hun HP HL Hres Hn. pose proof I as [Hh Hc Hr Hs _ _ _ _ _ _ _ Hk _].
  eapply (inv_update T); [exact I| | | |done|done|done|constructor|by rewrite Hn].
  - eapply untouched_confined; [exact I|apply confined_refl|done|done|].
    intros y Hy Hyr. destruct (Hres y Hy Hyr) as (pg & z & ? & ? & ?). exists pg, z. auto.
  - split.
    + intros y Hy. destruct (Hrc y Hy) as [(py & py' & _ & Hm & _)]. exists py'. split; [done|].
      intros a Ha H0. by destruct (Hun y a Hy H0).
    + intros y l pg Hy Hl _ [Hpg _]. destruct (Hrc y Hy) as [(py & py' & _ & [Hm _] & _ & _ & _ & Hid & Hli)].
      apply Hli in Hl as ->. assert (pg = py') as -> by congruence. by destruct (in_dram py).
    + intros y Hy. destruct (Hrc y Hy) as [(py & py' & _ & _ & _ & _ & _ & _ & Hli)].
      right. exists (free_list (in_dram py)). by apply Hli.
    + intros y Hy. split; [by intros ?%elem_of_nil|]. intros ->%list_elem_of_singleton. done.
    + by intros y ?%elem_of_nil.
    + done.
  - eapply slots_same; [exact Hs|done|done|]. intros y py' Hm. destruct (decide (y ∈ T)) as [Hy|Hy].
    + destruct (Hrc y Hy) as [(py & py2 & Hmy & [Hm2 _] & ? & ? & Hp & _)].
      exists py. destruct Hm. assert (py2 = py') as -> by congruence. split_and!; try done.
      rewrite Hp. symmetry. by eapply (so_present _ _ Hs).
    + exists py'. destruct Hm. rewrite HP in * by done. done.
Qed.
End recycle.

(** Where a page is after it left one list or entered another. *)
Lemma elem_entered L f x l : floating L x -> x ∈ fupd L f (x :: L f) l <-> l = f.
Proof.
  intros Hfl. destruct (decide (f = l)) as [<-|Hne].
  - rewrite fupd_eq. split; [done|]. intros _. left.
  - rewrite fupd_ne by done. split; [|congruence]. intros Hin. by destruct (Hfl l).
Qed.

Lemma floating_shrunk L l l1 y l2 x :
  floating L x -> L l = l1 ++ y :: l2 -> floating (fupd L l (l1 ++ l2)) x.
Proof.
  intros Hfl HL. apply floating_fupd; [done|]. intros Hin. apply (Hfl l). rewrite HL. inv_in;
    apply elem_of_app; [by left|right; by right].
Qed.

(** ** The function *)

Section remove.
Context {K D : Type} {KO : KernelOps K} {OB : KernelObs K D} {E : fault -> Prop}.
Implicit Types (s : state K) (e : env K) (P : gmap loc user_page) (L : fifo_id -> list loc).
Implicit Types (C : Z -> D) (F : list loc).

Lemma wp_remove_from_any fuel l x s P L e (Q : unit -> state K -> Prop) :
  (0 < fuel)%nat -> View s P L e -> x ∈ L l -> list_lock l ∉ held e ->
  (forall l1 l2 s', L l = l1 ++ x :: l2 -> View s' P (fupd L l (l1 ++ l2)) e -> Q tt s') ->
  wp E (remove_from_any fuel (Some x)) s Q.
Proof.
  intros Hf V Hx Hlk HQ. unfold remove_from_any. destruct fuel as [|fuel]; [lia|]. simpl. apply wp_bind, wp_bind.
  eapply wp_list_of_in; [done..|].
  apply wp_bind. eapply wp_tryremove; [done..|by eapply view_dom| |done].
  intros l1 l2 s1 HL V1. simpl. do 2 apply wp_ret. by eapply HQ.
Qed.

Lemma wp_remove_reserve fuel r s P L e (Q : unit -> state K -> Prop) :
  (0 < fuel)%nat -> View s P L e -> r ∈ L disk_reserve_list -> list_lock disk_reserve_list ∉ held e ->
  (forall l1 l2 s', L disk_reserve_list = l1 ++ r :: l2 ->
     View s' P (fupd L disk_reserve_list (l1 ++ l2)) e -> Q tt s') ->
  wp E (remove_reserve fuel (Some r)) s Q.
Proof.
  intros Hf V Hx Hlk HQ. unfold remove_reserve. destruct fuel as [|fuel]; [lia|]. simpl. apply wp_bind, wp_bind.
  eapply wp_list_of_in; [done..|]. vstep.
  apply wp_bind. eapply wp_tryremove; [done..|by eapply view_dom| |done].
  intros l1 l2 s1 HL V1. simpl. do 2 apply wp_ret. by eapply HQ.
Qed.

Lemma removable_migrating P L l x px b :
  x ∉ L disk_reserve_list -> removable P L l x px ->
  removable (<[x := set_migrating b px]> P) L l x (set_migrating b px).
Proof.
  intros Hx [(Hl & Hd & Hres)|H]; [left|by right]. split_and!; [done|done|]. intros Hh.
  destruct (Hres Hh) as (r & rp & ? & Hr & ? & ?). exists r, rp. split_and!; try done.
  rewrite lookup_insert_ne; [done|]. by intros <-.
Qed.

(** What a descriptor becomes when it is recycled. *)
Definition recycles (py py' : user_page) : Prop :=
  virtual_offset py' = virtual_offset py /\ in_dram py' = in_dram py /\ present py' = false /\ idle (in_dram py) py'.

(** The page [x] was taken off [l] and goes to its free list, alone or with
    the slot [r] that keeps its copy. *)
Section recycling.
Context k C P L e l l1 l2 x px px' P2
  (I : inv k [x] C [] P L e) (Hm : managed P x px) (HL : L l = l1 ++ x :: l2)
  (Hfl : floating (fupd L l (l1 ++ l2)) x) (Hun : forall a, a <> 0 -> pages e !! a <> Some x)
  (Hm2 : managed P2 x px') (Hrc : recycles px px') (Hfr : framed l = framed (free_list (in_dram px))).
Let L1 := fupd L l (l1 ++ l2).

Lemma inv_recycled_alone :
  let ld := free_list (in_dram px) in
  (forall z, z <> x -> P2 !! z = P !! z) -> inv k [] C [] P2 (fupd L1 ld (x :: L1 ld)) e.
Proof.
  intros ld HP. assert (x ∉ L disk_reserve_list) as Hxr by (apply (i_closed _ _ _ _ _ _ _ I); left).
  destruct Hrc as (? & ? & ? & ?). eapply (inv_recycle [x]); [exact I|left| | | | | |].
  - intros y Hy. inv_in. split. exists px, px'. split_and!; try done. intros l'. by apply elem_entered.
  - intros y a Hy. inv_in. auto.
  - intros z Hz. apply HP. by inv_in.
  - intros z l' Hz. rewrite elem_added by (by inv_in). apply (elem_removed _ _ _ _ _ HL). by inv_in.
  - intros y Hy Hyr. inv_in.
  - unfold L1. rewrite on_frames_fupd, (on_frames_fupd L), HL, !length_app. fold ld in Hfr. rewrite <- Hfr. simpl. lia.
Qed.

Lemma inv_recycled_with r rp rp' r1 r2 :
  let L2 := fupd L1 disk_reserve_list (r1 ++ r2) in
  let L3 := fupd L2 disk_free_list (r :: L2 disk_free_list) in
  L1 disk_reserve_list = r1 ++ r :: r2 -> L1 disk_reserve_list = L disk_reserve_list ->
  in_dram px = true -> in_dram rp = false -> va rp = 0 -> reserve rp = Some x ->
  managed P r rp -> managed P2 r rp' -> recycles rp rp' -> floating L2 r -> x <> r ->
  (forall z, z <> x -> z <> r -> P2 !! z = P !! z) ->
  inv k [] C [] P2 (fupd L3 dram_free_list (x :: L3 dram_free_list)) e.
Proof.
  intros L2 L3 HL2 HL1 Hdx Hdr Hvr Hback Hmr Hmr2 Hrc' Hfr2 Hxr' HP.
  assert (x ∉ L disk_reserve_list) as Hxr by (apply (i_closed _ _ _ _ _ _ _ I); left).
  assert (floating L2 x) as Hfx by by apply (floating_shrunk _ _ _ r).
  assert (floating L3 x) as Hfx3
    by (apply floating_fupd; [done|]; intros [->|Hin]%elem_of_cons; [done|by apply (Hfx disk_free_list)]).
  destruct Hrc as (? & ? & ? & ?), Hrc' as (? & ? & ? & ?). rewrite Hdx in *. rewrite Hdr in *.
  eapply (inv_recycle [x; r]); [exact I|left| | | | | |].
  - intros y Hy. inv_in; split.
    + exists px, px'. rewrite Hdx. split_and!; try done. intros l'. by apply elem_entered.
    + exists rp, rp'. rewrite Hdr. split_and!; try done. intros l'. rewrite elem_added by done. by apply elem_entered.
  - intros y a Hy Ha0 Ha. inv_in; [by eapply Hun|].
    destruct (i_table _ _ _ _ _ _ _ I a r Ha Ha0) as (pg & [Hp _] & Hv). destruct Hmr. congruence.
  - intros z Hz. inv_in. by apply HP.
  - intros z l' Hz. inv_in. unfold L3. rewrite !elem_added by done. unfold L2.
    rewrite (elem_removed _ _ _ _ _ HL2) by done. unfold L1. by apply (elem_removed _ _ _ _ _ HL).
  - intros y Hy Hyr. inv_in. exists rp, x. split_and!; [apply Hmr|done|left].
  - rewrite on_frames_fupd. unfold L3. rewrite on_frames_fupd. unfold L2. rewrite on_frames_fupd.
    unfold L1. rewrite (on_frames_fupd L), HL, !length_app, Hfr. cbn [framed length]. simpl. lia.
Qed.
End recycling.

Lemma removable_framed P L l x px :
  removable P L l x px -> framed l = framed (free_list (in_dram px)).
Proof. intros [(Hl & -> & _)|(-> & -> & _)]; [by destruct l|done]. Qed.

(** An empty list stays empty while a page leaves some list. *)
Lemma removed_nil L l l1 (x : loc) l2 l' : L l = l1 ++ x :: l2 -> L l' = [] -> fupd L l (l1 ++ l2) l' = [].
Proof.
  intros HL Hn. destruct (decide (l = l')) as [->|]; [|by rewrite fupd_ne].
  rewrite Hn in HL. by destruct l1.
Qed.

(** The page, off its list, becomes free; [migrating] is of no consequence. *)
Lemma wp_recycle_page fuel x px l l1 l2 k C P L e eh s (Q : unit -> state K -> Prop) :
  (0 < fuel)%nat -> View s P (fupd L l (l1 ++ l2)) eh -> L l = l1 ++ x :: l2 ->
  floating (fupd L l (l1 ++ l2)) x -> (forall l, list_lock l ∉ held eh) -> inv k [x] C [] P L e ->
  managed P x px -> removable P L l x px -> (forall a, a <> 0 -> pages e !! a <> Some x) ->
  (forall s' P' L' px', View s' P' L' eh -> (L eviction_list = [] -> L' eviction_list = []) -> managed P' x px' ->
     (forall mg P2, P2 !! x = Some (set_migrating mg px') -> (forall z, z <> x -> P2 !! z = P' !! z) ->
        inv k [] C [] P2 L' e) -> Q tt s') ->
  wp E (recycle_page fuel (Some x)) s Q.
Proof.
  intros Hf V HL Hfl Hlk I Hm Hrem Hun HQ. pose proof Hm as [Hpx Hpt]. unfold recycle_page.
  assert (present px = false) as Hpr by by eapply (so_present _ _ (i_slots _ _ _ _ _ _ _ I)).
  assert (x ∉ L disk_reserve_list) as Hxr by (apply (i_closed _ _ _ _ _ _ _ I); left).
  pose proof (removable_framed _ _ _ _ _ Hrem) as Hfr.
  do 3 vstep.
  destruct Hrem as [(Hlru & Hdr & Hres)|(-> & Hdr & Hso)]; rewrite Hdr.
  - vstep. destruct (has_reserve px) eqn:Hh.
    + destruct (Hres eq_refl) as (r & rp & Hr & Hrl & Hrp & Hback).
      assert (r <> x) as Hrx by congruence.
      destruct (i_role _ _ _ _ _ _ _ I _ _ Hrl) as (rp' & Hmr & Hrd & Hrv); [not_in|].
      assert (rp' = rp) as -> by (destruct Hmr; congruence).
      set (L1 := fupd L l (l1 ++ l2)) in *.
      assert (L1 disk_reserve_list = L disk_reserve_list) as HL1 by (unfold L1; rewrite fupd_ne by (by intros ->); done).
      vstep. rewrite Hr. do 2 vstep. rewrite Hback. vstep.
      assert (forall r1 r2, L1 disk_reserve_list = r1 ++ r :: r2 ->
        floating (fupd L1 disk_reserve_list (r1 ++ r2)) r) as Hfr' by (intros; by eapply floating_removed).
      apply wp_bind. eapply wp_remove_reserve; [done|eassumption|by rewrite HL1|apply Hlk|].
      intros r1 r2 s2 HL2 V2. specialize (Hfr' _ _ HL2). vclear.
      pose proof (floating_shrunk _ _ _ _ _ _ Hfl HL2) as Hfx. do 3 vstep. apply wp_bind.
      eapply wp_enqueue_fifo; [eassumption|by rewrite lookup_insert_eq|done|apply Hlk|]. intros s3 V3. vclear.
      do 2 vstep. eapply wp_enqueue_fifo; [eassumption|by rewrite lookup_insert_eq| |apply Hlk|].
      { apply floating_fupd; [done|]; intros [->|Hin]%elem_of_cons; [done|by apply (Hfx disk_free_list)]. }
      intros s4 V4. vclear.
      match type of V4 with View _ ?P' ?L' _ => eapply (HQ _ P' L' _ V4) end; [|by split; [vlookup|]|].
      { intros He. rewrite !fupd_ne by done. by eapply removed_nil. }
      intros mg P2 Hx2 Ho2. eapply (inv_recycled_with k C P L e l l1 l2 x px _ P2 I Hm HL Hfl Hun) with (rp := rp);
        [by split; [exact Hx2|]|by unfold recycles; rewrite Hdr|exact Hfr|exact HL2|exact HL1|done|done|done|done|done| | |exact Hfr'|congruence|].
      * split; [rewrite Ho2 by done; vlookup|by destruct Hmr].
      * by unfold recycles; rewrite Hrd.
      * intros z Hzx Hzr. rewrite Ho2 by done. by rewrite !lookup_insert_ne by congruence.
    + vstep. eapply wp_enqueue_fifo; [eassumption|by rewrite lookup_insert_eq|done|apply Hlk|].
      intros s2 V2. vclear.
      match type of V2 with View _ ?P' ?L' _ => eapply (HQ _ P' L' _ V2) end; [|by split; [vlookup|]|].
      { intros He. rewrite fupd_ne by done. by eapply removed_nil. }
      intros mg P2 Hx2 Ho2.
      change dram_free_list with (free_list true). rewrite <- Hdr.
      eapply inv_recycled_alone; [done..|by split; [exact Hx2|]|by unfold recycles; rewrite Hdr|done|].
      intros z Hz. by rewrite Ho2, !lookup_insert_ne.
  - vstep. rewrite Hso. do 2 vstep.
    eapply wp_enqueue_fifo; [eassumption|by rewrite lookup_insert_eq|done|apply Hlk|].
    intros s2 V2. vclear.
    match type of V2 with View _ ?P' ?L' _ => eapply (HQ _ P' L' _ V2) end; [|by split; [vlookup|]|].
      { intros He. rewrite fupd_ne by done. by eapply removed_nil. }
    intros mg P2 Hx2 Ho2.
    change disk_free_list with (free_list false). rewrite <- Hdr.
    eapply inv_recycled_alone; [done..|by split; [exact Hx2|]|by unfold recycles; rewrite Hdr|done|].
    intros z Hz. by rewrite Ho2, !lookup_insert_ne.
Qed.

Lemma wp_lrudisk_remove_page fuel x px l k C P L e eh s Q :
  (0 < fuel)%nat -> View s P L eh -> (forall l, list_lock l ∉ held eh) -> inv k [x] C [] P L e ->
  x ∈ L l -> managed P x px -> removable P L l x px -> (forall a, a <> 0 -> pages e !! a <> Some x) ->
  (forall s' P' L' px', View s' P' L' eh -> (L eviction_list = [] -> L' eviction_list = []) ->
     inv k [] C [] P' L' e -> managed P' x px' -> Q tt s') ->
  wp E (lrudisk_remove_page fuel (Some x)) s Q.
Proof.
  intros Hf V Hlk I Hx Hm Hrem Hun HQ. pose proof Hm as [Hpx Hpt]. unfold lrudisk_remove_page.
  assert (x ∉ L disk_reserve_list) as Hxr by (apply (i_closed _ _ _ _ _ _ _ I); left).
  assert (forall l1 l2, L l = l1 ++ x :: l2 -> floating (fupd L l (l1 ++ l2)) x) as Hfl
    by (intros; by eapply floating_removed).
  do 2 vstep. apply wp_bind. eapply wp_remove_from_any; [done|eassumption|done|done|]. intros l1 l2 s1 HL V1.
  specialize (Hfl _ _ HL). vclear. apply wp_bind.
  eapply wp_recycle_page; [done|exact V1|done|done|done| | |by apply removable_migrating|done|].
  - eapply inv_set; [exact I|left|done|by split].
  - split; [by rewrite lookup_insert_eq|done].
  - intros s2 P2 L2 px2 V2 He2 [Hx2 Ht2] I2. vstep.
    match goal with V' : View ?s' ?P' ?L' eh |- Q tt ?s' => eapply (HQ _ P' L' _ V') end; [done| |by split; [vlookup|]].
    apply (I2 false); [vlookup|]. intros z Hz. by rewrite lookup_insert_ne.
Qed.
End remove.
