(* ===== verification/Reclaim.v ===== *)
(** * Reclaim in the default policy: proofs

    The functions of [DiskLinux] that find a free frame, from the page list
    scans up to [fetch_free_asynch]: each preserves the invariant and the
    logical memory. *)

From S2P Require Import Prelude Kernel State Fifo Rules Uring Observability Migrate Invariant DiskLinux.

Section reclaim.
Context {K D : Type} `{KL : KernelLaws K D may_fail} {E} `{!Tolerates may_fail E}.
Implicit Types (s : state K) (e : env K) (P : gmap loc user_page) (L : fifo_id -> list loc).
Implicit Types (C : Z -> D) (F : list loc).

Lemma wp_is_dirty x pg s P L e (Q : bool -> state K -> Prop) :
  View s P L e -> P !! x = Some pg -> va pg mod PAGE_SIZE = 0 ->
  registered (kern e) (va pg) = true ->
  (forall s' k', View s' P L (set_kern k' e) -> obs_eq (kern e) k' ->
     Q (dirty (kern e) (va pg)) s') ->
  wp E (is_dirty (Some x)) s Q.
Proof.
  intros V Hx Ha Hr HQ. unfold is_dirty.
  apply wp_bind. eapply wp_pt_get_bits; [done..|]. intros s1 k1 bits V1 O Hb. apply wp_ret.
  assert (negb (Z.land bits PT_DIRTY_FLAG =p 0) = dirty (kern e) (va pg)) as ->; [|by eapply HQ].
  destruct (decide (Z.land bits PT_DIRTY_FLAG = 0)) as [Hz|Hz].
  - rewrite bool_decide_eq_true_2 by done. simpl.
    destruct (dirty (kern e) (va pg)); [|done]. by destruct Hb as [_ []].
  - rewrite bool_decide_eq_false_2 by done. simpl. symmetry. by apply Hb.
Qed.

Lemma wp_detach_from l x s P L e (Q : unit -> state K -> Prop) :
  View s P L e -> x ∈ L l -> list_lock l ∉ held e ->
  (forall l1 l2 s', L l = l1 ++ x :: l2 -> View s' P (fupd L l (l1 ++ l2)) e -> Q tt s') ->
  wp E (detach_from l (Some x)) s Q.
Proof.
  intros V Hx Hlk HQ. unfold detach_from. simpl. apply wp_bind, wp_bind.
  eapply wp_list_of_in; [done..|]. vstep.
  apply wp_bind. eapply wp_tryremove; [done..|by eapply view_dom| |done].
  intros l1 l2 s1 HL V1. simpl. do 2 vstep. vstep. by eapply HQ.
Qed.

(** The disk page of a victim: its reserve when it has one. *)
Lemma wp_reserve_of x pg r rp s P L e (Q : ptr -> state K -> Prop) :
  View s P L e -> P !! x = Some pg -> reserve pg = Some r -> P !! r = Some rp ->
  reserve rp = Some x -> r ∈ L disk_reserve_list -> held e = [] ->
  (forall l1 l2 s', L disk_reserve_list = l1 ++ r :: l2 ->
     View s' P (fupd L disk_reserve_list (l1 ++ l2)) e -> Q (Some r) s') ->
  wp E (reserve_of (Some x)) s Q.
Proof.
  intros V Hx Hr Hrp Hback Hin Hh HQ. unfold reserve_of.
  vstep. rewrite Hr. vstep. vstep. vstep.
  apply wp_bind. eapply wp_detach_from; [done..|rewrite Hh; not_in|].
  intros l1 l2 s1 HL V1. vstep. by eapply HQ.
Qed.

Lemma resident_apart C P L e x pg F infl fd off :
  slots_ok P e -> resident C P L e x pg -> flying_ok F P e infl ->
  (exists d pd, (d ∉ F) /\ managed P d pd /\ in_dram pd = false /\ virtual_offset pd = off) ->
  apart infl (Sqe true fd (va pg) PAGE_SIZE off).
Proof.
  intros S R Hf (d & pd & Hd & Hm & Hdd & <-). eapply Forall_impl; [done|].
  intros y (Hr & t & tp & Ht & Hmt & Hdt & Ho). simpl. split.
  - rewrite <- Ho. intros Heq. apply Hd.
    by rewrite (so_inj _ _ S d t pd tp Hm Hmt) by congruence.
  - intros Heq. rewrite Heq, (av_registered _ _ _ (re_at _ _ _ _ _ _ R)) in Hr. done.
Qed.

(** The start of an eviction: write protection, and whether the page was
    written since it was read. *)
Lemma wp_victim_bits {A} x px (m : bool -> M (state K) A) k F C infl P L e s Q :
  pager k (x :: F) C infl s P L e -> managed P x px -> resident C P L e x px ->
  (forall s' k', let e' := set_kern k' e in
     View s' (<[x := set_migrating true px]> P) L e' -> obs_eq (kern e) k' ->
     wp E (m (dirty (kern e) (va px))) s' Q) ->
  wp E (st (set_migrating true) (Some x);; extmem_wp_page (Some x) true;;
        b ← is_dirty (Some x); m b) s Q.
Proof.
  intros G [Hx Ht] [_ [_ H0 Ha Hr] _ _ _ _] HQ. pager_facts G. vstep.
  apply wp_bind. eapply wp_extmem_wp_page; [eassumption|by rewrite lookup_insert_eq|done..|].
  intros s1 k1 V1 O1. apply wp_bind.
  eapply wp_is_dirty; [eassumption|by rewrite lookup_insert_eq|done| |].
  { psimpl. cbn. by rewrite (sg_registered _ _ (oe_reg _ _ O1)). }
  intros s2 k2 V2 O2. simpl in *. rewrite (oe_dirty _ _ O1) . eapply (HQ _ k2); [done|by etrans].
Qed.

(** What the kernel and the environment are after the data of [px] went to
    the slot of [pd]. *)
Record evicted C e e' (px pd : user_page) : Prop := {
  ev_env : env_step e e';
  ev_none : mem (kern e') (va px) = None;
  ev_mem : same_mem_but (fun a => a = va px) (kern e) (kern e');
  ev_disk : disk (kern e') (virtual_offset pd) = C (va px);
  ev_disks : forall o, o <> virtual_offset pd -> disk (kern e') o = disk (kern e) o;
  ev_reg : same_reg (kern e) (kern e') }.

Lemma evicted_confined C P L e e' x px d pd :
  evicted C e e' px pd -> resident C P L e x px -> managed P d pd -> in_dram pd = false ->
  confined [x; d] P e e'.
Proof.
  intros [S Hn Hm Hd Hds Hg] [_ [Ht _ _ _] _ _ _ _] Hmd Hdd. split; [apply S| | |apply Hg].
  - intros a _ Ha. assert (a <> va px) as Hne by (intros ->; by apply (Ha x); [left|]).
    by rewrite (sm_mem _ _ _ Hm), (sm_dirty _ _ _ Hm).
  - intros o Ho. apply Hds. intros ->. apply (Ho d pd); [right; left|done..].
Qed.

Lemma evicted_frame C P P' L e e' x px d pd F :
  evicted C e e' px pd -> resident C P L e x px -> managed P d pd -> in_dram pd = false ->
  slots_ok P e -> x ∉ F -> d ∉ F -> (forall z, z <> x -> z <> d -> P' !! z = P !! z) ->
  frame F P e P' e'.
Proof.
  intros [S Hn Hm Hd Hds Hg] [_ [Ht _ _ Hr] _ _ _ _] Hmd Hdd Hs HxF HdF HP.
  split; [done| | | |done].
  - intros y Hy. apply HP; congruence.
  - intros a Ha. assert (a <> va px) as Hne.
    { intros ->. destruct Ha as [|(y & Hy & ?)]; congruence. }
    by rewrite (sm_mem _ _ _ Hm), (sm_dirty _ _ _ Hm).
  - intros y pg Hy Hmy Hdy. apply Hds. intros Heq. apply HdF.
    by rewrite (so_inj _ _ Hs d y pd pg) by congruence.
Qed.

Lemma evicted_cache C P L e e' x px pd :
  evicted C e e' px pd -> resident C P L e x px -> conf_ok e ->
  content (kern e') (glob e page_cache) = content (kern e) (glob e page_cache).
Proof.
  intros [S Hn Hm Hd Hds Hg] [_ [_ _ _ Hr] _ _ _ _] Hc. unfold content.
  rewrite (sm_mem _ _ _ Hm); [done|]. intros Heq.
  destruct (co_cache _ Hc) as (_ & Hu & _). congruence.
Qed.

(** [lrudisk_migrate_down], from the victim's descriptor as prepared by
    [wp_victim_bits]. *)
Lemma wp_lrudisk_migrate_down x px d pd (need_wp wb : bool) k F C infl P L e s k1 s1 L1 Q :
  pager k (x :: F) C infl s P L e -> managed P x px -> resident C P L e x px ->
  flying_ok F P e infl -> obs_eq (kern e) k1 ->
  View s1 (<[x := set_migrating true px]> P) L1 (set_kern k1 e) ->
  d ∉ F -> managed P d pd -> in_dram pd = false ->
  (wb = false -> disk (kern e) (virtual_offset pd) = C (va px)) ->
  (forall s' e', View s' (<[x := moved_down (virtual_offset pd) px]> P) L1 e' ->
     evicted C e e' px pd -> rings_ok infl e' -> Q tt s') ->
  wp E (lrudisk_migrate_down (Some x) (virtual_offset pd) need_wp wb) s1 Q.
Proof.
  intros G [Hx Ht] R Hfly O V Hd Hmd Hdd Hwb HQ. pose proof (pg_inv _ _ _ _ _ _ _ _ G) as I.
  pose proof R as [Hdr [Htab H0 Ha Hr] Hmem _ Hmg Hso].
  assert (rings_ok infl (set_kern k1 e)) as R1 by (apply rings_ok_obs; [apply I|done]).
  assert (forall s2 k2, View s2 (<[x := set_migrating true px]> P) L1 (set_kern k2 e) ->
    obs_eq (kern e) k2 -> rings_ok infl (set_kern k2 e) ->
    wp E (extmem_migrate_downdisk (Some x) (virtual_offset pd) false wb) s2 Q) as Hgo.
  { intros s2 k2 V2 O2 R2.
    eapply wp_extmem_migrate_downdisk; [exact V2|exact R2|by rewrite lookup_insert_eq|..].
    - exact Ht.
    - exact Hdr.
    - exact Hso.
    - pose proof (so_fits _ _ (i_slots _ _ _ _ _ _ _ I) x px) as Hf.
      unfold limit in Hf. rewrite Hdr in Hf. by apply Hf.
    - pose proof (so_fits _ _ (i_slots _ _ _ _ _ _ _ I) d pd) as Hf.
      unfold limit in Hf. rewrite Hdd in Hf. by apply Hf.
    - psimpl. simpl. by rewrite (sg_registered _ _ (oe_reg _ _ O2)).
    - simpl. rewrite (i_held _ _ _ _ _ _ _ I). not_in.
    - intros fd. eapply (resident_apart C P L e x px); [apply I|done|done|]. by exists d, pd.
    - intros s3 e3 V3 S3 R3 Hn3 Hm3 Hd3 Hds3 Hg3. rewrite insert_insert_eq in V3. simpl in *.
      apply (HQ s3 e3); [done| |done]. split.
      + etrans; [by apply env_step_set_kern|done].
      + done.
      + etrans; [|done]. destruct O2. split; auto.
      + rewrite (Hd3 kl_device). destruct wb.
        * unfold content. rewrite (oe_mem _ _ O2), Hmem. done.
        * rewrite (oe_disk _ _ O2). by apply Hwb.
      + intros o Ho. rewrite Hds3 by done. apply O2.
      + etrans; [apply O2|done]. }
  unfold lrudisk_migrate_down. vstep. apply wp_bind. destruct need_wp.
  - eapply wp_extmem_wp_page; [eassumption|by rewrite lookup_insert_eq|done..| |].
    { simpl. by rewrite (sg_registered _ _ (oe_reg _ _ O)). }
    intros s2 k2 V2 O2. assert (obs_eq (kern e) k2) by (by etrans).
    apply (Hgo s2 k2); [exact V2|done|apply rings_ok_obs; [apply I|done]].
  - vstep. eapply (Hgo _ k1); [eassumption|done|done].
Qed.

(** The descriptors after the exchange: [px'] is the victim, stored in the
    slot of [pd]; [pd'] is a free frame, the victim's. *)
Record stored (px pd px' : user_page) : Prop := {
  st_pt : pt px' = BASEP;
  st_slot : takes_slot px' pd;
  st_va : va px' = va px;
  st_reserve : has_reserve px' = false;
  st_migrating : migrating px' = false;
  st_swapped : swapped_out px' = true }.

Record vacated (px pd' : user_page) : Prop := {
  vc_pt : pt pd' = BASEP;
  vc_slot : takes_slot pd' px;
  vc_va : va pd' = 0;
  vc_reserve : has_reserve pd' = false }.

Definition victim_slot_list (px : user_page) : fifo_id :=
  if has_reserve px then disk_reserve_list else disk_free_list.

Lemma inv_exchanged k F C infl s P L e x d px pd px' pd' l1 l2 P' e' :
  let ld := victim_slot_list px in
  let L' := fupd (fupd L ld (l1 ++ l2)) disk_active_list (x :: L disk_active_list) in
  pager k (x :: F) C infl s P L e -> managed P x px -> resident C P L e x px ->
  flying_ok F P e infl ->
  L ld = l1 ++ d :: l2 -> managed P d pd -> (has_reserve px = true -> reserve pd = Some x) ->
  evicted C e e' px pd -> rings_ok infl e' ->
  (forall z, z <> x -> z <> d -> P' !! z = P !! z) ->
  P' !! x = Some px' -> stored px pd px' -> P' !! d = Some pd' -> vacated px pd' ->
  inv k (d :: F) C infl P' L' e' /\ (forall y, y ∈ d :: F -> floating L' y) /\ NoDup (d :: F) /\
  frame F P e P' e' /\ managed P' d pd' /\ idle true pd'.
Proof.
  intros ld L' G Hm R Hfly HL Hmd Hres Hev R' HP Hx' [] Hd' [].
  assert (d ∈ L ld) as Hd by (rewrite HL; apply elem_of_app; right; left).
  pose proof (pager_not_owned _ _ _ _ _ _ _ _ _ _ G Hd) as [Hdx HdF]%not_elem_of_cons.
  pose proof (pg_nodup _ _ _ _ _ _ _ _ G) as [HxF HnF]%NoDup_cons.
  assert (in_dram pd = false /\ va pd = 0) as [Hdd Hvd].
  { destruct (pager_role _ _ _ _ _ _ _ _ _ _ G Hd) as (pd2 & [Hp _] & Hrole).
    destruct Hmd. assert (pd2 = pd) as -> by congruence. unfold ld, victim_slot_list in Hrole.
    destruct (has_reserve px); [done|]. by destruct Hrole. }
  pager_facts G.
  destruct (inv_exchange k F C infl P L e x d px pd px' pd' ld l1 l2 P' L' e') as [I' Hfd]; try done.
  - apply (pg_float _ _ _ _ _ _ _ _ G). left.
  - intros l Hl. by eapply pager_uniq.
  - by eapply floating_removed.
  - by eapply evicted_confined.
  - apply Hev.
  - apply Hev.
  - eapply evicted_cache; [done|done|apply I].
  - apply Hev.
  - apply Hev.
  - split_and!; [done| |by apply NoDup_cons|eapply evicted_frame; try done; apply I|done|].
    + intros y [->|Hy]%elem_of_cons; [done|]. assert (y <> x /\ y <> d) as [] by (split; congruence).
      apply floating_fupd.
      * intros l Hin. apply (elem_removed L ld l1 d l2 HL) in Hin; [|done].
        apply (pg_float _ _ _ _ _ _ _ _ G y ltac:(by right) l Hin).
      * intros [?|Hin]%elem_of_cons; [done|].
        apply (pg_float _ _ _ _ _ _ _ _ G y ltac:(by right) _ Hin).
    + destruct vc_slot0 as (? & Hdr & _). split; [by rewrite Hdr; apply R|done..].
Qed.

Lemma pager_exchange k F C infl s P L e x d px pd px' pd' l1 l2 s' P' e' :
  let ld := victim_slot_list px in
  pager k (x :: F) C infl s P L e -> managed P x px -> resident C P L e x px ->
  flying_ok F P e infl ->
  L ld = l1 ++ d :: l2 -> managed P d pd -> (has_reserve px = true -> reserve pd = Some x) ->
  evicted C e e' px pd -> rings_ok infl e' ->
  View s' P' (fupd (fupd L ld (l1 ++ l2)) disk_active_list (x :: L disk_active_list)) e' ->
  (forall z, z <> x -> z <> d -> P' !! z = P !! z) ->
  P' !! x = Some px' -> stored px pd px' -> P' !! d = Some pd' -> vacated px pd' ->
  pager k (d :: F) C infl s' P'
    (fupd (fupd L ld (l1 ++ l2)) disk_active_list (x :: L disk_active_list)) e' /\
  frame F P e P' e' /\ (exists pd, managed P' d pd /\ idle true pd).
Proof.
  intros ld G Hm R Hfly HL Hmd Hres Hev R' V' HP Hx' Hst Hd' Hvc.
  destruct (inv_exchanged k F C infl s P L e x d px pd px' pd' l1 l2 P' e') as (I' & Hf' & Hn' & ? & ? & ?); try done.
  split_and!; [by split|done|by exists pd'].
Qed.

(** The victim may be put on [disk_active_list] once its disk page is known. *)
Lemma victim_floating k F C infl s P L e x px l1 l2 d :
  pager k (x :: F) C infl s P L e -> L (victim_slot_list px) = l1 ++ d :: l2 ->
  floating (fupd L (victim_slot_list px) (l1 ++ l2)) x.
Proof.
  intros G HL. apply floating_fupd; [by apply (pg_float _ _ _ _ _ _ _ _ G); left|].
  intros Hx. apply (pg_float _ _ _ _ _ _ _ _ G x ltac:(left) (victim_slot_list px)).
  rewrite HL. apply elem_of_app in Hx as [|]; apply elem_of_app; [by left|right; by right].
Qed.

Lemma wp_evict_reserve x px k F C infl P L e s Q :
  pager k (x :: F) C infl s P L e -> managed P x px -> resident C P L e x px ->
  flying_ok F P e infl -> has_reserve px = true ->
  (forall s' d P' L' e', pager k (d :: F) C infl s' P' L' e' -> frame F P e P' e' ->
     (exists pd, managed P' d pd /\ idle true pd) -> Q (Some d) s') ->
  wp E (evict_for_frame (Some x)) s Q.
Proof.
  intros G Hm R Hfly Hh HQ. unfold evict_for_frame.
  eapply wp_victim_bits; [done..|]. intros s1 k1 e1 V1 O1.
  vstep. rewrite Hh. pager_facts G.
  destruct (re_reserve _ _ _ _ _ _ R Hh) as (r & rp & Hr & Hrl & Hrp & Hback & Hclean).
  assert (x <> r) as Hxr.
  { intros ->. by apply (pg_float _ _ _ _ _ _ _ _ G r ltac:(left) disk_reserve_list). }
  destruct (pager_role _ _ _ _ _ _ _ _ _ _ G Hrl) as (rp' & Hrm & Hrd & Hrv).
  assert (rp' = rp) as -> by (destruct Hrm; congruence).
  pose proof (pager_not_owned _ _ _ _ _ _ _ _ _ _ G Hrl) as [_ HrF]%not_elem_of_cons.
  apply wp_bind. eapply (wp_reserve_of x _ r rp); [done|by rewrite lookup_insert_eq|done|
    by rewrite lookup_insert_ne|done|done|by apply (i_held _ _ _ _ _ _ _ I)|].
  intros l1 l2 s2 HL V2. do 2 vstep.
  apply wp_bind. eapply (wp_lrudisk_migrate_down x px r rp); [done..| |].
  { intros Hd. rewrite orb_false_r in Hd. by apply Hclean. }
  intros s3 e3 V3 Hev R3. unfold to_dram_frame, drop_reserve, finish_victim, moved_down in *.
  vclear. apply wp_bind. do 3 vstep. apply wp_bind. do 4 vstep.
  assert (disk_reserve_list = victim_slot_list px) as Hld by (unfold victim_slot_list; by rewrite Hh).
  assert (held e3 = []) as Hh3 by (rewrite (es_held _ _ (ev_env _ _ _ _ _ Hev)); apply I).
  apply wp_bind. eapply wp_enqueue_fifo; [eassumption|by rewrite lookup_insert_eq| |rewrite Hh3; not_in|].
  { rewrite Hld. eapply victim_floating; [done|by rewrite <- Hld]. }
  intros s4 V4. rewrite fupd_ne in V4 by done. apply wp_bind. do 6 vstep. vstep.
  edestruct pager_exchange as (G' & Hf' & Hi'); [exact G|exact Hm|exact R|exact Hfly|by rewrite <- Hld|
    exact Hrm|by intros _|exact Hev|exact R3|rewrite <- Hld; eassumption| | | | | |].
  6:{ by eapply HQ. }
  - intros z Hzx Hzr. by rewrite !lookup_insert_ne by congruence.
  - vlookup.
  - destruct Hm. split; try done. split_and!; simpl; [done|by rewrite Hrd|].
    by eapply (so_present _ _ (i_slots _ _ _ _ _ _ _ I) x).
  - vlookup.
  - destruct Hrm. split; try done. split_and!; simpl; [done|by rewrite (re_dram _ _ _ _ _ _ R)|done].
Qed.

Lemma wp_evict_free_slot x px k F C infl P L e s Q :
  pager k (x :: F) C infl s P L e -> managed P x px -> resident C P L e x px ->
  flying_ok F P e infl -> has_reserve px = false ->
  (L disk_free_list = [] -> E (AssertFailed "No disk page found")) ->
  (forall s' d P' L' e', pager k (d :: F) C infl s' P' L' e' -> frame F P e P' e' ->
     (exists pd, managed P' d pd /\ idle true pd) -> Q (Some d) s') ->
  wp E (evict_for_frame (Some x)) s Q.
Proof.
  intros G Hm R Hfly Hh HE HQ. unfold evict_for_frame.
  eapply wp_victim_bits; [done..|]. intros s1 k1 e1 V1 O1.
  vstep. rewrite Hh. pager_facts G.
  assert (disk_free_list = victim_slot_list px) as Hld by (unfold victim_slot_list; by rewrite Hh).
  assert (held e = []) as Hh0 by apply I.
  apply wp_bind. eapply wp_dequeue_fifo; [done|simpl; rewrite Hh0; not_in|by intros; apply HE|].
  intros l1 d s2 HL V2.
  assert (d ∈ L disk_free_list) as Hdl by (rewrite HL; apply elem_of_app; right; left).
  destruct (pager_role _ _ _ _ _ _ _ _ _ _ G Hdl) as (pd & Hdm & [Hdd Hdv Hdr]).
  pose proof (pager_not_owned _ _ _ _ _ _ _ _ _ _ G Hdl) as [Hdx HdF]%not_elem_of_cons.
  assert (present pd = false) as Hpd by by eapply (so_present _ _ (i_slots _ _ _ _ _ _ _ I) d).
  assert (P !! d = Some pd) as Hdp by apply Hdm.
  assert (P !! x = Some px) as Hxp by apply Hm. psimpl.
  apply wp_bind. eapply wp_ld; [apply _|done|by rewrite lookup_insert_ne|].
  do 3 vstep.
  apply wp_bind. eapply (wp_lrudisk_migrate_down x px d pd); [done..| |].
  { intros Hd. by rewrite orb_true_r in Hd. }
  intros s3 e3 V3 Hev R3. unfold to_dram_frame, moved_down in *.
  vclear. do 2 vstep.
  assert (held e3 = []) as Hh3 by (rewrite (es_held _ _ (ev_env _ _ _ _ _ Hev)); apply I).
  rewrite Hld in HL, V3. rewrite <- (app_nil_r l1) in V3.
  apply wp_bind. eapply wp_enqueue_fifo; [exact V3|by rewrite lookup_insert_eq| |rewrite Hh3; not_in|].
  { by eapply victim_floating. }
  intros s4 V4. rewrite fupd_ne in V4 by by rewrite <- Hld. vclear.
  apply wp_bind. do 3 vstep. do 2 vstep.
  edestruct pager_exchange as (G' & Hf' & Hi');
    [exact G|exact Hm|exact R|exact Hfly|exact HL|exact Hdm|by rewrite Hh|exact Hev|exact R3|
     eassumption| | | | | |].
  6:{ by eapply HQ. }
  - intros z Hzx Hzr. by rewrite !lookup_insert_ne by congruence.
  - vlookup.
  - destruct Hm. split; try done. split_and!; simpl; [done|by rewrite Hdd|].
    by eapply (so_present _ _ (i_slots _ _ _ _ _ _ _ I) x).
  - vlookup.
  - destruct Hdm. split; try done. split_and!; simpl; [done|by rewrite (re_dram _ _ _ _ _ _ R)|done].
Qed.

(** ** Scanning the page lists *)

(** Nothing but the three LRU lists has changed. *)
Definition same_others L L' : Prop := forall l, lru l = false -> L' l = L l.

Lemma frame_naccesses F P e x pg n :
  x ∉ F -> frame F P e (<[x := set_naccesses n pg]> P) e.
Proof.
  intros Hx. split; try done. intros y Hy. by rewrite lookup_insert_ne by congruence.
Qed.

Lemma list_bound k F C infl s P L e l :
  pager k F C infl s P L e -> framed l = 1 -> 0 <= k -> Z.of_nat (length (L l)) <= 2 ^ 30.
Proof.
  intros G Hl Hk. pager_facts G. pose proof (i_count _ _ _ _ _ _ _ I) as Hc.
  destruct (co_dram _ (i_conf _ _ _ _ _ _ _ I)) as [_ Hd].
  assert (frames e <= 2 ^ 30).
  { unfold frames. apply Z.div_le_upper_bound; [done|]. by unfold PAGE_SIZE, BASEPAGE_SIZE. }
  unfold on_frames in Hc. destruct l; simpl in *; lia.
Qed.

(** One page moved from the active to the inactive list. *)
Lemma wp_shrink_active_body nr ret tries k F C infl P L e s xs x Q :
  pager k F C infl s P L e -> 0 <= k -> 0 <= ret < nr -> nr <= 2 ^ 30 -> 0 <= tries < nr * 100 ->
  L active_list = xs ++ [x] ->
  (forall s' P', let L' := fupd (fupd L active_list xs) inactive_list (x :: L inactive_list) in
     pager k F C infl s' P' L' e -> frame F P e P' e ->
     Q (inl (ret + 1, tries + 1)) s') ->
  wp E (shrink_active_body nr (ret, tries)) s Q.
Proof.
  intros G Hk Hr Hnr Ht HL HQ. unfold shrink_active_body. pager_facts G.
  assert (held e = []) as Hh by apply I.
  vstep. rewrite (u64_small (nr * 100)) by lia.
  rewrite !bool_decide_eq_true_2; [simpl|lia|rewrite HL, length_app; simpl; lia|lia].
  apply wp_bind. eapply wp_dequeue_fifo; [done|rewrite Hh; not_in|intros Hnil; exfalso; rewrite HL in Hnil; by destruct xs|].
  intros xs' x' s1 HL' V1. rewrite HL in HL'. apply app_inj_2 in HL' as [<- [= <-]]; [|done].
  rewrite <- (app_nil_r xs) in V1.
  destruct (pager_take _ _ _ _ _ s1 _ _ _ active_list xs x [] G HL) as [G1 (px & Hm & R)]; [done..|].
  simpl in R.
  destruct Hm as [Hx Hpt]. vstep.
  apply wp_bind. eapply wp_enqueue_fifo; [eassumption|by rewrite lookup_insert_eq| |rewrite Hh; not_in|].
  { apply (pg_float _ _ _ _ _ _ _ _ G1). left. }
  intros s2 V2. vstep. rewrite !u64_small by lia.
  assert (x ∉ F) as HxF by (by pose proof (pg_nodup _ _ _ _ _ _ _ _ G1) as [? _]%NoDup_cons).
  assert (pager (k + framed active_list - 1) F C infl s2 (<[x := set_naccesses 0 px]> P)
    (fupd (fupd L active_list (xs ++ [])) inactive_list
       (x :: fupd L active_list (xs ++ []) inactive_list)) e) as G2.
  { eapply pager_requeue; [apply G1|apply G1|apply G1|done| |apply I|done|exact V2].
    by apply (resident_lists C _ L). }
  rewrite fupd_ne in G2 by done. rewrite app_nil_r in G2.
  replace (k + framed active_list - 1) with k in G2 by (simpl; lia).
  eapply HQ; [exact G2|by apply frame_naccesses].
Qed.

(** [shrinkage_running] is set for the time of a scan. *)
Lemma frame_unflag F P e P1 e1 :
  frame F P (set_flag shrinkage_running true e) P1 e1 -> flag e shrinkage_running = false ->
  frame F P e P1 (set_flag shrinkage_running false e1).
Proof.
  intros [[Sg Sf Sr Sp Sh] Hp Hm Hd Hg] Hfl. split; try done. split; simpl; try done.
  - intros b Hb. destruct (decide (shrinkage_running = b)) as [<-|]; simp_fupd; [done|].
    rewrite Sf by done. simpl. by simp_fupd.
  - intros r Hr. rewrite fupd_ne by (by destruct r). apply Sr. simpl. by rewrite fupd_ne by (by destruct r).
Qed.

Lemma wp_shrink_active_list nr k F C infl P L e s Q :
  pager k F C infl s P L e -> 0 <= k -> 0 <= nr <= 2 ^ 30 -> flag e shrinkage_running = false ->
  (forall s' P' e' xs ys, L active_list = xs ++ ys ->
     Z.of_nat (length ys) = Z.min nr (Z.of_nat (length (L active_list))) ->
     pager k F C infl s' P' (fupd (fupd L active_list xs) inactive_list (ys ++ L inactive_list)) e' ->
     frame F P e P' e' -> Q (Z.of_nat (length ys)) s') ->
  wp E (shrink_active_list nr) s Q.
Proof.
  intros G Hk Hnr Hfl HQ. unfold shrink_active_list. pager_facts G.
  case_bool_decide as H0; [subst nr|].
  { vstep. apply (HQ s P e (L active_list) []); [by rewrite app_nil_r|simpl; lia| |apply frame_refl].
    eapply pager_ext; [done|]. intros l.
    destruct (decide (inactive_list = l)) as [<-|]; [by rewrite fupd_eq|rewrite fupd_ne by done].
    by destruct (decide (active_list = l)) as [<-|]; [rewrite fupd_eq|rewrite fupd_ne]. }
  pose proof (list_bound _ _ _ _ _ _ _ _ active_list G eq_refl Hk) as Hlen.
  do 2 vstep. set (n := if bool_decide _ then _ else _).
  assert (n = Z.min nr (Z.of_nat (length (L active_list)))) as Hn.
  { unfold n. case_bool_decide; lia. }
  clearbody n. set (e1 := set_flag shrinkage_running true e) in *.
  apply wp_bind. eapply (wp_loop _ _ _ (fun m v s => exists xs ys P',
    L active_list = xs ++ ys /\ v = (Z.of_nat (length ys), Z.of_nat (length ys)) /\
    Z.of_nat (length ys) <= n /\ m = Z.to_nat (n - Z.of_nat (length ys)) /\
    pager k F C infl s P' (fupd (fupd L active_list xs) inactive_list (ys ++ L inactive_list)) e1 /\
    frame F P e1 P' e1)) with (n := Z.to_nat n).
  - exists (L active_list), [], P. simpl. split_and!; [by rewrite app_nil_r|done|lia|f_equal; lia| |apply frame_refl].
    eapply pager_ext; [by eapply pager_set_flag|]. intros l.
    destruct (decide (inactive_list = l)) as [<-|]; [by rewrite fupd_eq|rewrite fupd_ne by done].
    by destruct (decide (active_list = l)) as [<-|]; [rewrite fupd_eq|rewrite fupd_ne].
  - lia.
  - clear dependent s. intros m v s (xs & ys & P' & HL & -> & Hle & -> & G & Hf).
    destruct (decide (Z.of_nat (length ys) < n)) as [Hlt|Hge].
    + destruct xs as [|x xs _] using rev_ind.
      { exfalso. rewrite HL in Hn. simpl in Hn. lia. }
      eapply (wp_shrink_active_body _ _ _ k F C infl P' _ e1 s xs x); [done|lia..|by simp_fupd|].
      intros s' P2 L2 G2 Hf2. unfold L2 in G2.
      exists (Z.to_nat (n - Z.of_nat (length (x :: ys)))). split; [simpl; lia|].
      exists xs, (x :: ys), P2. split_and!; try done.
      * by rewrite HL, <- app_assoc.
      * simpl. f_equal; lia.
      * simpl. lia.
      * eapply pager_ext; [done|]. intros l. simp_fupd.
        destruct (decide (inactive_list = l)) as [<-|]; [by simp_fupd|rewrite !(fupd_ne _ inactive_list) by done].
        destruct (decide (active_list = l)) as [<-|]; [by simp_fupd|by rewrite !fupd_ne by done].
      * by eapply frame_trans.
    + unfold shrink_active_body. pager_facts G. vstep.
      rewrite (bool_decide_eq_false_2 (Z.of_nat (length ys) < n)) by done. simpl. vstep. vstep. vstep.
      rewrite i32_small by lia.
      assert (View s0 P' (fupd (fupd L active_list xs) inactive_list (ys ++ L inactive_list))
        (set_flag shrinkage_running false e1)) as V' by assumption.
      eapply HQ; [done|lia|by eapply (pager_set_flag _ _ _ _ s s0 P' _ e1 shrinkage_running false)|].
      by apply frame_unflag.
Qed.

(** The outcome of scanning: pages moved between the LRU lists, [n] more of
    them wait for eviction. *)
Record scanned (n : Z) k F C infl P L e s' P' L' e' : Prop := {
  sc_pager : pager k F C infl s' P' L' e';
  sc_frame : frame F P e P' e';
  sc_others : same_others L L';
  sc_found : Z.of_nat (length (L' eviction_list)) = Z.of_nat (length (L eviction_list)) + n }.

Lemma scanned_trans n m k F C infl P L e s1 P1 L1 e1 s2 P2 L2 e2 :
  scanned n k F C infl P L e s1 P1 L1 e1 -> scanned m k F C infl P1 L1 e1 s2 P2 L2 e2 ->
  scanned (n + m) k F C infl P L e s2 P2 L2 e2.
Proof.
  intros [G1 F1 O1 N1] [G2 F2 O2 N2]. split; [done|by eapply frame_trans| |lia].
  intros l Hl. by rewrite O2, O1.
Qed.

(** A page scanned on the inactive list goes back to an LRU list. *)
Lemma wp_requeue (l : fifo_id) k F C infl P L e s xs x px n m k1 s1 Q :
  pager k F C infl s P L e -> L inactive_list = xs ++ [x] -> managed P x px ->
  resident C P L e x px -> obs_eq (kern e) k1 ->
  View s1 (<[x := set_naccesses n px]> P) (fupd L inactive_list xs) (set_kern k1 e) ->
  lru l = true -> m = (if decide (l = eviction_list) then 1 else 0) ->
  (forall s' P' L' e', scanned m k F C infl P L e s' P' L' e' -> P' = <[x := set_naccesses n px]> P ->
     L' = fupd (fupd L inactive_list xs) l (x :: fupd L inactive_list xs l) -> glob e' = glob e -> Q tt s') ->
  wp E (enqueue_fifo l (Some x)) s1 Q.
Proof.
  intros G HL Hm R O V Hl -> HQ. pager_facts G.
  assert (x ∈ L inactive_list) as Hxl by (rewrite HL; apply elem_of_app; right; left).
  assert (x ∉ F) as HxF by by eapply pager_not_owned.
  assert (floating (fupd L inactive_list xs) x) as Hfx.
  { rewrite <- (app_nil_r xs). by eapply floating_removed. }
  destruct (inv_take x inactive_list xs [] k F C infl P L e) as [I1 _]; [done..|by rewrite app_nil_r|].
  rewrite app_nil_r in I1. simpl in I1. set (L1 := fupd L inactive_list xs) in *.
  eapply wp_enqueue_fifo; [done|by rewrite lookup_insert_eq|done|
    simpl; rewrite (i_held _ _ _ _ _ _ _ I); not_in|].
  intros s2 V2.
  assert (forall y, y ∈ x :: F -> floating L1 y) as Hf1.
  { intros y [->|Hy]%elem_of_cons; [done|]. unfold L1. apply floating_fupd.
    - by apply (pg_float _ _ _ _ _ _ _ _ G).
    - intros Hin. apply (pg_float _ _ _ _ _ _ _ _ G y Hy inactive_list).
      rewrite HL. apply elem_of_app. by left. }
  assert (pager (k + 1 - 1) F C infl s2 (<[x := set_naccesses n px]> P)
    (fupd L1 l (x :: L1 l)) (set_kern k1 e)) as G2.
  { eapply pager_requeue; [by apply inv_obs|done|by apply NoDup_cons; split; [|apply G]|done| | |done|done].
    - apply resident_obs; [done|]. by apply (resident_lists C _ L).
    - eapply flying_ok_obs; [apply I|apply O]. }
  replace (k + 1 - 1) with k in G2 by lia.
  eapply (HQ s2); [split; [exact G2| | |]|done..].
  - eapply frame_trans; [by apply frame_naccesses|by apply frame_obs].
  - intros l' Hl'. rewrite fupd_ne by (by intros ->; rewrite Hl in Hl'). unfold L1.
    by rewrite fupd_ne by (by intros <-).
  - case_decide as Hle; [subst l; rewrite fupd_eq|rewrite fupd_ne by done]; unfold L1;
      rewrite fupd_ne by done; simpl; lia.
Qed.

(** What a round of a scan leaves alone: the variables, the addresses of the
    pages, and the pages already on the active list. *)
(** Whose page a descriptor is. *)
Definition whose (pg : user_page) : Z * pagetypes := (va pg, pt pg).

Record gentle P L e P' L' e' : Prop := {
  ge_glob : glob e' = glob e;
  ge_va : forall y, whose <$> P' !! y = whose <$> P !! y;
  ge_active : forall y, y ∈ L active_list -> y ∈ L' active_list }.

Lemma gentle_trans P1 L1 e1 P2 L2 e2 P3 L3 e3 :
  gentle P1 L1 e1 P2 L2 e2 -> gentle P2 L2 e2 P3 L3 e3 -> gentle P1 L1 e1 P3 L3 e3.
Proof. intros [G1 V1 A1] [G2 V2 A2]. split; [congruence|intros y; by rewrite V2|auto]. Qed.

Lemma va_naccesses P x px n (y : loc) :
  P !! x = Some px -> whose <$> <[x := set_naccesses n px]> P !! y = whose <$> P !! y.
Proof.
  intros Hx. destruct (decide (y = x)) as [->|]; [by rewrite lookup_insert_eq, Hx|by rewrite lookup_insert_ne].
Qed.

Lemma gentle_requeue P L (e e' : env K) xs l x px n :
  P !! x = Some px -> glob e' = glob e ->
  gentle P L e (<[x := set_naccesses n px]> P)
    (fupd (fupd L inactive_list xs) l (x :: fupd L inactive_list xs l)) e'.
Proof.
  intros Hx Hg. split; [done|intros y; by apply va_naccesses|]. intros y Hy.
  destruct (decide (l = active_list)) as [->|Hl].
  - rewrite fupd_eq, fupd_ne by done. by right.
  - by rewrite !fupd_ne by done.
Qed.

Lemma wp_shrink_inactive_body nr ret tries k F C infl P L e s Q :
  pager k F C infl s P L e -> 0 <= ret < nr -> nr <= 2 ^ 30 -> 0 <= tries < nr * 100 ->
  L inactive_list <> [] ->
  (forall m s' P' L' e', scanned m k F C infl P L e s' P' L' e' -> 0 <= m <= 1 ->
     gentle P L e P' L' e' -> Q (inl (ret + m, tries + 1)) s') ->
  wp E (shrink_inactive_body nr (ret, tries)) s Q.
Proof.
  intros G Hr Hnr Ht Hne HQ. unfold shrink_inactive_body. pager_facts G.
  assert (held e = []) as Hh by apply I.
  vstep. rewrite (u64_small (nr * 100)) by lia.
  rewrite !bool_decide_eq_true_2; [simpl|lia|destruct (L inactive_list); [done|simpl; lia]|lia].
  apply wp_bind. eapply wp_dequeue_fifo; [done|rewrite Hh; not_in|done|].
  intros xs x s1 HL V1.
  assert (x ∈ L inactive_list) as Hxl by (rewrite HL; apply elem_of_app; right; left).
  destruct (pager_role _ _ _ _ _ _ _ _ _ _ G Hxl) as (px & Hm & R). simpl in R.
  pose proof R as [_ [_ _ Ha Hreg] _ _ _ _]. pose proof Hm as [Hx _].
  apply wp_bind. eapply wp_pt_get_bits; [done..|]. intros s2 k2 bits V2 O2 _.
  apply wp_bind. case_bool_decide as Hacc.
  - vstep. vstep. apply wp_bind.
    eapply wp_pt_clear_accessed_flag; [eassumption|by rewrite lookup_insert_eq|done| |].
    { simpl. by rewrite (sg_registered _ _ (oe_reg _ _ O2)). }
    intros s3 k3 V3 O3. vclear. assert (obs_eq (kern e) k3) as O by by etrans.
    vstep. apply wp_bind. case_bool_decide.
    + vstep. eapply (wp_requeue active_list _ _ _ _ _ _ _ _ _ _ _ 0 0); [done|done|done|done|exact O|eassumption|done..|].
      intros s4 P4 L4 e4 Hsc -> -> Hg. vstep. vstep. rewrite (u64_small (tries + 1)) by lia.
      replace ret with (ret + 0) by lia. eapply HQ; [exact Hsc|lia|by apply gentle_requeue].
    + eapply (wp_requeue inactive_list _ _ _ _ _ _ _ _ _ _ _ (u64 (naccesses px + 1)) 0);
        [done|done|done|done|exact O|eassumption|done..|].
      intros s4 P4 L4 e4 Hsc -> -> Hg. vstep. vstep. rewrite (u64_small (tries + 1)) by lia.
      replace ret with (ret + 0) by lia. eapply HQ; [exact Hsc|lia|by apply gentle_requeue].
  - vstep. apply wp_bind.
    eapply (wp_requeue eviction_list _ _ _ _ _ _ _ _ _ _ _ 0 1); [done|done|done|done|exact O2|eassumption|done..|].
    intros s4 P4 L4 e4 Hsc -> -> Hg. vstep. vstep. rewrite !u64_small by lia.
    eapply HQ; [exact Hsc|lia|by apply gentle_requeue].
Qed.

(** A scan of the inactive list: each round takes the oldest page and puts
    it on an LRU list; [T] is what its rounds guarantee besides. *)
Definition guarded nr ret tries L : bool :=
  bool_decide (ret < nr) && bool_decide (0 < Z.of_nat (length (L inactive_list))) && bool_decide (tries < nr * 100).

Record scans (T : gmap loc user_page -> (fifo_id -> list loc) -> env K ->
    gmap loc user_page -> (fifo_id -> list loc) -> env K -> Prop)
    (body : Z -> Z * Z -> M (state K) ((Z * Z) + Z)) : Prop := {
  sn_refl P L e : T P L e P L e;
  sn_trans P1 L1 e1 P2 L2 e2 P3 L3 e3 : T P1 L1 e1 P2 L2 e2 -> T P2 L2 e2 P3 L3 e3 -> T P1 L1 e1 P3 L3 e3;
  sn_round nr ret tries k F C infl P L e s Q :
    pager k F C infl s P L e -> 0 <= ret < nr -> nr <= 2 ^ 30 -> 0 <= tries < nr * 100 ->
    L inactive_list <> [] ->
    (forall m s' P' L' e', scanned m k F C infl P L e s' P' L' e' -> 0 <= m <= 1 ->
       T P L e P' L' e' -> Q (inl (ret + m, tries + 1)) s') ->
    wp E (body nr (ret, tries)) s Q;
  sn_stop nr ret tries P L e s Q :
    View s P L e -> 0 <= nr <= 2 ^ 30 -> guarded nr ret tries L = false -> Q (inr ret) s ->
    wp E (body nr (ret, tries)) s Q }.

Lemma wp_scan_loop T body n k F C infl P L e s Q :
  scans T body -> pager k F C infl s P L e -> 0 <= k -> 0 <= n <= 2 ^ 30 ->
  (forall m s' P' L' e', scanned m k F C infl P L e s' P' L' e' -> 0 <= m <= 2 ^ 30 ->
     T P L e P' L' e' -> Q m s') ->
  wp E (loop "shrink_inactive_list" (S (Z.to_nat (u64 (n * 100)))) (body n) (0, 0)) s Q.
Proof.
  intros HT G Hk Hn HQ.
  eapply (wp_loop _ _ _ (fun d v s => exists P' L' e', 0 <= fst v <= n /\
    0 <= snd v /\ d = Z.to_nat (n * 100 - snd v) /\
    scanned (fst v) k F C infl P L e s P' L' e' /\ T P L e P' L' e')) with (n := Z.to_nat (n * 100)).
  - exists P, L, e. simpl. split_and!; [lia..|f_equal; lia| |by apply (sn_refl _ _ HT)].
    split; [done|apply frame_refl|done|lia].
  - rewrite u64_small; lia.
  - clear dependent s. intros d [ret tries] s (P1 & L1 & e2 & Hr & Ht & -> & Hsc1 & T1).
    simpl in *. pose proof (sc_pager _ _ _ _ _ _ _ _ _ _ _ _ Hsc1) as G1. pager_facts G1.
    destruct (guarded n ret tries L1) eqn:Hg.
    + apply andb_prop in Hg as [[H1%bool_decide_eq_true H2%bool_decide_eq_true]%andb_prop H3%bool_decide_eq_true].
      eapply (sn_round _ _ HT); [done|lia..|by destruct (L1 inactive_list)|].
      intros m s' P2 L2 e3 Hsc Hm T2. exists (Z.to_nat (n * 100 - (tries + 1))). split; [lia|].
      exists P2, L2, e3. simpl. split_and!; [lia..|done| |by eapply (sn_trans _ _ HT)]. by eapply scanned_trans.
    + eapply (sn_stop _ _ HT); [done|done|done|]. eapply HQ; [exact Hsc1|lia|exact T1].
Qed.

Lemma lru_scans :
  scans gentle shrink_inactive_body.
Proof.
  split; [by split| | |].
  - apply gentle_trans.
  - intros nr ret tries k F C infl P L e s Q G Hr Hn Ht Hne HQ. eapply wp_shrink_inactive_body; [done..|].
    intros m s' P' L' e' Hsc Hm Hg. by eapply HQ.
  - intros nr ret tries P L e s Q V Hn Hg HQ. unfold shrink_inactive_body. vstep. rewrite (u64_small (nr * 100)) by lia.
    unfold guarded in Hg. rewrite Hg. by vstep.
Qed.

(** The two flags around a scan. *)
Lemma scanned_unflag n k F C infl P L e s1 P1 L1 e1 s2 :
  scanned n k F C infl P L (set_flag shrinkage_running true e) s1 P1 L1 e1 ->
  flag e shrinkage_running = false -> View s2 P1 L1 (set_flag shrinkage_running false e1) ->
  scanned n k F C infl P L e s2 P1 L1 (set_flag shrinkage_running false e1).
Proof.
  intros [G F1 O1 N1] Hfl V.
  split; [eapply (pager_set_flag _ _ _ _ _ _ _ _ _ shrinkage_running false); [done|exact G|exact V]| |done|done].
  by apply frame_unflag.
Qed.

Lemma wp_shrink_inactive_list nr k F C infl P L e s Q :
  pager k F C infl s P L e -> 0 <= k -> 0 <= nr -> flag e shrinkage_running = false ->
  (forall m s' P' L' e', scanned m k F C infl P L e s' P' L' e' -> 0 <= m <= 2 ^ 30 ->
     Q m s') ->
  wp E (shrink_inactive_list nr) s Q.
Proof.
  intros G Hk Hnr Hfl HQ. unfold shrink_inactive_list. pager_facts G.
  pose proof (list_bound _ _ _ _ _ _ _ _ inactive_list G eq_refl Hk) as Hlen.
  vstep. set (n := if (nr =p 0) || _ then _ else nr).
  assert (0 <= n <= 2 ^ 30) as Hn.
  { unfold n. destruct (nr =p 0); simpl; [lia|]. case_bool_decide; lia. }
  vstep. apply wp_bind. eapply (wp_scan_loop _ _ n k); [exact lru_scans| |done|done|].
  { eapply (pager_set_flag _ _ _ _ _ _ _ _ _ shrinkage_running true); [done|exact G|eassumption]. }
  intros m s2 P2 L2 e2 Hsc Hm _. pose proof (sc_pager _ _ _ _ _ _ _ _ _ _ _ _ Hsc) as G2. pager_facts G2.
  vclear. vstep. vstep. rewrite i32_small by lia. eapply HQ; [by eapply scanned_unflag|done].
Qed.

Lemma scanned_flag n k F C infl P L e s' P' L' e' b :
  scanned n k F C infl P L e s' P' L' e' -> is_transient b = false -> flag e' b = flag e b.
Proof. intros [_ [[_ Hf _ _] _ _ _ _] _ _]. apply Hf. Qed.

Lemma shiftr_le n p : 0 <= n -> 0 <= p -> 0 <= Z.shiftr n p <= n.
Proof.
  intros Hn Hp. rewrite Z.shiftr_div_pow2 by done. pose proof (Z.pow_pos_nonneg 2 p).
  split; [apply Z.div_pos; lia|]. apply Z.div_le_upper_bound; nia.
Qed.

Lemma wp_direct_allocate nr priority k F C infl P L e s Q :
  pager k F C infl s P L e -> 0 <= k -> 0 <= priority -> flag e shrinkage_running = false ->
  (forall r m s' P' L' e', scanned m k F C infl P L e s' P' L' e' -> 0 <= m -> Q r s') ->
  wp E (direct_allocate_page_asynch nr priority) s Q.
Proof.
  intros G Hk Hp Hfl HQ. unfold direct_allocate_page_asynch. pager_facts G.
  pose proof (list_bound _ _ _ _ _ _ _ _ inactive_list G eq_refl Hk) as Hin.
  do 2 vstep. set (ta := i32 (Z.shiftr (Z.of_nat (length (L active_list))) priority)).
  assert (0 <= Z.of_nat (length (L inactive_list))) as H0 by lia.
  pose proof (shiftr_le _ priority H0 Hp) as Hsh.
  set (ti := Z.shiftr (Z.of_nat (length (L inactive_list))) priority) in *.
  assert (0 <= ti <= 2 ^ 30) as Hti by lia. clearbody ti. clear Hsh.
  rewrite (i32_small ti) by lia.
  eapply (wp_loop _ _ _ (fun d c s => exists m P' L' e', 0 <= m /\
    d = Z.to_nat (ti - sc_scanned_inactive c) /\ 0 <= sc_scanned_inactive c <= 2 ^ 30 + 32 /\
    scanned m k F C infl P L e s P' L' e')) with (n := Z.to_nat ti); [|lia|].
  { exists 0, P, L, e. simpl. split_and!; [done|f_equal; lia|lia|lia|].
    split; [done|apply frame_refl|done|lia]. }
  clear dependent s. intros d c s (m & P1 & L1 & e1 & Hm & -> & Hc & Hsc).
  unfold direct_allocate_body.
  assert (flag e1 shrinkage_running = false) as Hfl1 by by rewrite (scanned_flag _ _ _ _ _ _ _ _ _ _ _ _ _ Hsc).
  pose proof (sc_pager _ _ _ _ _ _ _ _ _ _ _ _ Hsc) as G.
  case_bool_decide as H1; simpl; [|vstep; by eapply HQ].
  case_bool_decide as H2; [|vstep; by eapply HQ].
  apply wp_bind. eapply wp_shrink_inactive_list; [done..|].
  intros r s2 P2 L2 e2 Hsc2 Hr. rewrite (i32_small (sc_scanned_inactive c + _)) by (unfold SWAP_CLUSTER_COUNT; lia).
  assert (flag e2 shrinkage_running = false) as Hfl2 by by rewrite (scanned_flag _ _ _ _ _ _ _ _ _ _ _ _ _ Hsc2).
  pose proof (scanned_trans _ _ _ _ _ _ _ _ _ _ _ _ _ _ _ _ _ Hsc Hsc2) as Hsc3.
  pose proof (sc_pager _ _ _ _ _ _ _ _ _ _ _ _ Hsc2) as G2.
  unfold SWAP_CLUSTER_COUNT in *. case_bool_decide.
  - apply wp_bind. eapply wp_shrink_active_list; [done..|].
    intros s4 P4 e4 xs ys HL Hlen G4 Hf4. vstep. exists (Z.to_nat (ti - (sc_scanned_inactive c + 32))).
    split; [lia|]. exists (m + r + 0), P4. do 2 eexists. simpl. split_and!; [lia..|].
    eapply scanned_trans; [exact Hsc3|]. split; [exact G4|done| |].
    + intros l Hl. rewrite !fupd_ne by (by intros <-). done.
    + rewrite !fupd_ne by done. lia.
  - vstep. exists (Z.to_nat (ti - (sc_scanned_inactive c + 32))).
    split; [lia|]. exists (m + r), P2, L2, e2. simpl. split_and!; [lia..|done].
Qed.

(** What the allocator needs of the function that selects victims: it
    comes to an end, and only moves pages between the LRU lists. *)
Definition reclaims (reclaim : Z -> Z -> M (state K) Z) : Prop :=
  forall nr priority k F C infl P L e s Q,
    pager k F C infl s P L e -> 0 <= k -> 0 <= priority -> flag e shrinkage_running = false ->
    (forall r m s' P' L' e', scanned m k F C infl P L e s' P' L' e' -> 0 <= m -> Q r s') ->
    wp E (reclaim nr priority) s Q.

(** ** Getting a free frame *)

Lemma wp_evict_for_frame x px k F C infl P L e s Q :
  pager k (x :: F) C infl s P L e -> managed P x px -> resident C P L e x px ->
  flying_ok F P e infl -> E (AssertFailed "No disk page found") ->
  (forall s' d P' L' e', pager k (d :: F) C infl s' P' L' e' -> frame F P e P' e' ->
     (exists pd, managed P' d pd /\ idle true pd) -> Q (Some d) s') ->
  wp E (evict_for_frame (Some x)) s Q.
Proof.
  intros. destruct (has_reserve px) eqn:?; [by eapply wp_evict_reserve|by eapply wp_evict_free_slot].
Qed.

Lemma wp_wake_kswapd k F C infl P L e s (Q : unit -> state K -> Prop) :
  pager k F C infl s P L e ->
  (forall s' e', pager k F C infl s' P L e' -> env_step e e' -> kern e' = kern e ->
     glob e' = glob e -> Q tt s') ->
  wp E wake_kswapd_if_high s Q.
Proof.
  intros G HQ. unfold wake_kswapd_if_high. pager_facts G.
  assert (held e = []) as Hh by apply I.
  do 4 vstep. destruct (negb _ && _).
  - vstep; [rewrite Hh; not_in|]. vstep. eapply wp_unlock_last; [eassumption|simpl; by rewrite Hh|not_in|].
    intros s2 V2. eapply HQ.
    + eapply pager_vars; [done|done|done| |done|by simpl; rewrite Hh|done..].
      intros b Hb. simpl. rewrite fupd_ne; [done|by intros <-].
    + etrans; [by apply (env_step_set_flag kswapd_waiting false e); [|right]|].
      split; simpl; [done|done|done|done|by rewrite Hh|done].
    + done.
    + done.
  - vstep. by eapply (HQ _ e).
Qed.

Lemma wp_fetch_free_body reclaim priority k F C infl P L e s Q :
  reclaims reclaim -> pager k F C infl s P L e -> 0 <= k -> 2 * k < frames e -> flag e shrinkage_running = false ->
  (L dram_free_list = [] -> E (AssertFailed "Out of memory") /\ E (AssertFailed "No disk page found")) ->
  (L dram_free_list = [] -> 0 < priority ->
   forall m s' P' L' e', scanned m k F C infl P L e s' P' L' e' ->
     Q (inl (priority - 1)) s') ->
  (forall s' d P' L' e', pager (k + 1) (d :: F) C infl s' P' L' e' -> frame F P e P' e' ->
     (exists pd, managed P' d pd /\ idle true pd) -> Q (inr (Some d)) s') ->
  (0 < priority \/ L dram_free_list = []) ->
  wp E (fetch_free_body reclaim priority) s Q.
Proof.
  intros HR G Hk Hfr Hfl HE HQ1 HQ2 Hpr. unfold fetch_free_body. pager_facts G.
  assert (held e = []) as Hh by apply I.
  case_bool_decide as Hp; [|destruct Hpr; [done|by apply wp_fail, HE]].
  apply wp_bind. eapply wp_dequeue_fifo; [done|rewrite Hh; not_in| |].
  2:{ intros xs d s1 HL V1. vstep. rewrite <- (app_nil_r xs) in V1.
      destruct (pager_take _ _ _ _ _ s1 _ _ _ dram_free_list xs d [] G HL) as [G1 (pd & Hm & Hi)]; [done..|].
      eapply HQ2; [exact G1|apply frame_refl|by exists pd]. }
  intros Hnil s1 V1. destruct (HE Hnil) as [HE1 HE2].
  assert (pager k F C infl s1 P L e) as G1 by (destruct G; by split). clear dependent s.
  (* the common end: evict the page waiting on [eviction_list], if any *)
  assert (forall prio m s2 P2 L2 e2, scanned m k F C infl P L e s2 P2 L2 e2 ->
    (L2 eviction_list = [] -> prio = priority - 1) ->
    wp E (page ← dequeue_fifo eviction_list;
      match page with
      | Some _ => diskpage ← evict_for_frame page; mret (inr diskpage)
      | None => mret (inl prio)
      end) s2 Q) as Hend.
  { intros prio m s2 P2 L2 e2 Hsc Hprio.
    pose proof (sc_pager _ _ _ _ _ _ _ _ _ _ _ _ Hsc) as G2. pose proof (sc_frame _ _ _ _ _ _ _ _ _ _ _ _ Hsc) as Hf2.
    pose proof (pg_inv _ _ _ _ _ _ _ _ G2) as I2. pose proof (pg_view _ _ _ _ _ _ _ _ G2) as V2.
    apply wp_bind. eapply wp_dequeue_fifo; [done|rewrite (i_held _ _ _ _ _ _ _ I2); not_in| |].
    - intros Hnil2 s3 V3. vstep. rewrite Hprio by done. eapply (HQ1 Hnil Hp m s3 P2 L2 e2).
      destruct Hsc as [[]]. by split; [split|..].
    - intros xs x s3 HL V3. rewrite <- (app_nil_r xs) in V3.
      destruct (pager_take _ _ _ _ _ s3 _ _ _ eviction_list xs x [] G2 HL) as [G3 (px & Hm & R)]; [done..|].
      apply wp_bind. eapply wp_evict_for_frame; [exact G3|exact Hm| |apply I2|done|].
      { apply (resident_lists C _ L2); [by rewrite fupd_ne|exact R]. }
      intros s4 d P4 L4 e4 G4 Hf4 Hi4. vstep.
      eapply HQ2; [exact G4|by eapply frame_trans|done]. }
  do 4 vstep. rewrite Hfl. simpl. pager_facts G1.
  pose proof (list_bound _ _ _ _ _ _ _ _ active_list G1 eq_refl Hk) as Hact.
  pose proof (list_bound _ _ _ _ _ _ _ _ inactive_list G1 eq_refl Hk) as Hina.
  rewrite (u64_small (_ + _)) by lia. apply wp_bind. case_bool_decide as Hc.
  - apply wp_bind. eapply HR; [done|done|lia|done|].
    intros r m s2 P2 L2 e2 Hsc Hm. vstep. by eapply Hend.
  - vstep. eapply (Hend priority 0 _ P L e); [split; [done|apply frame_refl|done|lia]|].
    intros Hev. exfalso. apply Hc.
    pose proof (i_count _ _ _ _ _ _ _ I0) as Hn. unfold on_frames in Hn. rewrite Hev, Hnil in Hn.
    simpl in Hn. unfold frames in *.
    replace (PAGE_SIZE * 2) with (PAGE_SIZE * 2) by done.
    rewrite <- Z.div_div by done.
    pose proof (Z.div_lt_upper_bound (glob e dramsize / PAGE_SIZE) 2
      (Z.of_nat (length (L active_list)) + Z.of_nat (length (L inactive_list)))). lia.
Qed.

(** Thirteen rounds are enough: every round without a victim lowers the
    priority, and the assertion stops the last one. *)
Lemma wp_fetch_free_with reclaim fuel k F C infl P L e s Q :
  (13 <= fuel)%nat -> reclaims reclaim ->
  pager k F C infl s P L e -> 0 <= k -> 2 * k < frames e -> flag e shrinkage_running = false ->
  (L dram_free_list = [] -> E (AssertFailed "Out of memory") /\ E (AssertFailed "No disk page found")) ->
  (forall s' d P' L' e', pager (k + 1) (d :: F) C infl s' P' L' e' -> frame F P e P' e' ->
     (exists pd, managed P' d pd /\ idle true pd) -> Q (Some d) s') ->
  wp E (fetch_free_with fuel reclaim) s Q.
Proof.
  intros Hfuel HR G Hk Hfr Hfl HE HQ. unfold fetch_free_with.
  apply wp_bind. eapply wp_wake_kswapd; [done|]. intros s1 e1 G1 S1 K1 _.
  eapply (wp_loop _ _ _ (fun n prio s => exists P' L' e', n = Z.to_nat prio /\ 0 <= prio /\
    (0 < prio \/ L' dram_free_list = []) /\ L' dram_free_list = L dram_free_list /\
    pager k F C infl s P' L' e' /\ frame F P e P' e')) with (n := 12%nat); [|lia|].
  { exists P, L, e1. split_and!; [done|done|left; lia|done|done|].
    by split; [|intros; rewrite ?K1..|rewrite K1]. }
  clear dependent s s1. intros n prio s (P1 & L1 & e2 & -> & Hp & Hor & Hdf & G & Hf).
  pose proof (fr_env _ _ _ _ _ Hf) as S2.
  eapply wp_fetch_free_body; [done|done|done| | |by rewrite Hdf| | |done].
  - unfold frames. by rewrite (es_glob _ _ S2).
  - by rewrite (es_flag _ _ S2).
  - intros Hnil Hpos m s' P3 L3 e3 Hsc. exists (Z.to_nat (prio - 1)). split; [lia|].
    exists P3, L3, e3. destruct Hsc as [G3 Hf3 Ho3 _].
    assert (L3 dram_free_list = L1 dram_free_list) as Heq by by apply Ho3.
    split_and!; [done|lia|right; congruence|congruence|done|by eapply frame_trans].
  - intros s' d P3 L3 e3 G3 Hf3 Hi. eapply HQ; [done|by eapply frame_trans|done].
Qed.

Lemma wp_fetch_free fuel k F C infl P L e s Q :
  (13 <= fuel)%nat ->
  pager k F C infl s P L e -> 0 <= k -> 2 * k < frames e -> flag e shrinkage_running = false ->
  (L dram_free_list = [] -> E (AssertFailed "Out of memory") /\ E (AssertFailed "No disk page found")) ->
  (forall s' d P' L' e', pager (k + 1) (d :: F) C infl s' P' L' e' -> frame F P e P' e' ->
     (exists pd, managed P' d pd /\ idle true pd) -> Q (Some d) s') ->
  wp E (fetch_free_asynch fuel) s Q.
Proof. intros. eapply wp_fetch_free_with; [done|exact wp_direct_allocate|done..]. Qed.
End reclaim.
