(* ===== verification/Entry.v ===== *)
(** * The entry points of the default policy: proofs

    The functions of [DiskLinux] the core calls: handing out a frame for a
    new page, swapping a page in, taking pages over and releasing them, and
    the initialisation, which establishes the invariant. *)

From S2P Require Import Prelude Kernel State Fifo Rules Uring Observability Migrate Invariant.
From S2P Require Import Policy DiskLinux Remove Reclaim.

Section entry.
Context {K D : Type} `{KL : KernelLaws K D may_fail} {E} `{!Tolerates may_fail E}.
Implicit Types (s : state K) (e : env K) (P : gmap loc user_page) (L : fifo_id -> list loc).
Implicit Types (C : Z -> D) (F : list loc).

(** What the entry points need of the allocator. *)
Definition fetches (fetch : M (state K) ptr) : Prop :=
  forall k F C infl P L e s Q,
    pager k F C infl s P L e -> 0 <= k -> 2 * k < frames e -> flag e shrinkage_running = false ->
    (L dram_free_list = [] -> E (AssertFailed "Out of memory") /\ E (AssertFailed "No disk page found")) ->
    (forall s' d P' L' e', pager (k + 1) (d :: F) C infl s' P' L' e' -> frame F P e P' e' ->
       (exists pd, managed P' d pd /\ idle true pd) -> Q (Some d) s') ->
    wp E fetch s Q.

Lemma lru_fetches fuel : (13 <= fuel)%nat -> fetches (fetch_free_asynch fuel).
Proof. intros Hf k F C infl P L e s Q. intros. by eapply wp_fetch_free. Qed.

Lemma wp_pagefault_with fetch k F C infl P L e s Q :
  fetches fetch -> can_run_out E ->
  pager k F C infl s P L e -> 0 <= k -> 2 * k < frames e -> flag e shrinkage_running = false ->
  (forall s' d pd P' L' e', pager (k + 1) (d :: F) C infl s' P' L' e' -> frame F P e P' e' ->
     managed P' d pd -> idle true pd -> migrating pd = true -> Q (Some d) s') ->
  wp E (page ← fetch; assert_ "page != NULL" (negb (page =p NULL));;
        st (set_migrating true) page;; mret page) s Q.
Proof.
  intros Hfetch HE G Hk Hfr Hfl HQ.
  apply wp_bind. eapply Hfetch; [done..|].
  intros s1 d P1 L1 e1 G1 Hf1 (pd & Hm & Hi). pager_facts G1. pose proof Hm as [Hd Ht].
  do 2 vstep. vstep.
  pose proof (pg_nodup _ _ _ _ _ _ _ _ G1) as [HdF _]%NoDup_cons.
  eapply (HQ _ d (set_migrating true pd)); [| |split; [by rewrite lookup_insert_eq|done]|by destruct Hi|done].
  - eapply pager_set; [exact G1|left|done|by split|eassumption].
  - eapply frame_trans; [done|]. split; try done.
    intros y Hy. rewrite lookup_insert_ne by congruence. done.
Qed.

Lemma wp_lrudisk_put_page_free x px k F C infl P L e s (Q : unit -> state K -> Prop) :
  pager k (x :: F) C infl s P L e -> managed P x px -> idle true px -> flying_ok F P e infl ->
  (forall s', pager (k - 1) F C infl s' P (fupd L dram_free_list (x :: L dram_free_list)) e ->
     Q tt s') ->
  wp E (lrudisk_put_page_free (Some x)) s Q.
Proof.
  intros G Hm Hi Hfly HQ. unfold lrudisk_put_page_free. pager_facts G. pose proof Hm as [Hx _].
  assert (floating L x) as Hfx by (apply (pg_float _ _ _ _ _ _ _ _ G); left).
  apply wp_bind. eapply wp_list_of_floating; [done|done|done|].
  vstep. vstep. rewrite (id_va _ _ Hi). vstep.
  eapply wp_enqueue_fifo; [done|done|done|rewrite (i_held _ _ _ _ _ _ _ I); not_in|].
  intros s1 V1. apply HQ. by eapply (pager_put k F C infl s s1 P L e dram_free_list).
Qed.

Lemma wp_lrudisk_track_page x px k F C infl P L e s (Q : unit -> state K -> Prop) :
  pager k (x :: F) C infl s P L e -> managed P x px -> resident C P L e x px ->
  flying_ok F P e infl ->
  (forall s', pager (k - 1) F C infl s' P (fupd L inactive_list (x :: L inactive_list)) e ->
     Q tt s') ->
  wp E (lrudisk_track_page (Some x)) s Q.
Proof.
  intros G Hm R Hfly HQ. unfold lrudisk_track_page. pager_facts G. pose proof Hm as [Hx _].
  assert (floating L x) as Hfx by (apply (pg_float _ _ _ _ _ _ _ _ G); left).
  apply wp_bind. eapply wp_list_of_floating; [done|done|done|]. vstep.
  eapply wp_enqueue_fifo; [done|done|done|rewrite (i_held _ _ _ _ _ _ _ I); not_in|].
  intros s1 V1. apply HQ. eapply (pager_put k F C infl s s1 P L e inactive_list); [done..| |done|done].
  by apply (resident_lists C P L).
Qed.

(** ** Swapping a page in *)

(** The exchange of a swap-in: the owned page [x], stored in a slot, takes
    the frame of [d]; [d] keeps the slot as the reserve of [x], which is on
    the inactive list and still owned. *)
Lemma inv_swapin k F C infl P L e x d px pd px' pd' P' e' :
  inv (k + 1) (d :: x :: F) C infl P L e -> NoDup (d :: x :: F) ->
  (forall y, y ∈ d :: x :: F -> floating L y) ->
  managed P x px -> in_dram px = false -> managed P d pd -> idle true pd ->
  P' !! x = Some px' -> pt px' = BASEP -> va px' = va px -> takes_slot px' pd ->
  P' !! d = Some pd' -> pt pd' = BASEP -> va pd' = 0 -> takes_slot pd' px ->
  (forall z, z <> x -> z <> d -> P' !! z = P !! z) ->
  env_step e e' -> same_reg (kern e) (kern e') -> same_disk (kern e) (kern e') ->
  pages e !! va px = Some x -> registered (kern e) (va px) = true ->
  same_mem_but (fun a => a = va px) (kern e) (kern e') -> rings_ok [] e' ->
  inv k (x :: F) C [] P'
    (fupd (fupd L disk_reserve_list (d :: L disk_reserve_list)) inactive_list (x :: L inactive_list)) e'.
Proof.
  intros I [HdF HxF]%NoDup_cons Hfl Hmx Hdrx Hmd [Hdrd Hvd Hrd] Hx' Htx' Hvx' Hsx' Hd' Htd' Hvd' Hsd' HP S
    Hg Hdk Ht Hreg Hm R. apply not_elem_of_cons in HdF as [Hdx HdF]. apply NoDup_cons in HxF as [HxF _].
  assert (floating L d) as Hfd by (apply Hfl; left). assert (floating L x) as Hfx by (apply Hfl; right; left).
  pose proof I as [_ Hc _ Hs _ _ _ Htab Hcl _ _ Hn].
  set (L1 := fupd L disk_reserve_list (d :: L disk_reserve_list)).
  assert (forall y l, y <> x -> y <> d -> (y ∈ fupd L1 inactive_list (x :: L inactive_list) l <-> y ∈ L l)) as Hel.
  { intros y l Hyx Hyd. rewrite <- (elem_added L disk_reserve_list d y l) by done.
    fold L1. rewrite <- (fupd_ne L disk_reserve_list inactive_list (d :: L disk_reserve_list)) by done.
    by apply elem_added. }
  eapply (inv_update [d; x]); [exact I| | | | |exact R| | |].
  - eapply untouched_confined; [exact I| | |intros y l Hy; apply Hel; inv_in|].
    + split; [apply S| | |apply Hg].
      * intros a _ Ha. assert (a <> va px) as Hne.
        { intros ->. apply (Ha x); [right; left|done]. }
        by rewrite (sm_mem _ _ _ Hm), (sm_dirty _ _ _ Hm).
      * intros o _. apply Hdk.
    + intros y Hy. apply HP; inv_in.
    + intros y Hy Hin. exfalso. apply (Hcl y); [|done]. inv_in; [left|right; left].
  - split.
    + intros y Hy. rewrite (es_pages _ _ S). inv_in.
      * exists pd'. split; [done|]. intros a Ha Ha0.
        destruct (Htab a d Ha Ha0) as (pg & [Hp _] & Hv). destruct Hmd. congruence.
      * exists px'. split; [done|]. intros a Ha Ha0. rewrite Hvx'.
        destruct (Htab a x Ha Ha0) as (pg & [Hp _] & <-). destruct Hmx. congruence.
    + intros y l pg Hy Hl HyF [Hp _]. assert (y = d) as -> by inv_in.
      assert (pg = pd') as -> by congruence.
      assert (l = disk_reserve_list) as ->.
      { destruct (decide (disk_reserve_list = l)) as [|Hne]; [done|].
        apply (elem_added L1 inactive_list x d l) in Hl; [|done]. unfold L1 in Hl.
        rewrite fupd_ne in Hl by done. by destruct (Hfd l). }
      split; [|done]. destruct Hsd' as (_ & -> & _). done.
    + intros y Hy. inv_in; [right|left; left]. exists disk_reserve_list.
      rewrite fupd_ne by done. unfold L1. rewrite fupd_eq. left.
    + intros y Hy. rewrite !elem_of_cons. inv_in. naive_solver.
    + intros y Hy. rewrite fupd_ne by done. unfold L1. rewrite fupd_eq.
      apply not_elem_of_cons. split; [by intros ->; apply elem_of_cons in Hy as [|]|].
      apply Hfl. by right.
    + intros a y _ _. by rewrite (es_pages _ _ S).
  - eapply (slots_exchange P P' e e' x d); try done; by apply (es_glob _ _ S).
  - eapply conf_ok_step; [done|done|done|]. unfold content. rewrite (sm_mem _ _ _ Hm); [done|].
    intros Heq. destruct (co_cache _ Hc) as (_ & Hu & _). congruence.
  - by rewrite (es_held _ _ S), (i_held _ _ _ _ _ _ _ I).
  - constructor.
  - rewrite !on_frames_fupd. unfold L1 in *. rewrite fupd_ne by done.
    rewrite on_frames_fupd. unfold frames in *. rewrite (es_glob _ _ S) by done. simpl. lia.
Qed.

(** The buffer and the request of the copy in, before the frame is found. *)
Lemma pager_start C s s' P L e e1 e2 x px :
  let buf := glob e2 (buffer_space (self e2)) in
  let req := Sqe false (glob e2 diskfd) buf PAGE_SIZE (virtual_offset px) in
  pager 0 [x] C [] s P L e -> managed P x px -> in_dram px = false ->
  View s' P L e2 -> buffer_step e e1 -> env_step e1 e2 -> rings_ok [req] e2 ->
  same_mem_but (fun a => a = buf) (kern e) (kern e2) -> same_disk (kern e) (kern e2) ->
  same_reg (kern e1) (kern e2) -> pager 0 [x] C [req] s' P L e2.
Proof.
  intros buf req [V I Hf Hn] Hm Hd V' B S R Hmem Hdk Hg.
  pose proof (es_self _ _ S) as Hs2. pose proof (bs_self _ _ B) as Hs1.
  assert (buf = glob e1 (buffer_space (self e1))) as Hbuf by (unfold buf; rewrite Hs2; by apply (es_glob _ _ S)).
  assert (mapped (kern e2) buf = true /\ registered (kern e2) buf = false) as [Hmap Hreg].
  { rewrite (sg_mapped _ _ Hg), (sg_registered _ _ Hg), Hbuf. apply (bs_ok _ _ B), B. }
  assert (forall a, registered (kern e2) a = registered (kern e) a) as Hregs.
  { intros a. by rewrite (sg_registered _ _ Hg), (bs_registered _ _ B). }
  assert (forall y, y <> buffer_space (self e) -> is_counter y = false -> glob e2 y = glob e y) as Hgl.
  { intros y Hy Hc. by rewrite (es_glob _ _ S), (bs_glob _ _ B). }
  pose proof (i_conf _ _ _ _ _ _ _ I) as [Hdr Hds Hb (Hcm & Hcr & Hcz) Hap Hpf].
  assert (buf <> glob e page_cache) as Hne.
  { destruct (bs_new _ _ B) as [[Ha Heq]|Hnew]; [|congruence].
    rewrite Hbuf, Heq. by apply Hap. }
  assert (buffer_ok e2) as Hb2.
  { intros t. rewrite (es_flag _ _ S), (es_glob _ _ S), (sg_mapped _ _ Hg), (sg_registered _ _ Hg) by done. apply (bs_ok _ _ B). }
  split; [done| |done|done].
  eapply (inv_own 0 [x] C [] P L e); [done|done| | | | |done| |by apply Hgl|].
  - intros y Hy. destruct (i_owned _ _ _ _ _ _ _ I y Hy) as (pg & Hp). exists pg. split; [done|].
    intros pg2 Hp2. destruct Hp. congruence.
  - split; [by rewrite (es_pages _ _ S), (bs_pages _ _ B)| |by intros o _|done].
    intros a Ha _. assert (a <> buf) by (intros ->; congruence).
    by rewrite (sm_mem _ _ _ Hmem), (sm_dirty _ _ _ Hmem).
  - eapply slots_env; [apply I|by apply Hgl..].
  - split; rewrite ?(Hgl dramsize), ?(Hgl disksize), ?(Hgl page_cache) by done; try done.
    + split_and!; [rewrite (sg_mapped _ _ Hg); by apply B|by rewrite Hregs|].
      unfold content in *. by rewrite (sm_mem _ _ _ Hmem).
    + intros t. destruct (decide (t = self e)) as [->|Hts]; [by rewrite <- Hs1, <- Hs2|].
      rewrite (es_flag _ _ S), (bs_flag _ _ B), Hgl by (done || congruence). apply Hap.
    + intros t. rewrite (es_flag _ _ S), (bs_flag _ _ B) by done. intros Hpa. destruct (Hpf t Hpa) as (Hp0 & Hpl & Hpr).
      unfold prefetch_ok. rewrite (Hgl (prefetch_buffer _)), (Hgl page_cache) by done.
      split_and!; [done..|]. intros a Ha. destruct (Hpr a Ha) as (Hpm & Hpu & Hpc).
      split_and!; [rewrite (sg_mapped _ _ Hg); by apply B|by rewrite Hregs|done].
  - by rewrite (es_held _ _ S), (bs_held _ _ B), (i_held _ _ _ _ _ _ _ I).
  - apply Forall_singleton. simpl. split; [done|]. exists x, px. split; [left|]. done.
Qed.

(** The exchange brings [x] in. *)
Lemma pager_swapin k F C infl s s' P L e x d px pd px' pd' P' e' :
  let L' := fupd (fupd L disk_reserve_list (d :: L disk_reserve_list)) inactive_list (x :: L inactive_list) in
  pager (k + 1) (d :: x :: F) C infl s P L e -> View s' P' L' e' ->
  managed P x px -> in_dram px = false -> at_va e x px -> disk (kern e) (virtual_offset px) = C (va px) ->
  managed P d pd -> idle true pd ->
  managed P' x px' -> va px' = va px -> takes_slot px' pd -> reserve px' = Some d ->
  migrating px' = true -> swapped_out px' = true ->
  managed P' d pd' -> va pd' = 0 -> takes_slot pd' px -> reserve pd' = Some x ->
  (forall z, z <> x -> z <> d -> P' !! z = P !! z) ->
  env_step e e' -> same_reg (kern e) (kern e') -> same_disk (kern e) (kern e') ->
  mem (kern e') (va px) = Some (C (va px)) ->
  same_mem_but (fun a => a = va px) (kern e) (kern e') -> rings_ok [] e' ->
  brought_in k F C s' P' L' e' x px'.
Proof.
  intros L' [V I Hf Hn] V' Hmx Hdx [Htab H0 Ha Hr] Hdisk Hmd Hid [Hx' Htx'] Hvx' Hsx' Hrx Hmg Hso
    [Hd' Htd'] Hvd' Hsd' Hrd HP S Hg Hdk Hmem Hm R.
  pose proof Hn as [_ HnF]%NoDup_cons. pose proof Hn as [HdF _]%NoDup_cons.
  apply not_elem_of_cons in HdF as [Hne HdF].
  assert (x ∈ L' inactive_list) as Hin by (unfold L'; rewrite fupd_eq; left).
  split; [|done|done| |done|done].
  - split; [done| | |done].
    + eapply (inv_swapin k F C infl P L e x d px pd px' pd'); done.
    + intros y Hy. assert (y <> x) by (intros ->; by apply NoDup_cons in HnF as [? _]).
      assert (floating L y) as Hfy by (apply Hf; by right; right).
      apply floating_fupd; [apply floating_fupd; [done|]|].
      * intros [->|Hin']%elem_of_cons; [done|]. by apply (Hfy disk_reserve_list).
      * intros [->|Hin']%elem_of_cons; [done|]. by apply (Hfy inactive_list).
  - destruct Hsx' as (Hox & Hdrx & _), Hsd' as (Hod & Hdrd & _).
    split; simpl; try done.
    + by rewrite Hdrx, (id_dram _ _ Hid).
    + split; simpl; rewrite ?Hvx'; [by rewrite (es_pages _ _ S)|done|done|by rewrite (sg_registered _ _ Hg)].
    + by rewrite Hvx'.
    + intros _. simpl. exists d, pd'. split_and!; [done| |done|done|].
      * unfold L'. rewrite fupd_ne, fupd_eq by done. left.
      * intros _. by rewrite Hdk, Hod, Hvx'.
Qed.

(** The second half of a swap-in: the frame [d] is there, the buffer holds
    the data. *)
Lemma wp_swapin_finish C y P L e s x d px pd (Q : unit -> state K -> Prop) :
  pager 1 [d; x] C [y] s P L e -> flag e (buffer_allocated (self e)) = true ->
  managed P x px -> in_dram px = false -> has_reserve px = false -> at_va e x px ->
  mem (kern e) (va px) = None -> mem (kern e) (glob e (buffer_space (self e))) = Some (C (va px)) ->
  disk (kern e) (virtual_offset px) = C (va px) -> migrating px = true -> swapped_out px = true ->
  managed P d pd -> idle true pd ->
  (forall s' P' L' e' px', brought_in 0 [] C s' P' L' e' x px' -> va px' = va px -> env_step e e' ->
     flag e' (uring_read_init (self e')) = true -> same_reg (kern e) (kern e') -> Q tt s') ->
  wp E (d0 ← ld in_dram (Some d); assert_ "freepage->in_dram == true" d0;;
        offset ← ld virtual_offset (Some d);
        core_migrate_up_async_finish (Some x) offset;;
        to_disk_slot (Some d) (virtual_offset px);; keep_reserve (Some x) (Some d)) s Q.
Proof.
  intros G Hal Hmx Hd Hhr [Htab H0 Ha Hreg] Hmem Hbuf Hdisk Hmg Hso Hmd Hid HQ. pager_facts G.
  pose proof Hmx as [Hx Htx]. pose proof Hmd as [Hdd Htd].
  pose proof (pg_nodup _ _ _ _ _ _ _ _ G) as [Hdx _]%NoDup_cons.
  assert (d <> x) as Hne by (intros ->; apply Hdx; left). clear Hdx.
  assert (floating L d) as Hfd by (apply (pg_float _ _ _ _ _ _ _ _ G); left).
  assert (floating L x) as Hfx by (apply (pg_float _ _ _ _ _ _ _ _ G); right; left).
  pose proof (so_fits _ _ (i_slots _ _ _ _ _ _ _ I)) as Hfit. unfold limit in Hfit.
  pose proof (Hfit x px Hmx) as Hfitx. rewrite Hd in Hfitx.
  pose proof (Hfit d pd Hmd) as Hfitd. rewrite (id_dram _ _ Hid) in Hfitd.
  do 2 vstep; [apply Hid|]. vstep.
  apply wp_bind. eapply wp_core_migrate_up_async_finish; [done|apply I|done..|].
  intros s1 e1 V1 S1 R1 Hui Hm1 Hmo Hdk Hg. unfold moved_up in *.
  assert (held e1 = []) as Hh by (rewrite (es_held _ _ S1); apply I).
  vclear. unfold to_disk_slot, keep_reserve. apply wp_bind. do 4 vstep. do 4 vstep.
  apply wp_bind. eapply wp_enqueue_fifo; [eassumption|by rewrite lookup_insert_eq|done|rewrite Hh; not_in|].
  intros s2 V2. vclear.
  eapply wp_enqueue_fifo; [exact V2| | |rewrite Hh; not_in|].
  { eexists. vlookup. }
  { apply floating_fupd; [done|]. not_in. }
  intros s3 V3. rewrite fupd_ne in V3 by done.
  set (px' := set_has_reserve true (set_reserve (Some d) (set_in_dram true
    (set_virtual_offset (virtual_offset pd) px)))) in *.
  set (pd' := set_has_reserve true (set_reserve (Some x) (set_migrating false
    (set_swapped_out true (set_in_dram false (set_virtual_offset (virtual_offset px) pd)))))) in *.
  match type of V3 with View _ ?m _ _ => set (P' := m) in * end.
  eapply (HQ s3 P' _ e1 px'); [|done|exact S1|exact Hui|exact Hg].
  eapply (pager_swapin 0 [] C [y] s s3 P L e x d px pd px' pd' P' e1); try done.
  - split; [unfold P'; vlookup|done].
  - split_and!; simpl; [done|by rewrite (id_dram _ _ Hid)|].
    by eapply (so_present _ _ (i_slots _ _ _ _ _ _ _ I) x).
  - split; [unfold P'; vlookup|done].
  - by destruct Hid.
  - split_and!; simpl; [done|by rewrite Hd|].
    by eapply (so_present _ _ (i_slots _ _ _ _ _ _ _ I) d).
  - intros z Hzx Hzd. unfold P'. by rewrite !lookup_insert_ne by congruence.
Qed.

(** Swapping in the detached page [x], whatever the allocator. *)
Lemma wp_swapin_with fetch C P L e s1 x px Q :
  fetches fetch -> can_run_out E -> E (SysFail "buffer space mmap") ->
  pager 0 [x] C [] s1 P L e -> managed P x px ->
  swapped C e x (set_migrating false px) -> migrating px = true ->
  0 < frames e -> flag e shrinkage_running = false ->
  (forall s' P' L' e' px', brought_in 0 [] C s' P' L' e' x px' -> va px' = va px -> swap_step e e' ->
     flag e' (uring_read_init (self e')) = true ->
     (forall a, registered (kern e') a = registered (kern e) a) -> Q tt s') ->
  wp E (core_migrate_up_async_start (Some x);; freepage ← fetch;
        d ← ld in_dram freepage; assert_ "freepage->in_dram == true" d;;
        offset ← ld virtual_offset freepage;
        core_migrate_up_async_finish (Some x) offset;;
        to_disk_slot freepage (virtual_offset px);; keep_reserve (Some x) freepage) s1 Q.
Proof.
  intros Hfetch HE HEb G1 Hm Hsw Hmg Hfr Hfl HQ.
  pose proof (pg_view _ _ _ _ _ _ _ _ G1) as V1. pose proof (pg_inv _ _ _ _ _ _ _ _ G1) as I.
  pose proof Hm as [Hx Ht]. destruct Hsw as [Hd Hat Hmem Hdisk Hres _ Hso]. simpl in *.
  pose proof Hat as [Htab H0 Ha Hreg]. simpl in *.
  pose proof (so_fits _ _ (i_slots _ _ _ _ _ _ _ I) x px Hm) as Hfit.
  unfold limit in Hfit. rewrite Hd in Hfit.
  apply wp_bind. eapply wp_core_migrate_up_async_start; [done|apply I|apply I|by right|done..|].
  intros s2 e1 e2 V2 B S2 buf R2 Hmb Hmo Hdo Hgo.
  pose proof (pager_start C s1 s2 P _ e e1 e2 x px G1 Hm Hd V2 B S2 R2 Hmo Hdo Hgo) as G2.
  assert (swap_step e e2) as SS by (etrans; [by apply buffer_swap_step|by apply env_swap_step]).
  assert (registered (kern e2) buf = false) as Hbr.
  { rewrite (sg_registered _ _ Hgo). unfold buf. rewrite (es_self _ _ S2), (es_glob _ _ S2) by done. apply (bs_ok _ _ B), B. }
  assert (va px <> buf) as Hvb.
  { intros Heq. rewrite <- Heq, (sg_registered _ _ Hgo), (bs_registered _ _ B) in Hbr. congruence. }
  apply wp_bind. eapply Hfetch; [exact G2|done| | |by intros _|].
  { unfold frames. rewrite (sp_glob _ _ SS) by done. done. }
  { by rewrite (sp_flag _ _ SS). }
  intros s3 d P3 L3 e3 G3 Hf3 (pd & Hmd & Hid).
  assert (P3 !! x = Some px) as Hx3 by (rewrite (fr_page _ _ _ _ _ Hf3); [done|left]).
  pose proof (fr_env _ _ _ _ _ Hf3) as S3.
  assert (pages e2 !! va px = Some x) as Htab2 by by rewrite (sp_pages _ _ SS).
  destruct (fr_mem _ _ _ _ _ Hf3 (va px)) as [Hm3 _]; [right; exists x; split; [left|done]|].
  destruct (fr_mem _ _ _ _ _ Hf3 buf) as [Hb3 _]; [by left|].
  assert (forall a, registered (kern e3) a = registered (kern e) a) as Hregs.
  { intros a. rewrite (sg_registered _ _ (fr_reg _ _ _ _ _ Hf3)), (sg_registered _ _ Hgo).
    by rewrite (bs_registered _ _ B). }
  eapply wp_swapin_finish; [exact G3| |done|done|done| | | | |done|done|done|done|].
  - rewrite (es_self _ _ S3), (es_self _ _ S2), (es_flag _ _ S3), (es_flag _ _ S2) by done. apply B.
  - split; [by rewrite (es_pages _ _ S3)|done|done|by rewrite Hregs].
  - by rewrite Hm3, (sm_mem _ _ _ Hmo).
  - rewrite (es_self _ _ S3), (es_glob _ _ S3) by done. fold buf. rewrite Hb3, (Hmb kl_device). by rewrite Hdisk.
  - rewrite (fr_disk _ _ _ _ _ Hf3 x px); [by rewrite Hdo|left|done|done].
  - intros s' P' L' e' px' Hb Hv S' Hui Hg'. eapply HQ; [done|done| |done|].
    + etrans; [exact SS|]. etrans; [by apply env_swap_step|by apply env_swap_step].
    + intros a. by rewrite (sg_registered _ _ Hg').
Qed.

Lemma wp_swapin_async fuel C P L e s x px Q :
  (13 <= fuel)%nat -> can_run_out E -> E (SysFail "buffer space mmap") ->
  claimed 0 [] C [] s P L e x -> x ∈ L disk_active_list -> managed P x px ->
  swapped C e x (set_migrating false px) -> migrating px = true ->
  0 < frames e -> flag e shrinkage_running = false ->
  (forall s' P' L' e' px', brought_in 0 [] C s' P' L' e' x px' -> va px' = va px -> swap_step e e' ->
     flag e' (uring_read_init (self e')) = true ->
     (forall a, registered (kern e') a = registered (kern e) a) -> Q tt s') ->
  wp E (lrudisk_swapin_external_async fuel (Some x)) s Q.
Proof.
  intros Hfuel HE HEb Gc Hxl Hm Hsw Hmg Hfr Hfl HQ. unfold lrudisk_swapin_external_async.
  pose proof (cl_view _ _ _ _ _ _ _ _ _ Gc) as V. pose proof (cl_inv _ _ _ _ _ _ _ _ _ Gc) as I.
  pose proof Hm as [Hx Ht].
  vstep. apply wp_bind. eapply wp_detach_from; [done..|rewrite (i_held _ _ _ _ _ _ _ I); not_in|].
  intros l1 l2 s1 HL V1.
  pose proof (claimed_take _ _ _ _ _ s1 _ _ _ _ _ _ _ Gc HL V1) as G1. simpl in G1.
  eapply wp_swapin_with; [by apply lru_fetches|done..].
Qed.
(** ** Handing pages to the core's batches *)

Lemma wp_lrudisk_detach_page x k F C infl P L e s (Q : unit -> state K -> Prop) :
  claimed k F C infl s P L e x -> x ∈ L disk_active_list ->
  (forall s' L', pager k (x :: F) C infl s' P L' e -> Q tt s') ->
  wp E (lrudisk_detach_page (Some x)) s Q.
Proof.
  intros Gc Hx HQ. pose proof (cl_view _ _ _ _ _ _ _ _ _ Gc) as V. pose proof (cl_inv _ _ _ _ _ _ _ _ _ Gc) as I.
  eapply wp_detach_from; [done..|rewrite (i_held _ _ _ _ _ _ _ I); not_in|].
  intros l1 l2 s1 HL V1. apply (HQ s1 (fupd L disk_active_list (l1 ++ l2))).
  replace k with (k + framed disk_active_list) by (simpl; lia). by eapply claimed_take.
Qed.

(** [ack_swapin] moves the page to the frame but leaves [in_dram] to the
    core, which sets it next. *)
Lemma wp_lrudisk_ack_swapin x d px pd k F C P L e s (Q : unit -> state K -> Prop) :
  pager (k + 1) (d :: x :: F) C [] s P L e ->
  managed P x px -> in_dram px = false -> has_reserve px = false -> at_va e x px ->
  mem (kern e) (va px) = Some (C (va px)) -> disk (kern e) (virtual_offset px) = C (va px) ->
  migrating px = true -> swapped_out px = true -> managed P d pd -> idle true pd ->
  (forall s' P' L' px', brought_in k F C s' P' L' e x px' -> va px' = va px ->
     (forall z, z <> x -> z <> d -> P' !! z = P !! z) -> Q tt s') ->
  wp E (lrudisk_ack_swapin (Some x) (Some d);; st (set_in_dram true) (Some x)) s Q.
Proof.
  intros G Hmx Hdx Hres Hat Hmem Hdisk Hmg Hso Hmd Hid HQ. pager_facts G.
  pose proof Hmx as [Hx Htx]. pose proof Hmd as [Hd Htd].
  pose proof (pg_nodup _ _ _ _ _ _ _ _ G) as [Hne _]%NoDup_cons.
  apply not_elem_of_cons in Hne as [Hne _]. assert (held e = []) as Hh by apply I.
  assert (floating L d) as Hfd by (apply (pg_float _ _ _ _ _ _ _ _ G); left).
  assert (floating L x) as Hfx by (apply (pg_float _ _ _ _ _ _ _ _ G); right; left).
  unfold lrudisk_ack_swapin, to_disk_slot, keep_reserve. apply wp_bind.
  do 3 vstep. vstep; [apply Hid|]. apply wp_bind. eapply wp_list_of_floating; [done..|].
  vstep. do 4 vstep. apply wp_bind. eapply wp_list_of_floating; [done..|]. vstep.
  apply wp_bind. do 4 vstep. do 5 vstep.
  apply wp_bind. eapply wp_enqueue_fifo; [eassumption|by rewrite lookup_insert_eq|done|rewrite Hh; not_in|].
  intros s2 V2. vclear. eapply wp_enqueue_fifo; [exact V2| | |rewrite Hh; not_in|].
  { eexists. vlookup. }
  { apply floating_fupd; [done|]. not_in. }
  intros s3 V3. rewrite fupd_ne in V3 by done. vclear.
  match type of V3 with View _ ?m _ _ => set (P1 := m) in * end.
  set (px1 := set_has_reserve true (set_reserve (Some d) (set_virtual_offset (virtual_offset pd) px))) in *.
  assert (P1 !! x = Some px1) as Hx1 by (unfold P1; vlookup).
  set (pd' := set_has_reserve true (set_reserve (Some x) (set_migrating false
    (set_swapped_out true (set_in_dram false (set_virtual_offset (virtual_offset px) pd)))))) in *.
  apply (wp_st (set_in_dram true) _ _ _ _ _ _ _ _ V3 Hx1). intros s4 V4.
  eapply (HQ s4 (<[x := set_in_dram true px1]> P1) _ (set_in_dram true px1)); [|done|].
  2:{ intros z Hzx Hzd. unfold P1. by rewrite !lookup_insert_ne by congruence. }
  eapply (pager_swapin k F C [] s s4 P L e x d px pd _ pd' _ e); try done.
  - split; [by rewrite lookup_insert_eq|done].
  - split_and!; simpl; [done|by rewrite (id_dram _ _ Hid)|].
    by eapply (so_present _ _ (i_slots _ _ _ _ _ _ _ I) x).
  - split; [rewrite lookup_insert_ne by done; unfold P1; vlookup|done].
  - by destruct Hid.
  - split_and!; simpl; [done|by rewrite Hdx|].
    by eapply (so_present _ _ (i_slots _ _ _ _ _ _ _ I) d).
  - intros z Hzx Hzd. unfold P1. by rewrite !lookup_insert_ne by congruence.
  - apply I.
Qed.

End entry.

(** ** Initialisation *)

Section init.
Context {K D : Type} `{KL : KernelLaws K D may_fail} {E : fault -> Prop}.
Implicit Types (s : state K) (e : env K) (P : gmap loc user_page) (L : fifo_id -> list loc).

(** The descriptor of the frame or slot at [off] as [lrudisk_init] makes it. *)
Definition page_at (dram : bool) (off : Z) : user_page :=
  UserPage 0 off dram (negb dram) BASEP false false false 0 None None None None.

Definition placed P (dram : bool) (xs : list loc) : Prop :=
  forall i x, xs !! i = Some x -> P !! x = Some (page_at dram (Z.of_nat i * PAGE_SIZE)).

(** After [xs] and [ys] were made: the two free lists, nothing else. *)
Record initial s P L e (xs ys : list loc) : Prop := {
  in_view : View s P L e;
  in_dram_free : L dram_free_list = reverse xs;
  in_disk_free : L disk_free_list = reverse ys;
  in_empty : forall l, l <> dram_free_list -> l <> disk_free_list -> L l = [];
  in_frames : placed P true xs;
  in_slots : placed P false ys;
  in_all : forall x pg, P !! x = Some pg -> x ∈ xs \/ x ∈ ys;
  in_size : size P = (length xs + length ys)%nat }.

Lemma wp_init_page (l : fifo_id) (dram : bool) i s P L e (Q : unit -> state K -> Prop) :
  View s P L e -> held e = [] -> Z.of_nat (size P) + 1 < 2 ^ 63 -> 0 <= i < 2 ^ 40 ->
  (forall s' x, P !! x = None ->
     View s' (<[x := page_at dram (i * PAGE_SIZE)]> P) (fupd L l (x :: L l)) e -> Q tt s') ->
  wp E (init_page l dram i) s Q.
Proof.
  intros V Hh Hsz Hi HQ. unfold init_page.
  apply wp_bind. eapply wp_calloc_page; [done..|]. intros x s1 Hx V1.
  assert (u64 (i * PAGE_SIZE) = i * PAGE_SIZE) as ->.
  { apply u64_small. unfold PAGE_SIZE, BASEPAGE_SIZE. lia. }
  assert (floating L x) as Hfx.
  { intros l' Hl'. destruct (view_dom _ _ _ _ _ _ V Hl') as [pg ?]. congruence. }
  do 4 vstep. apply wp_bind. change (pagesize_to_pt PAGE_SIZE) with (mret BASEP : M (state K) pagetypes).
  apply wp_ret. do 3 vstep.
  eapply wp_enqueue_fifo; [eassumption|by rewrite lookup_insert_eq| |by rewrite Hh; not_in|].
  { exact Hfx. }
  intros s2 V2. by eapply HQ.
Qed.

Lemma placed_snoc P dram xs x off pg :
  placed P dram xs -> P !! x = None -> off = Z.of_nat (length xs) * PAGE_SIZE ->
  pg = page_at dram off -> placed (<[x := pg]> P) dram (xs ++ [x]).
Proof.
  intros HP Hx -> -> i y Hy. apply lookup_app_Some in Hy as [Hy|[Hle Hy]].
  - pose proof (HP _ _ Hy). rewrite lookup_insert_ne; [done|congruence].
  - apply list_lookup_singleton_Some in Hy as [Hi <-].
    rewrite lookup_insert_eq. by assert (i = length xs) as -> by lia.
Qed.

Lemma placed_insert P dram xs x pg :
  placed P dram xs -> P !! x = None -> placed (<[x := pg]> P) dram xs.
Proof.
  intros HP Hx i y Hy. pose proof (HP _ _ Hy). rewrite lookup_insert_ne; [done|congruence].
Qed.

(** The loops of [lrudisk_init]: [n] more frames, [n] more slots. *)
Lemma wp_init_frames n i s P L e xs Q :
  initial s P L e xs [] -> held e = [] -> i = length xs -> (Z.of_nat (i + n) <= 2 ^ 31) ->
  (forall s' P' L' xs', initial s' P' L' e xs' [] -> length xs' = (i + n)%nat -> Q tt s') ->
  wp E (for_each (fun j => init_page dram_free_list true (Z.of_nat j)) (seq i n)) s Q.
Proof.
  revert i s P L xs. induction n as [|n IH]; intros i s P L xs In Hh Hi Hb HQ.
  { apply wp_ret. eapply HQ; [done|lia]. }
  destruct In as [V Hdf Hkf Hem Hfr Hsl Hall Hsz]. simpl in *. apply wp_bind.
  eapply wp_init_page; [done..|lia|lia|]. intros s1 x Hx V1.
  eapply (IH (S i)); [|done| | |].
  - split; [exact V1|by rewrite fupd_eq, Hdf, reverse_snoc|by rewrite fupd_ne| | | | |].
    + intros l H1 H2. rewrite fupd_ne by congruence. by apply Hem.
    + subst i. by eapply placed_snoc.
    + by intros j y Hy.
    + intros y pg Hy. left. apply elem_of_app. destruct (decide (y = x)) as [->|]; [right; left|left].
      rewrite lookup_insert_ne in Hy by done. destruct (Hall y pg Hy) as [|[]%elem_of_nil]; done.
    + rewrite map_size_insert_None, length_app by done. simpl. lia.
  - rewrite length_app. simpl. lia.
  - lia.
  - intros s' P' L' xs' In' Hl. eapply HQ; [done|lia].
Qed.

Lemma wp_init_slots n i s P L e xs ys Q :
  initial s P L e xs ys -> held e = [] -> i = length ys -> Z.of_nat (length xs) <= 2 ^ 31 ->
  (Z.of_nat (i + n) <= 2 ^ 31) ->
  (forall s' P' L' ys', initial s' P' L' e xs ys' -> length ys' = (i + n)%nat -> Q tt s') ->
  wp E (for_each (fun j => init_page disk_free_list false (Z.of_nat j)) (seq i n)) s Q.
Proof.
  revert i s P L ys. induction n as [|n IH]; intros i s P L ys In Hh Hi Hb1 Hb HQ.
  { apply wp_ret. eapply HQ; [done|lia]. }
  destruct In as [V Hdf Hkf Hem Hfr Hsl Hall Hsz]. simpl in *. apply wp_bind.
  eapply wp_init_page; [done..|lia|lia|]. intros s1 x Hx V1.
  eapply (IH (S i)); [|done| |done| |].
  - split; [exact V1|by rewrite fupd_ne|by rewrite fupd_eq, Hkf, reverse_snoc| | | | |].
    + intros l H1 H2. rewrite fupd_ne by congruence. by apply Hem.
    + by apply placed_insert.
    + subst i. by eapply placed_snoc.
    + intros y pg Hy. destruct (decide (y = x)) as [->|]; [right; apply elem_of_app; right; left|].
      rewrite lookup_insert_ne in Hy by done.
      destruct (Hall y pg Hy); [by left|right; apply elem_of_app; by left].
    + rewrite map_size_insert_None, length_app by done. simpl. lia.
  - rewrite length_app. simpl. lia.
  - lia.
  - intros s' P' L' ys' In' Hl. eapply HQ; [done|lia].
Qed.

Lemma placed_fits P dram xs x pg (size : Z) :
  placed P dram xs -> x ∈ xs -> P !! x = Some pg -> length xs = Z.to_nat (size / PAGE_SIZE) ->
  0 <= size <= 2 ^ 42 ->
  exists i, pg = page_at dram (Z.of_nat i * PAGE_SIZE) /\ xs !! i = Some x /\
    fits (Z.of_nat i * PAGE_SIZE) size.
Proof.
  intros HP [i Hi]%list_elem_of_lookup Hx Hlen Hsz. pose proof (HP i x Hi). exists i.
  split; [congruence|]. split; [done|]. apply lookup_lt_Some in Hi. rewrite Hlen in Hi.
  pose proof (Z.div_pos size PAGE_SIZE). pose proof (Z.mul_div_le size PAGE_SIZE eq_refl).
  unfold fits, PAGE_SIZE, BASEPAGE_SIZE in *. nia.
Qed.

(** The two free lists make a pager at rest that tracks no page. *)
Lemma initial_pager C s P L e xs ys :
  initial s P L e xs ys -> length xs = Z.to_nat (frames e) ->
  length ys = Z.to_nat (glob e disksize / PAGE_SIZE) ->
  held e = [] -> conf_ok e -> rings_ok [] e -> pages e = ∅ ->
  (forall a, registered (kern e) a = false) -> pager 0 [] C [] s P L e.
Proof.
  intros [V Hdf Hkf Hem Hfr Hsl Hall Hsz] Hx Hy Hh Hc Hr Hp Hreg.
  pose proof (co_dram _ Hc) as Hdr. pose proof (co_disk _ Hc) as Hdk.
  assert (forall x pg, P !! x = Some pg -> exists dram zs i, zs !! i = Some x /\ placed P dram zs /\
    pg = page_at dram (Z.of_nat i * PAGE_SIZE) /\ x ∈ L (if dram then dram_free_list else disk_free_list) /\
    zs = (if dram then xs else ys) /\
    fits (Z.of_nat i * PAGE_SIZE) (if dram then glob e dramsize else glob e disksize)) as Hplace.
  { intros x pg Hpg. destruct (Hall x pg Hpg) as [Hin|Hin].
    - destruct (placed_fits P true xs x pg (glob e dramsize)) as (i & -> & Hi & Hf); [done..|].
      exists true, xs, i. split_and!; try done. by rewrite Hdf, elem_of_reverse.
    - destruct (placed_fits P false ys x pg (glob e disksize)) as (i & -> & Hi & Hf); [done..|].
      exists false, ys, i. split_and!; try done. by rewrite Hkf, elem_of_reverse. }
  split; [done| |by intros ? ?%elem_of_nil|constructor]. split; try done.
  - split.
    + intros x pg [Hpg _]. by destruct (Hplace x pg Hpg) as ([] & zs & i & _ & _ & -> & _ & _ & Hf).
    + intros x pg [Hpg _]. destruct (Hplace x pg Hpg) as (dram & zs & i & _ & _ & -> & _). simpl.
      by apply Z.mod_mul.
    + intros x y px py [Hpx _] [Hpy _] Hd Ho.
      destruct (Hplace x px Hpx) as (d1 & zs1 & i & Hi & _ & -> & _ & -> & _).
      destruct (Hplace y py Hpy) as (d2 & zs2 & j & Hj & _ & -> & _ & -> & _). simpl in Hd, Ho.
      subst d2. assert (i = j) as -> by (unfold PAGE_SIZE, BASEPAGE_SIZE in Ho; lia). congruence.
    + intros x pg [Hpg _]. by destruct (Hplace x pg Hpg) as (dram & zs & i & _ & _ & -> & _).
  - intros l x Hl _. destruct (view_dom _ _ _ _ _ _ V Hl) as [pg Hpg]. exists pg.
    destruct (Hplace x pg Hpg) as (dram & zs & i & _ & _ & -> & Hin & _ & _).
    split; [done|]. assert (l = if dram then dram_free_list else disk_free_list) as ->
      by by eapply view_disjoint. by destruct dram.
  - by intros ? ?%elem_of_nil.
  - intros x pg [Hpg _]. destruct (Hplace x pg Hpg) as (dram & zs & i & _ & _ & _ & Hin & _). eauto.
  - intros a x Ha. by rewrite Hp, lookup_empty in Ha.
  - by intros ? ?%elem_of_nil.
  - intros a Ha. by rewrite Hreg in Ha.
  - constructor.
  - unfold on_frames. rewrite (Hem active_list), (Hem inactive_list), (Hem eviction_list) by done.
    rewrite Hdf, length_reverse, Hx. simpl.
    unfold frames. pose proof (Z.div_pos (glob e dramsize) PAGE_SIZE). unfold PAGE_SIZE, BASEPAGE_SIZE in *. lia.
  - intros a Ha. by rewrite Hreg in Ha.
Qed.

Lemma pages_of_device z : 0 <= z <= 2 ^ 42 -> 0 <= z / PAGE_SIZE <= 2 ^ 30.
Proof.
  intros Hz. pose proof (Z.div_pos z PAGE_SIZE). unfold PAGE_SIZE, BASEPAGE_SIZE in *.
  split; [lia|]. apply Z.div_le_upper_bound; lia.
Qed.

Lemma wp_carve s e (Q : unit -> state K -> Prop) :
  View s ∅ (fun _ => []) e -> held e = [] ->
  0 <= glob e dramsize <= 2 ^ 42 -> 0 <= glob e disksize <= 2 ^ 42 ->
  (forall s' P' L' xs ys, initial s' P' L' e xs ys -> length xs = Z.to_nat (frames e) ->
     length ys = Z.to_nat (glob e disksize / PAGE_SIZE) -> Q tt s') ->
  wp E carve_devices s Q.
Proof.
  intros V Hh Hdr Hdk HQ. unfold carve_devices, init_pages.
  pose proof (pages_of_device _ Hdr). pose proof (pages_of_device _ Hdk).
  vstep. apply wp_bind.
  eapply (wp_init_frames _ _ s ∅ (fun _ => []) e []); [|done|done|lia|].
  { split; try done; by intros i x ?. }
  intros s1 P1 L1 xs In1 Hxs. pose proof (in_view _ _ _ _ _ _ In1) as V1.
  apply wp_bind. eapply wp_rd; [exact V1|].
  eapply (wp_init_slots _ _ s1 P1 L1 e xs []); [exact In1|done|done|lia|lia|].
  intros s2 P2 L2 ys In2 Hys. by eapply HQ.
Qed.

(** Creating threads leaves everything the library sees as it was. *)
Lemma wp_create_thread `{!Tolerates may_fail E} t s P L e (Q : unit -> state K -> Prop) :
  View s P L e -> (forall s' k', View s' P L (set_kern k' e) -> obs_eq (kern e) k' -> Q tt s') ->
  wp E (create_thread t) s Q.
Proof.
  intros V HQ. apply wp_bind. eapply wp_sys; [done|]. intros r k1 s1 Hk V1.
  destruct (l_pthread_create _ _ _ _ Hk) as [O Hr]. apply wp_check.
  { destruct Hr as [-> |]; [left; by rewrite bool_decide_eq_true_2|by right]. }
  intros _. by eapply HQ.
Qed.

Lemma wp_create_threads `{!Tolerates may_fail E} (mk : nat -> thread) l s P L e (Q : unit -> state K -> Prop) :
  View s P L e -> (forall s' k', View s' P L (set_kern k' e) -> obs_eq (kern e) k' -> Q tt s') ->
  wp E (for_each (fun i => create_thread (mk i)) l) s Q.
Proof.
  revert s e. induction l as [|i l IH]; intros s e V HQ.
  { apply wp_ret, (HQ s (kern e)); [by destruct e|done]. }
  apply wp_bind. eapply wp_create_thread; [exact V|]. intros s1 k1 V1 O1.
  eapply IH; [exact V1|]. intros s' k' V' O'. apply (HQ s' k'); [exact V'|by etrans].
Qed.

Lemma initial_kern s s' P L e xs ys k' :
  initial s P L e xs ys -> View s' P L (set_kern k' e) -> initial s' P L (set_kern k' e) xs ys.
Proof. by intros [] ?. Qed.

(** [lrudisk_init] of either policy, [threads] being the threads it starts. *)
Lemma wp_init_with (threads : M (state K) unit) C s e Q :
  (forall P L e s (Q : unit -> state K -> Prop), View s P L e ->
     (forall s' k', View s' P L (set_kern k' e) -> obs_eq (kern e) k' -> Q tt s') -> wp E threads s Q) ->
  View s ∅ (fun _ => []) e -> held e = [] -> conf_ok e -> rings_ok [] e -> pages e = ∅ ->
  (forall a, registered (kern e) a = false) ->
  (forall s' P' L' k', pager 0 [] C [] s' P' L' (set_kern k' e) -> obs_eq (kern e) k' ->
     Z.of_nat (size P') < 2 ^ 32 -> Q tt s') ->
  wp E (carve_devices;; threads) s Q.
Proof.
  intros Ht V Hh Hc Hr Hp Hreg HQ. pose proof (co_dram _ Hc) as Hdr. pose proof (co_disk _ Hc) as Hdk.
  apply wp_bind. eapply wp_carve; [done..|]. intros s2 P2 L2 xs ys In2 Hxs Hys.
  eapply Ht; [apply In2|]. intros s3 k3 V3 O.
  pose proof (pages_of_device _ Hdr). pose proof (pages_of_device _ Hdk). unfold frames in *.
  apply (HQ s3 P2 L2 k3); [|done|rewrite (in_size _ _ _ _ _ _ In2); lia].
  eapply pager_obs; [by eapply initial_pager|done|done].
Qed.

Lemma wp_lrudisk_threads `{!Tolerates may_fail E} P L e s (Q : unit -> state K -> Prop) :
  View s P L e -> (forall s' k', View s' P L (set_kern k' e) -> obs_eq (kern e) k' -> Q tt s') ->
  wp E (create_thread kswapd_thread;;
        for_each (fun i => create_thread (eviction_thread i)) (seq 0 WRITER_THREADS)) s Q.
Proof.
  intros V HQ. apply wp_bind. eapply wp_create_thread; [exact V|]. intros s1 k1 V1 O1.
  eapply wp_create_threads; [exact V1|]. intros s2 k2 V2 O2. apply (HQ s2 k2); [exact V2|by etrans].
Qed.

Lemma wp_lrudisk_init `{!Tolerates may_fail E} C s e Q :
  View s ∅ (fun _ => []) e -> held e = [] -> conf_ok e -> rings_ok [] e -> pages e = ∅ ->
  (forall a, registered (kern e) a = false) ->
  (forall s' P' L' k', pager 0 [] C [] s' P' L' (set_kern k' e) -> obs_eq (kern e) k' ->
     Z.of_nat (size P') < 2 ^ 32 -> Q tt s') ->
  wp E lrudisk_init s Q.
Proof. intros. eapply wp_init_with; [|done..]. intros. by eapply wp_lrudisk_threads. Qed.
End init.

(** ** The policy as the core sees it *)

Section instance.
Context {K D : Type} `{KL : KernelLaws K D may_fail}.
Context (fuel : nat).

Definition lru_ops : PolicyOps K := {|
  pagefault := lrudisk_pagefault fuel;
  paging_init := lrudisk_init;
  mmgr_remove := lrudisk_remove_page fuel;
  page_swapin_external_async := lrudisk_swapin_external_async fuel;
  policy_add_page := lrudisk_track_page;
  policy_detach_page := lrudisk_detach_page;
  policy_put_freepage := lrudisk_put_page_free;
  policy_ack_swapped_in := lrudisk_ack_swapin;
  policy_ack_vma := lrudisk_ack_vma;
  mmgr_waits := false |}.

Lemma lru_laws : (13 <= fuel)%nat -> PolicyLaws K D (PO := lru_ops) may_fail.
Proof.
  intros Hfuel. split.
  - intros. by eapply wp_lrudisk_init.
  - intros. eapply wp_pagefault_with; [by apply lru_fetches|done..].
  - intros. by eapply wp_swapin_async.
  - intros. eapply wp_lrudisk_put_page_free; eauto.
  - intros. eapply wp_lrudisk_track_page; eauto.
  - intros. by eapply wp_lrudisk_detach_page.
  - intros. by eapply wp_lrudisk_ack_swapin.
  - intros. eapply wp_lrudisk_remove_page; eauto. lia.
  - intros. apply wp_ret. by eauto using own_step_refl.
Qed.
End instance.
