(* ===== verification/Core.v ===== *)
(** * The fault handlers and the mapping calls: [core.c], definitions

    The page table of tracked pages, the signal handler and its three cases
    (first touch, swapped-out page, write protection), prefaulting and
    prefetching, [extmem_mmap], [extmem_munmap] and [extmem_init], over any
    policy ([PolicyOps]). *)

From S2P Require Import Prelude Kernel State Fifo Uring Observability Migrate Policy.

Section functions.
Context {K : Type} `{KernelOps K, PolicyOps K}.
(** Bound on the iterations of the loop of [extmem_munmap]. *)
Context (fuel : nat).
Local Abbreviation M := (M (state K)).

(** ** The table [pages] *)

Definition add_page (page : ptr) : M unit :=
  lock pages_lock;;
  a ← ld va page;
  t ← get_env pages;
  assert_ "p == NULL" (bool_decide (t !! a = None));;
  (match page with
   | Some x => upd_env (set_pages (<[a := x]> t))
   | None => fail Segv
   end);;
  unlock pages_lock.

(** [HASH_DEL] unlinks the element through its handle; an element that is
    not in the table is outside its contract. *)
Definition remove_page (page : ptr) : M unit :=
  lock pages_lock;;
  a ← ld va page;
  t ← get_env pages;
  (if t !! a =p page then upd_env (set_pages (delete a t)) else fail Segv);;
  unlock pages_lock.

Definition find_page (a : Z) : M ptr :=
  lock pages_lock;;
  t ← get_env pages;
  unlock pages_lock;;
  mret (t !! a).

Definition get_user_page (a : Z) : M ptr := find_page a.

(** [while (page->migrating);] *)
Definition wait_migrating (page : ptr) : M unit :=
  spin_while "page->migrating" (ld migrating page).

(** ** Write protection fault *)

Definition handle_wp_fault (page : ptr) : M unit :=
  assert_ "page != NULL" (negb (page =p NULL));;
  add_to migration_waits 1;;
  wait_migrating page.

(** ** Prefetching: [core_try_prefetch] *)

(** The first loop: claim the swapped-out pages that follow. *)
Definition claim_body : Z * Z * list ptr -> M ((Z * Z * list ptr) + list ptr) :=
  fun '(nr_prefetch, page_boundry, prefetch_list) =>
  if bool_decide (nr_prefetch < CORE_PREFETCH_RATE) then
    let page_boundry := u64 (page_boundry + PAGE_SIZE) in
    page ← find_page page_boundry;
    match page with
    | None => mret (inr prefetch_list)
    | Some _ =>
      old_va ← ld va page;
      assert_ "page->va == page_boundry" (old_va =p page_boundry);;
      lock handler_lock;;
      mg ← ld migrating page;
      if (mg : bool) then
        add_to migration_waits 1;; unlock handler_lock;; mret (inr prefetch_list)
      else
        so ← ld swapped_out page;
        if negb so then
          add_to migration_waits 1;; unlock handler_lock;; mret (inr prefetch_list)
        else
          a ← ld va page;
          if negb (a =p old_va) then unlock handler_lock;; mret (inr prefetch_list)
          else
            st (set_migrating true) page;;
            unlock handler_lock;;
            a ← ld va page;
            assert_ "page->va != 0" (negb (a =p 0));;
            policy_detach_page page;;
            mret (inl (nr_prefetch + 1, page_boundry, prefetch_list ++ [page]))
    end
  else mret (inr prefetch_list).

Definition ensure_prefetch_buffer : M unit :=
  b ← rdbt prefetch_buffer_allocated;
  if negb b then
    a ← sys (k_mmap 0 (PAGE_SIZE * CORE_PREFETCH_RATE) PROT_RW
               (Z.lor (Z.lor MAP_PRIVATE MAP_ANONYMOUS) MAP_NORESERVE) (-1) 0);
    wrt prefetch_buffer a;;
    die_if (a =p MAP_FAILED) "prefetch buffer space mmap";;
    wrbt prefetch_buffer_allocated true
  else mret tt.

(** The slot of the prefetch buffer used for the [i]-th page. *)
Definition slots (base : Z) (l : list ptr) : list (ptr * Z) :=
  zip l ((fun i => u64 (base + PAGE_SIZE * Z.of_nat i)) <$> seq 0 (length l)).

Definition start_one (p : ptr * Z) : M unit :=
  disk_addr_offset ← ld virtual_offset (fst p);
  fd ← rd diskfd;
  ioring_prepare_read fd disk_addr_offset (snd p) PAGE_SIZE.

Definition collect_one (_ : ptr * Z) : M ptr :=
  f ← pagefault;
  assert_ "freepage_list[nr_free] != NULL" (negb (f =p NULL));;
  mret f.

Definition finish_one (p : ptr * Z) : M unit :=
  disk_addr_offset ← ld virtual_offset (fst p);
  fd ← rd diskfd;
  ioring_finish_read fd disk_addr_offset (snd p) PAGE_SIZE.

Definition install_one (x : (ptr * Z) * ptr) : M unit :=
  let '((page, buffer_pointer), freepage) := x in
  a ← ld va page;
  uffdio_copy a buffer_pointer PAGE_SIZE;;
  policy_ack_swapped_in page freepage;;
  st (set_in_dram true) page;;
  lock handler_lock;;
  st (set_swapped_out false) page;;
  st (set_migrating false) page;;
  unlock handler_lock.

Definition core_try_prefetch (base_boundry : Z) : M Z :=
  assert_ "base_boundry != 0" (negb (base_boundry =p 0));;
  prefetch_list ← loop "core_try_prefetch" (S (Z.to_nat CORE_PREFETCH_RATE)) claim_body
                    (0, base_boundry, []);
  ensure_prefetch_buffer;;
  base ← rdt prefetch_buffer;
  let jobs := slots base prefetch_list in
  for_each start_one jobs;;
  ioring_submit_all_reads;;
  freepage_list ← mapM collect_one jobs;
  for_each finish_one jobs;;
  for_each install_one (zip jobs freepage_list);;
  mret (Z.of_nat (length prefetch_list)).

(** ** Fault on a swapped-out page *)

Definition handle_missing_fault (page : ptr) : M unit :=
  wrbt internal_call true;;
  page_boundry ← ld va page;
  if page =p NULL then fail (AssertFailed "This should have been handled by the new function")
  else
  old_va ← ld va page;
  lock handler_lock;;
  mg ← ld migrating page;
  if (mg : bool) then
    add_to migration_waits 1;;
    unlock handler_lock;;
    wait_migrating page
  else
  so ← ld swapped_out page;
  if negb so then
    add_to migration_waits 1;;
    unlock handler_lock;;
    wait_migrating page
  else
  st (set_migrating true) page;;
  unlock handler_lock;;
  p1 ← rdt prev_fault_1;
  p2 ← rdt prev_fault_2;
  (* [must_prefetch] is a local variable, false at this point *)
  let must_prefetch :=
    (page_boundry =p u64 (p1 + PAGE_SIZE)) && (page_boundry =p u64 (p2 + PAGE_SIZE * 2)) ||
    (false && bool_decide (page_boundry <= u64 (p1 + PAGE_SIZE * CORE_PREFETCH_RATE)) &&
     bool_decide (p1 < page_boundry)) in
  wrt prev_fault_2 p1;;
  wrt prev_fault_1 page_boundry;;
  t ← ld pt page; pagesize ← pt_to_pagesize t;
  page_swapin_external_async page;;
  a ← ld va page;
  assert_ "page->va == old_va" (a =p old_va);;
  assert_ "page->va != 0" (negb (a =p 0));;
  assert_ "page->va % PAGE_SIZE == 0" (bool_decide (a mod PAGE_SIZE = 0));;
  lock handler_lock;;
  st (set_swapped_out false) page;;
  st (set_migrating false) page;;
  unlock handler_lock;;
  add_to major_faults_handled 1;;
  (if must_prefetch then core_try_prefetch page_boundry;; mret tt else mret tt);;
  wrbt internal_call false.

(** ** Fault on a page touched for the first time *)

Definition handle_first_fault (page_boundry : Z) : M unit :=
  wrbt internal_call true;;
  assert_ "page_boundry != 0" (negb (page_boundry =p 0));;
  newpage ← pagefault;
  assert_ "newpage != NULL" (negb (newpage =p NULL));;
  lock allocator_lock;;
  page ← find_page page_boundry;
  match page with
  | Some _ =>
      unlock allocator_lock;;
      policy_put_freepage newpage;;
      wait_migrating page
  | None =>
      let page := newpage in
      st (set_migrating true) page;;
      st (set_swapped_out false) page;;
      a ← ld va page;
      assert_ "page->va == 0" (a =p 0);;
      st (set_va page_boundry) page;;
      a ← ld va page;
      assert_ "page->va != 0" (negb (a =p 0));;
      assert_ "page->va % PAGE_SIZE == 0" (bool_decide (a mod PAGE_SIZE = 0));;
      add_page page;;
      unlock allocator_lock;;
      p1 ← rdt prev_fault_1;
      wrt prev_fault_2 p1;;
      wrt prev_fault_1 page_boundry;;
      g1 ← rd prev_fault_global_1;
      wr prev_fault_global_2 g1;;
      wr prev_fault_global_1 page_boundry;;
      d ← ld in_dram page;
      t ← ld pt page; pagesize ← pt_to_pagesize t;
      assert_ "in_dram" d;;
      a ← ld va page;
      src ← rd page_cache;
      uffdio_copy a src pagesize;;
      st (set_migrating false) page;;
      st (set_swapped_out false) page;;
      policy_add_page page;;
      add_to mem_allocated pagesize;;
      add_to first_faults_handled 1;;
      add_to pages_allocated 1;;
      wrbt internal_call false
  end.

(** ** Prefaulting

    Compiled but not called in the default build ([TRY_PREFAULT] is not
    defined).  The C function adds a variable [pagesize] it never
    initialises to [mem_allocated]; its value is the parameter [junk]. *)
Definition prefault_body (junk : Z) : Z * Z -> M ((Z * Z) + Z) :=
  fun '(nr_prefault, page_boundry) =>
  if bool_decide (nr_prefault < CORE_PREFAULT_RATE) then
    let page_boundry := u64 (page_boundry + PAGE_SIZE) in
    newpage ← pagefault;
    assert_ "newpage != NULL" (negb (newpage =p NULL));;
    lock allocator_lock;;
    page ← find_page page_boundry;
    match page with
    | Some _ =>
        unlock allocator_lock;;
        policy_put_freepage newpage;;
        mret (inr nr_prefault)
    | None =>
        src ← rd page_cache;
        ret ← sys (k_uffdio_copy page_boundry src PAGE_SIZE UFFDIO_COPY_MODE_DONTWAKE);
        if ret =p -1 then
          unlock allocator_lock;;
          policy_put_freepage newpage;;
          mret (inr nr_prefault)
        else
          let page := newpage in
          st (set_migrating true) page;;
          st (set_swapped_out false) page;;
          a ← ld va page;
          assert_ "page->va == 0" (a =p 0);;
          st (set_va page_boundry) page;;
          a ← ld va page;
          assert_ "page->va != 0" (negb (a =p 0));;
          assert_ "page->va % PAGE_SIZE == 0" (bool_decide (a mod PAGE_SIZE = 0));;
          add_page page;;
          st (set_migrating false) page;;
          st (set_swapped_out false) page;;
          unlock allocator_lock;;
          policy_add_page page;;
          add_to mem_allocated junk;;
          add_to pages_allocated 1;;
          if ret =p 0 then mret (inl (nr_prefault + 1, page_boundry))
          else mret (inr (nr_prefault + 1))
    end
  else mret (inr nr_prefault).

Definition core_try_prefault (junk base_boundry : Z) : M Z :=
  assert_ "base_boundry != 0" (negb (base_boundry =p 0));;
  loop "core_try_prefault" (S (Z.to_nat CORE_PREFAULT_RATE)) (prefault_body junk)
    (0, base_boundry).

(** ** The signal handler *)

Definition SIGSEGV : Z := 11.
Definition SIGBUS : Z := 7.
Definition page_of (a : Z) : Z := Z.land a (u64 (Z.lnot (PAGE_SIZE - 1))).

Definition uswap_sig_handler (code fault_addr : Z) : M unit :=
  wrbt internal_call true;;
  let page_boundry := page_of fault_addr in
  assert_ "0" (negb (code =p SIGSEGV));;
  page ← find_page page_boundry;
  (match page with
   | None => handle_first_fault page_boundry
   | Some _ =>
       so ← ld swapped_out page;
       if (so : bool) then handle_missing_fault page else handle_wp_fault page
   end);;
  wrbt internal_call false.

(** ** Mapping and unmapping *)

Definition PAGE_ROUND_UP (x : Z) : Z :=
  Z.land (u64 (x + PAGE_SIZE - 1)) (u64 (Z.lnot (PAGE_SIZE - 1))).

Definition populate_body (stop : Z) : Z -> M (Z + unit) := fun page_boundry =>
  if bool_decide (page_boundry < stop) then
    handle_first_fault page_boundry;;
    mret (inl (u64 (page_boundry + PAGE_SIZE)))
  else mret (inr tt).

Definition extmem_mmap_populate (addr length : Z) : M unit :=
  assert_ "addr != 0" (negb (addr =p 0));;
  assert_ "length != 0" (negb (length =p 0));;
  loop "extmem_mmap_populate" fuel (populate_body (u64 (addr + length))) addr.

(** The flags passed to [libc_mmap], and whether [MAP_POPULATE] was asked. *)
Definition mmap_flags (flags : Z) : Z * bool :=
  let flags := if Z.land flags MAP_SHARED =p MAP_SHARED
               then Z.lor (Z.ldiff flags MAP_SHARED) MAP_PRIVATE else flags in
  let flags := Z.lor flags MAP_NORESERVE in
  let flags := Z.lor flags MAP_ANONYMOUS in
  let need_populate := Z.land flags MAP_POPULATE =p MAP_POPULATE in
  let flags := if need_populate then Z.ldiff flags MAP_POPULATE else flags in
  let flags := if Z.land flags MAP_HUGETLB =p MAP_HUGETLB
               then Z.ldiff flags MAP_HUGETLB else flags in
  (flags, need_populate).

Definition extmem_mmap (addr length prot flags fd offset : Z) : M Z :=
  wrbt internal_call true;;
  b ← rdb is_init;
  assert_ "is_init" b;;
  assert_ "length != 0" (negb (length =p 0));;
  let '(flags, need_populate) := mmap_flags flags in
  let length := PAGE_ROUND_UP length in
  p ← sys (k_mmap addr length prot flags (-1) offset);
  die_if ((p =p 0) || (p =p MAP_FAILED)) "mmap";;
  wr main_mmap p;;
  ret ← sys (k_uffdio_register p length
               (Z.lor UFFDIO_REGISTER_MODE_MISSING UFFDIO_REGISTER_MODE_WP));
  die_if (ret =p -1) "ioctl uffdio_register";;
  (if (need_populate : bool) then extmem_mmap_populate p length else mret tt);;
  wr mem_mmaped length;;
  policy_ack_vma p length 0;;
  wrbt internal_call false;;
  mret p.

Definition munmap_body (stop : Z) : Z -> M (Z + unit) := fun page_boundry =>
  if bool_decide (page_boundry < stop) then
    page ← find_page page_boundry;
    match page with
    | Some _ =>
        lock handler_lock;;
        mg ← ld migrating page;
        (if (mg : bool) then
           unlock handler_lock;;
           wait_migrating page;;
           lock handler_lock
         else mret tt);;
        st (set_migrating true) page;;
        unlock handler_lock;;
        remove_page page;;
        mmgr_remove page;;
        t ← ld pt page; pagesize ← pt_to_pagesize t;
        add_to mem_allocated (- pagesize);;
        add_to mem_mmaped (- pagesize);;
        add_to pages_freed 1;;
        mret (inl (u64 (page_boundry + pagesize)))
    | None => mret (inl (u64 (page_boundry + BASEPAGE_SIZE)))
    end
  else mret (inr tt).

Definition extmem_munmap (addr length : Z) : M Z :=
  wrbt internal_call true;;
  lock allocator_lock;;
  loop "extmem_munmap" fuel (munmap_body (u64 (addr + length))) addr;;
  ret ← sys (k_munmap addr length);
  die_if (negb (ret =p 0)) "libc munmap: ";;
  unlock allocator_lock;;
  wrbt internal_call false;;
  mret ret.

(** ** Start-up and statistics *)

(** What [extmem_init] obtains from its environment: the files it opens
    ([true]: opened), the descriptors of the swap device and of
    userfaultfd, the result of [UFFDIO_API], and the values of [DRAMSIZE]
    and [DISKSIZE] ([None]: not set). *)
Record config := Config {
  cf_logfile : bool; cf_traces : bool; cf_timef : bool; cf_statsf : bool;
  cf_diskfd : Z; cf_uffd : Z; cf_uffdio_api : Z;
  cf_dramsize : option Z; cf_disksize : option Z }.

Definition DRAMSIZE_DEFAULT : Z := 8 * (1024 * 1024 * 1024).
Definition DISKSIZE_DEFAULT : Z := 32 * (1024 * 1024 * 1024).

Definition extmem_init (c : config) : M unit :=
  wrbt internal_call true;;
  die_if (negb (cf_logfile c)) "log file open";;
  die_if (negb (cf_traces c)) "log file open";;
  wr diskfd (cf_diskfd c);;
  assert_ "diskfd >= 0" (bool_decide (0 <= cf_diskfd c));;
  die_if (cf_uffd c =p -1) "uffd";;
  die_if (cf_uffdio_api c =p -1) "ioctl uffdio_api";;
  uswap_init_iouring;;
  die_if (negb (cf_timef c)) "time file fopen";;
  die_if (negb (cf_statsf c)) "stats file fopen";;
  wr dramsize (default DRAMSIZE_DEFAULT (cf_dramsize c));;
  wr disksize (default DISKSIZE_DEFAULT (cf_disksize c));;
  a ← sys (k_mmap 0 (16 * PAGE_SIZE * MAX_USER_THREADS) PROT_RW
             (Z.lor (Z.lor MAP_PRIVATE MAP_ANONYMOUS) MAP_NORESERVE) (-1) 0);
  wr page_cache a;;
  die_if (a =p MAP_FAILED) "page cache mmap";;
  sys_do (k_memset a 0 (16 * PAGE_SIZE * MAX_USER_THREADS));;
  paging_init;;
  wrb is_init true;;
  dummy_page ← calloc_page;
  add_page dummy_page;;
  wrbt internal_call false.

Definition extmem_clear_stats : M unit :=
  wr pages_allocated 0;;
  wr pages_freed 0;;
  wr first_faults_handled 0;;
  wr major_faults_handled 0;;
  wr migrations_up 0;;
  wr migrations_down 0.
End functions.
