(* ===== verification/Tracked.v ===== *)
(** * The tracked pages during a handler

    Where the page of an address can be, looking it up, and giving a page
    that was brought in back to the policy: shared by the fault handlers and
    the prefetcher. *)

From S2P Require Import Prelude Kernel State Fifo Rules Uring Migrate Invariant Policy Core.

Section tracked.
Context {K D : Type} `{OB : KernelObs K D}.
Context {E : fault -> Prop}.
Implicit Types (s : state K) (e : env K) (P : gmap loc user_page) (L : fifo_id -> list loc).
Implicit Types (C : Z -> D) (F : list loc).

(** The page of an address is owned by the operation, in memory or on disk. *)
Lemma tracked_owned k F C infl s P L e a x :
  pager k F C infl s P L e -> pages e !! a = Some x -> a <> 0 ->
  exists px, managed P x px /\ va px = a /\
    (x ∈ F \/ exists l, x ∈ L l /\
      (lru l = true /\ resident C P L e x px \/ l = disk_active_list /\ swapped C e x px)).
Proof.
  intros G Ht H0. pager_facts G.
  destruct (i_table _ _ _ _ _ _ _ I a x Ht H0) as (px & Hm & Hv).
  exists px. split_and!; [done..|].
  destruct (i_where _ _ _ _ _ _ _ I x px Hm) as [HF|[l Hl]]; [by left|right].
  destruct (pager_role _ _ _ _ _ _ _ _ _ _ G Hl) as (px' & Hm' & Hrole).
  assert (px' = px) as -> by (destruct Hm, Hm'; congruence).
  exists l. split; [done|].
  destruct l; simpl in Hrole; try (left; by split); try (right; by split); exfalso.
  - by destruct Hrole; congruence.
  - by destruct Hrole; congruence.
  - by destruct Hrole; congruence.
Qed.

(** At rest it is in memory or on disk. *)
Lemma tracked_cases C s P L e a x :
  pager 0 [] C [] s P L e -> pages e !! a = Some x -> a <> 0 ->
  exists px l, managed P x px /\ va px = a /\ x ∈ L l /\
    (lru l = true /\ resident C P L e x px \/ l = disk_active_list /\ swapped C e x px).
Proof.
  intros G Ht H0. destruct (tracked_owned _ _ _ _ _ _ _ _ _ _ G Ht H0) as (px & Hm & Hv & Hw).
  destruct Hw as [[]%elem_of_nil|(l & Hl & Hrole)]. by exists px, l.
Qed.

Lemma wp_find_page a s P L e (Q : ptr -> state K -> Prop) :
  View s P L e -> held e = [] \/ held e = [allocator_lock] ->
  (forall s', View s' P L e -> Q (pages e !! a) s') ->
  wp E (find_page a) s Q.
Proof.
  intros V Hh HQ. unfold find_page. vstep; [destruct Hh as [-> | ->]; not_in|].
  vstep. vstep; [destruct Hh as [-> | ->]; not_in|]. vstep. apply HQ. by destruct e.
Qed.

Lemma view_same_env s P L e e' : View s P L e -> View s P L e' -> e = e'.
Proof. intros [_ <- _ _ _ _] [_ <- _ _ _ _]. done. Qed.

(** A page that was brought in, no longer marked as migrating and swapped out. *)
Lemma release_resident k F C s s' P L e e' x px px' :
  brought_in k F C s P L e x px -> px' = set_migrating false (set_swapped_out false px) ->
  View s' (<[x := px']> P) L e' ->
  (forall y, inv_gvar y = true -> glob e' y = glob e y) ->
  (forall b, inv_bvar b = true -> flag e' b = flag e b) -> pages e' = pages e ->
  held e' = held e -> kern e' = kern e -> self e' = self e ->
  pager k F C [] s' (<[x := px']> P) L e'.
Proof.
  intros [Gc Hx Hm R _ _] -> V Hg Hf Hp Hh Hk Hse.
  assert (x ∉ L disk_reserve_list) as Hr.
  { apply (i_closed _ _ _ _ _ _ _ (cl_inv _ _ _ _ _ _ _ _ _ Gc)). left. }
  eapply (claimed_release _ _ _ _ _ _ _ _ x inactive_list).
  - split; [done| |apply Gc|apply Gc].
    eapply inv_vars; [|done..]. eapply inv_set; [apply Gc|left|done|by split].
  - done.
  - split; [by rewrite lookup_insert_eq|apply Hm].
  - simpl. eapply resident_vars; [done..|]. by apply resident_other.
  - constructor.
Qed.
End tracked.
