(* ===== verification/Prefetch.v ===== *)
(** * Prefetching: proofs

    [core_try_prefetch] claims the swapped-out pages that follow the faulting
    one, reads them in one batch, gets a frame for each and maps them; it
    leaves the logical memory as it was. *)

From S2P Require Import Prelude Kernel State Fifo Rules Uring Migrate Invariant Policy Core Tracked.

Section prefetch.
Context {K D : Type} `{KL : KernelLaws K D may_fail, PO : !PolicyOps K, PL : !PolicyLaws K D may_fail}.
Context {E : fault -> Prop} `{!Tolerates may_fail E}.
Implicit Types (s : state K) (e : env K) (P : gmap loc user_page) (L : fifo_id -> list loc).
Implicit Types (C : Z -> D) (F : list loc).

(** A page claimed for prefetching: on disk, marked as migrating. *)
Definition held_out C P e (x : loc) : Prop :=
  exists px, managed P x px /\ swapped C e x (set_migrating false px) /\ migrating px = true.

(** The steps of the first loop write counters only. *)
Record quiet e e' : Prop := {
  qu_env : env_step e e';
  qu_flag : forall b, flag e' b = flag e b;
  qu_kern : kern e' = kern e }.

#[export] Instance quiet_preorder : PreOrder quiet.
Proof. split; [by split|]. intros ? ? ? [] []. split; [by etrans|congruence..]. Qed.

Ltac quiet_done :=
  split; [env_frame|done|done].

Definition claim_inv C e base (n : nat) (v : Z * Z * list ptr) s : Prop :=
  exists xs P' L' e', v = (Z.of_nat (length xs), base + PAGE_SIZE * Z.of_nat (length xs), Some <$> xs) /\
    (length xs + n = Z.to_nat CORE_PREFETCH_RATE)%nat /\ pager 0 xs C [] s P' L' e' /\
    (forall x, x ∈ xs -> held_out C P' e' x) /\ quiet e e'.

Lemma pager_perm k F F' C infl s P L e : F ≡ₚ F' -> pager k F C infl s P L e -> pager k F' C infl s P L e.
Proof.
  intros Hp [V [Hh Hc Hr Hs Hro Ho Hw Ht Hcl Hun Hfl Hn Hrg] Hf Hnd]. split; [done| | |by rewrite <- Hp].
  - split; try done.
    + intros l x Hx HF. apply Hro; [done|]. by rewrite Hp.
    + intros x. rewrite <- Hp. apply Ho.
    + intros x pg Hm. rewrite <- Hp. by eapply Hw.
    + intros x. rewrite <- Hp. apply Hcl.
    + eapply Forall_impl; [exact Hfl|]. intros y (Hy & t & tp & Hin & ?). split; [done|].
      exists t, tp. by rewrite <- Hp.
  - intros x. rewrite <- Hp. apply Hf.
Qed.

(** The first loop. *)
Lemma held_out_vars C P e e' x : quiet e e' -> held_out C P e x -> held_out C P e' x.
Proof.
  intros [S _ Hk] (px & Hm & Hsw & Hmg). exists px. split_and!; [done| |done].
  eapply swapped_vars; [apply S|exact Hk|exact Hsw].
Qed.

Lemma wp_claim_pages C s P L e base (Q : list ptr -> state K -> Prop) :
  pager 0 [] C [] s P L e -> 0 < base < 2 ^ 47 ->
  (forall xs s' P' L' e', (length xs <= Z.to_nat CORE_PREFETCH_RATE)%nat ->
     pager 0 xs C [] s' P' L' e' -> (forall x, x ∈ xs -> held_out C P' e' x) -> quiet e e' ->
     Q (Some <$> xs) s') ->
  wp E (loop "core_try_prefetch" (S (Z.to_nat CORE_PREFETCH_RATE)) claim_body (0, base, [])) s Q.
Proof.
  intros G Hb HQ.
  eapply (wp_loop _ _ _ (claim_inv C e base) _ (Z.to_nat CORE_PREFETCH_RATE)); [|lia|].
  { exists [], P, L, e. split_and!; [simpl; f_equal; f_equal; lia|done|done| |done]. by intros x ?%elem_of_nil. }
  clear dependent s P L. intros n v s (xs & P & L & e1 & -> & Hn & G & Hxs & Hq). unfold claim_body.
  case_bool_decide as Hlt; [|vstep; eapply HQ; [lia|done..]].
  pose proof Hq as [S Hfl Hk]. pager_facts G. assert (held e1 = []) as Hh by apply I.
  set (pb := u64 (base + PAGE_SIZE * Z.of_nat (length xs) + PAGE_SIZE)).
  assert (pb = base + PAGE_SIZE * Z.of_nat (length xs + 1)) as Hpb.
  { unfold pb. unfold CORE_PREFETCH_RATE in *. unfold PAGE_SIZE, BASEPAGE_SIZE. rewrite u64_small; lia. }
  apply wp_bind. eapply wp_find_page; [done|by left|]. intros s1 V1.
  assert (forall s' e', View s' P L e' -> quiet e1 e' -> Q (Some <$> xs) s') as Hexit.
  { intros s' e' V' Hq'. eapply (HQ xs s' P L e'); [lia| | |by etrans].
    - destruct Hq' as [S' Hf' Hk']. eapply pager_vars; [exact G|done| | |apply S'|apply S'|done|apply S'].
      + intros y Hy. apply (es_glob _ _ S'). by destruct y.
      + intros b _. apply Hf'.
    - intros x Hx. eapply held_out_vars; [done|]. by apply Hxs. }
  destruct (pages e1 !! pb) as [x|] eqn:Ht; [|vstep; by apply (Hexit s1 e1)].
  destruct (tracked_owned _ _ _ _ _ _ _ _ _ _ G Ht) as (px & Hm & Hv & Hw).
  { rewrite Hpb. unfold PAGE_SIZE, BASEPAGE_SIZE. lia. }
  pose proof Hm as [Hx Hpt].
  vstep. rewrite Hv. vstep. vstep; [rewrite Hh; not_in|]. vstep.
  destruct (migrating px) eqn:Hmg.
  { vstep. vstep; [rewrite Hh; not_in|]. vstep. eapply Hexit; [eassumption|]. by quiet_done. }
  vstep. destruct (swapped_out px) eqn:Hso; simpl.
  2:{ vstep. vstep; [rewrite Hh; not_in|]. vstep. eapply Hexit; [eassumption|]. by quiet_done. }
  destruct Hw as [Hin|(l & Hl & [[_ R]|[-> Hsw]])];
    [by destruct (Hxs x Hin) as (px' & [Hx' _] & _ & ?); congruence|by destruct R; congruence|].
  vstep. rewrite Hv, bool_decide_eq_true_2 by done. simpl. vstep. vstep; [rewrite Hh; not_in|]. vstep.
  vstep; [by rewrite bool_decide_eq_false_2 by apply (av_nonzero _ _ _ (sw_at _ _ _ _ Hsw))|].
  destruct (pager_claim _ _ _ _ _ _ _ _ _ _ G Hl) as [Gc _]; [done|].
  assert (set_held (held e1) (set_held (handler_lock :: held e1) e1) = e1) as He by by destruct e1.
  set (px' := set_migrating true px) in *.
  match goal with V' : View ?s' _ _ _ |- wp _ _ ?s' _ =>
    rewrite He in V'; pose proof (claimed_set _ _ px' _ _ _ _ _ s' _ _ _ Gc Hm) as Gc' end.
  apply wp_bind. eapply pl_detach_page; [apply Gc'; [by split|done]|done|].
  intros s5 L5 G5. vclear. vstep.
  pose proof (pg_nodup _ _ _ _ _ _ _ _ G5) as [Hxn _]%NoDup_cons.
  exists (n - 1)%nat. split; [lia|]. exists (xs ++ [x]), (<[x := px']> P), L5, e1. split_and!.
  - rewrite length_app. simpl. f_equal; [f_equal; [lia|done]|by rewrite fmap_app].
  - rewrite length_app. simpl. lia.
  - eapply pager_perm; [|exact G5]. by rewrite Permutation_cons_append.
  - intros y Hy. inv_in.
    + destruct (Hxs y Hy) as (py & [Hy' ?] & ?). exists py. split; [|done].
      split; [by rewrite lookup_insert_ne by congruence|done].
    + exists px'. split_and!; [split; [by rewrite lookup_insert_eq|done]| |done].
      unfold px'. by destruct Hsw as [? [] ? ? ? ? ?].
  - exact Hq.
Qed.

(** ** The buffer of the batch *)

(** What prefetching changes besides the pager's own state. *)
Record prefetch_step e e' : Prop := {
  pf_glob : forall x, is_counter x = false -> x <> prefetch_buffer (self e) -> glob e' x = glob e x;
  pf_flag : forall b, is_transient b = false -> b <> prefetch_buffer_allocated (self e) -> flag e' b = flag e b;
  pf_ring : flag e (uring_read_init (self e)) = true -> flag e' (uring_read_init (self e')) = true;
  pf_pages : pages e' = pages e;
  pf_self : self e' = self e;
  pf_registered : forall a, registered (kern e') a = registered (kern e) a }.

#[export] Instance prefetch_step_preorder : PreOrder prefetch_step.
Proof.
  split; [by split|]. intros ? ? ? [G1 F1 I1 ? S1 R1] [G2 F2 I2 ? S2 R2].
  split; [intros; rewrite G2 by (rewrite ?S1; auto); auto|intros; rewrite F2 by (rewrite ?S1; auto); auto|
    auto|congruence|congruence|intros; by rewrite R2].
Qed.

Lemma env_prefetch_step e e' :
  env_step e e' -> same_reg (kern e) (kern e') -> prefetch_step e e'.
Proof. intros [? ? Hi] [Hr _]. split; auto. rewrite es_self. apply (Hi (io_read_ring _)). Qed.

Lemma wp_ensure_prefetch_buffer k F C s P L e (Q : unit -> state K -> Prop) :
  pager k F C [] s P L e -> E (SysFail "prefetch buffer space mmap") ->
  (forall s' e', pager k F C [] s' P L e' -> flag e' (prefetch_buffer_allocated (self e')) = true ->
     prefetch_step e e' -> flag e' (uring_read_init (self e')) = flag e (uring_read_init (self e)) ->
     same_mem_but (fun _ => False) (kern e) (kern e') -> same_disk (kern e) (kern e') -> Q tt s') ->
  wp E ensure_prefetch_buffer s Q.
Proof.
  intros G HE HQ. pager_facts G. unfold ensure_prefetch_buffer. vstep.
  destruct (flag e (prefetch_buffer_allocated (self e))) eqn:Hf; simpl.
  { vstep. by apply (HQ s e). }
  apply wp_bind. eapply wp_sys; [done|]. intros a k1 s1 Hk V1. vclear.
  vstep. apply wp_bind, wp_die_if; [by right|]. intros Hne%bool_decide_eq_false.
  destruct (l_mmap _ _ _ _ _ _ _ _ plain_reserve Hk Hne) as ((Ha0 & Hal & Har) & Hfresh & Hmap & Hreg & Hm & Hd & Hrg).
  vstep. match goal with V' : View ?s' _ _ ?e' |- Q tt ?s' => apply (HQ s' e'); [split| | | | |] end.
  - done.
  - pose proof I as [_ Hc Hr Hs _ _ _ _ _ _ Hfl _].
    eapply (inv_own k F C []); [exact I|done| |split; simpl; try done| | | | | |].
    + intros y Hy. destruct (i_owned _ _ _ _ _ _ _ I y Hy) as (pg & Hp). exists pg. split; [done|].
      intros pg2 Hp2. destruct Hp. congruence.
    + intros b _ _. by rewrite (sm_mem _ _ _ Hm), (sm_dirty _ _ _ Hm) by auto.
    + eapply slots_env; [exact Hs|done|done].
    + destruct Hc as [? ? Hb (Hcm & Hcr & Hcz) Hap Hpf]. split; unfold buffer_ok, content in *; simpl; simp_fupd; try done.
      * intros t. rewrite !fupd_ne by done. intros Hal'. rewrite Hreg. destruct (Hb t Hal'). split; [apply Hmap; by right|done].
      * split_and!; [apply Hmap; by right|by rewrite Hreg|by rewrite (sm_mem _ _ _ Hm) by auto].
      * intros t Ht. unfold prefetch_ok. simpl. destruct (decide (t = self e)) as [->|Hts].
        2:{ rewrite !fupd_ne in * by congruence. destruct (Hpf t Ht) as (? & ? & Hpr). split_and!; [done..|].
            intros b Hb'. destruct (Hpr b Hb') as (? & ? & ?). rewrite Hreg. split_and!; [apply Hmap; by right|done..]. }
        simp_fupd. split_and!; [done..|]. intros b Hb'. destruct (Hfresh b Hb') as (_ & Hu & Hnm). split_and!; [apply Hmap; by left|by rewrite Hreg|].
        intros ->. congruence.
    + pose proof (rings_ok_same _ _ _ Hr Hrg) as [? ? Ri Rf ?].
      split; simpl in *; try done; intros r; rewrite fupd_ne by (by destruct r); auto.
    + apply I.
    + done.
    + constructor.
  - apply G.
  - apply G.
  - simpl. by simp_fupd.
  - split; simpl; intros; rewrite ?fupd_ne by congruence; auto.
  - simpl. by simp_fupd.
  - simpl. exact Hm.
  - simpl. exact Hd.
Qed.

(** ** Reading the batch *)

Definition job : loc * Z -> ptr * Z := prod_map Some id.
Definition request P (fd : Z) (j : loc * Z) : sqe :=
  Sqe false fd (snd j) PAGE_SIZE (from_option virtual_offset 0 (P !! fst j)).

(** The pages of the batch with their slots of the buffer. *)
Lemma slots_jobs base (xs : list loc) :
  0 < base -> base + PAGE_SIZE * CORE_PREFETCH_RATE <= 2 ^ 47 ->
  (length xs <= Z.to_nat CORE_PREFETCH_RATE)%nat ->
  exists js, slots base (Some <$> xs) = job <$> js /\ (js.*1) = xs /\ NoDup (js.*2) /\
    forall b, b ∈ (js.*2) -> in_range base (PAGE_SIZE * CORE_PREFETCH_RATE) b.
Proof.
  intros H0 Hb Hl. unfold PAGE_SIZE, BASEPAGE_SIZE, CORE_PREFETCH_RATE in *.
  set (bs := (fun i => u64 (base + PAGE_SIZE * Z.of_nat i)) <$> seq 0 (length xs)).
  assert (length bs = length xs) as Hbs by (unfold bs; by rewrite length_fmap, length_seq).
  assert (forall i, (i < length xs)%nat -> u64 (base + PAGE_SIZE * Z.of_nat i) = base + PAGE_SIZE * Z.of_nat i) as Hu.
  { intros i Hi. unfold PAGE_SIZE, BASEPAGE_SIZE. rewrite u64_small; lia. }
  exists (zip xs bs). split_and!.
  - unfold slots, job. rewrite length_fmap. fold bs. by rewrite prod_map_zip, list_fmap_id.
  - by rewrite fst_zip by lia.
  - rewrite snd_zip by lia. unfold bs. apply NoDup_fmap_2_strong; [|apply NoDup_seq].
    intros i j Hi%elem_of_seq Hj%elem_of_seq. rewrite !Hu by lia. unfold PAGE_SIZE, BASEPAGE_SIZE. lia.
  - rewrite snd_zip by lia. unfold bs. intros b (i & -> & Hi%elem_of_seq)%list_elem_of_fmap.
    rewrite Hu by lia. unfold in_range, PAGE_SIZE, BASEPAGE_SIZE. lia.
Qed.

Lemma wp_start_all k F C s P L e js (Q : unit -> state K -> Prop) :
  pager k F C [] s P L e ->
  (length js <= Z.to_nat CORE_PREFETCH_RATE)%nat -> (forall x, x ∈ (js.*1) -> is_Some (P !! x)) ->
  (forall s' e', View s' P L e' -> env_step e e' ->
     rings_batch [] (request P (glob e diskfd) <$> js) e' -> same_data (kern e) (kern e') ->
     flag e' (uring_read_init (self e')) = true \/ js = [] -> Q tt s') ->
  wp E (for_each start_one (job <$> js)) s Q.
Proof.
  intros G Hl Hin HQ. pager_facts G.
  eapply (wp_for_each _ _ job (fun zs s => exists e', View s P L e' /\ env_step e e' /\
    rings_batch [] (request P (glob e diskfd) <$> zs) e' /\ same_data (kern e) (kern e') /\
    (flag e' (uring_read_init (self e')) = true \/ rings_ok [] e' /\ zs = []))).
  - exists e. split_and!; [done|done|by apply rings_batch_nil, I|done|right; split; [apply I|done]].
  - intros zs [x b] ys s' -> (e1 & V1 & S1 & R1 & D1 & Hf1). unfold start_one, job. simpl.
    destruct (Hin x) as [px Hx].
    { rewrite fmap_app. apply elem_of_app. right. left. }
    vstep. vstep. rewrite (es_glob _ _ S1) by done. eapply wp_ioring_prepare_read; [eassumption|exact R1| | |].
    { destruct Hf1 as [|[? ->]]; auto. }
    { rewrite length_fmap. rewrite length_app in Hl. simpl in Hl.
      unfold CORE_PREFETCH_RATE, QD in *. lia. }
    intros s2 e2 V2 S2 R2 D2 Hf2. exists e2. split_and!; [done|by etrans| |by etrans|by left].
    rewrite fmap_app. simpl. unfold request at 2. simpl. by rewrite Hx.
  - intros s' (e' & V' & S' & R' & D' & Hf'). eapply HQ; [done..|]. destruct Hf' as [|[_ ?]]; auto.
Qed.

(** A step of the operation that owns [F] which leaves the tables alone. *)
Lemma pager_kern k F C infl infl' s s' P L e e' :
  pager k F C infl s P L e -> View s' P L e' -> env_step e e' -> confined F P e e' ->
  same_reg (kern e) (kern e') -> content (kern e') (glob e page_cache) = content (kern e) (glob e page_cache) ->
  rings_ok infl' e' -> flying_ok F P e' infl' ->
  pager k F C infl' s' P L e'.
Proof.
  intros [V I Hf Hn] V' S Hc Hg Hz R Hfl. split; [done| |done|done].
  eapply inv_own; [exact I|done| |done| | |done| | |done].
  - intros y Hy. destruct (i_owned _ _ _ _ _ _ _ I y Hy) as (pg & Hp). exists pg. split; [done|].
    intros pg2 Hp2. destruct Hp. congruence.
  - eapply slots_env; [apply I| |]; by apply (es_glob _ _ S).
  - eapply (conf_ok_step e); [apply I|exact S|done|done].
  - rewrite (es_held _ _ S). apply I.
  - by apply (es_glob _ _ S).
Qed.

(** A page of the batch: on disk, its data also in the buffer. *)
Definition loaded C P e (j : loc * Z) : Prop :=
  exists px, managed P (fst j) px /\ swapped C e (fst j) (set_migrating false px) /\ migrating px = true /\
    mem (kern e) (snd j) = Some (C (va px)) /\ registered (kern e) (snd j) = false.

Lemma wp_read_batch C s P L e js (Q : unit -> state K -> Prop) :
  pager 0 (js.*1) C [] s P L e -> flag e (uring_read_init (self e)) = true \/ E BadRing ->
  (length js <= Z.to_nat CORE_PREFETCH_RATE)%nat -> (forall x, x ∈ (js.*1) -> held_out C P e x) ->
  NoDup (js.*2) -> (forall b, b ∈ (js.*2) -> registered (kern e) b = false /\ b <> glob e page_cache) ->
  (forall s' e', pager 0 (js.*1) C (request P (glob e diskfd) <$> js) s' P L e' -> env_step e e' ->
     (forall j, j ∈ js -> loaded C P e' j) -> same_reg (kern e) (kern e') -> Q tt s') ->
  wp E (for_each start_one (job <$> js);; ioring_submit_all_reads) s Q.
Proof.
  intros G Hui Hl Hout Hnd Hbuf HQ. pose proof (pg_inv _ _ _ _ _ _ _ _ G) as I. apply wp_bind.
  eapply wp_start_all; [exact G|done| |].
  { intros x Hx. destruct (Hout x Hx) as (px & [Hpx _] & _). by eexists. }
  intros s1 e1 V1 S1 R1 D1 Hf1.
  assert (sq_buf <$> (request P (glob e diskfd) <$> js) = (js.*2)) as Hb.
  { rewrite <- list_fmap_compose. done. }
  eapply wp_ioring_submit_all_reads; [exact V1|exact R1| | |by rewrite Hb| |].
  { destruct Hui as [Hui|HE]; [left; rewrite (es_self _ _ S1); by apply (es_ring _ _ S1 (io_read_ring _))|].
    destruct Hf1 as [Hf1|Hn]; [by left|rewrite Hn; auto]. }
  { apply Forall_fmap, Forall_true. done. }
  { apply Forall_true. intros y. constructor. }
  simpl. intros s2 k2 V2 R2 Hin Hmo Hdo Hgo. rewrite Hb in Hmo. specialize (Hin kl_device).
  assert (same_reg (kern e) k2) as Hg by (etrans; [apply D1|done]).
  assert (forall a, a ∉ (js.*2) -> mem k2 a = mem (kern e) a /\ dirty k2 a = dirty (kern e) a) as Hm.
  { intros a Ha. by rewrite (sm_mem _ _ _ Hmo), (sm_dirty _ _ _ Hmo), (sm_mem _ _ _ (sd_mem _ _ D1)),
      (sm_dirty _ _ _ (sd_mem _ _ D1)) by auto. }
  assert (forall o, disk k2 o = disk (kern e) o) as Hd by (intros o; rewrite Hdo; apply D1).
  assert (env_step e (set_kern k2 e1)) as S2 by by apply env_step_trans_set.
  apply (HQ s2 (set_kern k2 e1)); [|done|intros [x b] Hj; simpl|done].
  - eapply pager_kern; [exact G|done|exact S2|split; simpl; [by rewrite (es_pages _ _ S1)| |done|apply Hg]|done| |done|].
    + intros a Ha _. apply Hm. intros Hin'. destruct (Hbuf a Hin'). congruence.
    + unfold content. simpl. destruct (Hm (glob e page_cache)) as [-> _]; [|done].
      intros Hin'. by destruct (Hbuf _ Hin').
    + apply Forall_fmap, Forall_forall. intros [x b] Hj. simpl.
      assert (x ∈ (js.*1)) as Hx by (apply list_elem_of_fmap; by exists (x, b)).
      assert (b ∈ (js.*2)) as Hb' by (apply list_elem_of_fmap; by exists (x, b)).
      split; [rewrite (sg_registered _ _ Hg); by apply Hbuf|].
      destruct (Hout x Hx) as (px & [Hp Ht] & Hsw & _). exists x, px.
      split_and!; [done|done|apply Hsw|by rewrite Hp].
  - assert (x ∈ (js.*1)) as Hx by (apply list_elem_of_fmap; by exists (x, b)).
    assert (b ∈ (js.*2)) as Hb' by (apply list_elem_of_fmap; by exists (x, b)).
    destruct (Hout x Hx) as (px & Hp & [Hdr [] Hmem Hdisk] & Hmg).
    exists px. simpl. split_and!; [done| |done| |rewrite (sg_registered _ _ Hg); by apply Hbuf].
    + split; simpl in *; try done; [split; simpl; [by rewrite (es_pages _ _ S1)|done..|by rewrite (sg_registered _ _ Hg)]| |by rewrite Hd].
      destruct (Hm (va px)) as [-> _]; [|done]. intros Hin'. destruct (Hbuf _ Hin'). congruence.
    + specialize (Hin (request P (glob e diskfd) (x, b))). simpl in Hin.
      rewrite Hin by (apply list_elem_of_fmap; by exists (x, b)). f_equal.
      destruct Hp as [-> _]. simpl. rewrite (sd_disk _ _ D1). exact Hdisk.
Qed.

Lemma loaded_frame F C P e P' e' j :
  frame F P e P' e' -> fst j ∈ F -> loaded C P e j -> loaded C P' e' j.
Proof.
  intros [S HP Hm Hd Hg] Hj (px & [Hp Ht] & [Hdr [] Hmem Hdisk ? ? ?] & Hmg & Hb & Hr). simpl in *.
  exists px. split_and!; [split; [by rewrite HP|done]| |done| |by rewrite (sg_registered _ _ Hg)].
  - split; simpl; try done.
    + split; simpl; [by rewrite (es_pages _ _ S)|done|done|by rewrite (sg_registered _ _ Hg)].
    + destruct (Hm (va px)) as [-> _]; [right; by exists (fst j)|done].
    + rewrite (Hd (fst j) px); [done|done|done|done].
  - destruct (Hm (snd j)) as [-> _]; [by left|done].
Qed.

Definition free_frame P (d : loc) : Prop := exists pd, managed P d pd /\ idle true pd.

(** The second loop: a frame for each page of the batch. *)
Lemma wp_collect C infl s P L e js (Q : list ptr -> state K -> Prop) :
  can_run_out E -> pager 0 (js.*1) C infl s P L e -> (length js <= Z.to_nat CORE_PREFETCH_RATE)%nat ->
  2 * CORE_PREFETCH_RATE <= frames e -> flag e shrinkage_running = false ->
  (forall j, j ∈ js -> loaded C P e j) ->
  (forall s' ds P' L' e', length ds = length js ->
     pager (Z.of_nat (length js)) (ds ++ (js.*1)) C infl s' P' L' e' ->
     (forall d, d ∈ ds -> free_frame P' d) -> (forall j, j ∈ js -> loaded C P' e' j) ->
     env_step e e' -> same_reg (kern e) (kern e') -> Q (Some <$> ds) s') ->
  wp E (mapM collect_one (job <$> js)) s Q.
Proof.
  intros HE G Hl Hfr Hsh Hld HQ.
  eapply (wp_mapM _ _ job (fun zs rs s => exists ds P' L' e', rs = Some <$> ds /\ length ds = length zs /\
    pager (Z.of_nat (length zs)) (ds ++ (js.*1)) C infl s P' L' e' /\
    (forall d, d ∈ ds -> free_frame P' d) /\ (forall j, j ∈ js -> loaded C P' e' j) /\
    env_step e e' /\ same_reg (kern e) (kern e'))).
  - exists [], P, L, e. split_and!; try done. by intros d ?%elem_of_nil.
  - intros zs j ys rs s1 Hjs (ds & P1 & L1 & e1 & -> & Hds & G1 & Hid & Hld1 & S1 & Hg1). unfold collect_one.
    assert (length zs < length js)%nat by (rewrite Hjs, length_app; simpl; lia).
    apply wp_bind. eapply pl_pagefault; [done|exact HE|exact G1|lia| | |].
    { unfold frames in *. rewrite (es_glob _ _ S1) by done. unfold CORE_PREFETCH_RATE in *. lia. }
    { by rewrite (es_flag _ _ S1). }
    intros s2 d pd P2 L2 e2 G2 Hf2 Hmd Hidle _. vstep. vstep.
    exists (ds ++ [d]), P2, L2, e2. split_and!.
    + by rewrite fmap_app.
    + rewrite !length_app. simpl. lia.
    + rewrite length_app. replace (Z.of_nat (length zs + length [j])) with (Z.of_nat (length zs) + 1) by (simpl; lia).
      eapply pager_perm; [|exact G2]. by rewrite <- app_assoc, Permutation_middle.
    + intros y Hy. inv_in; [|by exists pd]. destruct (Hid y Hy) as (py & [Hp Ht] & ?). exists py.
      split; [|done]. split; [|done]. rewrite (fr_page _ _ _ _ _ Hf2); [done|]. apply elem_of_app. by left.
    + intros z Hz. eapply loaded_frame; [exact Hf2| |by apply Hld1]. apply elem_of_app. right.
      apply list_elem_of_fmap. by exists z.
    + etrans; [exact S1|apply Hf2].
    + etrans; [exact Hg1|apply Hf2].
  - intros rs s1 (ds & P1 & L1 & e1 & -> & Hds & G1 & Hid & Hld1 & S1 & Hg1). by eapply HQ.
Qed.

(** The third loop: every read has completed. *)
Lemma wp_finish_all k F C infl s P L e js (Q : unit -> state K -> Prop) :
  pager k F C infl s P L e -> length infl = length js -> (forall j, j ∈ js -> loaded C P e j) ->
  (forall s' k', let e' := set_kern k' e in pager k F C [] s' P L e' ->
     (forall j, j ∈ js -> loaded C P e' j) -> same_reg (kern e) k' -> Q tt s') ->
  wp E (for_each finish_one (job <$> js)) s Q.
Proof.
  intros G Hl Hld HQ.
  eapply (wp_for_each _ _ job (fun zs s => exists k' infl', let e' := set_kern k' e in
    pager k F C infl' s P L e' /\ (length zs + length infl' = length js)%nat /\ same_data (kern e) k')).
  - exists (kern e), infl. simpl. assert (set_kern (kern e) e = e) as -> by by destruct e.
    split_and!; [done|simpl; lia|done].
  - intros zs j ys s1 Hjs (k1 & infl1 & G1 & Hl1 & D1). unfold finish_one. simpl in *.
    pose proof (pg_view _ _ _ _ _ _ _ _ G1) as V1. pose proof (pg_inv _ _ _ _ _ _ _ _ G1) as I1.
    destruct (Hld j) as (px & [Hp _] & _); [rewrite Hjs; apply elem_of_app; right; left|].
    vstep. vstep. rewrite Hjs, length_app in Hl1. simpl in Hl1.
    eapply wp_ioring_finish_one; [eassumption|apply I1|by destruct infl1; [simpl in Hl1; lia|]|].
    intros s2 k2 y infl2 V2 Hperm R2 _ D2. exists k2, infl2. split_and!.
    + eapply (pager_kern _ _ _ _ _ _ _ _ _ (set_kern k1 e) (set_kern k2 e)); [exact G1|done|by split|split; simpl; try done| | |done|].
      * intros a _ _. by rewrite (sm_mem _ _ _ (sd_mem _ _ D2)), (sm_dirty _ _ _ (sd_mem _ _ D2)) by auto.
      * intros o _. apply D2.
      * apply D2.
      * apply D2.
      * by apply same_data_content.
      * eapply flying_ok_obs; [|apply D2]. pose proof (i_flying _ _ _ _ _ _ _ I1) as Hfl.
        unfold flying_ok in *. rewrite Hperm in Hfl. by apply Forall_cons in Hfl as [_ ?].
    + apply Permutation_length in Hperm. simpl in Hperm. rewrite Hjs, !length_app. simpl. lia.
    + by etrans.
  - intros s1 (k1 & infl1 & G1 & Hl1 & D1). assert (infl1 = []) as -> by (destruct infl1; [done|simpl in Hl1; lia]).
    apply (HQ s1 k1); [done| |apply D1]. intros j Hj. eapply (loaded_frame [fst j]); [|left|by apply Hld].
    split; [by split|done| | |apply D1].
    + intros a _. simpl. by rewrite (sm_mem _ _ _ (sd_mem _ _ D1)), (sm_dirty _ _ _ (sd_mem _ _ D1)) by auto.
    + intros x px _ _ _. apply D1.
Qed.

(** Mapping another page keeps a page of the batch loaded. *)
Lemma loaded_mapped C P P' e e' k' a x j :
  kern e' = k' -> pages e' = pages e ->
  P' !! fst j = P !! fst j ->
  same_mem_but (fun b => b = a) (kern e) k' -> same_disk (kern e) k' -> same_reg (kern e) k' ->
  pages e !! a = Some x -> registered (kern e) a = true -> fst j <> x ->
  loaded C P e j -> loaded C P' e' j.
Proof.
  intros <- Hpg HP Hm Hd Hg Ht Hr Hne (px & [Hp Htp] & [Hdr [] Hmem Hdisk ? ? ?] & Hmg & Hb & Hu). simpl in *.
  exists px. split_and!; [split; [by rewrite HP|done]| |done| |by rewrite (sg_registered _ _ Hg)].
  - split; simpl; try done.
    + split; simpl; [by rewrite Hpg|done|done|by rewrite (sg_registered _ _ Hg)].
    + rewrite (sm_mem _ _ _ Hm); [done|]. congruence.
    + by rewrite Hd.
  - rewrite (sm_mem _ _ _ Hm); [done|]. congruence.
Qed.

(** The last loop, one page: mapped, and resident in its new frame. *)
Lemma wp_install_one k F C s P L e x b d (Q : unit -> state K -> Prop) :
  pager (k + 1) (d :: x :: F) C [] s P L e -> loaded C P e (x, b) -> free_frame P d ->
  (forall s' P' L' e' k' a, pager k F C [] s' P' L' e' ->
     (forall z, z <> x -> z <> d -> P' !! z = P !! z) -> kern e' = k' -> env_step e e' ->
     pages e !! a = Some x -> registered (kern e) a = true ->
     same_mem_but (fun c => c = a) (kern e) k' -> same_disk (kern e) k' -> same_reg (kern e) k' -> Q tt s') ->
  wp E (install_one (job (x, b), Some d)) s Q.
Proof.
  intros G (px & Hm & [Hdr Hat Hmem Hdisk Hres _ Hso] & Hmg & Hb & Hu) (pd & Hmd & Hid) HQ. simpl in *.
  pager_facts G. pose proof Hm as [Hx Hpt]. assert (held e = []) as Hh by apply I.
  pose proof Hat as [Ht H0 Ha Hr]. simpl in *.
  unfold install_one, job. simpl. vstep. apply wp_bind.
  eapply wp_uffdio_copy; [eassumption|apply I|constructor|done|done|].
  intros s1 k1 V1 Hm1 Hmo Hdo Hgo Hro. unfold content in Hm1. rewrite Hb in Hm1. simpl in Hm1.
  assert (pager (k + 1) (d :: x :: F) C [] s1 P L (set_kern k1 e)) as G1.
  { eapply pager_kern; [exact G|done|by split|split; simpl; [done| |done|apply Hgo]|done| |by apply rings_ok_same; [apply I|]|constructor].
    - intros a Hra Hn. assert (a <> va px).
      { intros ->. apply (Hn x); [right; left|done]. }
      by rewrite (sm_mem _ _ _ Hmo), (sm_dirty _ _ _ Hmo).
    - unfold content. rewrite (sm_mem _ _ _ Hmo); [done|]. intros Heq.
      destruct (co_cache _ (i_conf _ _ _ _ _ _ _ I)) as (_ & Hcr & _). congruence. }
  apply wp_assoc, wp_bind. eapply pl_ack_swapped_in; [exact G1|exact Hm|done|done| |done| |done|done|exact Hmd|done|].
  { split; simpl; [done..|by rewrite (sg_registered _ _ Hgo)]. }
  { simpl. by rewrite Hdo. }
  intros s2 P2 L2 px2 Hb2 Hv2 HP2. pose proof (cl_view _ _ _ _ _ _ _ _ _ (bi_claimed _ _ _ _ _ _ _ _ _ Hb2)) as V2.
  pose proof (bi_page _ _ _ _ _ _ _ _ _ Hb2) as [Hx2 Hpt2]. vclear.
  vstep; [rewrite Hh; not_in|]. vstep. vstep.
  eapply wp_unlock_last; [eassumption|reflexivity|simpl; rewrite Hh; not_in|]. intros s5 V5. simpl in V5.
  match type of V5 with View _ ?m _ ?e2 => eapply (HQ s5 m L2 e2 k1 (va px)) end; [|intros z Hzx Hzd; rewrite lookup_insert_ne by done; by apply HP2|done| |done..].
  - eapply release_resident; [exact Hb2|reflexivity|exact V5|vars_done..].
  - env_frame.
Qed.

Lemma wp_install_all C s P L e js ds (Q : unit -> state K -> Prop) :
  length ds = length js -> pager (Z.of_nat (length js)) (ds ++ (js.*1)) C [] s P L e ->
  (forall d, d ∈ ds -> free_frame P d) -> (forall j, j ∈ js -> loaded C P e j) ->
  (forall s' P' L' e', pager 0 [] C [] s' P' L' e' -> env_step e e' -> same_reg (kern e) (kern e') -> Q tt s') ->
  wp E (for_each install_one (zip (job <$> js) (Some <$> ds))) s Q.
Proof.
  intros Hl G Hid Hld HQ. rewrite <- prod_map_zip.
  eapply (wp_for_each _ _ (prod_map job Some) (fun zs s => exists ys P' L' e', zip js ds = zs ++ ys /\
    pager (Z.of_nat (length ys)) ((ys.*2) ++ (ys.*1.*1)) C [] s P' L' e' /\
    (forall y, y ∈ ys -> loaded C P' e' (fst y) /\ free_frame P' (snd y)) /\
    env_step e e' /\ same_reg (kern e) (kern e'))).
  - exists (zip js ds), P, L, e. split_and!; [done| | |done|done].
    + rewrite length_zip, fst_zip, snd_zip by lia. by rewrite Hl, Nat.min_id.
    + intros [j d] Hy. simpl. split; [apply Hld; by eapply elem_of_zip_l|apply Hid; by eapply elem_of_zip_r].
  - intros zs [[x b] d] ys' s1 Heq (ys & P1 & L1 & e1 & Hys & G1 & Hy1 & S1 & Hg1).
    rewrite Heq in Hys. apply app_inv_head in Hys. subst ys. simpl in *.
    destruct (Hy1 (x, b, d)) as [Hlx Hfd]; [left|]. simpl in *.
    assert (pager (Z.of_nat (length ys') + 1) (d :: x :: (ys'.*2) ++ (ys'.*1.*1)) C [] s1 P1 L1 e1) as G2.
    { replace (Z.of_nat (length ys') + 1) with (Z.of_nat (Datatypes.S (length ys'))) by lia.
      eapply pager_perm; [|exact G1]. apply perm_skip. symmetry. apply Permutation_middle. }
    pose proof (pg_nodup _ _ _ _ _ _ _ _ G2) as Hnd.
    apply NoDup_cons in Hnd as [Hd' Hnd]. apply NoDup_cons in Hnd as [Hx' Hnd].
    eapply wp_install_one; [exact G2|exact Hlx|exact Hfd|].
    intros s2 P2 L2 e2 k2 a G3 HP Hk S2 Ht Hr Hm Hd Hg.
    exists ys', P2, L2, e2. split_and!; [by rewrite <- app_assoc|exact G3| |by etrans|rewrite Hk; by etrans].
    intros [[x' b'] d'] Hy. destruct (Hy1 (x', b', d')) as [Hl' Hf']; [by right|]. simpl in *.
    assert (x' ∈ (ys'.*1.*1)) as Hx'' by (apply list_elem_of_fmap; exists (x', b'); split; [done|];
      apply list_elem_of_fmap; by exists (x', b', d')).
    assert (d' ∈ (ys'.*2)) as Hd'' by (apply list_elem_of_fmap; by exists (x', b', d')).
    inv_in. split.
    + eapply (loaded_mapped C P1 P2 e1 e2 k2 a x); try done; [by apply S2| |].
      * apply HP; simpl; intros ->; not_in.
      * simpl. intros ->. done.
    + destruct Hf' as (pd & [Hp Hpt] & ?). exists pd. split; [|done]. split; [|done]. rewrite HP; [done|..]; intros ->; done.
  - intros s1 (ys & P1 & L1 & e1 & Hys & G1 & Hy1 & S1 & Hg1).
    assert (ys = []) as ->.
    { apply (f_equal length) in Hys. rewrite length_app in Hys. destruct ys; [done|simpl in Hys; lia]. }
    by eapply HQ.
Qed.

Lemma quiet_prefetch_step e e' : quiet e e' -> prefetch_step e e'.
Proof. intros [S Hf Hk]. apply env_prefetch_step; [done|by rewrite Hk]. Qed.

Lemma held_out_step C P e e' x :
  prefetch_step e e' -> same_mem_but (fun _ => False) (kern e) (kern e') -> same_disk (kern e) (kern e') ->
  held_out C P e x -> held_out C P e' x.
Proof.
  intros [_ _ _ Hp _ Hr] Hm Hd (px & Hmx & [Hdr [] Hmem Hdisk ? ? ?] & Hmg). exists px. split_and!; [done| |done].
  split; simpl; try done.
  - split; simpl; [by rewrite Hp|done|done|by rewrite Hr].
  - by rewrite (sm_mem _ _ _ Hm) by auto.
  - by rewrite Hd.
Qed.

(** Prefetching leaves the logical memory as it was. *)
Lemma wp_core_try_prefetch C s P L e base (Q : Z -> state K -> Prop) :
  can_run_out E -> E (SysFail "prefetch buffer space mmap") ->
  pager 0 [] C [] s P L e -> 0 < base < 2 ^ 47 -> flag e (uring_read_init (self e)) = true \/ E BadRing ->
  2 * CORE_PREFETCH_RATE <= frames e -> flag e shrinkage_running = false ->
  (forall n s' P' L' e', pager 0 [] C [] s' P' L' e' -> prefetch_step e e' ->
     0 <= n <= CORE_PREFETCH_RATE -> Q n s') ->
  wp E (core_try_prefetch base) s Q.
Proof.
  intros HE HEb G Hbase Hui Hfr Hsh HQ. unfold core_try_prefetch.
  vstep; [by rewrite bool_decide_eq_false_2 by lia|].
  apply wp_bind. eapply wp_claim_pages; [exact G|done|]. clear G.
  intros xs s1 P1 L1 e1 Hl1 G1 Hout1 Hq1. pose proof (quiet_prefetch_step _ _ Hq1) as S1.
  apply wp_bind. eapply wp_ensure_prefetch_buffer; [exact G1|done|].
  intros s2 e2 G2 Hal S2 Hui2 Hm2 Hd2.
  assert (flag e2 (uring_read_init (self e2)) = true \/ E BadRing) as Hui'.
  { destruct Hui as [Hui|]; [left; by rewrite Hui2, (pf_ring _ _ S1 Hui)|by right]. }
  pose proof (pg_inv _ _ _ _ _ _ _ _ G2) as I2. pose proof (pg_view _ _ _ _ _ _ _ _ G2) as V2.
  destruct (co_prefetch _ (i_conf _ _ _ _ _ _ _ I2) _ Hal) as (Hb0 & Hbl & Hbr).
  vstep. destruct (slots_jobs _ xs Hb0 Hbl Hl1) as (js & Hjs & <- & Hnd & Hin). rewrite Hjs.
  rewrite length_fmap in Hl1. clear V2 Hjs.
  apply wp_assoc, wp_bind. eapply wp_read_batch; [exact G2|exact Hui'|exact Hl1| |exact Hnd| |].
  { intros x Hx. eapply held_out_step; [exact S2|exact Hm2|exact Hd2|by apply Hout1]. }
  { intros b Hb. by destruct (Hbr b (Hin b Hb)) as (_ & ? & ?). }
  intros s3 e3 G3 S3' Hld3 Hg3.
  assert (prefetch_step e e3) as S3.
  { etrans; [exact S1|]. etrans; [exact S2|]. by apply env_prefetch_step. }
  apply wp_bind. eapply wp_collect; [done|exact G3|exact Hl1| | |exact Hld3|].
  { unfold frames in *. by rewrite (pf_glob _ _ S3). }
  { by rewrite (pf_flag _ _ S3). }
  intros s4 ds P4 L4 e4 Hds G4 Hid4 Hld4 S4 Hg4.
  apply wp_bind. eapply wp_finish_all; [exact G4|by rewrite length_fmap|exact Hld4|].
  intros s5 k5 e5 G5 Hld5 Hg5.
  apply wp_bind. eapply wp_install_all; [exact Hds|exact G5|exact Hid4|exact Hld5|].
  intros s6 P6 L6 e6 G6 S6 Hg6. vstep. eapply HQ; [exact G6| |].
  2:{ rewrite !length_fmap in *. unfold CORE_PREFETCH_RATE in *. lia. }
  etrans; [exact S3|]. etrans; [by apply env_prefetch_step|].
  etrans; [by apply (env_prefetch_step _ e5)|]. by apply env_prefetch_step.
Qed.
End prefetch.
