(* ===== verification/Handlers.v ===== *)
(** * The fault handlers of [core.c]: proofs

    Each handler, over any policy that satisfies [PolicyLaws], takes a state
    at rest to a state at rest with the same logical memory, in which the
    faulting page is present. *)

From S2P Require Import Prelude Kernel State Fifo Rules Uring Migrate Invariant Policy Core.
From S2P Require Import Tracked Prefetch.

(** ** Page arithmetic *)

Lemma page_round_up x : 0 < x <= 2 ^ 63 ->
  PAGE_ROUND_UP x mod PAGE_SIZE = 0 /\ x <= PAGE_ROUND_UP x < x + PAGE_SIZE.
Proof.
  intros Hx. unfold PAGE_ROUND_UP. rewrite u64_small by (unfold PAGE_SIZE, BASEPAGE_SIZE; lia).
  change PAGE_SIZE with (2 ^ 12). rewrite land_align by lia. Z.div_mod_to_equations. lia.
Qed.

Lemma page_of_down a : 0 <= a < 2 ^ 64 ->
  page_of a mod PAGE_SIZE = 0 /\ page_of a <= a < page_of a + PAGE_SIZE.
Proof.
  intros Ha. unfold page_of. change PAGE_SIZE with (2 ^ 12). rewrite land_align by lia.
  Z.div_mod_to_equations. lia.
Qed.

(** The page after one that starts in an aligned range. *)
Lemma next_page p len a :
  p mod PAGE_SIZE = 0 -> len mod PAGE_SIZE = 0 -> a mod PAGE_SIZE = 0 -> a < p + len ->
  a + PAGE_SIZE <= p + len /\ (a + PAGE_SIZE) mod PAGE_SIZE = 0 /\
  0 <= (p + len - (a + PAGE_SIZE)) / PAGE_SIZE < (p + len - a) / PAGE_SIZE.
Proof. unfold PAGE_SIZE, BASEPAGE_SIZE. Z.div_mod_to_equations. lia. Qed.

Lemma same_page p a b :
  a mod PAGE_SIZE = 0 -> b mod PAGE_SIZE = 0 -> p <= b < a + PAGE_SIZE -> b <> a -> p <= b < a.
Proof. unfold PAGE_SIZE, BASEPAGE_SIZE. Z.div_mod_to_equations. lia. Qed.

(** Closes [call_step e e'] for an [e'] written out with the setters. *)
Ltac call_done :=
  split; esimpl;
  [ done | repeat (rewrite fupd_ne by (by intros [=])); done | repeat (rewrite fupd_ne by (by intros [=])); done
  | repeat (rewrite fupd_ne by (by intros [=])); done
  | intros ? ?; repeat (rewrite fupd_ne by congruence); done ].

Section handlers.
Context {K D : Type} `{KL : KernelLaws K D may_fail, PO : !PolicyOps K, PL : !PolicyLaws K D may_fail}.
Context {E : fault -> Prop} `{!Tolerates may_fail E}.
Implicit Types (s : state K) (e : env K) (P : gmap loc user_page) (L : fifo_id -> list loc).
Implicit Types (C : Z -> D) (F : list loc).

(** ** The pager at rest *)

Record at_rest C s P L e : Prop := {
  ar_pager : pager 0 [] C [] s P L e;
  ar_shrink : flag e shrinkage_running = false;
  ar_init : flag e is_init = true;
  ar_frames : 2 * CORE_PREFETCH_RATE <= frames e;
  (* the other threads of the application are not inside the library *)
  ar_calls : forall n, application n <> self e -> flag e (internal_call (application n)) = false }.

(** What an operation of the library leaves alone. *)
Record call_step e e' : Prop := {
  cs_self : self e' = self e;
  cs_size : glob e' dramsize = glob e dramsize;
  cs_shrink : flag e' shrinkage_running = flag e shrinkage_running;
  cs_init : flag e' is_init = flag e is_init;
  cs_calls : forall t, t <> self e -> flag e' (internal_call t) = flag e (internal_call t) }.

#[export] Instance call_step_preorder : PreOrder call_step.
Proof.
  split; [by split|]. intros ? ? ? [H1 H2 H3 H4 H5] [J1 J2 J3 J4 J5].
  split; try congruence. intros t Ht. by rewrite J5, H5 by congruence.
Qed.

Lemma call_env e e' : env_step e e' -> call_step e e'.
Proof. intros []. split; auto. Qed.
Lemma call_prefetch e e' : prefetch_step e e' -> call_step e e'.
Proof. intros []. split; auto. Qed.
Lemma call_swap e e' : swap_step e e' -> call_step e e'.
Proof. intros []. split; auto. Qed.

Lemma at_rest_step C C' s s' P P' L L' e e' :
  at_rest C s P L e -> pager 0 [] C' [] s' P' L' e' -> call_step e e' -> at_rest C' s' P' L' e'.
Proof.
  intros [_ Hs Hi Hf Hc] G [H1 H2 H3 H4 H5]. split; [done|congruence|congruence| |].
  - unfold frames in *. by rewrite H2.
  - intros n Hn. rewrite H5, Hc by congruence. done.
Qed.

Definition present_at e (a : Z) : Prop := is_Some (mem (kern e) a).

(** Faults on a page that is being written: nothing to do but wait. *)
Lemma wp_handle_wp_fault C s P L e a x (Q : unit -> state K -> Prop) :
  at_rest C s P L e -> pages e !! a = Some x -> a <> 0 ->
  (forall s' e', at_rest C s' P L e' -> kern e' = kern e -> self e' = self e -> Q tt s') ->
  wp E (handle_wp_fault (Some x)) s Q.
Proof.
  intros R0 Ht H0 HQ. pose proof (ar_pager _ _ _ _ _ R0) as G. pager_facts G.
  destruct (tracked_cases _ _ _ _ _ _ _ G Ht H0) as (px & l & [Hx Hpt] & Hv & Hl & Hrole).
  assert (migrating px = false) as Hmg by by destruct Hrole as [[_ []]|[_ []]].
  unfold handle_wp_fault. vstep. vstep. unfold wait_migrating.
  apply wp_spin. vstep. split; [done|]. match goal with V' : View ?s' P L ?e' |- Q tt ?s' => apply (HQ s' e'); [|done..] end.
  eapply at_rest_step; [exact R0| |call_done]. eapply pager_vars; [exact G|eassumption|vars_done..].
Qed.

(** ** A swapped-out page *)

(** The ways a swap-in can fail besides running out of frames: the two
    buffers are mapped on first use. *)
Definition buffers_fail (E : fault -> Prop) : Prop :=
  can_run_out E /\ E (SysFail "buffer space mmap") /\ E (SysFail "prefetch buffer space mmap").

(** The access pattern that starts a prefetch. *)
Definition sequential e (a : Z) : bool :=
  (a =p u64 (glob e (prev_fault_1 (self e)) + PAGE_SIZE)) && (a =p u64 (glob e (prev_fault_2 (self e)) + PAGE_SIZE * 2)).

(** The handler has claimed the page of [a], which is on disk. *)
Lemma claim_swapped C s s' P L e e' x px :
  pager 0 [] C [] s P L e -> x ∈ L disk_active_list -> managed P x px -> swapped C e x px ->
  View s' (<[x := set_migrating true px]> P) L e' ->
  (forall y, inv_gvar y = true -> glob e' y = glob e y) ->
  (forall b, inv_bvar b = true -> flag e' b = flag e b) -> pages e' = pages e ->
  held e' = held e -> kern e' = kern e -> self e' = self e ->
  claimed 0 [] C [] s' (<[x := set_migrating true px]> P) L e' x /\
  swapped C e' x (set_migrating false (set_migrating true px)).
Proof.
  intros G Hx Hm Hsw V Hg Hf Hp Hh Hk Hse. destruct (pager_claim _ _ _ _ _ _ _ _ _ _ G Hx) as [Gc _]; [done|].
  split.
  - split; [done| |by intros ? ?%elem_of_nil|apply NoDup_singleton].
    eapply inv_vars; [|done..]. eapply inv_set; [apply Gc|left|done|by split].
  - apply (swapped_vars C e e') in Hsw; [|done..]. by destruct Hsw as [? [] ? ? ? ? ?].
Qed.

(** The end of the handler, once the page is in: prefetching, and the return
    to the application. *)
Lemma wp_fault_end C s0 P0 L0 e0 s P L e (a : Z) (m : bool) (Q : unit -> state K -> Prop) :
  can_run_out E -> E (SysFail "prefetch buffer space mmap") ->
  at_rest C s0 P0 L0 e0 -> pager 0 [] C [] s P L e -> call_step e0 e -> pages e = pages e0 -> self e = self e0 ->
  (forall b, registered (kern e) b = registered (kern e0) b) -> registered (kern e) a = true ->
  flag e (uring_read_init (self e)) = true -> 2 * CORE_PREFETCH_RATE <= frames e ->
  flag e shrinkage_running = false -> present_at e a ->
  (forall s' P' L' e', at_rest C s' P' L' e' -> pages e' = pages e0 ->
     glob e' (prev_fault_1 (self e')) = glob e (prev_fault_1 (self e)) -> (m = false -> present_at e' a) ->
     self e' = self e0 -> (forall b, registered (kern e') b = registered (kern e0) b) -> Q tt s') ->
  wp E ((if m then core_try_prefetch a;; mret tt else mret tt);; wrbt internal_call false) s Q.
Proof.
  intros HE HEp R0 G Hc Hpg Hse Hrg Hra Hui Hfr Hsh Hpres HQ.
  assert (forall s4 P4 L4 e4, pager 0 [] C [] s4 P4 L4 e4 -> prefetch_step e e4 ->
    (m = false -> present_at e4 a) -> wp E (wrbt internal_call false) s4 Q) as Hend.
  { intros s4 P4 L4 e4 G4 S4 Hp4. pose proof (pg_view _ _ _ _ _ _ _ _ G4) as V4. vstep.
    match goal with V' : View ?s' _ _ ?e' |- Q tt ?s' => apply (HQ s' P4 L4 e'); [eapply at_rest_step; [exact R0| |]| | | | |] end.
    - eapply pager_vars; [exact G4|eassumption|vars_done..].
    - etrans; [exact Hc|]. etrans; [by apply call_prefetch|call_done].
    - simpl. by rewrite (pf_pages _ _ S4).
    - simpl. by rewrite (pf_self _ _ S4), (pf_glob _ _ S4).
    - exact Hp4.
    - simpl. by rewrite (pf_self _ _ S4).
    - intros b. simpl. by rewrite (pf_registered _ _ S4). }
  apply wp_bind. destruct m; [|apply wp_ret; by apply (Hend _ _ _ _ G)].
  apply wp_bind. eapply wp_core_try_prefetch; [exact HE|exact HEp|exact G| |by left|done..|].
  - by apply (i_range _ _ _ _ _ _ _ (pg_inv _ _ _ _ _ _ _ _ G)).
  - intros n4 s4 P4 L4 e4 G4 S4 _. apply wp_ret. by apply (Hend s4 P4 L4 e4).
Qed.

Lemma wp_handle_missing_fault C s P L e a x Q :
  buffers_fail E -> at_rest C s P L e -> pages e !! a = Some x -> a <> 0 ->
  (exists px, P !! x = Some px /\ swapped_out px = true) ->
  (forall s' P' L' e', at_rest C s' P' L' e' -> pages e' = pages e -> glob e' (prev_fault_1 (self e')) = a ->
     (sequential e a = false -> present_at e' a) -> self e' = self e ->
     (forall b, registered (kern e') b = registered (kern e) b) -> Q tt s') ->
  wp E (handle_missing_fault (Some x)) s Q.
Proof.
  intros (HE & HEb & HEp) R0 Ht H0 (px0 & Hx0 & Hso0) HQ. pose proof R0 as [G Hs Hin Hf _]. pager_facts G.
  destruct (tracked_cases _ _ _ _ _ _ _ G Ht H0) as (px & l & Hm & Hv & Hl & Hrole).
  pose proof Hm as [Hx Hpt]. assert (px0 = px) as -> by congruence.
  destruct Hrole as [[_ R]|[-> Hsw]]; [by destruct R; congruence|].
  assert (held e = []) as Hh by apply I.
  assert (0 < frames e) as Hf0 by (unfold CORE_PREFETCH_RATE in Hf; lia).
  unfold handle_missing_fault. do 2 vstep.
  rewrite bool_decide_eq_false_2 by done. vstep.
  vstep; [rewrite Hh; not_in|]. vstep. rewrite (sw_migrating _ _ _ _ Hsw).
  vstep. rewrite Hso0. simpl. vstep. vstep; [rewrite Hh; not_in|].
  do 4 vstep. vstep. rewrite Hpt. vstep. psimpl.
  match goal with V' : View ?s' _ L ?e' |- wp _ _ ?s' _ =>
    destruct (claim_swapped C s s' P L e e' x px G Hl Hm Hsw V') as [Gc Hsw']; [vars_done..|];
    set (e1 := e') in * end.
  assert (managed (<[x := set_migrating true px]> P) x (set_migrating true px)) as Hm'
    by (split; [by rewrite lookup_insert_eq|done]).
  apply wp_bind. eapply pl_swapin; [done..|].
  intros s2 P2 L2 e2 px2 Hb Hv2 S2 Hui Hg2. vclear.
  pose proof (cl_view _ _ _ _ _ _ _ _ _ (bi_claimed _ _ _ _ _ _ _ _ _ Hb)) as V2.
  pose proof (bi_page _ _ _ _ _ _ _ _ _ Hb) as [Hx2 Hpt2]. simpl in Hv2.
  assert (held e2 = []) as Hh2 by by rewrite (sp_held _ _ S2).
  pose proof (av_aligned _ _ _ (sw_at _ _ _ _ Hsw)) as Hal.
  vstep. rewrite Hv2. vstep. vstep; [by rewrite bool_decide_eq_false_2 by congruence|]. vstep.
  vstep; [rewrite Hh2; not_in|]. do 2 vstep. vstep; [rewrite Hh2; not_in|]. vstep.
  match goal with V' : View ?s' ?P' _ ?e' |- wp _ _ ?s' _ =>
    set (e3 := e') in *; assert (pager 0 [] C [] s' P' L2 e3) as G3;
    [eapply release_resident; [exact Hb|reflexivity|eassumption|unfold e3; vars_done..]|] end.
  assert (forall x, is_counter x = false -> x <> buffer_space (self e1) -> x <> major_faults_handled ->
    glob e3 x = glob e1 x) as Hgl by (intros y ???; unfold e3; simpl; rewrite fupd_ne by done; by apply S2).
  assert (forall b, is_transient b = false -> b <> buffer_allocated (self e1) -> flag e3 b = flag e1 b) as Hfl by apply S2.
  assert (call_step e e3) as Hc3.
  { trans e1; [unfold e1; call_done|]. trans e2; [by apply call_swap|unfold e3; call_done]. }
  rewrite orb_false_r. fold (sequential e (va px)). rewrite Hv.
  assert (self e3 = self e1) as Hse by apply S2.
  assert (glob e3 (prev_fault_1 (self e3)) = a) as Hp1 by (rewrite Hse, Hgl by done; unfold e1; simpl; by simp_fupd).
  assert (present_at e3 a) as Hpres.
  { unfold present_at. simpl. rewrite <- Hv, <- Hv2.
    pose proof (re_mem _ _ _ _ _ _ (bi_resident _ _ _ _ _ _ _ _ _ Hb)) as Hmem. simpl in Hmem.
    rewrite Hmem. by eexists. }
  eapply (wp_fault_end C _ _ _ _ _ _ _ _ a _ _ HE HEp R0 G3); [exact Hc3|apply S2|apply Hc3|exact Hg2| |exact Hui| | |exact Hpres|].
  - rewrite Hg2, <- Hv. apply (av_registered _ _ _ (sw_at _ _ _ _ Hsw)).
  - unfold frames in *. rewrite Hgl by done. unfold e1. simpl. by simp_fupd.
  - rewrite Hfl by done. unfold e1. simpl. by simp_fupd.
  - rewrite Hp1. exact HQ.
Qed.

(** ** A page touched for the first time *)

Lemma wp_add_page x px s P L e (Q : unit -> state K -> Prop) :
  View s P L e -> P !! x = Some px -> pages_lock ∉ held e -> pages e !! va px = None ->
  (forall s', View s' P L (set_pages (<[va px := x]> (pages e)) (set_held (held e) e)) -> Q tt s') ->
  wp E (add_page (Some x)) s Q.
Proof.
  intros V Hx Hl Hn HQ. unfold add_page. vstep. vstep. vstep.
  vstep. vstep. vstep. by eapply HQ.
Qed.

Lemma idle_adopted C P L e d pd a :
  idle true pd -> pages e !! a = Some d -> a <> 0 -> a mod PAGE_SIZE = 0 ->
  registered (kern e) a = true -> mem (kern e) a = Some (C a) ->
  resident C P L e d (set_swapped_out false (set_migrating false (set_va a pd))).
Proof.
  intros [Hd Hv Hr] Ht H0 Ha Hreg Hm. split; simpl; try done.
  intros Hh. simpl in Hh. congruence.
Qed.

Lemma wp_handle_first_fault C s P L e a Q :
  can_run_out E -> at_rest C s P L e -> pages e !! a = None -> a <> 0 -> a mod PAGE_SIZE = 0 ->
  registered (kern e) a = true ->
  (forall s' P' L' e' x, at_rest C s' P' L' e' -> pages e' = <[a := x]> (pages e) ->
     present_at e' a -> self e' = self e ->
     (forall b, registered (kern e') b = registered (kern e) b) -> Q tt s') ->
  wp E (handle_first_fault a) s Q.
Proof.
  intros HE R0 Hn H0 Ha Hr HQ. pose proof R0 as [G Hs Hin Hf _]. pager_facts G.
  destruct (i_untracked _ _ _ _ _ _ _ I a Hr Hn) as [Hma HCa].
  assert (held e = []) as Hh by apply I.
  assert (2 * 0 < frames e) as Hf0 by (unfold CORE_PREFETCH_RATE in Hf; lia).
  unfold handle_first_fault. vstep. vstep; [by rewrite bool_decide_eq_false_2|].
  set (e0 := set_flag (internal_call (self e)) true e) in *.
  assert (pager 0 [] C [] s0 P L e0) as G0 by (eapply pager_vars; [exact G|exact V0|(unfold e0; vars_done)..]).
  apply wp_bind. eapply pl_pagefault; [done|exact HE|exact G0|done|done|by simpl; simp_fupd|].
  intros s1 d pd P1 L1 e1 G1 Hf1 Hmd Hid Hmg. vclear. vstep.
  pose proof (pg_view _ _ _ _ _ _ _ _ G1) as V1. pose proof (pg_inv _ _ _ _ _ _ _ _ G1) as I1.
  assert (held e1 = []) as Hh1 by apply I1. pose proof (fr_env _ _ _ _ _ Hf1) as S1.
  assert (pages e1 = pages e) as Hp1 by apply (es_pages _ _ S1).
  pose proof Hmd as [Hd Hpt].
  vstep; [rewrite Hh1; not_in|]. apply wp_bind. eapply wp_find_page; [eassumption|right; simpl; by rewrite Hh1|].
  intros s4 V4. simpl. rewrite Hp1, Hn. vclear.
  do 3 vstep. rewrite (id_va _ _ Hid). vstep. do 2 vstep. vstep; [by rewrite bool_decide_eq_false_2|].
  vstep. vclear.
  apply wp_bind. eapply wp_add_page; [eassumption|by rewrite lookup_insert_eq|simpl; rewrite Hh1; not_in|
    simpl; by rewrite Hp1|]. intros s3 V3. esimpl. vclear.
  vstep; [rewrite Hh1; not_in|]. do 7 vstep. vstep. rewrite Hpt. vstep.
  vstep; [by rewrite (id_dram _ _ Hid)|]. do 2 vstep. vclear.
  pose proof (i_conf _ _ _ _ _ _ _ I1) as Hc1.
  assert (registered (kern e1) a = true) as Hr1 by by rewrite (sg_registered _ _ (fr_reg _ _ _ _ _ Hf1)).
  destruct (i_untracked _ _ _ _ _ _ _ I1 a Hr1) as [Hma1 _]; [by rewrite Hp1|].
  apply wp_bind. eapply (wp_uffdio_copy _ _ []); [eassumption| |by constructor|done|done|].
  { by destruct (i_rings _ _ _ _ _ _ _ I1) as [? ? ? ? ?]; split. }
  intros s5 k5 V5 Hm5 Ho5 Hd5 Hg5 Hr5. esimpl. simp_fupd. vclear.
  destruct (co_cache _ Hc1) as (_ & _ & Hz). rewrite Hz, <- HCa in Hm5.
  do 2 vstep. set (pd' := set_swapped_out false (set_migrating false
    (set_va a (set_swapped_out false (set_migrating true pd))))) in *.
  match goal with V' : View ?s' ?P' _ ?e' |- wp _ _ ?s' _ =>
    assert (pager 1 [d] C [] s' P' L1 e') as G2 end.
  { split; [eassumption| |apply G1|apply NoDup_singleton].
    eapply (inv_adopt 1 [] C [] P1 L1 e1 a d pd pd'); try done; try vars_done.
    - by apply not_elem_of_nil.
    - by rewrite Hp1.
    - split_and!; [done|done|]. exact (so_present _ _ (i_slots _ _ _ _ _ _ _ I1) d pd Hmd).
    - constructor. }
  assert (managed (<[d := pd']> P1) d pd') as Hmd' by (split; [by rewrite lookup_insert_eq|done]).
  apply wp_bind. eapply pl_add_page; [exact G2|exact Hmd'| |constructor|].
  { apply (idle_adopted C _ _ _ d pd a); simpl; try done; [by rewrite lookup_insert_eq|].
    by rewrite (sg_registered _ _ Hg5). }
  intros s6 L6 G6. pose proof (pg_view _ _ _ _ _ _ _ _ G6) as V6.
  do 4 vstep.
  match goal with V' : View ?s' ?P' ?L' ?e' |- Q tt ?s' =>
    apply (HQ s' P' L' e' d); [eapply at_rest_step; [exact R0| |]| | | |] end.
  - eapply pager_vars; [exact G6|eassumption|vars_done..].
  - trans e0; [unfold e0; call_done|]. trans e1; [by apply call_env|call_done].
  - simpl. by rewrite Hp1.
  - unfold present_at. simpl. by rewrite Hm5.
  - apply (es_self _ _ S1).
  - intros b. simpl. rewrite (sg_registered _ _ Hg5). apply (sg_registered _ _ (fr_reg _ _ _ _ _ Hf1)).
Qed.

(** ** Start-up *)

(** The process before [extmem_init]: no descriptors, no lists, nothing
    registered with userfaultfd. *)
Record boot s e : Prop := {
  bt_view : View s ∅ (fun _ => []) e;
  bt_held : held e = [];
  bt_pages : pages e = ∅;
  bt_unregistered : forall a, registered (kern e) a = false;
  bt_rings : rings_ok [] e;
  bt_uring : forall t, flag e (uring_init t) = false;
  bt_buffer : forall t, flag e (buffer_allocated t) = false;
  bt_prefetch : forall t, flag e (prefetch_buffer_allocated t) = false;
  bt_main : self e = application 0;
  bt_calls : forall t, flag e (internal_call t) = false;
  bt_shrink : flag e shrinkage_running = false }.

Record good_config (c : config) : Prop := {
  gc_files : cf_logfile c = true /\ cf_traces c = true /\ cf_timef c = true /\ cf_statsf c = true;
  gc_disk : 0 <= cf_diskfd c;
  gc_uffd : cf_uffd c <> -1 /\ cf_uffdio_api c <> -1;
  gc_dramsize : 2 * CORE_PREFETCH_RATE * PAGE_SIZE <= default DRAMSIZE_DEFAULT (cf_dramsize c) <= 2 ^ 42;
  gc_disksize : 0 <= default DISKSIZE_DEFAULT (cf_disksize c) <= 2 ^ 42 }.

Lemma wp_extmem_init C c s e (Q : unit -> state K -> Prop) :
  boot s e -> good_config c -> E (SysFail "page cache mmap") ->
  (forall s' P' L' e', at_rest C s' P' L' e' -> flag e' (internal_call (self e')) = false -> self e' = self e ->
     (forall a, registered (kern e') a = false) -> Q tt s') ->
  wp E (extmem_init c) s Q.
Proof.
  intros [V Hh Hp Hu R Huf Hbf Hpf _ Hcf Hsh] [(Hf1 & Hf2 & Hf3 & Hf4) Hd [Hu1 Hu2] Hdr Hdk] HE HQ.
  unfold extmem_init. vstep. rewrite Hf1, Hf2, Hf3, Hf4. simpl. do 3 vstep. vstep.
  rewrite !bool_decide_eq_false_2 by done. simpl. do 2 vstep.
  assert (rings_ok [] (set_glob diskfd (cf_diskfd c) (set_flag (internal_call (self e)) true e))) as R1.
  { destruct R as [? ? Ri Rf ?]. split; try done; intros r; simpl; rewrite fupd_ne by (by destruct r); auto. }
  apply wp_bind. unfold uswap_init_iouring.
  eapply (wp_thread_init io_ring); [eassumption|exact R1|by simpl; simp_fupd|].
  intros s1 k1 e1 V1 [Hm1 Hd1 Hg1] R2. vclear. do 2 vstep. do 2 vstep.
  apply wp_bind. eapply wp_sys; [eassumption|]. intros a k2 s2 Hk V2. vclear. vstep.
  apply wp_bind, wp_die_if; [by right|]. intros Hne%bool_decide_eq_false.
  destruct (l_mmap _ _ _ _ _ _ _ _ plain_reserve Hk Hne) as (Ha & Hfresh & Hmap & Hreg & Hm2 & Hd2 & Hr2).
  simpl in Hm1, Hd1, Hg1.
  assert (in_range a (16 * PAGE_SIZE * MAX_USER_THREADS) a) as Hin.
  { unfold in_range, PAGE_SIZE, BASEPAGE_SIZE, MAX_USER_THREADS. lia. }
  destruct (l_memset_zero a (16 * PAGE_SIZE * MAX_USER_THREADS) k2) as (Hz & Hm3 & Hg3 & Hd3 & Hr3).
  vstep. set (k3 := k_memset _ _ _ _) in *.
  match goal with V' : View ?s' _ _ ?e' |- wp _ _ ?s' _ => set (e3 := e') in * end.
  assert (forall b, registered (kern e3) b = false) as Hu3.
  { intros b. simpl. rewrite (sg_registered _ _ Hg3), Hreg. simpl. by rewrite (sg_registered _ _ Hg1). }
  apply wp_bind. eapply (pl_init _ C); [eassumption|exact Hh| | |exact Hp|exact Hu3|done|].
  - split; unfold buffer_ok; simpl; simp_fupd; try done; try (intros t; rewrite !fupd_ne by done; by rewrite ?Hbf, ?Hpf).
    + unfold CORE_PREFETCH_RATE, PAGE_SIZE, BASEPAGE_SIZE in *. lia.
    + split_and!; [|by apply Hu3|by apply Hz].
      rewrite (sg_mapped _ _ Hg3). apply Hmap. by left.
  - assert (same_rings (kern e1) k3) as Hrr by (etrans; [exact Hr2|exact Hr3]).
    pose proof (rings_ok_same _ _ _ R2 Hrr) as [? ? ? ? ?]. by split.
  - intros s4 P4 L4 k4 G4 O4 Hsz. pose proof (pg_view _ _ _ _ _ _ _ _ G4) as V4. vclear. vstep.
    apply wp_bind. eapply wp_calloc_page; [eassumption|lia|]. intros x s5 Hx V5. vclear.
    apply wp_bind. eapply wp_add_page; [eassumption|by rewrite lookup_insert_eq|unfold e3, e1; simpl; rewrite Hh; not_in|unfold e3, e1; simpl; by rewrite Hp|].
    intros s6 V6. vstep. simpl in V6.
    match goal with V' : View ?s' ?P' ?L' ?e' |- Q tt ?s' =>
      apply (HQ s' P' L' e'); [split| |done|] end.
    + destruct G4 as [_ I4 Hf4' Hn4]. split; [eassumption| |done|done].
      apply (inv_dummy _ _ _ _ _ _ _ x zeroed_page) in I4; [|done|done].
      eapply inv_vars; [exact I4|vars_done..].
    + simpl. by simp_fupd.
    + simpl. by simp_fupd.
    + unfold frames. simpl. simp_fupd. apply Z.div_le_lower_bound; [done|]. lia.
    + intros n Hn. simpl in *. rewrite !fupd_ne by congruence. apply Hcf.
    + simpl. by simp_fupd.
    + intros b. simpl. rewrite (sg_registered _ _ (oe_reg _ _ O4)). apply Hu3.
Qed.

(** ** Mapping memory *)

(** The logical memory with zeroes in [[start, start + len)]. *)
Definition zeroed C (start len : Z) : Z -> D :=
  fun a => if bool_decide (start <= a < start + len) then zero_page else C a.

Lemma zeroed_out C start len a : ~ in_range start len a -> zeroed C start len a = C a.
Proof. intros H. unfold zeroed. by rewrite bool_decide_eq_false_2. Qed.

(** A fresh range put under userfaultfd. *)
Lemma inv_mmap k C P L e e' p len :
  inv k [] C [] P L e -> 0 < p -> p + len <= 2 ^ 47 ->
  (forall a, in_range p len a ->
     mem (kern e) a = None /\ registered (kern e) a = false /\ mapped (kern e) a = false) ->
  (forall a, registered (kern e') a = true <-> (in_range p len a \/ registered (kern e) a = true)) ->
  (forall a, mapped (kern e) a = true -> mapped (kern e') a = true) ->
  same_mem_but (fun _ => False) (kern e) (kern e') -> same_disk (kern e) (kern e') ->
  same_rings (kern e) (kern e') ->
  (forall x, inv_gvar x = true -> glob e' x = glob e x) ->
  (forall b, inv_bvar b = true -> flag e' b = flag e b) -> pages e' = pages e -> held e' = held e -> self e' = self e ->
  inv k [] (zeroed C p len) [] P L e'.
Proof.
  intros I Hp0 Hp Hfresh Hreg Hmap Hm Hd Hrings Hg Hf Hpg Hh Hse.
  pose proof I as [Hh0 Hc Hr Hs Hro Ho Hw Ht Hcl Hun Hfl Hn Hrg].
  assert (forall a, registered (kern e) a = true -> ~ in_range p len a) as Hold.
  { intros a Ha Hin. destruct (Hfresh a Hin) as (_ & Hr' & _). congruence. }
  assert (forall a, mapped (kern e) a = true -> registered (kern e) a = false ->
    registered (kern e') a = false) as Hunreg.
  { intros a Ha Hra. apply not_true_is_false. intros [Hin|]%Hreg; [|congruence].
    destruct (Hfresh a Hin) as (_ & _ & ?). congruence. }
  eapply (inv_update []); [exact I| | |by eapply slots_env; eauto| | |by rewrite Hh| |].
  - split; try done.
    + intros x pg _ _ Hmx [Hav H0 Hal Hrx]. split_and!.
      * apply zeroed_out. by apply Hold.
      * apply Hm. auto.
      * apply Hm. auto.
      * rewrite Hrx. apply Hreg. by right.
      * by rewrite Hpg.
    + intros a Ha Hna. rewrite (sm_mem _ _ _ Hm) by auto. rewrite Hpg in Hna. apply Hreg in Ha as [Hin|Ha].
      * destruct (Hfresh a Hin) as (Hma & _). split; [done|]. unfold zeroed.
        by rewrite bool_decide_eq_true_2.
      * rewrite zeroed_out by by apply Hold. by apply Hun.
    + intros a [[H1 H2]|Ha]%Hreg; [lia|by apply Hrg].
    + by intros x ?%elem_of_nil.
  - split; try done; try (intros x; intros; by exfalso; eapply elem_of_nil).
    intros a x _ _. by rewrite Hpg.
  - apply (conf_ok_env e); auto. unfold content. by rewrite (sm_mem _ _ _ Hm) by auto.
  - destruct Hrings as [Sp Si Se Sr]. destruct Hr as [Rp Ri Rinit Rf Rrd].
    split; [intros; by rewrite Sp|intros; by rewrite Si, Hse| | |done];
      intros r; rewrite ?Hse, Hf by (by destruct r); [rewrite Sr, Se; auto|auto].
  - constructor.
  - unfold frames in *. by rewrite Hg.
Qed.

(** One page of a populated mapping after the other. *)
Lemma wp_populate fuel C s P L e p len Q :
  can_run_out E -> at_rest C s P L e -> p mod PAGE_SIZE = 0 -> len mod PAGE_SIZE = 0 ->
  (forall a, in_range p len a -> registered (kern e) a = true) ->
  (forall a, in_range p len a -> pages e !! a = None) ->
  0 < p -> 0 < len -> p + len <= 2 ^ 47 -> (Z.to_nat (len / PAGE_SIZE) < fuel)%nat ->
  (forall s' P' L' e', at_rest C s' P' L' e' -> self e' = self e ->
     (forall b, registered (kern e') b = registered (kern e) b) ->
     (forall a, in_range p len a -> a mod PAGE_SIZE = 0 -> is_Some (pages e' !! a)) -> Q tt s') ->
  wp E (extmem_mmap_populate fuel p len) s Q.
Proof.
  intros HE G Hpa Hla Hreg Hnone Hp Hl Hpl Hfuel HQ. unfold extmem_mmap_populate.
  vstep; [by rewrite bool_decide_eq_false_2 by lia|].
  vstep; [by rewrite bool_decide_eq_false_2 by lia|]. rewrite u64_small by lia.
  eapply (wp_loop _ _ _ (fun n a s => exists P' L' e', at_rest C s P' L' e' /\ self e' = self e /\ p <= a <= p + len /\
    a mod PAGE_SIZE = 0 /\ n = Z.to_nat ((p + len - a) / PAGE_SIZE) /\
    (forall b, registered (kern e') b = registered (kern e) b) /\
    (forall b, a <= b < p + len -> pages e' !! b = None) /\
    (forall b, p <= b < a -> b mod PAGE_SIZE = 0 -> is_Some (pages e' !! b)))); [| |].
  - exists P, L, e. split_and!; [done|done|lia|lia|done..|lia].
  - rewrite Z.add_simpl_l. lia.
  - clear dependent s P L. intros n a s (P & L & e1 & G & Hse1 & Ha & Hal & -> & Hr1 & Hn1 & Ht1).
    unfold populate_body. case_bool_decide as Hlt; [|vstep; eapply HQ; [done..|]; unfold in_range; intros b Hb Hbm; apply Ht1; [lia|done]].
    apply wp_bind. eapply wp_handle_first_fault; [done|exact G|apply Hn1; lia|lia|done|rewrite Hr1; apply Hreg; split; lia|].
    intros s' P' L' e' x G' Hpg _ Hse' Hr'. vstep.
    rewrite u64_small by (unfold PAGE_SIZE, BASEPAGE_SIZE; lia).
    assert (a + PAGE_SIZE <= p + len /\ (a + PAGE_SIZE) mod PAGE_SIZE = 0 /\
      0 <= (p + len - (a + PAGE_SIZE)) / PAGE_SIZE < (p + len - a) / PAGE_SIZE) as (Hs1 & Hs2 & Hs3).
    { by apply next_page. }
    exists (Z.to_nat ((p + len - (a + PAGE_SIZE)) / PAGE_SIZE)). split; [lia|].
    exists P', L', e'. split_and!; [done|congruence|unfold PAGE_SIZE, BASEPAGE_SIZE in *; lia..|done|done| | |].
    + intros b. by rewrite Hr'.
    + intros b Hb. rewrite Hpg, lookup_insert_ne by (unfold PAGE_SIZE, BASEPAGE_SIZE in *; lia).
      apply Hn1. unfold PAGE_SIZE, BASEPAGE_SIZE in *. lia.
    + intros b Hb Hbm. rewrite Hpg. destruct (decide (b = a)) as [->|Hba].
      { rewrite lookup_insert_eq. by eexists. }
      rewrite lookup_insert_ne by done. apply Ht1; [|done]. by apply same_page.
Qed.
(** [extmem_mmap]: a fresh zeroed range under userfaultfd. *)
Lemma fresh_untracked C s P L e a :
  pager 0 [] C [] s P L e -> a <> 0 -> registered (kern e) a = false -> pages e !! a = None.
Proof.
  intros G H0 Hr. destruct (pages e !! a) as [x|] eqn:Ht; [exfalso|done].
  destruct (tracked_cases _ _ _ _ _ _ _ G Ht H0) as (px & l & _ & <- & _ & Hrole).
  destruct Hrole as [[_ [? [] ? ? ? ?]]|[_ [? [] ? ? ? ? ?]]]; congruence.
Qed.

(** The flags handed to the kernel ask for a fixed, growing or locked mapping
    only if the caller's do. *)
Lemma mmap_flags_plain flags : plain_mapping flags = true -> plain_mapping (mmap_flags flags).1 = true.
Proof.
  unfold plain_mapping. rewrite !bool_decide_eq_true. set (m := Z.lor MAP_FIXED _). intros Hm.
  assert (forall a b, Z.land a m = 0 -> Z.land b m = 0 -> Z.land (Z.lor a b) m = 0) as Hor
    by (intros a b Ha Hb; by rewrite Z.land_lor_distr_l, Ha, Hb).
  assert (forall a b, Z.land a m = 0 -> Z.land (Z.ldiff a b) m = 0) as Hdiff
    by (intros a b Ha; by rewrite Z.ldiff_land, <- Z.land_assoc, (Z.land_comm _ m), Z.land_assoc, Ha).
  unfold mmap_flags. simpl. repeat case_match; simpl; auto 10.
Qed.

Lemma wp_extmem_mmap fuel C s P L e addr len prot flags fd off Q :
  can_run_out E -> E (SysFail "mmap") -> at_rest C s P L e -> 0 < len <= 2 ^ 63 ->
  plain_mapping flags = true ->
  (Z.to_nat (PAGE_ROUND_UP len / PAGE_SIZE) < fuel)%nat ->
  (forall s' P' L' e' p, at_rest (zeroed C p (PAGE_ROUND_UP len)) s' P' L' e' ->
     0 < p -> p mod PAGE_SIZE = 0 -> p + PAGE_ROUND_UP len <= 2 ^ 47 ->
     (forall a, in_range p (PAGE_ROUND_UP len) a -> registered (kern e) a = false) ->
     (forall a, registered (kern e') a = true <->
        (in_range p (PAGE_ROUND_UP len) a \/ registered (kern e) a = true)) ->
     flag e' (internal_call (self e')) = false -> self e' = self e -> glob e' mem_mmaped = PAGE_ROUND_UP len -> Q p s') ->
  wp E (extmem_mmap fuel addr len prot flags fd off) s Q.
Proof.
  intros HE HEm R0 Hl Hplain%mmap_flags_plain Hfuel HQ. pose proof R0 as [G Hs Hin Hf _]. pager_facts G. pose proof (page_round_up len Hl) as [Hpr Hpb].
  unfold extmem_mmap. vstep. vstep. vstep. vstep; [by rewrite bool_decide_eq_false_2 by lia|].
  destruct (mmap_flags flags) as [flags' populate].
  set (n := PAGE_ROUND_UP len) in *.
  apply wp_bind. eapply wp_sys; [eassumption|]. intros p k1 s1 Hk1 V1. vclear.
  apply wp_bind, wp_die_if; [by right|]. intros [Hp0 Hpf]%orb_false_iff.
  apply bool_decide_eq_false in Hpf.
  destruct (l_mmap _ _ _ _ _ _ _ _ Hplain Hk1 Hpf) as ((Hp & Hpa & Hpe) & Hfresh & Hmap & Hreg & Hm1 & Hd1 & Hr1).
  simpl in Hfresh, Hmap, Hreg, Hm1, Hd1, Hr1.
  vstep. apply wp_bind. eapply wp_sys; [eassumption|]. intros r k2 s3 Hk2 V3. vclear. simpl in Hk2.
  apply wp_bind, wp_check. { rewrite bool_decide_eq_false. by eapply l_register_ok. }
  intros Hrf%bool_decide_eq_false.
  destruct (l_register _ _ _ _ _ _ Hk2 Hrf) as (Hreg2 & Hmap2 & Hm2 & Hd2 & Hr2).
  match goal with V' : View ?s' _ _ ?e' |- wp _ _ ?s' _ => set (e1 := e') in *; set (s1' := s') in * end.
  assert (forall a, registered (kern e1) a = true <-> in_range p n a \/ registered (kern e) a = true) as Hreg1.
  { intros a. unfold e1. simpl. rewrite Hreg2, Hreg. done. }
  assert (at_rest (zeroed C p n) s1' P L e1) as G1.
  { eapply at_rest_step; [exact R0|split; [done| |by intros ? ?%elem_of_nil|constructor]|unfold e1; call_done].
    - eapply (inv_mmap 0 C P L e e1 p n); [apply G|done|done|done|done| | | | |unfold e1; vars_done..].
      + intros a Ha. unfold e1. simpl. rewrite Hmap2. apply Hmap. by right.
      + by etrans.
      + by etrans.
      + by etrans. }
  assert (wp E (if populate then extmem_mmap_populate fuel p n else mret tt) s1'
    (fun _ s' => exists P' L' e', at_rest (zeroed C p n) s' P' L' e' /\
       self e' = self e /\ (forall b, registered (kern e') b = registered (kern e1) b))) as Hpop.
  { destruct populate; [|apply wp_ret; by exists P, L, e1].
    eapply wp_populate; [done|exact G1|done|done| | |done|lia|done|done|].
    - intros a Ha. apply Hreg1. by left.
    - intros a Ha. change (pages e1) with (pages e). eapply fresh_untracked; [exact G|destruct Ha; lia|].
      by apply Hfresh.
    - intros s' P' L' e' G' Hse' Hr' _. by exists P', L', e'. }
  apply wp_bind. eapply wp_mono; [exact Hpop|].
  intros [] s4 (P4 & L4 & e4 & R4 & Hse4 & Hr4). pose proof (ar_pager _ _ _ _ _ R4) as G4. pose proof (pg_view _ _ _ _ _ _ _ _ G4) as V4.
  vclear. vstep.
  match goal with V' : View ?s' _ _ ?e' |- wp _ _ ?s' _ => set (e6 := e') in * ;
    assert (pager 0 [] (zeroed C p n) [] s' P4 L4 e6) as G6
      by (eapply pager_vars; [exact G4|exact V'|unfold e6; vars_done..]) end.
  apply wp_bind. eapply pl_ack_vma; [eassumption|]. intros s5 e5 V5 O5. vclear.
  pose proof (pager_own_step _ _ _ _ _ _ _ _ _ _ G6 V5 O5) as G5. pose proof (call_env _ _ (own_env_step _ _ O5)) as Hc5. destruct O5 as [Hg5 Hf5 Hp5 Hh5 Hse5 Hk5]. vstep. vstep.
  match goal with V' : View ?s' ?P' ?L' ?e' |- Q p ?s' =>
    apply (HQ s' P' L' e'); [eapply at_rest_step; [exact R4| |]| |done|done| | | | |] end; try done.
  - eapply pager_vars; [exact G5|eassumption|vars_done..].
  - trans e6; [unfold e6; call_done|]. trans e5; [done|call_done].
  - intros a Ha. by apply Hfresh.
  - intros a. simpl. rewrite Hk5. unfold e6. simpl. rewrite Hr4. apply Hreg1.
  - simpl. by simp_fupd.
  - simpl. by rewrite Hse5.
  - simpl. rewrite Hg5 by done. unfold e6. simpl. by simp_fupd.
Qed.
(** ** The signal handler *)

Lemma wp_uswap_sig_handler C s P L e code fault_addr Q :
  buffers_fail E -> at_rest C s P L e -> code <> SIGSEGV -> page_of fault_addr <> 0 -> 0 <= fault_addr < 2 ^ 64 ->
  registered (kern e) (page_of fault_addr) = true ->
  (forall s' P' L' e', at_rest C s' P' L' e' ->
     (sequential e (page_of fault_addr) = false -> present_at e' (page_of fault_addr)) ->
     present_at e' (page_of fault_addr) \/ glob e' (prev_fault_1 (self e')) = page_of fault_addr ->
     flag e' (internal_call (self e')) = false -> self e' = self e ->
     (forall b, registered (kern e') b = registered (kern e) b) -> Q tt s') ->
  wp E (uswap_sig_handler code fault_addr) s Q.
Proof.
  intros HB G Hc H0 Hr Hreg HQ. pose proof (page_of_down _ Hr) as [Hal _].
  set (a := page_of fault_addr) in *.
  assert (forall s1 P1 L1 e1, at_rest C s1 P1 L1 e1 -> (sequential e a = false -> present_at e1 a) ->
    present_at e1 a \/ glob e1 (prev_fault_1 (self e1)) = a -> self e1 = self e ->
    (forall b, registered (kern e1) b = registered (kern e) b) ->
    wp E (wrbt internal_call false) s1 Q) as Hend.
  { intros s1 P1 L1 e1 R1 Hp1 Hq1 Hse1 Hr1. pose proof (ar_pager _ _ _ _ _ R1) as G1.
    pose proof (pg_view _ _ _ _ _ _ _ _ G1). vstep.
    match goal with V' : View ?s' ?P' ?L' ?e' |- Q tt ?s' => apply (HQ s' P' L' e'); try done; [|simpl; by simp_fupd] end.
    eapply at_rest_step; [exact R1| |call_done]. eapply pager_vars; [exact G1|eassumption|vars_done..]. }
  pose proof G as R0. destruct G as [G Hs Hi Hf _]. pager_facts G. assert (held e = []) as Hh by apply I.
  unfold uswap_sig_handler. vstep. vstep; [by rewrite bool_decide_eq_false_2|]. fold a.
  apply wp_bind. eapply wp_find_page; [eassumption|left; simpl; by rewrite Hh|].
  intros s1 V1. vclear. simpl.
  set (e1 := set_flag (internal_call (self e)) true e) in *.
  assert (at_rest C s1 P L e1) as G1.
  { eapply at_rest_step; [exact R0| |unfold e1; call_done]. eapply pager_vars; [exact G|eassumption|unfold e1; vars_done..]. }
  destruct (pages e !! a) as [x|] eqn:Ht.
  - destruct (tracked_cases _ _ _ _ _ _ _ G Ht H0) as (px & l & [Hx Hpt] & Hv & Hl & Hrole).
    vstep. destruct Hrole as [[_ R]|[-> Hsw]].
    + rewrite (re_swapped _ _ _ _ _ _ R). eapply wp_handle_wp_fault; [exact G1|exact Ht|done|].
      intros s2 e2 G2 Hk2 Hse2.
      assert (present_at e2 a).
      { unfold present_at. rewrite Hk2. simpl. rewrite <- Hv, (re_mem _ _ _ _ _ _ R). by eexists. }
      eapply Hend; [exact G2|done|by left|done|intros b; by rewrite Hk2].
    + rewrite (sw_swapped _ _ _ _ Hsw).
      eapply wp_handle_missing_fault; [done|exact G1|exact Ht|done| |].
      { exists px. split; [done|]. apply Hsw. }
      intros s2 P2 L2 e2 G2 _ Hq2 Hp2 Hse2 Hr2. eapply Hend; [exact G2|exact Hp2|by right|exact Hse2|exact Hr2].
  - apply wp_bind. eapply wp_handle_first_fault; [apply HB|exact G1|done|done|done|done|].
    intros s2 P2 L2 e2 x G2 _ Hp2 Hse2 Hr2. eapply Hend; [exact G2|done|by left|exact Hse2|exact Hr2].
Qed.
End handlers.
