(* ===== verification/Workers.v ===== *)
(** * The background threads of [policies/disklinux.c]

    kswapd moves pages between the LRU lists, the eviction worker empties
    the eviction list.  Each iteration, run between two operations of the
    application, leaves the pager at rest with the same logical memory: this
    is the interface [Background] against which [FlatMemory] runs the
    threads of a policy. *)

From S2P Require Import Prelude Kernel State Fifo Rules Uring Migrate Invariant Policy DiskLinux.
From S2P Require Import Reclaim Entry Core Tracked Handlers.

(** ** What the application relies on *)

(** An application that is running: the pager at rest, the library not in
    the middle of a call. *)
Section running.
Context {K D : Type} `{OB : KernelObs K D}.

Record running (C : Z -> D) (s : state K) P L (e : env K) : Prop := {
  ru_rest : at_rest C s P L e;
  ru_app : exists n, self e = application n;
  ru_external : flag e (internal_call (self e)) = false }.

Lemma running_external C s P L e n :
  running C s P L e -> flag e (internal_call (application n)) = false.
Proof.
  intros [R [m Hm] Hx]. destruct (decide (application n = self e)) as [->|Hn]; [done|by apply (ar_calls _ _ _ _ _ R)].
Qed.

(** Another thread runs: nothing it finds at rest depends on which. *)
Lemma running_switch C s s' P L e t :
  running C s P L e -> View s' P L (set_self t e) -> at_rest C s' P L (set_self t e).
Proof.
  intros G V'. pose proof (ru_rest _ _ _ _ _ G) as [[V I Hf Hn] Hs Hi Hfr _]. split; try done.
  - split; [done| |done|done]. by apply inv_switch.
  - intros n _. apply (running_external _ _ _ _ _ n G).
Qed.

(** Another thread of the application goes on. *)
Lemma running_to C s s' P L e n :
  running C s P L e -> View s' P L (set_self (application n) e) ->
  running C s' P L (set_self (application n) e).
Proof.
  intros G V'. split; [by eapply running_switch|by exists n|]. apply (running_external _ _ _ _ _ n G).
Qed.
End running.

(** The work done behind the application's back: one turn of the thread [t],
    and the faults such a turn may end in when a resource runs out. *)
Class Background (K : Type) := {
  background : thread -> M (state K) unit;
  background_fault : fault -> Prop }.

(** A turn is taken with the pager at rest and leaves it at rest. *)
Class BackgroundLaws (K D : Type) `{KO : KernelOps K, OB : KernelObs K D, BG : !Background K}
    (may_fail : Prop) : Prop := {
  bl_background E C P L (e : env K) s (Q : unit -> state K -> Prop) :
    Tolerates may_fail E -> (forall f, background_fault f -> E f) -> at_rest C s P L e ->
    (forall s' P' L' e', at_rest C s' P' L' e' -> self e' = self e ->
       (forall n, flag e' (internal_call (application n)) = flag e (internal_call (application n))) ->
       (forall a, registered (kern e') a = registered (kern e) a) -> Q tt s') ->
    wp E (background (self e)) s Q }.

(** The scheduler lets the thread [t] take a turn. *)
Definition take_turn {K} `{BG : !Background K} (t : thread) : M (state K) unit :=
  me ← get_env self;
  upd_env (set_self t);;
  in_thread (background t);;
  upd_env (set_self me).

Section turn.
Context {K D : Type} `{KO : KernelOps K, OB : KernelObs K D, BG : !Background K}.
Context `{BL : !BackgroundLaws K D may_fail} {E : fault -> Prop}.

Lemma wp_take_turn C s P L (e : env K) t (Q : unit -> state K -> Prop) :
  (may_fail -> forall what, E (ThreadFault (SysFail what))) ->
  (forall f, background_fault f -> E (ThreadFault f)) -> running C s P L e ->
  (forall s' P' L' e', running C s' P' L' e' ->
     (forall a, registered (kern e') a = registered (kern e) a) -> Q tt s') ->
  wp E (take_turn t) s Q.
Proof.
  intros HT HB G HQ. pose proof (ar_pager _ _ _ _ _ (ru_rest _ _ _ _ _ G)) as Gp. pager_facts Gp.
  unfold take_turn. vstep. vstep. apply wp_bind, wp_in_thread.
  eapply (bl_background _ C P L (set_self t e)); [by intros what ?; apply HT|done|by eapply running_switch|].
  intros s1 P1 L1 e1 G1 Hse Hca Hr1. simpl in *. pose proof (ar_pager _ _ _ _ _ G1) as Gp1.
  pose proof (pg_view _ _ _ _ _ _ _ _ Gp1) as V1. vclear. vstep.
  destruct (ru_app _ _ _ _ _ G) as [m Hm].
  assert (forall n, flag e1 (internal_call (application n)) = false) as Hx
    by (intros n; rewrite Hca; by eapply running_external).
  match goal with V' : View ?s' _ _ ?e' |- Q tt ?s' => apply (HQ s' P1 L1 e'); [split|] end; [|by exists m|simpl; rewrite Hm; apply Hx|done].
  destruct G1 as [[_ I1 Hf1 Hn1] Hs1 Hi1 Hfr1 _]. split; try done.
  - split; [done|by apply inv_switch|done|done].
  - intros n _. apply Hx.
Qed.
End turn.

(** ** kswapd *)

Section kswapd.
Context {K D : Type} `{KL : KernelLaws K D may_fail}.
Implicit Types (s : state K) (e : env K) (P : gmap loc user_page) (L : fifo_id -> list loc).
Implicit Types (C : Z -> D).

(** One turn of the kswapd thread: nothing while it sleeps. *)
Definition kswapd_turn_of (check : M (state K) bool) (work : M (state K) Z) : M (state K) unit :=
  sleeping ← rdb kswapd_waiting;
  if (sleeping : bool) then mret tt
  else
    asleep ← check;
    if (asleep : bool) then mret tt else work;; mret tt.
Definition kswapd_turn : M (state K) unit := kswapd_turn_of kswapd_check kswapd_work.

(** Which threads are inside the library, and which runs. *)
Record calls_kept (e e' : env K) : Prop := {
  ck_self : self e' = self e;
  ck_calls : forall t, flag e' (internal_call t) = flag e (internal_call t) }.

#[local] Instance calls_kept_preorder : PreOrder calls_kept.
Proof.
  split; [by split|]. intros ? ? ? [H1 H2] [H3 H4]. split; [congruence|]. intros t. by rewrite H4, H2.
Qed.

Lemma at_rest_vars C s s' P L e e' :
  at_rest C s P L e -> View s' P L e' ->
  (forall y, inv_gvar y = true -> glob e' y = glob e y) ->
  (forall b, b <> kswapd_running -> b <> kswapd_waiting -> flag e' b = flag e b) ->
  pages e' = pages e -> held e' = held e -> kern e' = kern e -> self e' = self e -> at_rest C s' P L e'.
Proof.
  intros R V Hg Hfl Hp Hh Hk Hse. eapply at_rest_step; [exact R| |split; try done; auto].
  eapply pager_vars; [apply R|done|done| |done..]. intros b Hb. apply Hfl; by intros ->.
Qed.

Lemma low_water_bound percent e :
  0 <= percent <= 100 -> 0 <= glob e dramsize <= 2 ^ 42 ->
  0 <= u64 (percent * glob e dramsize) / (PAGE_SIZE * 100) <= 2 ^ 30.
Proof.
  intros. change (PAGE_SIZE * 100) with 409600. rewrite u64_small by nia.
  split; [apply Z.div_pos; nia|apply Z.div_le_upper_bound; nia].
Qed.

Lemma lru_bound C s P L e :
  at_rest C s P L e -> Z.of_nat (length (L active_list)) + Z.of_nat (length (L inactive_list)) <= 2 ^ 30.
Proof.
  intros G. pose proof (ar_pager _ _ _ _ _ G) as Gp. pager_facts Gp.
  pose proof (i_count _ _ _ _ _ _ _ I) as Hc. destruct (co_dram _ (i_conf _ _ _ _ _ _ _ I)) as [_ Hd].
  assert (frames e <= 2 ^ 30); [|unfold on_frames in Hc; lia].
  unfold frames. apply Z.div_le_upper_bound; [done|]. by unfold PAGE_SIZE, BASEPAGE_SIZE.
Qed.

Context {E : fault -> Prop} `{!Tolerates may_fail E}.

Lemma wp_kswapd_check_at percent C s P L e (Q : bool -> state K -> Prop) :
  0 <= percent <= 100 -> at_rest C s P L e ->
  (forall s' e' b, at_rest C s' P L e' -> calls_kept e e' -> kern e' = kern e ->
     b = bool_decide (Z.of_nat (length (L active_list)) + Z.of_nat (length (L inactive_list)) <=
           u64 (percent * glob e dramsize) / (PAGE_SIZE * 100)) ->
     flag e' kswapd_waiting = b || flag e kswapd_waiting -> Q b s') ->
  wp E (kswapd_check_at percent) s Q.
Proof.
  intros Hpc G HQ. pose proof (ar_pager _ _ _ _ _ G) as Gp. pager_facts Gp. assert (held e = []) as Hh by apply I.
  pose proof (lru_bound _ _ _ _ _ G) as Hlru.
  unfold kswapd_check_at, low_water_at. vstep. vstep. vstep. vstep.
  rewrite i64_small, u64_small by lia. set (c := bool_decide _) in *. destruct c eqn:Hc.
  - vstep; [rewrite Hh; not_in|]. vstep. vstep; [rewrite Hh; not_in|]. vstep.
    match goal with V' : View ?s' _ _ ?e' |- Q true ?s' => apply (HQ s' e' true) end; try done.
    + eapply at_rest_vars; [exact G|eassumption|vars_done| |done|by simpl; rewrite Hh|done..].
      intros b H1 H2. simpl. by rewrite fupd_ne by congruence.
  - vstep. by apply (HQ s e false).
Qed.

(** What a round of kswapd does to the lists: it works exactly when the LRU
    lists are above the low-water mark [low], and then selects victims. *)
Record worked (low : Z) P L e (n : Z) P' L' e' : Prop := {
  wk_others : same_others L L';
  wk_victims : (length (L eviction_list) <= length (L' eviction_list))%nat;
  wk_frames : frames e' = frames e;
  wk_running : flag e' kswapd_running = false;
  wk_idle : Z.of_nat (length (L active_list)) + Z.of_nat (length (L inactive_list)) <= low ->
    n = 0 /\ P' = P /\ L' = L }.

Lemma wp_kswapd_work_at percent reclaim C s P L e (Q : Z -> state K -> Prop) :
  0 <= percent <= 100 -> reclaims (E := E) reclaim -> at_rest C s P L e ->
  (forall n s' P' L' e', at_rest C s' P' L' e' -> calls_kept e e' -> same_reg (kern e) (kern e') ->
     worked (u64 (percent * glob e dramsize) / (PAGE_SIZE * 100)) P L e n P' L' e' -> Q n s') ->
  wp E (kswapd_work_at percent reclaim) s Q.
Proof.
  intros Hpc HR G HQ. unfold kswapd_work_at, low_water_at. pose proof (ar_pager _ _ _ _ _ G) as Gp. pager_facts Gp.
  pose proof (lru_bound _ _ _ _ _ G) as Hlru.
  pose proof (low_water_bound percent e Hpc (co_dram _ (i_conf _ _ _ _ _ _ _ I))) as Hlow.
  set (low := u64 _ / _) in *.
  vstep. set (e1 := set_flag kswapd_running true e) in *.
  match goal with V' : View ?s' _ _ e1 |- wp _ _ ?s' _ => assert (at_rest C s' P L e1) as G1 end.
  { eapply at_rest_vars; [exact G|eassumption|vars_done| |done..].
    intros b H1 H2. unfold e1. simpl. by rewrite fupd_ne by congruence. }
  do 3 vstep. vstep. change (glob e1 dramsize) with (glob e dramsize). fold low.
  rewrite (i64_small low), (i64_small (_ + _)), i64_small, i32_small by lia. case_bool_decide as Hle.
  - vstep. vstep. match goal with V' : View ?s' _ _ ?e' |- Q _ ?s' => apply (HQ 0 s' P L e') end; try done.
    + eapply at_rest_vars; [exact G1|eassumption|vars_done| |done..].
      intros b H1 H2. simpl. by rewrite fupd_ne by congruence.
  - apply wp_bind. eapply HR; [apply G1|done|lia|apply G1|].
    intros r m s2 P2 L2 e2 Hsc Hm. pose proof (sc_pager _ _ _ _ _ _ _ _ _ _ _ _ Hsc) as G2.
    pose proof (pg_view _ _ _ _ _ _ _ _ G2) as V2. vclear.
    pose proof (fr_env _ _ _ _ _ (sc_frame _ _ _ _ _ _ _ _ _ _ _ _ Hsc)) as S2.
    assert (at_rest C s2 P2 L2 e2) as R2.
    { eapply at_rest_step; [exact G1|done|by apply call_env]. }
    vstep. vstep. match goal with V' : View ?s' _ _ ?e' |- Q _ ?s' => apply (HQ r s' P2 L2 e') end.
    + eapply at_rest_vars; [exact R2|eassumption|vars_done| |done..].
      intros b H1 H2. simpl. by rewrite fupd_ne by congruence.
    + split; [apply (es_self _ _ S2)|]. intros t. simpl. simp_fupd.
      rewrite (es_flag _ _ S2) by done. unfold e1. simpl. by simp_fupd.
    + apply (fr_reg _ _ _ _ _ (sc_frame _ _ _ _ _ _ _ _ _ _ _ _ Hsc)).
    + pose proof (sc_found _ _ _ _ _ _ _ _ _ _ _ _ Hsc).
      split; [apply (sc_others _ _ _ _ _ _ _ _ _ _ _ _ Hsc)|lia| |simpl; by simp_fupd|lia].
      unfold frames. simpl. by rewrite (es_glob _ _ S2).
Qed.

Lemma wp_kswapd_turn percent reclaim C s P L e (Q : unit -> state K -> Prop) :
  0 <= percent <= 100 -> reclaims (E := E) reclaim -> at_rest C s P L e ->
  (forall s' P' L' e', at_rest C s' P' L' e' -> calls_kept e e' ->
     (forall a, registered (kern e') a = registered (kern e) a) -> Q tt s') ->
  wp E (kswapd_turn_of (kswapd_check_at percent) (kswapd_work_at percent reclaim)) s Q.
Proof.
  intros Hpc HR G HQ. pose proof (ar_pager _ _ _ _ _ G) as Gp. pager_facts Gp. unfold kswapd_turn_of.
  vstep. destruct (flag e kswapd_waiting); [vstep; by eapply (HQ _ P L e)|].
  apply wp_bind. eapply wp_kswapd_check_at; [exact Hpc|exact G|]. intros s1 e1 b G1 Hc1 Hk1 _ _.
  destruct b; [vstep; eapply (HQ _ P L e1); [done|done|by rewrite Hk1]|].
  apply wp_bind. eapply wp_kswapd_work_at; [exact Hpc|exact HR|exact G1|].
  intros n s2 P2 L2 e2 G2 Hc2 [Hr _] _. vstep. eapply HQ; [done|by etrans|].
  intros a. by rewrite Hr, Hk1.
Qed.
End kswapd.

(** ** The eviction worker *)

Section evictor.
Context {K D : Type} `{KL : KernelLaws K D may_fail} {E : fault -> Prop} `{!Tolerates may_fail E}.
Implicit Types (s : state K) (e : env K) (P : gmap loc user_page) (L : fifo_id -> list loc).
Implicit Types (C : Z -> D) (F : list loc).

(** The victim [x], the last of the eviction list, gave its frame to [d]: its
    own reserved slot if it had one, the last free one otherwise.  Every list
    is accounted for, and every descriptor but the two. *)
Record turned_over P L P' L' (xs : list loc) (x d : loc) : Prop := {
  to_frames : L' dram_free_list = d :: L dram_free_list;
  to_stored : L' disk_active_list = x :: L disk_active_list;
  to_victims : L' eviction_list = xs;
  to_lru : forall l, lru l = true -> l <> eviction_list -> L' l = L l;
  to_pages : forall z, z <> x -> z <> d -> P' !! z = P !! z;
  to_slot : exists px pd px' pd' l1 l2,
    managed P x px /\ managed P d pd /\ (has_reserve px = true -> reserve pd = Some x) /\
    P' !! x = Some px' /\ stored px pd px' /\ P' !! d = Some pd' /\ vacated px pd' /\
    L (victim_slot_list px) = l1 ++ d :: l2 /\ (has_reserve px = false -> l2 = []) /\
    L' (victim_slot_list px) = l1 ++ l2 /\
    (forall l, l = disk_free_list \/ l = disk_reserve_list -> l <> victim_slot_list px -> L' l = L l) }.

(** At most one free slot is used up. *)
Lemma to_slots P L P' L' xs x d :
  turned_over P L P' L' xs x d -> (length (L disk_free_list) <= S (length (L' disk_free_list)))%nat.
Proof.
  intros [_ _ _ _ _ (px & pd & px' & pd' & l1 & l2 & _ & _ & _ & _ & _ & _ & _ & HL & _ & HL' & Ho)].
  unfold victim_slot_list in *. destruct (has_reserve px).
  - rewrite (Ho disk_free_list) by auto. lia.
  - rewrite HL, HL', !length_app. simpl. lia.
Qed.

Lemma worker_end k F C infl s P L e x d px pd px' pd' l1 l2 s' P' e' L' :
  let ld := victim_slot_list px in
  let L1 := fupd (fupd L ld (l1 ++ l2)) disk_active_list (x :: L disk_active_list) in
  pager k (x :: F) C infl s P L e -> managed P x px -> resident C P L e x px ->
  flying_ok F P e infl ->
  L ld = l1 ++ d :: l2 -> managed P d pd -> (has_reserve px = true -> reserve pd = Some x) ->
  evicted C e e' px pd -> rings_ok infl e' ->
  (forall z, z <> x -> z <> d -> P' !! z = P !! z) ->
  P' !! x = Some px' -> stored px pd px' -> P' !! d = Some pd' -> vacated px pd' ->
  View s' P' L' e' -> (forall l, L' l = fupd L1 dram_free_list (d :: L1 dram_free_list) l) ->
  flying_ok F P' e' infl -> pager (k - 1) F C infl s' P' L' e' /\ frame F P e P' e'.
Proof.
  intros ld L1 G Hm R Hfly HL Hmd Hres Hev R' HP Hx' Hst Hd' Hvc V' HL' Hfly'.
  destruct (inv_exchanged k F C infl s P L e x d px pd px' pd' l1 l2 P' e') as (I' & Hf' & Hn' & Hfr & Hmd' & Hid);
    try done. apply NoDup_cons in Hn' as [HdF HnF]. split; [|done]. split; [done| | |done].
  - eapply (inv_ext _ _ _ _ _ (fupd L1 dram_free_list (d :: L1 dram_free_list))); [|exact HL'].
    replace (k - 1) with (k - framed dram_free_list) by (simpl; lia).
    eapply inv_put; [exact I'|exact HdF|apply Hf'; left|exact Hmd'|exact Hid|exact Hfly'].
  - intros y Hy l. rewrite HL'. apply floating_fupd; [apply Hf'; by right|].
    intros [->|Hin]%elem_of_cons; [done|]. apply (Hf' y ltac:(by right) dram_free_list Hin).
Qed.

(** Taking the oldest victim: what both workers start with. *)
Lemma wp_take_victim C s P L e (m : ptr -> M (state K) Z) (Q : Z -> state K -> Prop) :
  let e1 := set_flag (internal_call (self e)) true e in
  pager 0 [] C [] s P L e ->
  (L eviction_list = [] -> forall s', pager 0 [] C [] s' P L e1 -> Q 0 s') ->
  (forall xs x px s1, L eviction_list = xs ++ [x] -> pager 1 [x] C [] s1 P (fupd L eviction_list xs) e1 ->
     managed P x px -> resident C P (fupd L eviction_list xs) e1 x px -> wp E (m (Some x)) s1 Q) ->
  wp E (wrbt internal_call true;;
        victim ← dequeue_fifo eviction_list;
        match victim with None => mret 0 | Some _ => m victim end) s Q.
Proof.
  intros e1 G HQ0 HQ1. pager_facts G. assert (held e = []) as Hh by apply I.
  vstep. fold e1 in V0.
  assert (pager 0 [] C [] s0 P L e1) as G1 by (eapply pager_vars; [exact G|exact V0|unfold e1; vars_done..]).
  apply wp_bind. eapply wp_dequeue_fifo; [apply G1|simpl; rewrite Hh; not_in| |].
  { intros Hnil s1 V1. vstep. apply (HQ0 Hnil s1). by destruct G1; split. }
  intros xs x s1 HL V1. rewrite <- (app_nil_r xs) in V1.
  destruct (pager_take _ _ _ _ _ s1 _ _ _ eviction_list xs x [] G1 HL) as [G2 (px & Hm & R0)]; [done..|].
  simpl in R0. rewrite app_nil_r in *. eapply HQ1; [done|exact G2|exact Hm|].
  apply (resident_lists C _ L); [by rewrite fupd_ne|exact R0].
Qed.

(** Exchanging a victim for a slot. *)
Section victim.
Context (C : Z -> D) P L (e1 : env K) (xs : list loc) (x : loc) (px : user_page) (s1 : state K) (Q : unit -> state K -> Prop).
Let L2 := fupd L eviction_list xs.
Hypothesis G2 : pager 1 [x] C [] s1 P L2 e1.
Hypothesis Hm : managed P x px.
Hypothesis R : resident C P L2 e1 x px.
Hypothesis HQ1 : forall d s' P' L' e', pager 0 [] C [] s' P' L' e' ->
  turned_over P L P' L' xs x d -> env_step e1 e' -> same_reg (kern e1) (kern e') -> Q tt s'.

(** The lists when [d] was taken from among [l1 ++ d :: l2]. *)
Definition exchanged l1 d l2 : fifo_id -> list loc :=
  fupd (fupd (fupd L2 (victim_slot_list px) (l1 ++ l2)) disk_active_list (x :: L disk_active_list))
    dram_free_list (d :: L dram_free_list).

Lemma turned_over_exchanged l1 d l2 pd px' pd' P' L' :
  L2 (victim_slot_list px) = l1 ++ d :: l2 -> (has_reserve px = false -> l2 = []) ->
  managed P d pd -> (has_reserve px = true -> reserve pd = Some x) ->
  (forall z, z <> x -> z <> d -> P' !! z = P !! z) ->
  P' !! x = Some px' -> stored px pd px' -> P' !! d = Some pd' -> vacated px pd' ->
  (forall l, L' l = exchanged l1 d l2 l) -> turned_over P L P' L' xs x d.
Proof.
  intros HL2 Hl2 Hmd Hback HP Hx' Hst Hd' Hvc HL'. unfold exchanged, L2 in *.
  assert (victim_slot_list px = disk_reserve_list \/ victim_slot_list px = disk_free_list) as Hv
    by (unfold victim_slot_list; destruct (has_reserve px); auto).
  split.
  - by rewrite HL', fupd_eq.
  - by rewrite HL', fupd_ne, fupd_eq by done.
  - rewrite HL', !fupd_ne, fupd_eq by (done || by destruct Hv as [->| ->]). done.
  - intros l Hl Hne. rewrite HL', !fupd_ne by (try congruence; intros <-; first [done|by destruct Hv as [Hv|Hv]; rewrite Hv in Hl]). done.
  - done.
  - exists px, pd, px', pd', l1, l2. split_and!; try done.
    + rewrite <- HL2, fupd_ne by (by destruct Hv as [->| ->]). done.
    + rewrite HL', !fupd_ne, fupd_eq by (by destruct Hv as [->| ->]). done.
    + intros l Hl Hne. rewrite HL', !fupd_ne by (congruence || by destruct Hl as [->| ->]). done.
Qed.

(** The end both branches have in common. *)
Lemma evict_end s' d px' pd pd' l1 l2 P' e' L' :
  L2 (victim_slot_list px) = l1 ++ d :: l2 -> (has_reserve px = false -> l2 = []) -> managed P d pd ->
  (has_reserve px = true -> reserve pd = Some x) -> evicted C e1 e' px pd -> rings_ok [] e' ->
  (forall z, z <> x -> z <> d -> P' !! z = P !! z) ->
  P' !! x = Some px' -> stored px pd px' -> P' !! d = Some pd' -> vacated px pd' ->
  View s' P' L' e' -> (forall l, L' l = exchanged l1 d l2 l) -> Q tt s'.
Proof.
  intros HL2 Hl2 Hmd Hres Hev R' HP Hx' Hst Hd' Hvc V' HL'.
  assert (victim_slot_list px <> dram_free_list /\ victim_slot_list px <> disk_active_list)
    as [Hv1 Hv2] by (unfold victim_slot_list; by destruct (has_reserve px)).
  destruct (worker_end 1 [] C [] s1 P L2 e1 x d px pd px' pd' l1 l2 s' P' e' L') as [G3 Hfr]; try done.
  { constructor. }
  { intros l. rewrite HL'. unfold exchanged. assert (L2 disk_active_list = L disk_active_list) as -> by (unfold L2; by rewrite fupd_ne).
    do 2 f_equal. rewrite !fupd_ne by done. unfold L2. by rewrite fupd_ne. }
  { constructor. }
  eapply (HQ1 d s' P' L' e'); [exact G3| |apply Hfr|apply Hfr]. by eapply turned_over_exchanged.
Qed.

(** Before the page is moved: it is write protected and its dirty bit read. *)
Context (s3 : state K) (k3 : K) (O3 : obs_eq (kern e1) k3).
Hypothesis V3 : View s3 (<[x := set_migrating true px]> P) L2 (set_kern k3 e1).

Lemma taken_floating : floating L2 x.
Proof. apply (pg_float _ _ _ _ _ _ _ _ G2). left. Qed.

Lemma wp_evict_to_reserve :
  has_reserve px = true ->
  wp E (evict_to_reserve (Some x) (dirty (kern e1) (va px) || false)) s3 Q.
Proof.
  intros Hhr. pose proof (pg_inv _ _ _ _ _ _ _ _ G2) as I2. pose proof taken_floating as Hfx.
  destruct (re_reserve _ _ _ _ _ _ R Hhr) as (r & rp & Hr & Hrl & Hrp & Hback & Hclean).
  assert (x <> r) as Hxr by (intros ->; by apply (Hfx disk_reserve_list)).
  destruct (pager_role _ _ _ _ _ _ _ _ _ _ G2 Hrl) as (rp' & Hrm & Hrd & Hrv).
  assert (rp' = rp) as -> by (destruct Hrm; congruence).
  unfold evict_to_reserve. apply wp_bind. eapply (wp_reserve_of x _ r rp); [eassumption|by rewrite lookup_insert_eq|done|
    by rewrite lookup_insert_ne|done|done|apply I2|].
  intros l1 l2 s4 HL2 V4. do 2 vstep.
  assert (floating (fupd L2 disk_reserve_list (l1 ++ l2)) r) as Hfr by (eapply floating_removed; [apply (pg_view _ _ _ _ _ _ _ _ G2)|exact HL2]).
  apply wp_bind. eapply (wp_lrudisk_migrate_down x px r rp); [exact G2|done|done|constructor|exact O3|exact V4|by apply not_elem_of_nil|done|done| |].
  { intros Hd. rewrite orb_false_r in Hd. by apply Hclean. }
  intros s5 e5 V5 Hev R5. unfold to_dram_frame, drop_reserve, finish_victim, moved_down in *.
  assert (held e5 = []) as Hh5 by (rewrite (es_held _ _ (ev_env _ _ _ _ _ Hev)); apply I2).
  vclear. apply wp_bind. do 3 vstep. apply wp_bind. do 4 vstep.
  apply wp_bind. eapply wp_enqueue_fifo; [eassumption|eexists; vlookup|exact Hfr|rewrite Hh5; not_in|]. intros s6 V6. vclear.
  apply wp_bind. eapply wp_enqueue_fifo; [eassumption|eexists; vlookup| |rewrite Hh5; not_in|].
  { apply floating_fupd; [|intros [->|Hin]%elem_of_cons; [done|]].
    - apply floating_fupd; [done|]. intros Hin. apply (Hfx disk_reserve_list). rewrite HL2.
      apply elem_of_app in Hin as [|]; apply elem_of_app; [by left|right; by right].
    - rewrite fupd_ne in Hin by done. by apply (Hfx dram_free_list). }
  intros s7 V7. vclear. do 6 vstep.
  match goal with V' : View ?s' ?P' ?L' ?e' |- Q tt ?s' =>
    eapply (evict_end s' r _ rp _ l1 l2 P' e' L') end; rewrite ?Hhr; try done.
  - unfold victim_slot_list. by rewrite Hhr.
  - intros z Hzx Hzr. by rewrite !lookup_insert_ne by congruence.
  - vlookup.
  - destruct Hm. split; try done. split_and!; simpl; [done|by rewrite Hrd|].
    by eapply (so_present _ _ (i_slots _ _ _ _ _ _ _ I2) x).
  - vlookup.
  - destruct Hrm. split; try done. split_and!; simpl; [done|by rewrite (re_dram _ _ _ _ _ _ R)|done].
  - intros l. unfold exchanged, victim_slot_list. rewrite Hhr. unfold L2, fupd. by destruct l.
Qed.

Lemma wp_evict_to_free :
  has_reserve px = false -> (L disk_free_list = [] -> E (AssertFailed "no disk page found")) ->
  wp E (evict_to_free (Some x) (dirty (kern e1) (va px) || true)) s3 Q.
Proof.
  intros Hhr HE. pose proof (pg_inv _ _ _ _ _ _ _ _ G2) as I2. pose proof taken_floating as Hfx.
  assert (held e1 = []) as Hh by apply I2.
  unfold evict_to_free. apply wp_bind. eapply wp_dequeue_fifo; [eassumption|simpl; rewrite Hh; not_in| |].
  { intros Hnil ? _. apply wp_fail, HE. by rewrite <- Hnil. }
  intros l1 d s4 HL2 V4.
  assert (d ∈ L2 disk_free_list) as Hdl by (rewrite HL2; apply elem_of_app; right; left).
  destruct (pager_role _ _ _ _ _ _ _ _ _ _ G2 Hdl) as (pd & Hdm & [Hdd Hdv Hdr]).
  pose proof (pager_not_owned _ _ _ _ _ _ _ _ _ _ G2 Hdl) as [Hdx _]%not_elem_of_cons.
  assert (present pd = false) as Hpd by by eapply (so_present _ _ (i_slots _ _ _ _ _ _ _ I2) d).
  assert (P !! d = Some pd) as Hdp by apply Hdm.
  apply wp_bind. eapply wp_ld; [apply _|done|by rewrite lookup_insert_ne|]. rewrite Hpd. simpl.
  do 3 vstep.
  assert (floating (fupd L2 disk_free_list l1) d) as Hfd
    by (rewrite <- (app_nil_r l1); eapply floating_removed; [apply (pg_view _ _ _ _ _ _ _ _ G2)|exact HL2]).
  apply wp_bind. eapply (wp_lrudisk_migrate_down x px d pd); [exact G2|done|done|constructor|exact O3|exact V4|by apply not_elem_of_nil|done|done| |].
  { intros Hd. by rewrite orb_true_r in Hd. }
  intros s5 e5 V5 Hev R5. unfold to_dram_frame, finish_victim, moved_down in *.
  assert (held e5 = []) as Hh5 by (rewrite (es_held _ _ (ev_env _ _ _ _ _ Hev)); apply I2).
  vclear. apply wp_bind. eapply wp_enqueue_fifo; [eassumption|eexists; vlookup| |rewrite Hh5; not_in|].
  { apply floating_fupd; [done|]. intros Hin. apply (Hfx disk_free_list). rewrite HL2. apply elem_of_app. by left. }
  intros s6 V6. vclear. apply wp_bind. do 3 vstep.
  apply wp_bind. eapply wp_enqueue_fifo; [eassumption|eexists; vlookup| |rewrite Hh5; not_in|].
  { apply floating_fupd; [done|]. intros [->|Hin]%elem_of_cons; [done|].
    rewrite fupd_ne in Hin by done. by apply (Hfd disk_active_list). }
  intros s7 V7. vclear. do 6 vstep.
  match goal with V' : View ?s' ?P' ?L' ?e' |- Q tt ?s' =>
    eapply (evict_end s' d _ pd _ l1 [] P' e' L') end; rewrite ?Hhr; try done.
  - unfold victim_slot_list. by rewrite Hhr.
  - intros z Hzx Hzr. by rewrite !lookup_insert_ne by congruence.
  - vlookup.
  - destruct Hm. split; try done. split_and!; simpl; [done|by rewrite Hdd|].
    by eapply (so_present _ _ (i_slots _ _ _ _ _ _ _ I2) x).
  - vlookup.
  - destruct Hdm. split; try done. split_and!; simpl; [done|by rewrite (re_dram _ _ _ _ _ _ R)|done].
  - intros l. unfold exchanged, victim_slot_list. rewrite Hhr, app_nil_r. unfold L2, fupd. by destruct l.
Qed.
End victim.

Lemma wp_evict_victim C s1 P L e1 xs x px (Q : unit -> state K -> Prop) :
  let L2 := fupd L eviction_list xs in
  pager 1 [x] C [] s1 P L2 e1 -> managed P x px -> resident C P L2 e1 x px ->
  (L disk_free_list = [] -> E (AssertFailed "no disk page found")) ->
  (forall d s' P' L' e', pager 0 [] C [] s' P' L' e' ->
     turned_over P L P' L' xs x d -> env_step e1 e' -> same_reg (kern e1) (kern e') -> Q tt s') ->
  wp E (evict_victim (Some x)) s1 Q.
Proof.
  intros L2 G2 Hm R HE HQ1.
  unfold evict_victim. eapply wp_victim_bits; [exact G2|done|done|]. intros s3 k3 e3 V3 O3.
  vstep. destruct (has_reserve px) eqn:Hhr.
  - by eapply wp_evict_to_reserve.
  - by eapply wp_evict_to_free.
Qed.

Lemma wp_lrudisk_evictionworker C s P L e (Q : Z -> state K -> Prop) :
  pager 0 [] C [] s P L e -> (L disk_free_list = [] -> E (AssertFailed "no disk page found")) ->
  (L eviction_list = [] -> forall s', pager 0 [] C [] s' P L (set_flag (internal_call (self e)) true e) -> Q 0 s') ->
  (forall xs x d s' P' L' e', L eviction_list = xs ++ [x] -> pager 0 [] C [] s' P' L' e' ->
     turned_over P L P' L' xs x d -> env_step (set_flag (internal_call (self e)) true e) e' -> same_reg (kern e) (kern e') ->
     Q 1 s') ->
  wp E lrudisk_evictionworker s Q.
Proof.
  intros G HE HQ0 HQ1. unfold lrudisk_evictionworker. 
  eapply (wp_take_victim C s P L e (fun x => evict_victim x;; mret 1)); [exact G|exact HQ0|].
  intros xs x px s1 HL G2 Hm R. apply wp_bind. eapply wp_evict_victim; [exact G2|exact Hm|exact R|exact HE|].
  intros d s' P' L' e' G' T S Hr. apply wp_ret. by eapply HQ1.
Qed.
End evictor.
