(* ===== verification/VectorWorker.v ===== *)
(** * The batched eviction worker

    [lrudisk_evictionworker_vector], the worker of the default build
    ([VECTOR_EVICTION] is defined), takes up to [EVICT_VECTOR_SIZE] victims
    at a time: it write protects them, collects a disk page for each, writes
    the dirty ones in one io_uring batch, unmaps all of them and only then
    updates the descriptors and the lists.  The invariant is kept for a
    version of the descriptors that lags behind the ones in the heap.  At the
    end, the background threads of the default build, [lru_background]. *)

From S2P Require Import Prelude Kernel State Fifo Rules Uring Observability Migrate Invariant Policy DiskLinux.
From S2P Require Import Reclaim Entry Core Tracked Prefetch Handlers Workers.

(** ** Descriptors updated one after the other *)

(** [P'] is [P] with the entries of [l] written over it. *)
Record updated (l : list (loc * user_page)) (P P' : gmap loc user_page) : Prop := {
  up_in : forall x pg, (x, pg) ∈ l -> P' !! x = Some pg;
  up_out : forall x, x ∉ (l.*1) -> P' !! x = P !! x }.

Lemma updated_start l P : (forall x pg, (x, pg) ∈ l -> P !! x = Some pg) -> updated l P P.
Proof. by split. Qed.

Lemma updated_step l1 x pg pg' l2 P P' :
  NoDup ((l1 ++ (x, pg) :: l2).*1) -> updated (l1 ++ (x, pg) :: l2) P P' ->
  updated (l1 ++ (x, pg') :: l2) P (<[x := pg']> P').
Proof.
  rewrite fmap_app. simpl. intros [Hn1 [Hd [Hx Hn2]%NoDup_cons]]%NoDup_app [Hin Hout]. split.
  - intros y py Hy. destruct (decide (y = x)) as [->|Hne].
    + rewrite lookup_insert_eq. apply elem_of_app in Hy as [Hy|[[= ->]|Hy]%elem_of_cons]; [|done|].
      * apply (list_elem_of_fmap_2 fst) in Hy. destruct (Hd x Hy). left.
      * apply (list_elem_of_fmap_2 fst) in Hy. done.
    + rewrite lookup_insert_ne by done. apply Hin.
      apply elem_of_app in Hy as [Hy|[[= -> ->]|Hy]%elem_of_cons]; [|done|];
        apply elem_of_app; [by left|right; by right].
  - intros y. rewrite fmap_app, not_elem_of_app. simpl. intros [H1 [Hne H2]%not_elem_of_cons].
    rewrite lookup_insert_ne by done. apply Hout.
    rewrite fmap_app, not_elem_of_app. simpl. rewrite not_elem_of_cons. done.
Qed.

(** ** The batch *)

(** A victim with its descriptor, the disk page it goes to, and whether it
    has to be written. *)
Record job := Job { jx : loc; jp : user_page; jd : loc; jq : user_page; jw : bool }.

Definition victim_of (j : job) : evicting := Evicting (Some (jx j)) (Some (jd j)) (jw j).

Section vector.
Context {K D : Type} `{KL : KernelLaws K D may_fail} {E : fault -> Prop} `{!Tolerates may_fail E}.
Implicit Types (s : state K) (e : env K) (P : gmap loc user_page) (L : fifo_id -> list loc).
Implicit Types (C : Z -> D) (F : list loc) (js : list job).

(** The write requests of the batch. *)
Definition request_of (fd : Z) (j : job) : sqe := Sqe true fd (va (jp j)) PAGE_SIZE (virtual_offset (jq j)).
Definition requests (fd : Z) js : list sqe := request_of fd <$> filter (fun j => jw j = true) js.

(** What the migration may rely on.  The descriptors: the victims are in
    memory, on different addresses and slots. *)
Record batch_pages P js : Prop := {
  bk_victim : forall j, j ∈ js -> P !! jx j = Some (set_migrating true (jp j)) /\ pt (jp j) = BASEP /\
    in_dram (jp j) = true /\ swapped_out (jp j) = false;
  bk_slot : forall j, j ∈ js -> P !! jd j = Some (jq j);
  bk_pages : NoDup ((jx <$> js) ++ (jd <$> js));
  bk_addrs : NoDup ((fun j => va (jp j)) <$> js);
  bk_slots : NoDup ((fun j => virtual_offset (jq j)) <$> js) }.

(** The data: in memory, and already in the slot if it is not written. *)
Record batch_data C e js : Prop := {
  bd_registered : forall j, j ∈ js -> registered (kern e) (va (jp j)) = true;
  bd_mem : forall j, j ∈ js -> mem (kern e) (va (jp j)) = Some (C (va (jp j)));
  bd_clean : forall j, j ∈ js -> jw j = false -> disk (kern e) (virtual_offset (jq j)) = C (va (jp j)) }.

Lemma requests_app fd js1 js2 : requests fd (js1 ++ js2) = requests fd js1 ++ requests fd js2.
Proof. unfold requests. by rewrite filter_app, fmap_app. Qed.

(** The first pass: one prepared request per page to be written. *)
Lemma wp_prepare_all P js s L e (Q : list Z -> state K -> Prop) :
  View s P L e -> batch_pages P js -> rings_ok [] e -> (length js < Z.to_nat QD)%nat ->
  (forall ns s' e', View s' P L e' -> env_step e e' -> same_data (kern e) (kern e') ->
     rings_writes [] (requests (glob e diskfd) js) [] e' ->
     foldr Z.add 0 ns = Z.of_nat (length (requests (glob e diskfd) js)) ->
     (flag e (uring_init (self e)) = true \/ requests (glob e diskfd) js <> [] -> flag e' (uring_init (self e')) = true) ->
     Q ns s') ->
  wp E (mapM prepare_one (victim_of <$> js)) s Q.
Proof.
  intros V B R Hl HQ.
  eapply (wp_mapM _ _ victim_of (fun zs ns s' => exists e', View s' P L e' /\ env_step e e' /\
    same_data (kern e) (kern e') /\ rings_writes [] (requests (glob e diskfd) zs) [] e' /\
    foldr Z.add 0 ns = Z.of_nat (length (requests (glob e diskfd) zs)) /\
    (flag e (uring_init (self e)) = true \/ requests (glob e diskfd) zs <> [] -> flag e' (uring_init (self e')) = true))).
  - exists e. split_and!; [done|done|done|by apply rings_writes_quiet|done|by intros [|]].
  - intros zs j ys ns s1 -> (e1 & V1 & S1 & D1 & R1 & Hn & Hu).
    assert (j ∈ zs ++ j :: ys) as Hj by (apply elem_of_app; right; left).
    destruct (bk_victim _ _ B j Hj) as (Hx & Hpt & Hd & _). pose proof (bk_slot _ _ B j Hj) as Hq.
    assert (foldr Z.add 0 (ns ++ [if jw j then 1 else 0]) =
      Z.of_nat (length (requests (glob e diskfd) (zs ++ [j])))) as Hn'.
    { rewrite requests_app, length_app, Nat2Z.inj_add, <- Hn, foldr_app. unfold requests. simpl.
      assert (forall l a, foldr Z.add a l = foldr Z.add 0 l + a) as Hf
        by (intros l a; induction l as [|b l IH]; simpl; [lia|rewrite IH; lia]).
      rewrite (Hf ns). destruct (jw j) eqn:Hw.
      - rewrite filter_cons_True by done. simpl. lia.
      - rewrite filter_cons_False by congruence. simpl. lia. }
    unfold prepare_one. simpl. vstep. rewrite Hd. vstep. destruct (jw j) eqn:Hw.
    + vstep. vstep. vstep. apply wp_bind.
      eapply wp_ioring_prepare_write; [eassumption|exact R1| |].
      { unfold requests. rewrite length_fmap. pose proof (length_filter (fun j => jw j = true) zs) as Hfl.
        rewrite length_app in Hl. simpl in Hl. unfold QD in *. lia. }
      intros s2 e2 V2 S2 R2 D2 Hu2. vstep. exists e2.
      split_and!; [done|by etrans|by etrans| |done|done].
      rewrite requests_app. unfold requests at 2. rewrite filter_cons_True by done.
      rewrite (es_glob _ _ S1) in R2 by done. exact R2.
    + vstep. exists e1. assert (requests (glob e diskfd) (zs ++ [j]) = requests (glob e diskfd) zs) as Hrq.
      { rewrite requests_app. unfold requests at 2. rewrite filter_cons_False by congruence.
        by rewrite app_nil_r. }
      split_and!; [done|done|done|by rewrite Hrq|done|by rewrite Hrq].
  - intros ns s1 (e1 & V1 & S1 & D1 & R1 & Hn & Hu). by eapply HQ.
Qed.

(** What the kernel is after the whole batch was evicted. *)
Record evicted_all C e e' js : Prop := {
  ea_env : env_step e e';
  ea_rings : rings_ok [] e';
  ea_none : forall j, j ∈ js -> mem (kern e') (va (jp j)) = None;
  ea_mem : same_mem_but (fun a => a ∈ ((fun j => va (jp j)) <$> js)) (kern e) (kern e');
  ea_disk : forall j, j ∈ js -> disk (kern e') (virtual_offset (jq j)) = C (va (jp j));
  ea_disks : forall o, o ∉ ((fun j => virtual_offset (jq j)) <$> js) -> disk (kern e') o = disk (kern e) o;
  ea_reg : same_reg (kern e) (kern e') }.

Lemma in_requests fd js x : x ∈ requests fd js -> exists j, j ∈ js /\ jw j = true /\ x = request_of fd j.
Proof. intros (j & -> & [Hw Hj]%list_elem_of_filter)%list_elem_of_fmap. by exists j. Qed.

Lemma requests_nodup fd js :
  NoDup ((fun j => virtual_offset (jq j)) <$> js) -> NoDup (sq_off <$> requests fd js).
Proof.
  unfold requests. induction js as [|j js IH]; simpl; [by constructor|].
  intros [Hj Hn]%NoDup_cons. destruct (decide (jw j = true)) as [Hw|Hw].
  - rewrite filter_cons_True by done. simpl. constructor; [|by apply IH].
    intros Hin. apply Hj. apply list_elem_of_fmap in Hin as (x & -> & Hx).
    apply in_requests in Hx as (j' & Hj' & _ & ->). apply list_elem_of_fmap. by exists j'.
  - rewrite filter_cons_False by done. by apply IH.
Qed.

(** All the writes, submitted together and waited for. *)
Lemma wp_write_all C P js s L e (Q : unit -> state K -> Prop) :
  View s P L e -> batch_pages P js -> batch_data C e js -> rings_ok [] e -> (length js < Z.to_nat QD)%nat ->
  flag e (uring_init (self e)) = true \/ requests (glob e diskfd) js <> [] \/ E BadRing ->
  (forall s' e', View s' P L e' -> env_step e e' -> rings_ok [] e' ->
     (forall j, j ∈ js -> disk (kern e') (virtual_offset (jq j)) = C (va (jp j))) ->
     (forall o, o ∉ ((fun j => virtual_offset (jq j)) <$> js) -> disk (kern e') o = disk (kern e) o) ->
     same_mem_but (fun _ => False) (kern e) (kern e') -> same_reg (kern e) (kern e') -> Q tt s') ->
  wp E (ns ← mapM prepare_one (victim_of <$> js);
        ioring_submit_all_writes;;
        repeat_m (Z.to_nat (foldr Z.add 0 ns)) ioring_finish_write) s Q.
Proof.
  intros V B Bd R Hl Hi HQ. apply wp_bind. eapply wp_prepare_all; [done..|].
  intros ns s1 e1 V1 S1 [M1 D1 G1] R1 -> Hu. set (ps := requests (glob e diskfd) js) in *.
  apply wp_bind. eapply wp_ioring_submit_all_writes; [exact V1|exact R1| | | | |].
  { destruct Hi as [Hi|[Hi|Hi]]; [left; apply Hu; by left|left; apply Hu; by right|by right]. }
  { apply Forall_forall. by intros x (j & _ & _ & ->)%in_requests. }
  { by apply requests_nodup, (bk_slots _ _ B). }
  { apply Forall_true. intros x. constructor. }
  intros s2 k2 V2 R2 Hd2 Ho2 M2 G2.
  eapply wp_finish_writes; [exact V2|exact R2|lia|].
  intros s3 k3 V3 R3 [M3 D3 G3]. simpl in *.
  assert (same_mem_but (fun _ => False) (kern e) k3) as M by (etrans; [exact M1|by etrans]).
  apply (HQ s3 (set_kern k3 e1)); [by destruct e1|by apply env_step_trans_set|by destruct e1| | |exact M|]; simpl.
  - intros j Hj. rewrite D3. destruct (jw j) eqn:Hw.
    + pose proof (bd_mem _ _ _ Bd j Hj) as Hm.
      pose proof (Hd2 kl_device (request_of (glob e diskfd) j)) as Hd. simpl in Hd. rewrite Hd.
      * unfold content. by rewrite (sm_mem _ _ _ M1), Hm by auto.
      * apply list_elem_of_fmap. exists j. split; [done|]. by apply list_elem_of_filter.
    + rewrite Ho2; [by rewrite D1, (bd_clean _ _ _ Bd j)|].
      intros (x & Hx & (j' & Hj' & Hw' & ->)%in_requests)%list_elem_of_fmap. simpl in Hx.
      assert (j = j') as ->; [|congruence].
      apply list_elem_of_lookup in Hj as [n Hn], Hj' as [n' Hn'].
      assert (n = n') as ->; [|congruence].
      eapply (NoDup_lookup _ _ _ (virtual_offset (jq j)) (bk_slots _ _ B)); rewrite list_lookup_fmap; [by rewrite Hn|rewrite Hn'; simpl; congruence].
  - intros o Ho. rewrite D3, Ho2; [apply D1|].
    intros (x & -> & (j & Hj & _ & ->)%in_requests)%list_elem_of_fmap. apply Ho. apply list_elem_of_fmap. by exists j.
  - etrans; [exact G1|]. by etrans.
Qed.

(** ** Passes over the descriptors of the victims *)

Definition marks {A} (key : A -> loc) (g : A -> user_page) (l : list A) : list (loc * user_page) :=
  (fun a => (key a, g a)) <$> l.

Lemma marks_keys {A} (key : A -> loc) g l : (marks key g l).*1 = key <$> l.
Proof. unfold marks. by rewrite <- list_fmap_compose. Qed.

Lemma marks_step {A} (key : A -> loc) g1 g2 zs j ys P P1 :
  NoDup (key <$> zs ++ j :: ys) -> updated (marks key g2 zs ++ marks key g1 (j :: ys)) P P1 ->
  P1 !! key j = Some (g1 j) /\
  updated (marks key g2 (zs ++ [j]) ++ marks key g1 ys) P (<[key j := g2 j]> P1).
Proof.
  intros Hn U. split.
  - apply (up_in _ _ _ U). apply elem_of_app. right. left.
  - unfold marks in *. rewrite fmap_app, <- app_assoc. simpl. eapply updated_step; [|exact U].
    rewrite !fmap_app in *. simpl in *. by rewrite <- !list_fmap_compose.
Qed.

Lemma marks_other {A} (key : A -> loc) g1 g2 zs ys P P1 x :
  updated (marks key g2 zs ++ marks key g1 ys) P P1 -> x ∉ (key <$> zs ++ ys) -> P1 !! x = P !! x.
Proof.
  intros U Hx. apply (up_out _ _ _ U). rewrite fmap_app, !marks_keys, <- fmap_app. done.
Qed.

Definition marked_page (j : job) : user_page := set_migrating true (jp j).
Definition accounted_page (j : job) : user_page :=
  set_in_dram false (set_virtual_offset (virtual_offset (jq j)) (marked_page j)).
Definition moved_page (j : job) : user_page := moved_down (virtual_offset (jq j)) (jp j).

Lemma jobs_nodup_pages js : NoDup ((jx <$> js) ++ (jd <$> js)) ->
  NoDup (jx <$> js) /\ (forall j, j ∈ js -> jd j ∉ (jx <$> js)).
Proof.
  intros (Hn & Hd & _)%NoDup_app. split; [done|]. intros j Hj Hin. apply (Hd _ Hin).
  apply list_elem_of_fmap. by exists j.
Qed.

Lemma wp_unmap_all P js s L e (Q : unit -> state K -> Prop) :
  View s P L e -> batch_pages P js -> rings_ok [] e ->
  (forall j, j ∈ js -> registered (kern e) (va (jp j)) = true) ->
  (forall s' k', View s' P L (set_kern k' e) -> rings_ok [] (set_kern k' e) ->
     (forall j, j ∈ js -> mem k' (va (jp j)) = None) ->
     same_mem_but (fun a => a ∈ ((fun j => va (jp j)) <$> js)) (kern e) k' ->
     same_disk (kern e) k' -> same_reg (kern e) k' -> Q tt s') ->
  wp E (for_each unmap_one (victim_of <$> js)) s Q.
Proof.
  intros V B R Hreg HQ.
  eapply (wp_for_each _ _ victim_of (fun zs s' => exists k', View s' P L (set_kern k' e) /\
    rings_ok [] (set_kern k' e) /\ (forall j, j ∈ zs -> mem k' (va (jp j)) = None) /\
    same_mem_but (fun a => a ∈ ((fun j => va (jp j)) <$> zs)) (kern e) k' /\
    same_disk (kern e) k' /\ same_reg (kern e) k')).
  - exists (kern e). assert (set_kern (kern e) e = e) as -> by by destruct e.
    split_and!; try done. by intros j ?%elem_of_nil.
  - intros zs j ys s1 -> (k1 & V1 & R1 & Hn & M1 & D1 & G1).
    assert (j ∈ zs ++ j :: ys) as Hj by (apply elem_of_app; right; left).
    destruct (bk_victim _ _ B j Hj) as (Hx & _). pose proof (Hreg j Hj) as Hr.
    unfold unmap_one. simpl. vstep. eapply wp_madvise; [eassumption|exact R1|by rewrite (sg_registered _ _ G1)|].
    intros s2 k2 V2 R2 Hm2 M2 D2 G2. simpl in *. exists k2. split_and!; [done|done| | |by etrans|by etrans].
    + intros j' [Hj'|Hj'%list_elem_of_singleton]%elem_of_app; [|by subst].
      destruct (decide (va (jp j') = va (jp j))) as [->|Hne]; [done|].
      rewrite (sm_mem _ _ _ M2) by done. by apply Hn.
    + rewrite fmap_app. simpl. etrans; [eapply same_mem_but_mono, M1|eapply same_mem_but_mono, M2].
      * intros a Ha. apply elem_of_app. by left.
      * intros a ->. apply elem_of_app. right. left.
  - intros s1 (k1 & V1 & R1 & Hn & M1 & D1 & G1). by eapply HQ.
Qed.

Lemma wp_account_all P js s L e (Q : unit -> state K -> Prop) :
  View s P L e -> batch_pages P js ->
  (forall s' P' e', View s' P' L e' -> updated (marks jx accounted_page js) P P' ->
     env_step e e' -> flag e' = flag e -> kern e' = kern e -> Q tt s') ->
  wp E (for_each account_one (victim_of <$> js)) s Q.
Proof.
  intros V B HQ. destruct (jobs_nodup_pages _ (bk_pages _ _ B)) as [Hn Hd].
  eapply (wp_for_each _ _ victim_of (fun zs s' => exists P' e' ys, js = zs ++ ys /\ View s' P' L e' /\
    updated (marks jx accounted_page zs ++ marks jx marked_page ys) P P' /\ env_step e e' /\ flag e' = flag e /\ kern e' = kern e)).
  - exists P, e, js. split_and!; try done. apply updated_start. intros x pg Hin.
    apply list_elem_of_fmap in Hin as (j & [= -> ->] & Hj). by apply (bk_victim _ _ B j Hj).
  - intros zs j ys s1 Hjs (P1 & e1 & ys1 & Hjs' & V1 & U1 & S1 & F1 & K1).
    rewrite Hjs in Hjs'. apply app_inv_head in Hjs' as <-.
    assert (j ∈ js) as Hj by (rewrite Hjs; apply elem_of_app; right; left).
    destruct (marks_step jx marked_page accounted_page zs j ys P P1) as [Hx U2]; [by rewrite <- Hjs|done|].
    assert (P1 !! jd j = Some (jq j)) as Hq.
    { rewrite (marks_other _ _ _ _ _ _ _ _ U1) by (rewrite <- Hjs; by apply Hd). by apply (bk_slot _ _ B). }
    unfold account_one. simpl. do 5 vstep.
    match goal with V' : View ?s' ?P' _ ?e' |- exists _ _ _, _ => exists P', e', ys end.
    split_and!; [by rewrite <- app_assoc|eassumption|exact U2| |done|done].
    etrans; [exact S1|]. by env_frame.
  - intros s1 (P1 & e1 & ys & Hjs & V1 & U1 & S1 & F1 & K1).
    assert (ys = []) as -> by (apply (f_equal length) in Hjs; rewrite length_app in Hjs; apply nil_length_inv; lia).
    eapply HQ; [exact V1| |done|done|done]. unfold marks in U1. by rewrite app_nil_r in U1.
Qed.

Lemma wp_mark_all P0 P js s L e (Q : unit -> state K -> Prop) :
  View s P L e -> batch_pages P0 js -> updated (marks jx accounted_page js) P0 P ->
  (forall s' P', View s' P' L e -> updated (marks jx moved_page js) P0 P' -> Q tt s') ->
  wp E (for_each mark_one (victim_of <$> js)) s Q.
Proof.
  intros V B U HQ. destruct (jobs_nodup_pages _ (bk_pages _ _ B)) as [Hn Hd].
  eapply (wp_for_each _ _ victim_of (fun zs s' => exists P' ys, js = zs ++ ys /\ View s' P' L e /\
    updated (marks jx moved_page zs ++ marks jx accounted_page ys) P0 P')).
  - exists P, js. by split_and!.
  - intros zs j ys s1 Hjs (P1 & ys1 & Hjs' & V1 & U1).
    rewrite Hjs in Hjs'. apply app_inv_head in Hjs' as <-.
    assert (j ∈ js) as Hj by (rewrite Hjs; apply elem_of_app; right; left).
    destruct (bk_victim _ _ B j Hj) as (_ & _ & _ & Hso).
    destruct (marks_step jx accounted_page moved_page zs j ys P0 P1) as [Hx U2]; [by rewrite <- Hjs|done|].
    unfold mark_one. simpl. do 5 vstep.
    match goal with V' : View ?s' ?P' _ _ |- exists _ _, _ => exists P', ys end.
    split_and!; [by rewrite <- app_assoc|eassumption|exact U2].
  - intros s1 (P1 & ys & Hjs & V1 & U1).
    assert (ys = []) as -> by (apply (f_equal length) in Hjs; rewrite length_app in Hjs; apply nil_length_inv; lia).
    eapply HQ; [exact V1|]. unfold marks in U1. by rewrite app_nil_r in U1.
Qed.

(** The whole of [extmem_migrate_downdisk_vector]. *)
Lemma wp_migrate_vector C P js s L e (Q : unit -> state K -> Prop) :
  View s P L e -> batch_pages P js -> batch_data C e js -> rings_ok [] e -> (length js < Z.to_nat QD)%nat ->
  flag e (uring_init (self e)) = true \/ requests (glob e diskfd) js <> [] \/ E BadRing -> handler_lock ∉ held e ->
  (forall s' P' e', View s' P' L e' -> updated (marks jx moved_page js) P P' -> evicted_all C e e' js -> Q tt s') ->
  wp E (extmem_migrate_downdisk_vector (victim_of <$> js)) s Q.
Proof.
  intros V B Bd R Hl Hi Hh HQ. unfold extmem_migrate_downdisk_vector.
  apply wp_assoc_seq, wp_bind. eapply wp_write_all; [done..|].
  intros s1 e1 V1 S1 R1 Hd1 Ho1 M1 G1.
  apply wp_bind. eapply wp_unmap_all; [exact V1|exact B|exact R1| |].
  { intros j Hj. rewrite (sg_registered _ _ G1). by apply (bd_registered _ _ _ Bd). }
  intros s2 k2 V2 R2 Hn2 M2 D2 G2.
  apply wp_bind. eapply wp_account_all; [exact V2|exact B|].
  intros s3 P3 e3 V3 U3 S3 F3 K3.
  assert (held e3 = held e) as Hh3 by (rewrite (es_held _ _ S3); apply (es_held _ _ S1)).
  vstep.
  apply wp_bind. eapply wp_mark_all; [eassumption|exact B|exact U3|].
  intros s4 P4 V4 U4. vclear.
  vstep.
  eapply HQ; [eassumption|exact U4|].
  assert (set_held (held e3) (set_held (handler_lock :: held e3) e3) = e3) as -> by by destruct e3.
  split; rewrite ?K3; simpl in *.
  - etrans; [exact S1|]. etrans; [|exact S3]. by apply env_step_set_kern.
  - destruct R2 as [Rp Ri Rn Rf Rr]. split; rewrite ?K3, ?F3, ?(es_self _ _ S3); [exact Rp|exact Ri|exact Rn|exact Rf|exact Rr].
  - done.
  - etrans; [eapply same_mem_but_mono, M1; done|done].
  - intros j Hj. rewrite D2. by apply Hd1.
  - intros o Ho. rewrite D2. by apply Ho1.
  - by etrans.
Qed.

(** ** Taking the victims and their disk pages *)

Lemma inv_members k F F' C infl P L e :
  (forall x, x ∈ F <-> x ∈ F') -> inv k F C infl P L e -> inv k F' C infl P L e.
Proof.
  intros HF [Hh Hc Hr Hs Hro Ho Hw Ht Hcl Hun Hfl Hn Hrg]. split; try done.
  - intros l x Hx Hx'. apply Hro; [done|]. by rewrite HF.
  - intros x. rewrite <- HF. apply Ho.
  - intros x pg Hm. rewrite <- HF. by eapply Hw.
  - intros x. rewrite <- HF. apply Hcl.
  - eapply Forall_impl; [exact Hfl|]. intros y (Hy & t & tp & Hin & ?). split; [done|].
    exists t, tp. by rewrite <- HF.
Qed.

(** No page is on two lists, or twice on one. *)
Record distinct L : Prop := {
  di_once : forall l, NoDup (L l);
  di_one : forall l l' x, x ∈ L l -> x ∈ L l' -> l = l' }.

Lemma view_distinct s P L e : View s P L e -> distinct L.
Proof. intros V. split; [apply V|]. intros l l' x H1 H2. by eapply view_disjoint. Qed.

Lemma distinct_removed L l l1 x l2 : distinct L -> L l = l1 ++ x :: l2 ->
  distinct (fupd L l (l1 ++ l2)) /\ floating (fupd L l (l1 ++ l2)) x.
Proof.
  intros [Hn Hd] HL. pose proof (Hn l) as Hnl. rewrite HL in Hnl.
  apply NoDup_app in Hnl as (N1 & N2 & [N3 N4]%NoDup_cons).
  assert (forall y l', y ∈ fupd L l (l1 ++ l2) l' -> y ∈ L l') as Hsub.
  { intros y l'. destruct (decide (l = l')) as [<-|]; [|by rewrite fupd_ne].
    rewrite fupd_eq, HL, !elem_of_app, elem_of_cons. naive_solver. }
  split.
  - split; [|intros l' l'' y H1 H2; by apply (Hd l' l'' y); apply Hsub].
    intros l'. destruct (decide (l = l')) as [<-|]; [|by rewrite fupd_ne].
    rewrite fupd_eq. apply NoDup_app. split_and!; [done| |done].
    intros y Hy Hy'. apply (N2 y Hy). by right.
  - intros l' Hx. assert (l = l') as <-.
    { apply (Hd l l' x); [|by apply Hsub]. rewrite HL. apply elem_of_app. right. left. }
    rewrite fupd_eq in Hx. apply elem_of_app in Hx as [Hx|Hx]; [|done].
    apply (N2 x Hx). left.
Qed.

(** The last pages of an LRU list, the last one first. *)
Lemma inv_take_all l ys xs k F C P L e :
  inv k F C [] P L e -> distinct L -> lru l = true -> L l = xs ++ reverse ys -> (forall y, y ∈ ys -> y ∉ F) ->
  inv (k + Z.of_nat (length ys)) (ys ++ F) C [] P (fupd L l xs) e /\
  forall y, y ∈ ys -> floating (fupd L l xs) y /\ exists pg, managed P y pg /\ resident C P (fupd L l xs) e y pg.
Proof.
  intros I Hd Hl. revert k F L I Hd. induction ys as [|y ys IH]; intros k F L I Hd HL HF.
  { rewrite reverse_nil, app_nil_r in HL. split; [|by intros y ?%elem_of_nil].
    replace (k + _) with k by (simpl; lia). simpl. eapply inv_ext; [exact I|].
    intros l'. destruct (decide (l = l')) as [<-|]; [by rewrite fupd_eq|by rewrite fupd_ne]. }
  assert (l <> disk_reserve_list) as Hlr by (by intros ->).
  rewrite reverse_cons, (app_assoc xs) in HL. destruct (distinct_removed L l _ y [] Hd HL) as [Hd1 Hf1].
  assert (y ∉ ys) as Hyy.
  { pose proof (di_once _ Hd l) as Hn. rewrite HL in Hn. apply NoDup_app in Hn as (_ & Hn & _).
    intros Hin. apply (Hn y); [|by left]. apply elem_of_app. right. by apply elem_of_reverse. }
  destruct (inv_take y l (xs ++ reverse ys) [] k F C [] P L e) as [I1 (pg & Hm & Hrole)];
    [done|done|apply HF; left|done|done|].
  rewrite app_nil_r in *. set (L1 := fupd L l (xs ++ reverse ys)) in *.
  assert (forall l', fupd L1 l xs l' = fupd L l xs l') as Heq.
  { intros l'. destruct (decide (l = l')) as [<-|]; [by rewrite !fupd_eq|unfold L1; by rewrite !fupd_ne]. }
  destruct (IH (k + framed l) (y :: F) L1) as [I2 Hall]; [done|done|unfold L1; by rewrite fupd_eq| |].
  { intros z Hz. rewrite elem_of_cons. intros [->|]; [done|]. apply (HF z); [by right|done]. }
  split.
  - replace (k + _) with (k + framed l + Z.of_nat (length ys)) by (destruct l; simpl in *; try done; lia).
    eapply inv_ext; [|intros l'; symmetry; apply Heq]. eapply inv_members; [|exact I2].
    intros z. simpl. rewrite elem_of_cons, !elem_of_app, elem_of_cons. tauto.
  - assert (forall z pz L', L' disk_reserve_list = L disk_reserve_list -> resident C P L e z pz -> resident C P L' e z pz) as Hres
      by (intros; by eapply resident_lists).
    intros z [->|Hz]%elem_of_cons.
    + split.
      * intros l' Hin. rewrite <- Heq in Hin. apply (Hf1 l').
        destruct (decide (l = l')) as [<-|]; [|by rewrite fupd_ne in Hin].
        rewrite fupd_eq in Hin. unfold L1. rewrite fupd_eq. apply elem_of_app. by left.
      * exists pg. split; [done|]. apply Hres; [by rewrite fupd_ne|]. by destruct l.
    + destruct (Hall z Hz) as [Hfz (pz & Hmz & Rz)]. split; [intros l'; rewrite <- Heq; apply Hfz|].
      exists pz. split; [done|]. eapply resident_lists; [|exact Rz]. by rewrite Heq.
Qed.

(** The disk page of an owned victim, off its list. *)
Lemma inv_take_slot k F C P L e x px d pd l1 l2 :
  let ld := victim_slot_list px in
  inv k F C [] P L e -> distinct L -> (forall y, y ∈ F -> floating L y) -> x ∈ F ->
  (has_reserve px = true -> reserve pd = Some x) ->
  L ld = l1 ++ d :: l2 -> managed P d pd ->
  inv k (d :: F) C [] P (fupd L ld (l1 ++ l2)) e /\ (d ∉ F) /\ in_dram pd = false /\ va pd = 0.
Proof.
  intros ld I Hd Hf Hx Hres HL Hm. destruct (distinct_removed L ld l1 d l2 Hd HL) as [_ Hfd].
  assert (d ∈ L ld) as Hdl by (rewrite HL; apply elem_of_app; right; left).
  assert (d ∉ F) as HdF by (intros HdF; by apply (Hf d HdF ld)).
  assert (in_dram pd = false /\ va pd = 0) as [Hdd Hvd].
  { destruct (i_role _ _ _ _ _ _ _ I ld d Hdl HdF) as (pd2 & [Hp _] & Hrole).
    destruct Hm. assert (pd2 = pd) as -> by congruence. unfold ld, victim_slot_list in Hrole.
    destruct (has_reserve px); [done|]. by destruct Hrole. }
  split; [|done]. eapply (inv_move d); [exact I|by apply elem_removed| | | | |constructor|].
  - intros y Hy. rewrite elem_of_cons. naive_solver.
  - intros Hin. assert (disk_reserve_list = ld) as Heq by by eapply (di_one _ Hd).
    unfold ld, victim_slot_list in Heq. destruct (has_reserve px); [|done].
    exists pd, x. destruct Hm. split_and!; [done|by apply Hres|by right].
  - exists pd. split; [done|]. left. left.
  - intros y [->|Hy]%elem_of_cons; [apply Hfd|]. intros Hin.
    apply (elem_removed L ld l1 d l2 HL) in Hin; [|congruence].
    by apply (i_closed _ _ _ _ _ _ _ I y Hy).
  - rewrite on_frames_fupd, HL, !length_app. pose proof (i_count _ _ _ _ _ _ _ I).
    assert (framed ld = 0) as -> by (unfold ld, victim_slot_list; by destruct (has_reserve px)). lia.
Qed.

Lemma resident_taken C P L e y py x px d pd l1 l2 :
  resident C P L e y py -> y <> x -> L (victim_slot_list px) = l1 ++ d :: l2 -> P !! d = Some pd ->
  (has_reserve px = true -> reserve pd = Some x) ->
  resident C P (fupd L (victim_slot_list px) (l1 ++ l2)) e y py.
Proof.
  intros [Hd Ha Hm Hres Hmg Hso] Hne HL Hp Hback. split; try done.
  intros Hr. destruct (Hres Hr) as (r & rp & H1 & H2 & H3 & H4 & H5). exists r, rp.
  split_and!; try done. destruct (has_reserve px) eqn:Hh; unfold victim_slot_list in *; rewrite Hh in *.
  - apply (elem_removed L disk_reserve_list l1 d l2 HL); [|done]. intros ->.
    rewrite Hp in H3. injection H3 as <-. rewrite Hback in H4 by done. congruence.
  - by rewrite fupd_ne.
Qed.

(** ** The first two passes of the worker *)

(** A victim: its descriptor when it was taken. *)
Definition prepared_victim e (v : loc * user_page) : ptr * Z * bool :=
  (Some (fst v), virtual_offset (snd v), dirty (kern e) (va (snd v)) || negb (has_reserve (snd v))).

(** The policies agree on the first pass up to assertions on the victim. *)
Definition prepares (prep : ptr -> M (state K) (ptr * Z * bool)) : Prop :=
  forall P L e s x px Q, View s P L e -> P !! x = Some px -> va px <> 0 ->
    wp E (prepare_victim (Some x)) s Q -> wp E (prep (Some x)) s Q.

Lemma wp_prepare_victims prep C P L e s (vs : list (loc * user_page)) (Q : list (ptr * Z * bool) -> state K -> Prop) :
  prepares prep -> View s P L e -> NoDup (vs.*1) ->
  (forall v, v ∈ vs -> managed P (fst v) (snd v) /\ resident C P L e (fst v) (snd v)) ->
  (forall s' P' k', View s' P' L (set_kern k' e) -> obs_eq (kern e) k' ->
     updated (marks fst (fun v => set_migrating true (snd v)) vs) P P' -> Q (prepared_victim e <$> vs) s') ->
  wp E (mapM prep ((fun v => Some (fst v)) <$> vs)) s Q.
Proof.
  intros Hprep V Hn Hvs HQ.
  eapply (wp_mapM _ _ (fun v => Some (fst v)) (fun zs rs s' => exists P' k' ys, vs = zs ++ ys /\
    View s' P' L (set_kern k' e) /\ obs_eq (kern e) k' /\ rs = prepared_victim e <$> zs /\
    updated (marks fst (fun v => set_migrating true (snd v)) zs ++ marks fst snd ys) P P')).
  - exists P, (kern e), vs. assert (set_kern (kern e) e = e) as -> by by destruct e.
    split_and!; try done. apply updated_start. intros x pg Hin.
    apply list_elem_of_fmap in Hin as (v & [= -> ->] & Hv). by apply (Hvs v Hv).
  - intros zs [x px] ys rs s1 Hs (P1 & k1 & ys1 & Hs' & V1 & O1 & -> & U1).
    rewrite Hs in Hs'. apply app_inv_head in Hs' as <-.
    destruct (Hvs (x, px)) as [[Hx Ht] [_ [_ H0 Ha Hr] _ _ _ _]]; [rewrite Hs; apply elem_of_app; right; left|].
    simpl in *. destruct (marks_step fst snd (fun v => set_migrating true (snd v)) zs (x, px) ys P P1) as [Hx1 U2];
      [by rewrite <- Hs|done|]. simpl in *.
    eapply Hprep; [exact V1|exact Hx1|done|].
    unfold prepare_victim. vstep. vstep. apply wp_bind.
    eapply wp_extmem_wp_page; [eassumption|by rewrite lookup_insert_eq|done..| |].
    { simpl. by rewrite (sg_registered _ _ (oe_reg _ _ O1)). }
    intros s2 k2 V2 O2. simpl in *. apply wp_bind.
    assert (obs_eq (kern e) k2) as O by by etrans.
    eapply wp_is_dirty; [exact V2|by rewrite lookup_insert_eq|done| |].
    { simpl. by rewrite (sg_registered _ _ (oe_reg _ _ O)). }
    intros s3 k3 V3 O3. simpl in *. vstep. vstep.
    exists (<[x := set_migrating true px]> P1), k3, ys.
    split_and!; [by rewrite <- app_assoc|done|by etrans| |done].
    rewrite fmap_app. unfold prepared_victim at 3. simpl. by rewrite (oe_dirty _ _ O).
  - intros rs s1 (P1 & k1 & ys & Hs & V1 & O1 & -> & U1).
    assert (ys = []) as -> by (apply (f_equal length) in Hs; rewrite length_app in Hs; apply nil_length_inv; lia).
    eapply HQ; [exact V1|exact O1|]. by rewrite app_nil_r in U1.
Qed.

Definition job_of e (v : loc * user_page) (d : loc) (pd : user_page) : job :=
  Job (fst v) (snd v) d pd (dirty (kern e) (va (snd v)) || negb (has_reserve (snd v))).
Definition fetched e (j : job) : ptr * Z * bool * ptr :=
  (prepared_victim e (jx j, jp j), Some (jd j)).

(** What is known of a victim's disk page. *)
Record slot_found C P e (j : job) : Prop := {
  sf_page : managed P (jd j) (jq j);
  sf_dram : in_dram (jq j) = false;
  sf_va : va (jq j) = 0;
  sf_reserve : has_reserve (jp j) = false -> has_reserve (jq j) = false;
  sf_clean : jw j = false -> disk (kern e) (virtual_offset (jq j)) = C (va (jp j));
  sf_job : jw j = dirty (kern e) (va (jp j)) || negb (has_reserve (jp j)) }.

(** The state while disk pages are collected. *)
Record collecting k C P P1 L0 e (vs : list (loc * user_page)) (js : list job) s L : Prop := {
  cg_view : View s P1 L e;
  cg_inv : inv k ((jd <$> js) ++ (vs.*1)) C [] P L e;
  cg_float : forall x, x ∈ (jd <$> js) ++ (vs.*1) -> floating L x;
  cg_nodup : NoDup ((jd <$> js) ++ (vs.*1));
  cg_found : forall j, j ∈ js -> slot_found C P e j;
  cg_lists : forall l, l <> disk_reserve_list -> l <> disk_free_list -> L l = L0 l;
  cg_free : (length (L0 disk_free_list) <= length (L disk_free_list) + length js)%nat }.

Lemma collecting_step k C P P1 L0 e vs zs s s' L x px d pd l1 l2 :
  let ld := victim_slot_list px in
  collecting k C P P1 L0 e vs zs s L -> (x, px) ∈ vs ->
  (has_reserve px = true -> reserve pd = Some x) ->
  (has_reserve px = false -> has_reserve pd = false) -> managed P d pd ->
  (dirty (kern e) (va px) || negb (has_reserve px) = false ->
     disk (kern e) (virtual_offset pd) = C (va px)) ->
  L ld = l1 ++ d :: l2 -> View s' P1 (fupd L ld (l1 ++ l2)) e ->
  collecting k C P P1 L0 e vs (zs ++ [job_of e (x, px) d pd]) s' (fupd L ld (l1 ++ l2)).
Proof.
  intros ld [V I Hf Hn Hs Hl Hfr] Hv Hres Hnr Hm Hc HL V'. pose proof (view_distinct _ _ _ _ V) as Hd.
  destruct (inv_take_slot k _ C P L e x px d pd l1 l2 I Hd Hf) as (I' & HdF & Hdd & Hvd); [|done..|].
  { apply elem_of_app. right. by apply (list_elem_of_fmap_2 fst _ (x, px)). }
  destruct (distinct_removed L ld l1 d l2 Hd HL) as [_ Hfd].
  assert (ld <> active_list /\ ld = disk_reserve_list \/ ld = disk_free_list) as Hld
    by (unfold ld, victim_slot_list; destruct (has_reserve px); auto).
  assert (forall y, y ∈ (jd <$> zs ++ [job_of e (x, px) d pd]) ++ (vs.*1) <-> y ∈ d :: (jd <$> zs) ++ (vs.*1)) as Hmem.
  { intros y. rewrite fmap_app, <- app_assoc. change (jd <$> [job_of e (x, px) d pd]) with [d].
    rewrite !elem_of_app, !elem_of_cons, elem_of_app, elem_of_nil. tauto. }
  split.
  - done.
  - eapply inv_members; [|exact I']. intros y. by rewrite Hmem.
  - intros y [->|Hy]%Hmem%elem_of_cons; [exact Hfd|].
    intros l Hin. apply (elem_removed L ld l1 d l2 HL) in Hin; [by apply (Hf y Hy l)|congruence].
  - rewrite fmap_app, <- app_assoc. simpl. rewrite <- Permutation_middle. by constructor.
  - intros j [Hj|Hj%list_elem_of_singleton]%elem_of_app; [by apply Hs|]. subst j. by split.
  - intros l H1 H2. rewrite fupd_ne; [by apply Hl|]. destruct Hld as [[_ ->]| ->]; done.
  - rewrite length_app. simpl. destruct (decide (ld = disk_free_list)) as [Heq|Hne].
    + rewrite Heq, fupd_eq. rewrite Heq in HL. rewrite HL, length_app in Hfr. simpl in Hfr.
      rewrite length_app. lia.
    + rewrite fupd_ne by done. lia.
Qed.

(** One victim [x], after [zs] and before [ys], gets its disk page. *)
Section fetch.
Context (k : Z) (C : Z -> D) P P1 L0 L e (vs zs ys : list (loc * user_page)) (x : loc) (px : user_page).
Context (js : list job) (s : state K).
Hypothesis G : collecting k C P P1 L0 e vs js s L.
Hypothesis U : updated (marks fst (fun v => set_migrating true (snd v)) vs) P P1.
Hypothesis Hs : vs = zs ++ (x, px) :: ys.
Hypothesis Hm : managed P x px.
Hypothesis R : forall v, v ∈ (x, px) :: ys -> resident C P L e (fst v) (snd v).

Definition one_collected (d : loc) s' : Prop := exists pd L',
  collecting k C P P1 L0 e vs (js ++ [job_of e (x, px) d pd]) s' L' /\
  (forall v, v ∈ ys -> resident C P L' e (fst v) (snd v)).

Lemma collected_one s2 d pd l1 l2 :
  (has_reserve px = true -> reserve pd = Some x) -> (has_reserve px = false -> has_reserve pd = false) ->
  managed P d pd ->
  (dirty (kern e) (va px) || negb (has_reserve px) = false -> disk (kern e) (virtual_offset pd) = C (va px)) ->
  L (victim_slot_list px) = l1 ++ d :: l2 -> View s2 P1 (fupd L (victim_slot_list px) (l1 ++ l2)) e ->
  one_collected d s2.
Proof.
  intros Hres Hnr Hmd Hc HL V2. exists pd, (fupd L (victim_slot_list px) (l1 ++ l2)). split.
  - eapply collecting_step; try done. rewrite Hs. apply elem_of_app. right. left.
  - intros v Hin. assert (fst v <> x) as Hvx.
    { intros Heq. pose proof (cg_nodup _ _ _ _ _ _ _ _ _ _ G) as Hn. apply NoDup_app in Hn as (_ & _ & Hn).
      rewrite Hs, fmap_app in Hn. apply NoDup_app in Hn as (_ & _ & [Hn _]%NoDup_cons).
      apply Hn. simpl. rewrite <- Heq. by apply list_elem_of_fmap_2. }
    destruct Hmd. eapply resident_taken; [apply R; by right|done..].
Qed.

(** A listed page is no victim: the marks did not touch it. *)
Lemma unmarked_listed d l : d ∈ L l -> P1 !! d = P !! d.
Proof.
  intros Hd. apply (up_out _ _ _ U). rewrite marks_keys. intros Hin.
  apply (cg_float _ _ _ _ _ _ _ _ _ _ G d) with l; [|done]. apply elem_of_app. by right.
Qed.

Lemma listed_slot d l : l = disk_reserve_list \/ l = disk_free_list -> d ∈ L l ->
  exists pd, managed P d pd /\ role C P L e l d pd.
Proof.
  intros Hl Hd. destruct (i_role _ _ _ _ _ _ _ (cg_inv _ _ _ _ _ _ _ _ _ _ G) l d) as (pd & ? & ?);
    [done|intros Hin; by apply (cg_float _ _ _ _ _ _ _ _ _ _ G d Hin l)|]. by exists pd.
Qed.

Lemma wp_fetch_diskpage o b (Q : ptr * Z * bool * ptr -> state K -> Prop) :
  (L disk_free_list = [] -> E (AssertFailed "no disk page found")) ->
  (forall d s', one_collected d s' -> Q (Some x, o, b, Some d) s') ->
  wp E (fetch_diskpage (Some x, o, b)) s Q.
Proof.
  intros HE HQ. pose proof (R (x, px) ltac:(left)) as Rx. simpl in Rx. pose proof Hm as [Hx Ht].
  pose proof (cg_view _ _ _ _ _ _ _ _ _ _ G) as V. pose proof (cg_inv _ _ _ _ _ _ _ _ _ _ G) as I.
  assert (held e = []) as Hh by apply I.
  assert (P1 !! x = Some (set_migrating true px)) as Hx1.
  { apply (up_in _ _ _ U). apply list_elem_of_fmap. exists (x, px). split; [done|].
    rewrite Hs. apply elem_of_app. right. left. }
  unfold fetch_diskpage. simpl fst. cbv zeta. vstep. destruct (has_reserve px) eqn:Hhr.
  - destruct (re_reserve _ _ _ _ _ _ Rx Hhr) as (r & rp & Hr & Hrl & Hrp & Hback & Hclean).
    destruct (listed_slot r disk_reserve_list) as (rp' & Hmr & _); [by left|done|].
    assert (rp' = rp) as -> by (destruct Hmr; congruence).
    apply wp_bind. eapply (wp_reserve_of x _ r rp); [exact V|exact Hx1|done| |done|done|done|].
    { by rewrite (unmarked_listed r disk_reserve_list). }
    intros l1 l2 s2 HL V2. vstep. apply HQ.
    eapply (collected_one s2 r rp l1 l2); unfold victim_slot_list; rewrite ?Hhr; try done.
    intros Hc. rewrite orb_false_r in Hc. by apply Hclean.
  - apply wp_bind. eapply wp_dequeue_fifo; [exact V|rewrite Hh; not_in| |].
    { intros Hnil s2 _. by apply wp_fail, HE. }
    intros l1 d s2 HL V2. assert (d ∈ L disk_free_list) as Hdl by (rewrite HL; apply elem_of_app; right; left).
    destruct (listed_slot d disk_free_list) as (pd & Hmd & [_ _ Hidr]); [by right|done|]. pose proof Hmd as [Hp2 Hpt2].
    assert (P1 !! d = Some pd) as Hd1 by by rewrite (unmarked_listed d disk_free_list).
    vstep. rewrite (so_present _ _ (i_slots _ _ _ _ _ _ _ I) d pd) by done. vstep. vstep. apply HQ.
    eapply (collected_one s2 d pd l1 []); unfold victim_slot_list; rewrite ?Hhr, ?app_nil_r; try done.
    intros Hc. by rewrite orb_true_r in Hc.
Qed.
End fetch.

Lemma wp_fetch_diskpages k C P P1 L0 e e0 (vs : list (loc * user_page)) s
    (Q : list (ptr * Z * bool * ptr) -> state K -> Prop) :
  collecting k C P P1 L0 e vs [] s L0 ->
  updated (marks fst (fun v => set_migrating true (snd v)) vs) P P1 ->
  (forall v, v ∈ vs -> managed P (fst v) (snd v) /\ resident C P L0 e (fst v) (snd v)) ->
  (forall v, prepared_victim e0 v = prepared_victim e v) ->
  ((length (L0 disk_free_list) < length vs)%nat -> E (AssertFailed "no disk page found")) ->
  (forall js L s', collecting k C P P1 L0 e vs js s' L -> (fun j => (jx j, jp j)) <$> js = vs ->
     Q (fetched e <$> js) s') ->
  wp E (mapM fetch_diskpage (prepared_victim e0 <$> vs)) s Q.
Proof.
  intros G0 U Hvs He0 HE HQ.
  eapply (wp_mapM _ _ (prepared_victim e0) (fun zs rs s' => exists js ys L, vs = zs ++ ys /\
    (fun j => (jx j, jp j)) <$> js = zs /\ rs = fetched e <$> js /\
    collecting k C P P1 L0 e vs js s' L /\
    (forall v, v ∈ ys -> resident C P L e (fst v) (snd v)))).
  - exists [], vs, L0. split_and!; try done. intros v Hv. by apply Hvs.
  - intros zs [x px] ys rs s1 Hs (js & ys1 & L & Hs' & Hjs & -> & G & R).
    rewrite Hs in Hs'. apply app_inv_head in Hs' as <-.
    destruct (Hvs (x, px)) as [Hm _]; [rewrite Hs; apply elem_of_app; right; left|].
    eapply wp_fetch_diskpage; [exact G|exact U|exact Hs|exact Hm|exact R| |].
    { intros Hnil. apply HE. pose proof (cg_free _ _ _ _ _ _ _ _ _ _ G) as Hf.
      rewrite Hnil in Hf. rewrite Hs, length_app, <- Hjs, length_fmap. simpl in *. lia. }
    intros d s2 (pd & L' & G' & R').
    exists (js ++ [job_of e (x, px) d pd]), ys, L'. split_and!; [by rewrite <- app_assoc|by rewrite fmap_app, Hjs| |done|done].
    rewrite fmap_app. unfold fetched at 3. simpl. by rewrite <- He0.
  - intros rs s1 (js & ys & L & Hs & Hjs & -> & G & _).
    assert (ys = []) as -> by (apply (f_equal length) in Hs; rewrite length_app in Hs; apply nil_length_inv; lia).
    eapply HQ; [exact G|done].
Qed.

(** ** The last pass: descriptors and lists *)

(** What holds of a job once its data is on the disk. *)
Record written C e (j : job) : Prop := {
  wn_dram : in_dram (jp j) = true;
  wn_slot : in_dram (jq j) = false;
  wn_va : va (jq j) = 0;
  wn_at : at_va e (jx j) (jp j);
  wn_none : mem (kern e) (va (jp j)) = None;
  wn_disk : disk (kern e) (virtual_offset (jq j)) = C (va (jp j)) }.

Lemma inv_settle k F C P P' L e j px' pd' :
  inv k (jx j :: jd j :: F) C [] P L e -> NoDup (jx j :: jd j :: F) ->
  floating L (jx j) -> floating L (jd j) ->
  managed P (jx j) (jp j) -> managed P (jd j) (jq j) -> written C e j ->
  stored (jp j) (jq j) px' -> vacated (jp j) pd' ->
  P' !! jx j = Some px' -> P' !! jd j = Some pd' ->
  (forall z, z <> jx j -> z <> jd j -> P' !! z = P !! z) ->
  inv (k - 1) F C [] P' (fupd (fupd L disk_active_list (jx j :: L disk_active_list))
    dram_free_list (jd j :: L dram_free_list)) e.
Proof.
  intros I [Hx [HdF HnF]%NoDup_cons]%NoDup_cons Hfx Hfd Hmx Hmd [Hdr Hsl Hv0 Hat Hno Hdk]
    [Tx Sx Vx Rx Mx Ox] [Td Sd Vd Rd] HPx HPd HPo.
  apply not_elem_of_cons in Hx as [Hxd HxF].
  assert (inv k (jx j :: jd j :: F) C [] P' L e) as I1.
  { eapply inv_own; [exact I| | |apply confined_refl| |apply I|apply I|apply I|done|constructor].
    - intros z Hz. apply HPo; intros ->; apply Hz; [left|right; left].
    - intros z Hz. destruct (decide (z = jx j)) as [->|Hzx]; [|destruct (decide (z = jd j)) as [->|Hzd]].
      + exists px'. split; [done|]. intros pg Hp. destruct Hmx. congruence.
      + exists pd'. split; [done|]. intros pg Hp. destruct Hmd. congruence.
      + destruct (i_owned _ _ _ _ _ _ _ I z Hz) as (pz & Hp & Ht). exists pz.
        split; [split; [by rewrite HPo|done]|]. intros pg ?. congruence.
    - eapply (slots_exchange P P' e e (jx j) (jd j)); try done. apply I. }
  assert (swapped C e (jx j) px') as Hsw.
  { destruct Sx as (Ho & Hd & _). destruct Hat as [H1 H2 H3 H4].
    split; rewrite ?Vx, ?Ho; [congruence| |done..]. split; by rewrite Vx. }
  apply (inv_put (jx j) disk_active_list px') in I1; [|by apply not_elem_of_cons|done|done|done|constructor].
  assert (floating (fupd L disk_active_list (jx j :: L disk_active_list)) (jd j)) as Hfd'.
  { apply floating_fupd; [done|]. intros [?|Hin]%elem_of_cons; [congruence|]. by apply (Hfd disk_active_list). }
  apply (inv_put (jd j) dram_free_list pd') in I1; [|done|done|done| |constructor].
  - simpl in I1. by replace (k - 0 - 1) with (k - 1) in I1 by lia.
  - destruct Sd as (_ & Hd & _). split; [congruence|done|done].
Qed.

Lemma wp_settle_victim P L e j e0 s (Q : unit -> state K -> Prop) :
  View s P L e -> held e = [] -> jx j <> jd j -> floating L (jx j) -> floating L (jd j) ->
  P !! jx j = Some (moved_page j) -> P !! jd j = Some (jq j) ->
  pt (jp j) = BASEP -> pt (jq j) = BASEP -> in_dram (jp j) = true -> present (jp j) = false ->
  in_dram (jq j) = false -> present (jq j) = false -> va (jq j) = 0 ->
  (has_reserve (jp j) = false -> has_reserve (jq j) = false) ->
  (forall s' P' L' px' pd', View s' P' L' e -> P' !! jx j = Some px' -> P' !! jd j = Some pd' ->
     (forall z, z <> jx j -> z <> jd j -> P' !! z = P !! z) ->
     stored (jp j) (jq j) px' -> vacated (jp j) pd' ->
     (forall l, L' l = fupd (fupd L disk_active_list (jx j :: L disk_active_list))
       dram_free_list (jd j :: L dram_free_list) l) -> Q tt s') ->
  wp E (settle_victim (fetched e0 j)) s Q.
Proof.
  intros V Hh Hxd Hfx Hfd Hx Hd Htx Htd Hdx Hpx Hdd Hpd Hvd Hrd HQ.
  unfold settle_victim, fetched, prepared_victim. simpl. unfold to_dram_frame, drop_reserve, finish_victim, moved_page, moved_down in *.
  vstep. destruct (has_reserve (jp j)) eqn:Hhr.
  - apply wp_bind. do 3 vstep. apply wp_bind. do 4 vstep.
    apply wp_bind. eapply wp_enqueue_fifo; [eassumption|eexists; vlookup|exact Hfd|rewrite Hh; not_in|]. intros s6 V6. vclear.
    apply wp_bind. eapply wp_enqueue_fifo; [eassumption|eexists; vlookup| |rewrite Hh; not_in|].
    { apply floating_fupd; [done|]. intros [?|Hin]%elem_of_cons; [done|]. by apply (Hfx dram_free_list). }
    intros s7 V7. vclear. do 6 vstep.
    match goal with V' : View ?s' ?P' ?L' e |- Q _ ?s' => eapply (HQ s' P' L') end; [eassumption|vlookup|vlookup| | | |].
    + intros z H1 H2. by rewrite !lookup_insert_ne by congruence.
    + by split.
    + by split.
    + intros l. unfold fupd. by destruct l.
  - vstep. rewrite Hpd. vstep.
    apply wp_bind. eapply wp_enqueue_fifo; [eassumption|by eexists|exact Hfx|rewrite Hh; not_in|]. intros s6 V6. vclear.
    apply wp_bind. do 3 vstep.
    apply wp_bind. eapply wp_enqueue_fifo; [eassumption|eexists; vlookup| |rewrite Hh; not_in|].
    { apply floating_fupd; [done|]. intros [?|Hin]%elem_of_cons; [done|]. by apply (Hfd disk_active_list). }
    intros s7 V7. vclear. do 6 vstep.
    match goal with V' : View ?s' ?P' ?L' e |- Q _ ?s' => eapply (HQ s' P' L') end; [eassumption|vlookup|vlookup| | | |].
    + intros z H1 H2. by rewrite !lookup_insert_ne by congruence.
    + by split.
    + split; try done. simpl. by apply Hrd.
    + intros l. unfold fupd. by destruct l.
Qed.

(** The batch that was collected can be migrated. *)
Lemma collected_batch k C P P1 L0 e js s L :
  let vs := (fun j => (jx j, jp j)) <$> js in
  collecting k C P P1 L0 e vs js s L ->
  updated (marks fst (fun v => set_migrating true (snd v)) vs) P P1 ->
  (forall v, v ∈ vs -> managed P (fst v) (snd v) /\ resident C P L0 e (fst v) (snd v)) ->
  batch_pages P1 js /\ batch_data C e js.
Proof.
  intros vs [V I Hf Hn Hs Hl Hfr] U Hvs.
  assert (forall j, j ∈ js -> (jx j, jp j) ∈ vs) as Hin by (intros j Hj; by apply (list_elem_of_fmap_2 (fun j => (jx j, jp j)))).
  assert ((vs.*1) = jx <$> js) as Hk by (unfold vs; by rewrite <- list_fmap_compose).
  rewrite Hk in *. apply NoDup_app in Hn as (Hnd & Hdj & Hnx).
  split.
  - split.
    + intros j Hj. destruct (Hvs _ (Hin j Hj)) as [[Hx Ht] [Hd _ _ _ _ Hso]]. simpl in *. split_and!; [|done..].
      apply (up_in _ _ _ U). apply list_elem_of_fmap. by exists (jx j, jp j); split; [|apply Hin].
    + intros j Hj. rewrite (up_out _ _ _ U); [by apply (sf_page _ _ _ _ (Hs j Hj))|].
      rewrite marks_keys, Hk. apply Hdj. by apply list_elem_of_fmap_2.
    + apply NoDup_app. split_and!; [done| |done]. intros x Hx Hx'. by apply (Hdj x).
    + assert (vs = (fun x => (x, default zeroed_page (P !! x))) <$> (jx <$> js)) as Hvs'.
      { rewrite <- list_fmap_compose. apply list_fmap_ext. intros i j Hij.
        destruct (Hvs (jx j, jp j)) as [[Hx _] _]; [apply Hin; by eapply list_elem_of_lookup_2|]. simpl in *.
        by rewrite Hx. }
      assert ((fun j => va (jp j)) <$> js = (fun x => va (default zeroed_page (P !! x))) <$> (jx <$> js)) as ->.
      { rewrite <- list_fmap_compose. apply list_fmap_ext. intros i j Hij.
        destruct (Hvs (jx j, jp j)) as [[Hx _] _]; [apply Hin; by eapply list_elem_of_lookup_2|]. simpl in *.
        by rewrite Hx. }
      apply NoDup_fmap_2_strong; [|done]. intros x y (j1 & -> & H1)%list_elem_of_fmap (j2 & -> & H2)%list_elem_of_fmap.
      destruct (Hvs _ (Hin j1 H1)) as [[Hx1 _] [_ [Ht1 _ _ _] _ _ _ _]].
      destruct (Hvs _ (Hin j2 H2)) as [[Hx2 _] [_ [Ht2 _ _ _] _ _ _ _]]. simpl in *.
      rewrite Hx1, Hx2. simpl. congruence.
    + assert ((fun j => virtual_offset (jq j)) <$> js = (fun d => virtual_offset (default zeroed_page (P !! d))) <$> (jd <$> js)) as ->.
      { rewrite <- list_fmap_compose. apply list_fmap_ext. intros i j Hij. simpl.
        destruct (sf_page _ _ _ _ (Hs j ltac:(by eapply list_elem_of_lookup_2))) as [Hx _]. by rewrite Hx. }
      apply NoDup_fmap_2_strong; [|done]. intros x y (j1 & -> & H1)%list_elem_of_fmap (j2 & -> & H2)%list_elem_of_fmap.
      pose proof (sf_page _ _ _ _ (Hs j1 H1)) as M1. pose proof (sf_page _ _ _ _ (Hs j2 H2)) as M2.
      pose proof (proj1 M1) as Hp1. pose proof (proj1 M2) as Hp2. rewrite Hp1, Hp2. simpl.
      apply (so_inj _ _ (i_slots _ _ _ _ _ _ _ I) _ _ _ _ M1 M2).
      by rewrite (sf_dram _ _ _ _ (Hs j1 H1)), (sf_dram _ _ _ _ (Hs j2 H2)).
  - split; intros j Hj.
    + destruct (Hvs _ (Hin j Hj)) as [_ [_ [_ _ _ Hr] _ _ _ _]]. done.
    + destruct (Hvs _ (Hin j Hj)) as [_ [_ _ Hm _ _ _]]. done.
    + by apply (sf_clean _ _ _ _ (Hs j Hj)).
Qed.

(** The kernel effects of the batch are confined to its pages. *)
Lemma inv_evicted_all k F C P L e e' js :
  inv k F C [] P L e -> evicted_all C e e' js ->
  (forall j, j ∈ js -> jx j ∈ F /\ jd j ∈ F /\ managed P (jd j) (jq j) /\ in_dram (jq j) = false /\
     pages e !! va (jp j) = Some (jx j) /\ registered (kern e) (va (jp j)) = true) ->
  inv k F C [] P L e'.
Proof.
  intros I [S R Hn M Hd Ho G] Hjs.
  assert (content (kern e') (glob e page_cache) = content (kern e) (glob e page_cache)) as Hcc.
  { unfold content. rewrite (sm_mem _ _ _ M); [done|]. intros (j & Heq & Hj)%list_elem_of_fmap.
    destruct (Hjs j Hj) as (_ & _ & _ & _ & _ & Hr). rewrite <- Heq in Hr.
    destruct (co_cache _ (i_conf _ _ _ _ _ _ _ I)) as (_ & Hu & _). congruence. }
  eapply (inv_own k F C [] P); [exact I|done| | | | |done| |by apply (es_glob _ _ S)|constructor].
  - intros x Hx. destruct (i_owned _ _ _ _ _ _ _ I x Hx) as (pg & Hm). exists pg. split; [done|].
    intros pg2 Hp2. destruct Hm. congruence.
  - split; [apply S| | |apply G].
    + intros a _ Ha. split; [apply (sm_mem _ _ _ M)|apply (sm_dirty _ _ _ M)];
        intros (j & -> & Hj)%list_elem_of_fmap; destruct (Hjs j Hj) as (H1 & _ & _ & _ & H2 & _); by apply (Ha (jx j)).
    + intros o Hoff. apply Ho. intros (j & -> & Hj)%list_elem_of_fmap.
      destruct (Hjs j Hj) as (_ & H2 & H3 & H4 & _). by apply (Hoff (jd j) (jq j)).
  - eapply slots_env; [apply I|by apply (es_glob _ _ S)..].
  - eapply conf_ok_step; [apply I|done|done|done].
  - by rewrite (es_held _ _ S), (i_held _ _ _ _ _ _ _ I).
Qed.

(** The lists after the jobs [zs] were settled. *)
Definition settled (zs : list job) L : fifo_id -> list loc :=
  fupd (fupd L disk_active_list (reverse (jx <$> zs) ++ L disk_active_list))
    dram_free_list (reverse (jd <$> zs) ++ L dram_free_list).

Lemma settled_step zs j L L' l :
  (forall l, L l = settled zs L' l) ->
  fupd (fupd L disk_active_list (jx j :: L disk_active_list)) dram_free_list (jd j :: L dram_free_list) l =
  settled (zs ++ [j]) L' l.
Proof.
  intros HL. unfold settled in *. rewrite !fmap_app, !reverse_app. unfold fupd in *.
  destruct l; simpl; rewrite !HL; done.
Qed.

Definition owned_by (ys : list job) : list loc := (jx <$> ys) ++ (jd <$> ys).

Lemma owned_by_cons j ys : owned_by (j :: ys) ≡ₚ jx j :: jd j :: owned_by ys.
Proof. unfold owned_by. simpl. by rewrite <- Permutation_middle. Qed.

(** The jobs [ys] are still to be settled; the invariant holds of
    descriptors [Pg] in which they have not been touched. *)
Record settling k C L0 e (zs ys : list job) s L P Pg : Prop := {
  sg_view : View s P L e;
  sg_inv : inv (k - Z.of_nat (length zs)) (owned_by ys) C [] Pg L e;
  sg_float : forall x, x ∈ owned_by ys -> floating L x;
  sg_nodup : NoDup (owned_by ys);
  sg_pages : forall j, j ∈ ys -> managed Pg (jx j) (jp j) /\ managed Pg (jd j) (jq j) /\
    P !! jx j = Some (moved_page j) /\ P !! jd j = Some (jq j);
  sg_same : forall x, x ∉ owned_by ys -> P !! x = Pg !! x;
  sg_lists : forall l, L l = settled zs L0 l }.

Lemma settling_step k C L0 e zs j ys s L P Pg s' P' L' px' pd' :
  settling k C L0 e zs (j :: ys) s L P Pg -> written C e j ->
  View s' P' L' e -> P' !! jx j = Some px' -> P' !! jd j = Some pd' ->
  (forall z, z <> jx j -> z <> jd j -> P' !! z = P !! z) ->
  stored (jp j) (jq j) px' -> vacated (jp j) pd' ->
  (forall l, L' l = fupd (fupd L disk_active_list (jx j :: L disk_active_list))
    dram_free_list (jd j :: L dram_free_list) l) ->
  settling k C L0 e (zs ++ [j]) ys s' L' P' (<[jx j := px']> (<[jd j := pd']> Pg)).
Proof.
  intros [V I Hf Hn Hp Hs HL] W V' Hx' Hd' Ho' Hst Hvc HL'.
  pose proof Hn as Hn'. rewrite owned_by_cons in Hn'.
  assert (forall x, x ∈ owned_by (j :: ys) <-> x ∈ jx j :: jd j :: owned_by ys) as Hmem
    by (intros x; by rewrite owned_by_cons).
  destruct (Hp j) as (Hmx & Hmd & _); [left|].
  assert (floating L (jx j)) as Hfx by (apply Hf, Hmem; left).
  assert (floating L (jd j)) as Hfd by (apply Hf, Hmem; right; left).
  pose proof Hn' as [Hx [Hd HnF]%NoDup_cons]%NoDup_cons. apply not_elem_of_cons in Hx as [Hxd HxF].
  assert (forall z, z ∈ owned_by ys -> z <> jx j /\ z <> jd j) as Hne by (intros z Hz; split; by intros ->).
  split; [done| | |done| | |].
  - eapply (inv_ext _ _ _ _ _ _ L') in HL' as HL2; [exact HL2|].
    rewrite length_app. simpl. replace (k - _) with (k - Z.of_nat (length zs) - 1) by lia.
    eapply (inv_settle _ _ _ Pg); [by eapply inv_members|done..| | |].
    + by rewrite lookup_insert_eq.
    + by rewrite lookup_insert_ne, lookup_insert_eq.
    + intros z H1 H2. by rewrite !lookup_insert_ne.
  - intros x HxF'. destruct (Hne x HxF') as [H1 H2]. intros l. rewrite HL'.
    apply floating_fupd; [apply floating_fupd|].
    + apply Hf, Hmem. right. by right.
    + intros [?|Hin]%elem_of_cons; [done|]. by apply (Hf x (proj2 (Hmem x) ltac:(right; by right)) disk_active_list).
    + intros [?|Hin]%elem_of_cons; [done|]. by apply (Hf x (proj2 (Hmem x) ltac:(right; by right)) dram_free_list).
  - intros y Hy. destruct (Hp y) as (H1 & H2 & H3 & H4); [by right|].
    destruct (Hne (jx y)) as [N1 N2]; [unfold owned_by; apply elem_of_app; left; by apply list_elem_of_fmap_2|].
    destruct (Hne (jd y)) as [N3 N4]; [unfold owned_by; apply elem_of_app; right; by apply list_elem_of_fmap_2|].
    unfold managed in *. by rewrite !Ho', !lookup_insert_ne by done.
  - intros z Hz. destruct (decide (z = jx j)) as [->|H1]; [by rewrite lookup_insert_eq|].
    destruct (decide (z = jd j)) as [->|H2]; [by rewrite lookup_insert_ne, lookup_insert_eq|].
    rewrite Ho', !lookup_insert_ne by done. apply Hs. by rewrite Hmem, !not_elem_of_cons.
  - intros l. rewrite HL'. by apply settled_step.
Qed.

Lemma wp_settle_all k C L0 e e0 js s P Pg (Q : unit -> state K -> Prop) :
  settling k C L0 e [] js s L0 P Pg -> (forall j, j ∈ js -> written C e j) ->
  (forall j, j ∈ js -> has_reserve (jp j) = false -> has_reserve (jq j) = false) ->
  (forall s' P', pager (k - Z.of_nat (length js)) [] C [] s' P' (settled js L0) e -> Q tt s') ->
  wp E (for_each settle_victim (fetched e0 <$> js)) s Q.
Proof.
  intros G0 W Hr HQ.
  eapply (wp_for_each _ _ (fetched e0) (fun zs s' => exists ys L P' Pg', js = zs ++ ys /\
    settling k C L0 e zs ys s' L P' Pg')).
  - by exists js, L0, P, Pg.
  - intros zs j ys s1 Hjs (ys1 & L & P1 & Pg1 & Hjs' & G).
    rewrite Hjs in Hjs'. apply app_inv_head in Hjs' as <-.
    assert (j ∈ js) as Hj by (rewrite Hjs; apply elem_of_app; right; left).
    pose proof (sg_inv _ _ _ _ _ _ _ _ _ _ G) as I.
    destruct (sg_pages _ _ _ _ _ _ _ _ _ _ G j) as (Hmx & Hmd & Hx & Hd); [left|].
    pose proof (sg_nodup _ _ _ _ _ _ _ _ _ _ G) as Hn.
    assert (floating L (jx j) /\ floating L (jd j)) as [Hfx Hfd].
    { split; apply (sg_float _ _ _ _ _ _ _ _ _ _ G); rewrite owned_by_cons; [left|right; left]. }
    rewrite owned_by_cons in Hn. apply NoDup_cons in Hn as [Hn _]. apply not_elem_of_cons in Hn as [Hxd _].
    destruct (W j Hj) as [Hdr Hsl Hv0 _ _ _].
    eapply wp_settle_victim; [apply G|apply I|exact Hxd|exact Hfx|exact Hfd|exact Hx|exact Hd|apply Hmx|apply Hmd|done| |done| |done|by apply Hr|].
    { by eapply (so_present _ _ (i_slots _ _ _ _ _ _ _ I) (jx j)). }
    { by eapply (so_present _ _ (i_slots _ _ _ _ _ _ _ I) (jd j)). }
    intros s2 P2 L2 px' pd' V2 Hx2 Hd2 Ho2 Hst Hvc HL2.
    exists ys, L2, P2, (<[jx j := px']> (<[jd j := pd']> Pg1)). split; [by rewrite <- app_assoc|].
    eapply settling_step; [exact G|by apply W|done..].
  - intros s1 (ys & L & P1 & Pg1 & Hjs & [V I Hf _ _ Hs HL]).
    assert (ys = []) as -> by (apply (f_equal length) in Hjs; rewrite length_app in Hjs; apply nil_length_inv; lia).
    assert (Pg1 = P1) as -> by (apply map_eq; intros x; symmetry; apply Hs, not_elem_of_nil).
    apply (HQ s1 P1). split; [by eapply view_ext|by eapply inv_ext|by intros x ?%elem_of_nil|constructor].
Qed.

(** ** The worker *)

(** The data of the settled batch. *)
Lemma batch_written C P e e' js j :
  batch_data C e js -> evicted_all C e e' js -> j ∈ js -> slot_found C P e j ->
  in_dram (jp j) = true -> at_va e (jx j) (jp j) -> written C e' j.
Proof.
  intros Bd Ev Hj [_ Hd Hv _ _ _] Hdr [Ht Hn Ha Hr]. split; [done..| | |].
  - split; [by rewrite (es_pages _ _ (ea_env _ _ _ _ Ev))|done|done|].
    by rewrite (sg_registered _ _ (ea_reg _ _ _ _ Ev)).
  - by apply (ea_none _ _ _ _ Ev).
  - by apply (ea_disk _ _ _ _ Ev).
Qed.

(** From the migrated batch to the passes over the lists. *)
Lemma settling_start k C P P1 L0 e e' vs js s s' P' L :
  collecting k C P P1 L0 e vs js s L -> (fun j => (jx j, jp j)) <$> js = vs ->
  updated (marks fst (fun v => set_migrating true (snd v)) vs) P P1 ->
  (forall v, v ∈ vs -> managed P (fst v) (snd v) /\ resident C P L0 e (fst v) (snd v)) ->
  View s' P' L e' -> updated (marks jx moved_page js) P1 P' -> evicted_all C e e' js ->
  settling k C L e' [] js s' L P' P.
Proof.
  intros G Hjs U Hvs V' U' Ev.
  assert (jx <$> js = (vs.*1)) as Hk by (rewrite <- Hjs; by rewrite <- list_fmap_compose).
  assert (forall x, x ∈ owned_by js <-> x ∈ (jd <$> js) ++ (vs.*1)) as Hmem
    by (intros x; unfold owned_by; rewrite <- Hk, !elem_of_app; tauto).
  assert (forall j, j ∈ js -> (jx j, jp j) ∈ vs) as Hin
    by (intros j Hj; rewrite <- Hjs; by apply (list_elem_of_fmap_2 (fun j => (jx j, jp j)))).
  assert (forall j, j ∈ js -> jd j ∉ (jx <$> js)) as Hdj.
  { intros j Hj Hx. pose proof (cg_nodup _ _ _ _ _ _ _ _ _ _ G) as Hn. rewrite <- Hk in Hn.
    apply NoDup_app in Hn as (_ & Hd & _). apply (Hd (jd j)); [by apply list_elem_of_fmap_2|done]. }
  assert (inv k (owned_by js) C [] P L e) as I by (eapply (inv_members _ ((jd <$> js) ++ (vs.*1))); [intros x; by rewrite Hmem|apply G]).
  split; [done| | | | | |].
  - rewrite Z.sub_0_r. eapply inv_evicted_all; [exact I|exact Ev|]. intros j Hj.
    destruct (Hvs _ (Hin j Hj)) as [_ [_ Ha _ _ _ _]]. destruct (cg_found _ _ _ _ _ _ _ _ _ _ G j Hj).
    unfold owned_by. rewrite !elem_of_app. split_and!; [left|right|done|done|apply Ha|apply Ha];
      by apply list_elem_of_fmap_2.
  - intros x Hx. by apply (cg_float _ _ _ _ _ _ _ _ _ _ G), Hmem.
  - unfold owned_by. rewrite Hk, (Permutation_app_comm (vs.*1)). apply G.
  - intros j Hj. split_and!.
    + apply (Hvs _ (Hin j Hj)).
    + by destruct (cg_found _ _ _ _ _ _ _ _ _ _ G j Hj).
    + apply (up_in _ _ _ U'). apply list_elem_of_fmap. by exists j.
    + rewrite (up_out _ _ _ U') by (rewrite marks_keys; by apply Hdj).
      rewrite (up_out _ _ _ U) by (rewrite marks_keys, <- Hk; by apply Hdj).
      by destruct (cg_found _ _ _ _ _ _ _ _ _ _ G j Hj) as [[]].
  - intros x Hx. assert (x ∉ (jx <$> js)) as Hx'.
    { intros Hx'. apply Hx. unfold owned_by. apply elem_of_app. by left. }
    rewrite (up_out _ _ _ U') by (by rewrite marks_keys).
    apply (up_out _ _ _ U). by rewrite marks_keys, <- Hk.
  - intros l. unfold settled, fupd. simpl. by destruct l.
Qed.

(** The lists after the victims [ys], from the back of the eviction list,
    gave their frames to [ds]. *)
Record turned_over_all L L' (xs ys ds : list loc) : Prop := {
  ta_frames : L' dram_free_list = reverse ds ++ L dram_free_list;
  ta_stored : L' disk_active_list = reverse ys ++ L disk_active_list;
  ta_victims : L' eviction_list = xs;
  ta_length : length ds = length ys;
  ta_rest : forall l, l <> dram_free_list -> l <> disk_active_list -> l <> eviction_list ->
    l <> disk_reserve_list -> l <> disk_free_list -> L' l = L l }.

Lemma settled_turned_over k C P P1 L e vs js s L' xs ys :
  collecting k C P P1 (fupd L eviction_list xs) e vs js s L' -> jx <$> js = ys ->
  turned_over_all L (settled js L') xs ys (jd <$> js).
Proof.
  intros G <-. pose proof (cg_lists _ _ _ _ _ _ _ _ _ _ G) as HL. unfold settled, fupd in *. split.
  - simpl. by rewrite HL.
  - simpl. by rewrite HL.
  - simpl. by rewrite HL.
  - by rewrite !length_fmap.
  - intros l H1 H2 H3 H4 H5. destruct l; simpl; try done; by rewrite HL.
Qed.

(** The collected batch is migrated and the lists brought up to date. *)
Lemma wp_evict_batch C P P1 L0 e js s L (Q : unit -> state K -> Prop) :
  let vs := (fun j => (jx j, jp j)) <$> js in
  collecting (Z.of_nat (length js)) C P P1 L0 e vs js s L ->
  updated (marks fst (fun v => set_migrating true (snd v)) vs) P P1 ->
  (forall v, v ∈ vs -> managed P (fst v) (snd v) /\ resident C P L0 e (fst v) (snd v)) ->
  (length js < Z.to_nat QD)%nat -> (flag e (uring_init (self e)) = false -> E BadRing) ->
  (forall s' P' e', pager 0 [] C [] s' P' (settled js L) e' -> env_step e e' -> same_reg (kern e) (kern e') -> Q tt s') ->
  wp E (extmem_migrate_downdisk_vector ((fun '(v, _, wb, d) => Evicting v d wb) <$> (fetched e <$> js));;
        for_each settle_victim (fetched e <$> js)) s Q.
Proof.
  intros vs G U Hvs Hl HS HQ.
  destruct (collected_batch _ C P P1 L0 e js s L G U Hvs) as [B Bd].
  assert (((fun '(v, _, wb, d) => Evicting v d wb) <$> (fetched e <$> js)) = victim_of <$> js) as ->.
  { rewrite <- list_fmap_compose. apply list_fmap_ext. intros i j Hij. unfold fetched, prepared_victim, victim_of. simpl.
    by rewrite (sf_job _ _ _ _ (cg_found _ _ _ _ _ _ _ _ _ _ G j ltac:(by eapply list_elem_of_lookup_2))). }
  pose proof (cg_inv _ _ _ _ _ _ _ _ _ _ G) as I.
  apply wp_bind. eapply (wp_migrate_vector C P1 js);
    [apply G|exact B|exact Bd|apply I|exact Hl| |rewrite (i_held _ _ _ _ _ _ _ I); not_in|].
  { destruct (flag e (uring_init (self e))); [by left|right; right; by apply HS]. }
  intros s1 P2 e1 V1 U1 Ev.
  pose proof (settling_start _ _ _ _ _ _ _ _ _ _ _ _ _ G eq_refl U Hvs V1 U1 Ev) as G1.
  eapply (wp_settle_all _ C L e1 e js); [exact G1| | |].
  { intros j Hj. destruct (Hvs (jx j, jp j)) as [_ [Hdr Ha _ _ _ _]];
      [by apply (list_elem_of_fmap_2 (fun j => (jx j, jp j)))|].
    eapply batch_written; [exact Bd|exact Ev|exact Hj|by apply (cg_found _ _ _ _ _ _ _ _ _ _ G)|done|done]. }
  { intros j Hj. apply (sf_reserve _ _ _ _ (cg_found _ _ _ _ _ _ _ _ _ _ G j Hj)). }
  intros s2 P3 G2. rewrite Z.sub_diag in G2. eapply HQ; [exact G2|apply Ev|apply Ev].
Qed.

(** The victims that were taken off the eviction list. *)
Lemma victims_taken C s s1 P L e xs ys :
  let L2 := fupd L eviction_list xs in
  pager 0 [] C [] s P L e -> L eviction_list = xs ++ reverse ys -> View s1 P L2 e ->
  exists vs, (vs.*1) = ys /\ NoDup ys /\
    (forall k2, obs_eq (kern e) k2 -> forall v, v ∈ vs ->
       managed P (fst v) (snd v) /\ resident C P L2 (set_kern k2 e) (fst v) (snd v)) /\
    (forall s2 P2 k2, View s2 P2 L2 (set_kern k2 e) -> obs_eq (kern e) k2 ->
       collecting (Z.of_nat (length ys)) C P P2 L2 (set_kern k2 e) vs [] s2 L2) /\
    (ys = [] -> pager 0 [] C [] s1 P L2 e).
Proof.
  intros L2 G HL V1. pose proof (pg_inv _ _ _ _ _ _ _ _ G) as I.
  pose proof (view_distinct _ _ _ _ (pg_view _ _ _ _ _ _ _ _ G)) as Hd.
  destruct (inv_take_all eviction_list ys xs 0 [] C P L e I Hd) as [I2 Hys]; [done|done|by intros y _ ?%elem_of_nil|].
  rewrite app_nil_r in I2. fold L2 in I2, Hys.
  assert (NoDup ys) as Hnd.
  { pose proof (di_once _ Hd eviction_list) as Hn. rewrite HL in Hn.
    apply NoDup_app in Hn as (_ & _ & Hn). by rewrite reverse_Permutation in Hn. }
  exists ((fun y => (y, default zeroed_page (P !! y))) <$> ys).
  assert ((((fun y => (y, default zeroed_page (P !! y))) <$> ys).*1) = ys) as Hvy
    by (rewrite <- list_fmap_compose; apply list_fmap_id).
  split_and!; [done|done| | |].
  - intros k2 O2 v (y & -> & Hy)%list_elem_of_fmap. destruct (Hys y Hy) as [_ (pg & Hm & R)]. simpl.
    pose proof Hm as [Hp Ht]. rewrite Hp. split; [done|]. by apply resident_obs.
  - intros s2 P2 k2 V2 O2. split; simpl; rewrite ?Hvy; try done.
    + by apply inv_obs.
    + intros y Hy. by apply Hys.
    + by intros j ?%elem_of_nil.
    + lia.
  - intros ->. split; [done|exact I2|by intros y ?%elem_of_nil|constructor].
Qed.

Lemma wp_evictionworker_vector_of prep C s P L e (Q : Z -> state K -> Prop) :
  prepares prep -> pager 0 [] C [] s P L e ->
  ((length (L disk_free_list) < Z.to_nat EVICT_VECTOR_SIZE)%nat -> E (AssertFailed "no disk page found")) ->
  (flag e (uring_init (self e)) = false -> E BadRing) ->
  (forall xs ys ds s' P' L' e', L eviction_list = xs ++ reverse ys ->
     Z.of_nat (length ys) = EVICT_VECTOR_SIZE \/ xs = [] /\ Z.of_nat (length ys) < EVICT_VECTOR_SIZE ->
     pager 0 [] C [] s' P' L' e' -> turned_over_all L L' xs ys ds ->
     env_step (set_flag (internal_call (self e)) true e) e' -> same_reg (kern e) (kern e') ->
     Q (Z.of_nat (length ys)) s') ->
  wp E (evictionworker_vector_of prep) s Q.
Proof.
  intros Hprep G HE HS HQ. pager_facts G. assert (held e = []) as Hh by apply I. unfold evictionworker_vector_of.
  vstep. set (e1 := set_flag (internal_call (self e)) true e) in *.
  match goal with V' : View ?s' _ _ e1 |- _ => assert (pager 0 [] C [] s' P L e1) as G1
    by (eapply pager_vars; [exact G|exact V'|unfold e1; vars_done..]) end.
  apply wp_bind. eapply wp_dequeue_fifo_vector; [apply G1|simpl; rewrite Hh; not_in|done|].
  intros xs ys s1 HL V1 Hlen.
  assert (length ys <= Z.to_nat EVICT_VECTOR_SIZE)%nat as Hle by (unfold EVICT_VECTOR_SIZE in *; lia).
  destruct (victims_taken _ _ _ _ _ _ _ _ G1 HL V1) as (vs & Hvy & Hnd & Hvs & Hcol & Hnone).
  set (L2 := fupd L eviction_list xs) in *.
  destruct (decide (ys = [])) as [->|H0].
  { rewrite bool_decide_eq_true_2 by done. vstep. eapply (HQ xs [] [] _ P L2 e1); [done|done|by apply Hnone| |done|done].
    unfold L2. split; try done. intros l _ _ Hl _ _. by rewrite fupd_ne. }
  rewrite bool_decide_eq_false_2 by (destruct ys; [done|simpl; lia]).
  assert (Some <$> ys = (fun v => Some (fst v)) <$> vs) as -> by (rewrite <- Hvy; by rewrite <- list_fmap_compose).
  assert (set_kern (kern e1) e1 = e1) as Hk1 by by destruct e1.
  apply wp_bind. eapply (wp_prepare_victims prep C P L2 e1); [exact Hprep|exact V1|by rewrite Hvy| |].
  { intros v Hv. rewrite <- Hk1. by apply Hvs. }
  intros s2 P2 k2 V2 O2 U2. pose proof (Hcol _ _ _ V2 O2) as G2. pose proof (Hvs _ O2) as Hvs2.
  set (e2 := set_kern k2 e1) in *.
  assert (length vs = length ys) as Hvl by (rewrite <- Hvy; by rewrite length_fmap).
  apply wp_bind. eapply (wp_fetch_diskpages _ C P P2 L2 e2 e1 vs); [exact G2|exact U2|exact Hvs2| | |].
  { intros v. unfold prepared_victim, e2. simpl. by rewrite (oe_dirty _ _ O2). }
  { intros Hlt. apply HE. unfold L2 in Hlt. rewrite fupd_ne in Hlt by done. lia. }
  intros js L3 s3 G3 Hjs.
  assert (jx <$> js = ys) as Hjy by (rewrite <- Hvy, <- Hjs; by rewrite <- list_fmap_compose).
  assert (length js = length ys) as Hjl by (rewrite <- Hjy; by rewrite length_fmap).
  apply (wp_assoc _ _ (fun _ => for_each settle_victim (fetched e2 <$> js))), wp_bind.
  rewrite <- Hjl in G3. subst vs.
  eapply (wp_evict_batch C P P2 L2 e2 js); [exact G3|exact U2|exact Hvs2| | |].
  { unfold EVICT_VECTOR_SIZE, QD in *. lia. }
  { unfold e2, e1. simpl. simp_fupd. exact HS. }
  intros s5 P5 e5 G5 S5 R5. vstep.
  eapply (HQ xs ys (jd <$> js)); [done|done|exact G5|by eapply settled_turned_over| |].
  - etrans; [apply (env_step_set_kern k2)|done].
  - etrans; [apply (oe_reg _ _ O2)|done].
Qed.

Lemma lru_prepares : prepares prepare_victim.
Proof. by intros P L e s x px Q. Qed.
End vector.

(** ** The threads of the default build

    kswapd and the eviction workers.  A worker whose first batch has nothing
    to write submits on a ring that it never set up. *)

#[export] Instance lru_background {K} `{KernelOps K} : Background K := {|
  background t :=
    match t with
    | kswapd_thread => kswapd_turn
    | eviction_thread _ => lrudisk_evictionworker_vector;; mret tt
    | application _ | prefetch_thread _ => mret tt
    end;
  background_fault f := f = AssertFailed "no disk page found" \/ f = BadRing |}.

Section threads.
Context {K D : Type} `{KL : KernelLaws K D may_fail} {E : fault -> Prop} `{!Tolerates may_fail E}.

(** A worker that leaves the pager at rest has taken a turn. *)
Lemma worker_turn_end C s s' P P' L L' (e e' : env K) n (Q : unit -> state K -> Prop) :
  self e = eviction_thread n -> at_rest C s P L e -> pager 0 [] C [] s' P' L' e' ->
  env_step (set_flag (internal_call (self e)) true e) e' -> same_reg (kern e) (kern e') ->
  (forall s' P' L' e', at_rest C s' P' L' e' -> self e' = self e ->
     (forall n, flag e' (internal_call (application n)) = flag e (internal_call (application n))) ->
     (forall a, registered (kern e') a = registered (kern e) a) -> Q tt s') -> Q tt s'.
Proof.
  intros Hn R G S [Hr _] HQ.
  assert (call_step e e') as Hc by (etrans; [|by apply call_env]; call_done).
  eapply HQ; [by eapply at_rest_step|apply Hc| |exact Hr].
  intros m. apply Hc. by rewrite Hn.
Qed.
End threads.

#[export] Instance lru_background_laws {K D} `{KL : KernelLaws K D may_fail} :
  BackgroundLaws K D (BG := lru_background) may_fail.
Proof.
  split. intros E C P L e s Q HT HE R HQ. simpl. destruct (self e) as [n| |n|n] eqn:Hse.
  - apply wp_ret. by eapply HQ.
  - eapply wp_kswapd_turn; [done|exact wp_direct_allocate|exact R|].
    intros s' P' L' e' R' [Hs Hc] Hr. eapply HQ; [exact R'|congruence|done|done].
  - apply wp_bind. eapply wp_evictionworker_vector_of; [exact lru_prepares|apply R| | |].
    + intros _. apply HE. by left.
    + intros _. apply HE. by right.
    + intros xs ys ds s' P' L' e' _ _ G' _ S Hr. apply wp_ret.
      eapply worker_turn_end; [exact Hse|exact R|exact G'|exact S|exact Hr|]. rewrite Hse. exact HQ.
  - apply wp_ret. by eapply HQ.
Qed.
