(* ===== verification/PageRank.v ===== *)
(** * The PageRank policy: [policies/pageRank.c], definitions

    The alternative policy of the pagerank build, a variant of
    [policies/disklinux.c] for programs that sweep through an array.  It
    remembers the last page swapped in ([safe_to_free]) and, once there is
    one, picks victims by their distance from it instead of their accessed
    bits; a thread of its own prefetches the block ahead of that page; victims
    are evicted one by one; and a page is not taken off [eviction_list] when
    its address is unmapped, the eviction workers have to do so first.

    The two files share most of their text.  A function whose text is that of
    [disklinux.c] is defined here as the one of [DiskLinux], up to the functions it
    calls; what differs is written out. *)

From S2P Require Import Prelude Kernel State Fifo Rules Uring Observability Migrate Policy DiskLinux Core.

Section functions.
Context {K : Type} `{KernelOps K}.
(** How often the retry loops that wait for other threads are unrolled. *)
Context (fuel : nat).
Local Abbreviation M := (M (state K)).

Definition LOW_WATER_THREASHOLD : Z := 80.
Definition PR_WINDOW_SIZE : Z := 128 * 1024 * 1024.
Definition PR_BLOCK_SIZE : Z := 32 * 1024 * 1024.

(** ** Choosing victims *)

Definition shrink_active_list (nr_pages : Z) : M Z := DiskLinux.shrink_active_list nr_pages.

(** The test of the second loop of [shrink_inactive_list], without its
    negation: [v] is close to the page [pos] the program is at. *)
Definition in_window (pos v : Z) : bool :=
  bool_decide (v < pos) && bool_decide (u64 (pos - v) < 32 * 4096 * 4096) ||
  bool_decide (pos < v) && bool_decide (u64 (v - pos) < u64 (PR_WINDOW_SIZE + 512 * 4096)).

Definition shrink_window_body (nr_pages : Z) : Z * Z -> M ((Z * Z) + Z) := fun '(ret, tries) =>
  n ← ldl numentries inactive_list;
  if bool_decide (ret < nr_pages) && bool_decide (0 < n) &&
     bool_decide (tries < u64 (nr_pages * 100)) then
    page ← dequeue_fifo inactive_list;
    match page with
    | Some _ =>
        v ← ld va page;
        pos ← rd safe_to_free;
        ret ← (if negb (in_window pos v) then
                 enqueue_fifo eviction_list page;;
                 mret (u64 (ret + 1))
               else
                 enqueue_fifo inactive_list page;;
                 mret ret);
        mret (inl (ret, u64 (tries + 1)))
    | None => mret (inl (ret, tries))
    end
  else mret (inr ret).

Definition shrink_inactive_list (nr_pages : Z) : M Z :=
  n ← ldl numentries inactive_list;
  let nr_pages := if (nr_pages =p 0) || bool_decide (n < nr_pages) then n else nr_pages in
  wrb shrinkage_running true;;
  pos ← rd safe_to_free;
  ret ← loop "shrink_inactive_list" (S (Z.to_nat (u64 (nr_pages * 100))))
          (if pos =p 0 then shrink_inactive_body nr_pages else shrink_window_body nr_pages) (0, 0);
  wrb shrinkage_running false;;
  mret (i32 ret).

(** The active list is left alone ([#if 0]). *)
Definition direct_allocate_body (nr_pages to_scan_inactive : Z) : Z * Z -> M ((Z * Z) + Z) :=
  fun '(reclaimed, nr_scanned_inactive) =>
  if bool_decide (nr_scanned_inactive < to_scan_inactive) && bool_decide (reclaimed < nr_pages) then
    r ← shrink_inactive_list SWAP_CLUSTER_COUNT;
    mret (inl (i32 (reclaimed + r), i32 (nr_scanned_inactive + SWAP_CLUSTER_COUNT)))
  else mret (inr reclaimed).

Definition direct_allocate_page_asynch (nr_pages priority : Z) : M Z :=
  i ← ldl numentries inactive_list;
  let to_scan_inactive := i32 (Z.shiftr i priority) in
  loop "direct_allocate_page_asynch" (S (Z.to_nat to_scan_inactive))
    (direct_allocate_body nr_pages to_scan_inactive) (0, 0).

(** ** Threads: one iteration of each loop *)

Definition kswapd_check : M bool := kswapd_check_at LOW_WATER_THREASHOLD.
Definition kswapd_work : M Z := kswapd_work_at LOW_WATER_THREASHOLD direct_allocate_page_asynch.

Definition lrudisk_evictionworker : M Z :=
  wrbt internal_call true;;
  victim ← dequeue_fifo eviction_list;
  match victim with
  | None => mret 0
  | Some _ =>
      a ← ld va victim;
      assert_ "victim->va != 0" (negb (a =p 0));;
      evict_victim victim;;
      mret 1
  end.

(** The batched worker, which no thread of this build runs. *)
Definition prepare_victim (victim : ptr) : M (ptr * Z * bool) :=
  a ← ld va victim;
  assert_ "victim[nr_prepared]->va != 0" (negb (a =p 0));;
  DiskLinux.prepare_victim victim.

Definition lrudisk_evictionworker_vector : M Z := evictionworker_vector_of prepare_victim.

(** ** Entry points used by [core.c] *)

Definition fetch_free_asynch : M ptr := fetch_free_with fuel direct_allocate_page_asynch.

Definition lrudisk_migrate_down : ptr -> Z -> bool -> bool -> M unit := DiskLinux.lrudisk_migrate_down.
Definition lrudisk_migrate_up : ptr -> Z -> M unit := DiskLinux.lrudisk_migrate_up.
Definition lrudisk_swapin : ptr -> ptr -> M unit := DiskLinux.lrudisk_swapin.

(** [safe_to_free = page->va;] *)
Definition note_position (page : ptr) : M unit := v ← ld va page; wr safe_to_free v.

Definition lrudisk_swapin_external (page : ptr) : M unit :=
  file_offset ← ld virtual_offset page;
  note_position page;;
  freepage ← fetch_free_asynch;
  d ← ld in_dram freepage;
  assert_ "freepage->in_dram == true" d;;
  detach_from disk_active_list page;;
  offset ← ld virtual_offset freepage;
  lrudisk_migrate_up page offset;;
  to_disk_slot freepage file_offset;;
  keep_reserve page freepage.

Definition lrudisk_swapin_external_async (page : ptr) : M unit :=
  file_offset ← ld virtual_offset page;
  detach_from disk_active_list page;;
  note_position page;;
  core_migrate_up_async_start page;;
  freepage ← fetch_free_asynch;
  d ← ld in_dram freepage;
  assert_ "freepage->in_dram == true" d;;
  offset ← ld virtual_offset freepage;
  core_migrate_up_async_finish page offset;;
  to_disk_slot freepage file_offset;;
  keep_reserve page freepage.

Definition lrudisk_ack_swapin : ptr -> ptr -> M unit := DiskLinux.lrudisk_ack_swapin.

Definition lrudisk_ack_vma (vma_boundry vma_size priority : Z) : M unit :=
  wr main_vma_va vma_boundry;;
  wr main_vma_size vma_size;;
  wr main_vma_priority priority.

Definition lrudisk_pagefault : M ptr :=
  page ← fetch_free_asynch;
  assert_ "page != NULL" (negb (page =p NULL));;
  st (set_migrating true) page;;
  mret page.

Definition lrudisk_track_page : ptr -> M unit := DiskLinux.lrudisk_track_page.
Definition lrudisk_put_page_free : ptr -> M unit := DiskLinux.lrudisk_put_page_free.
Definition lrudisk_detach_page : ptr -> M unit := DiskLinux.lrudisk_detach_page.

(** [do { ...; if (list == &eviction_list) { usleep(10); ret = 1; continue; }
    ret = tryremove(list, page); } while (ret != 0);] *)
Definition remove_from_any (page : ptr) : M unit :=
  loop "lrudisk_remove_page" fuel (fun _ : unit =>
    list ← ld list_of page;
    if list =p Some eviction_list then mret (inl tt)
    else
      ret ← page_list_tryremove_page list page;
      if ret =p 0 then mret (inr tt) else mret (inl tt)) tt.

Definition lrudisk_remove_page (page : ptr) : M unit :=
  assert_ "page != NULL" (negb (page =p NULL));;
  a ← ld va page;
  assert_ "page->va != 0" (negb (a =p 0));;
  remove_from_any page;;
  recycle_page fuel page.

Definition WRITER_THREADS : nat := 12.
Definition PREFETCHER_THREADS : nat := 1.

(** The loops over the frames and slots are those of [disklinux.c]. *)
Definition lrudisk_init : M unit :=
  carve_devices;;
  create_thread kswapd_thread;;
  for_each (fun i => create_thread (eviction_thread i)) (seq 0 WRITER_THREADS);;
  for_each (fun i => create_thread (prefetch_thread i)) (seq 0 PREFETCHER_THREADS).

(** ** The policy as the core sees it *)

Definition pr_ops : PolicyOps K := {|
  pagefault := lrudisk_pagefault;
  paging_init := lrudisk_init;
  mmgr_remove := lrudisk_remove_page;
  page_swapin_external_async := lrudisk_swapin_external_async;
  policy_add_page := lrudisk_track_page;
  policy_detach_page := lrudisk_detach_page;
  policy_put_freepage := lrudisk_put_page_free;
  policy_ack_swapped_in := lrudisk_ack_swapin;
  policy_ack_vma := lrudisk_ack_vma;
  mmgr_waits := true |}.
#[local] Existing Instance pr_ops.

(** ** The prefetching thread

    One iteration of its loop; [block_head], a local variable that nothing
    initialises, is passed from iteration to iteration. *)

Definition prefetch_body (block_head : Z) : Z -> M (Z + unit) := fun prefetch_head =>
  if bool_decide (prefetch_head <= u64 (block_head + PR_BLOCK_SIZE)) then
    assert_ "prefetch_head % PAGE_SIZE == 0" (prefetch_head mod PAGE_SIZE =p 0);;
    nr_prefetched ← core_try_prefetch prefetch_head;
    if nr_prefetched =p 0 then mret (inr tt)
    else mret (inl (u64 (prefetch_head + nr_prefetched * PAGE_SIZE)))
  else mret (inr tt).

Definition lrudisk_prefetchworker (block_head : Z) : M Z :=
  wrbt internal_call true;;
  a ← rd main_vma_va;
  pos ← rd safe_to_free;
  size ← rd main_vma_size;
  if (a =p 0) || (pos =p 0) || bool_decide (size < 5 * 1024 * 1024 * 1024) then mret block_head
  else
    let worker_id := 1 in
    let head := u64 (pos + u64 (PR_BLOCK_SIZE * worker_id)) in
    if block_head =p head then mret block_head
    else
      loop "lrudisk_prefetchworker" (S (S (Z.to_nat (PR_BLOCK_SIZE / PAGE_SIZE)))) (prefetch_body head) head;;
      mret head.
End functions.
