(* ===== verification/PageRankPager.v ===== *)
(** * The PageRank policy: proofs

    The policy of [PageRank] satisfies the interface of the core: its own way
    of choosing victims is a scan like any other ([scans]), its entry points
    are those of the default policy over another allocator. *)

From S2P Require Import Prelude Kernel State Fifo Rules Uring Observability Migrate Invariant.
From S2P Require Import Policy DiskLinux Remove Reclaim Entry Core Tracked Handlers Workers VectorWorker PageRank.

(** ** Choosing victims *)

Section choice.
Context {K D : Type} `{KL : KernelLaws K D may_fail} {E : fault -> Prop} `{!Tolerates may_fail E}.
Implicit Types (s : state K) (e : env K) (P : gmap loc user_page) (L : fifo_id -> list loc).
Implicit Types (C : Z -> D) (F : list loc).

(** What a scan selects: once there is a position, pages outside the window. *)
Record selected P L e P' L' e' : Prop := {
  sl_pos : glob e' safe_to_free = glob e safe_to_free;
  sl_va : forall y, whose <$> P' !! y = whose <$> P !! y;
  sl_active : forall y, y ∈ L active_list -> y ∈ L' active_list;
  sl_new : glob e safe_to_free <> 0 -> forall y py, y ∈ L' eviction_list -> y ∉ L eviction_list ->
    P !! y = Some py -> in_window (glob e safe_to_free) (va py) = false }.

Lemma selected_refl P L e : selected P L e P L e.
Proof. by split. Qed.

Lemma selected_trans P1 L1 e1 P2 L2 e2 P3 L3 e3 :
  selected P1 L1 e1 P2 L2 e2 -> selected P2 L2 e2 P3 L3 e3 -> selected P1 L1 e1 P3 L3 e3.
Proof.
  intros [S1 V1 A1 N1] [S2 V2 A2 N2]. split; [congruence|intros y; by rewrite V2|auto|].
  intros H0 y py H3 H1 Hp. destruct (decide (y ∈ L2 eviction_list)) as [H2|H2]; [by eapply N1|].
  pose proof (V1 y) as Hv. rewrite Hp in Hv. destruct (P2 !! y) as [py2|] eqn:Hp2; [|done].
  simpl in Hv. injection Hv as <- _. rewrite <- S1. apply (N2 ltac:(congruence) y py2); done.
Qed.

Lemma window_round nr ret tries k F C infl P L e s Q :
  pager k F C infl s P L e -> 0 <= ret < nr -> nr <= 2 ^ 30 -> 0 <= tries < nr * 100 ->
  L inactive_list <> [] ->
  (forall m s' P' L' e', scanned m k F C infl P L e s' P' L' e' -> 0 <= m <= 1 ->
     selected P L e P' L' e' -> Q (inl (ret + m, tries + 1)) s') ->
  wp E (shrink_window_body nr (ret, tries)) s Q.
Proof.
  intros G Hr Hnr Ht Hne HQ. unfold shrink_window_body. pager_facts G.
  assert (held e = []) as Hh by apply I.
  vstep. rewrite (u64_small (nr * 100)) by lia.
  rewrite !bool_decide_eq_true_2; [simpl|lia|destruct (L inactive_list); [done|simpl; lia]|lia].
  apply wp_bind. eapply wp_dequeue_fifo; [done|rewrite Hh; not_in|done|].
  intros xs x s1 HL V1.
  assert (x ∈ L inactive_list) as Hxl by (rewrite HL; apply elem_of_app; right; left).
  destruct (pager_role _ _ _ _ _ _ _ _ _ _ G Hxl) as (px & Hm & R). simpl in R. pose proof Hm as [Hx _].
  assert (View s1 (<[x := set_naccesses (naccesses px) px]> P) (fupd L inactive_list xs) (set_kern (kern e) e)) as V2.
  { assert (set_kern (kern e) e = e) as -> by by destruct e.
    assert (set_naccesses (naccesses px) px = px) as -> by by destruct px. by rewrite insert_id. }
  vstep. vstep. apply wp_bind. destruct (in_window _ _) eqn:Hw; simpl.
  - apply wp_bind. eapply (wp_requeue inactive_list _ _ _ _ _ _ _ _ _ _ _ (naccesses px) 0);
      [done|done|done|done|reflexivity|exact V2|done..|].
    intros s4 P4 L4 e4 Hsc -> -> Hg. vstep. vstep. rewrite (u64_small (tries + 1)) by lia.
    replace ret with (ret + 0) by lia. eapply HQ; [exact Hsc|lia|].
    destruct (gentle_requeue P L e e4 xs inactive_list x px (naccesses px) Hx Hg) as [_ Hva Hac].
    split; [congruence|exact Hva|exact Hac|].
    intros _ y py Hy Hny. rewrite !fupd_ne in Hy by done. done.
  - apply wp_bind. eapply (wp_requeue eviction_list _ _ _ _ _ _ _ _ _ _ _ (naccesses px) 1);
      [done|done|done|done|reflexivity|exact V2|done..|].
    intros s4 P4 L4 e4 Hsc -> -> Hg. vstep. vstep. rewrite !u64_small by lia. eapply HQ; [exact Hsc|lia|].
    destruct (gentle_requeue P L e e4 xs eviction_list x px (naccesses px) Hx Hg) as [_ Hva Hac].
    split; [congruence|exact Hva|exact Hac|].
    intros _ y py Hy Hny Hp. rewrite fupd_eq in Hy. apply elem_of_cons in Hy as [->|Hy].
    + congruence.
    + by rewrite fupd_ne in Hy.
Qed.

Lemma window_scans : scans (E := E) selected shrink_window_body.
Proof.
  split; [apply selected_refl|apply selected_trans|intros; by eapply window_round|].
  intros nr ret tries P L e s Q V Hn Hg HQ. unfold shrink_window_body. vstep.
  rewrite (u64_small (nr * 100)) by lia. unfold guarded in Hg. rewrite Hg. by vstep.
Qed.

Lemma pr_wp_shrink_inactive_list nr k F C infl P L e s Q :
  pager k F C infl s P L e -> 0 <= k -> 0 <= nr -> flag e shrinkage_running = false ->
  (forall m s' P' L' e', scanned m k F C infl P L e s' P' L' e' -> 0 <= m <= 2 ^ 30 ->
     selected P L e P' L' e' -> Q m s') ->
  wp E (shrink_inactive_list nr) s Q.
Proof.
  intros G Hk Hnr Hfl HQ. unfold shrink_inactive_list. pager_facts G.
  pose proof (list_bound _ _ _ _ _ _ _ _ inactive_list G eq_refl Hk) as Hlen.
  vstep. set (n := if (nr =p 0) || _ then _ else nr).
  assert (0 <= n <= 2 ^ 30) as Hn.
  { unfold n. destruct (nr =p 0); simpl; [lia|]. case_bool_decide; lia. }
  vstep.
  match goal with V' : View ?s' _ _ _ |- wp _ _ ?s' _ =>
    assert (pager k F C infl s' P L (set_flag shrinkage_running true e)) as G1
      by (eapply (pager_set_flag _ _ _ _ _ _ _ _ _ shrinkage_running true); [done|exact G|exact V']) end.
  vstep. apply wp_bind. set (pos := glob _ safe_to_free).
  assert (forall s0, pager k F C infl s0 P L (set_flag shrinkage_running true e) ->
    wp E (loop "shrink_inactive_list" (S (Z.to_nat (u64 (n * 100))))
      (if pos =p 0 then shrink_inactive_body n else shrink_window_body n) (0, 0)) s0
    (fun m s' => exists P' L' e', scanned m k F C infl P L (set_flag shrinkage_running true e) s' P' L' e' /\
       0 <= m <= 2 ^ 30 /\ selected P L (set_flag shrinkage_running true e) P' L' e')) as Hloop.
  { intros s1 G2. case_bool_decide as Hpos.
    - eapply (wp_scan_loop _ _ n k); [exact lru_scans|exact G2|done|done|].
      intros m s' P' L' e' Hsc Hm [Hg Hv Ha]. exists P', L', e'. split_and!; [done|lia|lia|].
      split; [by rewrite Hg|done|done|]. by intros [].
    - eapply (wp_scan_loop _ _ n k); [exact window_scans|exact G2|done|done|].
      intros m s' P' L' e' Hsc Hm Hs. exists P', L', e'. split_and!; [done|lia|lia|done]. }
  eapply wp_mono; [by apply Hloop|]. intros m s2 (P2 & L2 & e2 & Hsc & Hm & Hsel).
  pose proof (sc_pager _ _ _ _ _ _ _ _ _ _ _ _ Hsc) as G2. pager_facts G2.
  vclear. vstep. vstep. rewrite i32_small by lia. eapply HQ; [by eapply scanned_unflag|done|].
  destruct Hsel. by split.
Qed.

Lemma wp_direct_allocate_selects nr priority k F C infl P L e s Q :
  pager k F C infl s P L e -> 0 <= k -> 0 <= priority -> flag e shrinkage_running = false ->
  (forall r m s' P' L' e', scanned m k F C infl P L e s' P' L' e' -> 0 <= m ->
     selected P L e P' L' e' -> Q r s') ->
  wp E (direct_allocate_page_asynch nr priority) s Q.
Proof.
  intros G Hk Hp Hfl HQ. unfold direct_allocate_page_asynch. pager_facts G.
  pose proof (list_bound _ _ _ _ _ _ _ _ inactive_list G eq_refl Hk) as Hin.
  vstep. pose proof (shiftr_le (Z.of_nat (length (L inactive_list))) priority ltac:(lia) Hp) as Hsh.
  set (ti := Z.shiftr (Z.of_nat (length (L inactive_list))) priority) in *.
  assert (0 <= ti <= 2 ^ 30) as Hti by lia. clearbody ti. clear Hsh.
  rewrite (i32_small ti) by lia.
  eapply (wp_loop _ _ _ (fun d c s => exists m P' L' e', 0 <= m /\ d = Z.to_nat (ti - snd c) /\
    0 <= snd c <= 2 ^ 30 + 32 /\ scanned m k F C infl P L e s P' L' e' /\ selected P L e P' L' e'))
    with (n := Z.to_nat ti); [|lia|].
  { exists 0, P, L, e. simpl. split_and!; [done|f_equal; lia|lia|lia| |apply selected_refl].
    split; [done|apply frame_refl|done|lia]. }
  clear dependent s. intros d [r c] s (m & P1 & L1 & e1 & Hm & -> & Hc & Hsc & Hsel). simpl in *.
  assert (flag e1 shrinkage_running = false) as Hfl1 by by rewrite (scanned_flag _ _ _ _ _ _ _ _ _ _ _ _ _ Hsc).
  pose proof (sc_pager _ _ _ _ _ _ _ _ _ _ _ _ Hsc) as G1.
  case_bool_decide as H1; simpl; [|vstep; by eapply HQ].
  case_bool_decide as H2; [|vstep; by eapply HQ].
  apply wp_bind. eapply pr_wp_shrink_inactive_list; [done..|].
  intros r2 s2 P2 L2 e2 Hsc2 Hr2 Hsel2. vstep. unfold SWAP_CLUSTER_COUNT. rewrite (i32_small (c + 32)) by lia.
  exists (Z.to_nat (ti - (c + 32))). split; [lia|]. exists (m + r2), P2, L2, e2. simpl.
  split_and!; try lia; [by eapply scanned_trans|by eapply selected_trans].
Qed.

Lemma pr_reclaims : reclaims (E := E) direct_allocate_page_asynch.
Proof. intros nr priority k F C infl P L e s Q G Hk Hp Hfl HQ. eapply wp_direct_allocate_selects; eauto. Qed.

Lemma pr_fetches fuel : (13 <= fuel)%nat -> fetches (E := E) (fetch_free_asynch fuel).
Proof. intros Hf k F C infl P L e s Q. intros. eapply wp_fetch_free_with; [done|exact pr_reclaims|done..]. Qed.
End choice.

(** ** Entry points *)

Section entry.
Context {K D : Type} `{KL : KernelLaws K D may_fail} {E : fault -> Prop} `{!Tolerates may_fail E}.
Implicit Types (s : state K) (e : env K) (P : gmap loc user_page) (L : fifo_id -> list loc).
Implicit Types (C : Z -> D) (F : list loc).

Lemma own_step_set_glob y v e : is_counter y = true -> own_step e (set_glob y v e).
Proof. intros Hy. split; try done. intros z Hz. simpl. rewrite fupd_ne; [done|]. by intros ->; congruence. Qed.

Lemma pr_wp_swapin_async fuel C P L e s x px Q :
  (13 <= fuel)%nat -> can_run_out E -> E (SysFail "buffer space mmap") ->
  claimed 0 [] C [] s P L e x -> x ∈ L disk_active_list -> managed P x px ->
  swapped C e x (set_migrating false px) -> migrating px = true ->
  0 < frames e -> flag e shrinkage_running = false ->
  (forall s' P' L' e' px', brought_in 0 [] C s' P' L' e' x px' -> va px' = va px -> swap_step e e' ->
     flag e' (uring_read_init (self e')) = true ->
     (forall a, registered (kern e') a = registered (kern e) a) -> Q tt s') ->
  wp E (lrudisk_swapin_external_async fuel (Some x)) s Q.
Proof.
  intros Hfuel HE HEb Gc Hxl Hm Hsw Hmg Hfr Hfl HQ. unfold lrudisk_swapin_external_async, note_position.
  pose proof (cl_view _ _ _ _ _ _ _ _ _ Gc) as V. pose proof (cl_inv _ _ _ _ _ _ _ _ _ Gc) as I.
  pose proof Hm as [Hx Ht].
  vstep. apply wp_bind. eapply wp_detach_from; [done..|rewrite (i_held _ _ _ _ _ _ _ I); not_in|].
  intros l1 l2 s1 HL V1.
  pose proof (claimed_take _ _ _ _ _ s1 _ _ _ _ _ _ _ Gc HL V1) as G1. simpl in G1. vclear.
  apply wp_bind. vstep. eapply wp_wr; [eassumption|]. intros s2 V2.
  pose proof (own_step_set_glob safe_to_free (va px) e eq_refl) as O.
  pose proof (pager_own_step _ _ _ _ _ _ _ _ _ _ G1 V2 O) as G2.
  eapply wp_swapin_with; [by apply pr_fetches|done|done|exact G2|done| |done| |done|].
  - destruct Hsw as [Hd [] Hmem Hdisk Hres Hmg' Hso]. by split; [|split|..].
  - unfold frames in *. by rewrite (ow_glob _ _ O).
  - intros s' P' L' e' px' Hb Hv S Hu Hr. eapply HQ; [exact Hb|exact Hv| |exact Hu|exact Hr].
    etrans; [apply env_swap_step, own_env_step, O|done].
Qed.

Lemma pr_wp_remove_from_any fuel l x s P L e (Q : unit -> state K -> Prop) :
  (0 < fuel)%nat -> View s P L e -> x ∈ L l -> list_lock l ∉ held e ->
  (l = eviction_list -> E wait_for_evictor) ->
  (forall l1 l2 s', L l = l1 ++ x :: l2 -> View s' P (fupd L l (l1 ++ l2)) e -> Q tt s') ->
  wp E (remove_from_any fuel (Some x)) s Q.
Proof.
  intros Hf V Hx Hlk HE HQ. unfold remove_from_any. destruct (decide (l = eviction_list)) as [->|Hne].
  - clear Hf. induction fuel as [|fuel IH]; simpl; [by apply wp_fail, HE|].
    apply wp_bind, wp_bind. eapply wp_list_of_in; [done..|]. rewrite bool_decide_eq_true_2 by done.
    apply wp_ret. exact IH.
  - destruct fuel as [|fuel]; [lia|]. simpl. apply wp_bind, wp_bind.
    eapply wp_list_of_in; [done..|]. rewrite bool_decide_eq_false_2 by congruence.
    apply wp_bind. eapply wp_tryremove; [done..|by eapply view_dom| |done].
    intros l1 l2 s1 HL V1. simpl. do 2 apply wp_ret. by eapply HQ.
Qed.

Lemma wp_lrudisk_ack_vma a n p P L e s (Q : unit -> state K -> Prop) :
  View s P L e -> (forall s' e', View s' P L e' -> own_step e e' -> Q tt s') ->
  wp E (lrudisk_ack_vma a n p) s Q.
Proof.
  intros V HQ. unfold lrudisk_ack_vma. do 2 vstep. eapply wp_wr; [eassumption|]. intros s3 V3.
  eapply HQ; [exact V3|]. split; try done.
  intros y Hy. simpl. by rewrite !fupd_ne by (by intros <-).
Qed.
End entry.

Section remove.
Context {K D : Type} {KO : KernelOps K} {OB : KernelObs K D} {E : fault -> Prop}.
Implicit Types (s : state K) (e : env K) (P : gmap loc user_page) (L : fifo_id -> list loc) (C : Z -> D).

Lemma pr_wp_lrudisk_remove_page fuel x px l k C P L e eh s Q :
  (0 < fuel)%nat -> View s P L eh -> (forall l, list_lock l ∉ held eh) -> inv k [x] C [] P L e ->
  x ∈ L l -> managed P x px -> removable P L l x px -> va px <> 0 ->
  (forall a, a <> 0 -> pages e !! a <> Some x) -> (l = eviction_list -> E wait_for_evictor) ->
  (forall s' P' L' px', View s' P' L' eh -> (L eviction_list = [] -> L' eviction_list = []) ->
     inv k [] C [] P' L' e -> managed P' x px' -> Q tt s') ->
  wp E (lrudisk_remove_page fuel (Some x)) s Q.
Proof.
  intros Hf V Hlk I Hx Hm Hrem Hva Hun HE HQ. pose proof Hm as [Hpx Hpt]. unfold lrudisk_remove_page.
  vstep. vstep. vstep; [by rewrite bool_decide_eq_false_2|].
  apply wp_bind. eapply pr_wp_remove_from_any; [done|eassumption|done|done|done|]. intros l1 l2 s1 HL V1.
  assert (floating (fupd L l (l1 ++ l2)) x) as Hfl by by eapply floating_removed.
  eapply wp_recycle_page; [done|exact V1|done|done|done|exact I|done|done|done|].
  intros s2 P2 L2 px2 V2 He2 Hm2 I2. eapply HQ; [exact V2|exact He2| |exact Hm2].
  apply (I2 (migrating px2)); [|done]. destruct Hm2 as [-> _]. by destruct px2.
Qed.
End remove.

(** ** Initialisation *)

Lemma pr_wp_lrudisk_init `{KL : KernelLaws K D may_fail} {E : fault -> Prop} `{!Tolerates may_fail E} C (s : state K) e Q :
  View s ∅ (fun _ => []) e -> held e = [] -> conf_ok e -> rings_ok [] e -> pages e = ∅ ->
  (forall a, registered (kern e) a = false) ->
  (forall s' P' L' k', pager 0 [] C [] s' P' L' (set_kern k' e) -> obs_eq (kern e) k' ->
     Z.of_nat (size P') < 2 ^ 32 -> Q tt s') ->
  wp E lrudisk_init s Q.
Proof.
  intros. eapply wp_init_with; [|done..]. intros P L e1 s1 Q1 V HQ1.
  apply wp_bind. eapply wp_create_thread; [exact V|]. intros s2 k2 V2 O2.
  apply wp_bind. eapply wp_create_threads; [exact V2|]. intros s3 k3 V3 O3.
  eapply wp_create_threads; [exact V3|]. intros s4 k4 V4 O4.
  apply (HQ1 s4 k4); [exact V4|]. etrans; [exact O2|by etrans].
Qed.

(** ** The policy as the core sees it *)

Lemma pr_laws `{KL : KernelLaws K D may_fail} fuel :
  (13 <= fuel)%nat -> PolicyLaws K D (PO := pr_ops fuel) may_fail.
Proof.
  intros Hfuel. split.
  - intros. by eapply pr_wp_lrudisk_init.
  - intros. eapply wp_pagefault_with; [by apply pr_fetches|done..].
  - intros. by eapply pr_wp_swapin_async.
  - intros. eapply wp_lrudisk_put_page_free; eauto.
  - intros. eapply wp_lrudisk_track_page; eauto.
  - intros. by eapply wp_lrudisk_detach_page.
  - intros. by eapply wp_lrudisk_ack_swapin.
  - intros. eapply pr_wp_lrudisk_remove_page; eauto. lia.
  - intros. by eapply wp_lrudisk_ack_vma.
Qed.

(** ** kswapd and the eviction workers *)

Section workers.
Context {K D : Type} `{KL : KernelLaws K D may_fail} {E : fault -> Prop} `{!Tolerates may_fail E}.
Implicit Types (s : state K) (e : env K) (P : gmap loc user_page) (L : fifo_id -> list loc) (C : Z -> D).

Definition kswapd_turn : M (state K) unit := kswapd_turn_of kswapd_check kswapd_work.

Lemma pr_wp_lrudisk_evictionworker C s P L e (Q : Z -> state K -> Prop) :
  pager 0 [] C [] s P L e -> (L disk_free_list = [] -> E (AssertFailed "no disk page found")) ->
  (L eviction_list = [] -> forall s', pager 0 [] C [] s' P L (set_flag (internal_call (self e)) true e) -> Q 0 s') ->
  (forall xs x d s' P' L' e', L eviction_list = xs ++ [x] -> pager 0 [] C [] s' P' L' e' ->
     turned_over P L P' L' xs x d -> env_step (set_flag (internal_call (self e)) true e) e' -> same_reg (kern e) (kern e') ->
     Q 1 s') ->
  wp E lrudisk_evictionworker s Q.
Proof.
  intros G HE HQ0 HQ1. unfold lrudisk_evictionworker.
  eapply (wp_take_victim C s P L e (fun x => a ← ld va x;
    assert_ "victim->va != 0" (negb (a =p 0));; evict_victim x;; mret 1)); [exact G|exact HQ0|].
  intros xs x px s1 HL G2 [Hx Ht] R. pager_facts G2. vstep.
  vstep; [by rewrite bool_decide_eq_false_2 by apply R|].
  apply wp_bind. eapply wp_evict_victim; [exact G2|done|exact R|exact HE|].
  intros d s' P' L' e' G' T S Hr. apply wp_ret. by eapply HQ1.
Qed.

Lemma pr_prepares : prepares (E := E) prepare_victim.
Proof.
  intros P L e s x px Q V Hx Hva HQ. unfold prepare_victim. vstep.
  vstep; [by rewrite bool_decide_eq_false_2|exact HQ].
Qed.
End workers.

(** kswapd and the workers that evict one page at a time. *)
Definition pr_background {K} `{KernelOps K} : Background K := {|
  background t :=
    match t with
    | kswapd_thread => kswapd_turn
    | eviction_thread _ => lrudisk_evictionworker;; mret tt
    | application _ | prefetch_thread _ => mret tt
    end;
  background_fault f := f = AssertFailed "no disk page found" |}.
Lemma pr_background_laws `{KL : KernelLaws K D may_fail} :
  BackgroundLaws K D (BG := pr_background) may_fail.
Proof.
  split. intros E C P L e s Q HT HE R HQ. simpl. destruct (self e) as [n| |n|n] eqn:Hse.
  - apply wp_ret. by eapply HQ.
  - eapply wp_kswapd_turn; [done|exact pr_reclaims|exact R|].
    intros s' P' L' e' R' [Hs Hc] Hr. eapply HQ; [exact R'|congruence|done|done].
  - apply wp_bind. eapply pr_wp_lrudisk_evictionworker; [apply R| | |].
    + intros _. by apply HE.
    + intros _ s' G'. apply wp_ret.
      eapply (worker_turn_end C s s' P P L L e); [exact Hse|exact R|exact G'|done|done|]. rewrite Hse. exact HQ.
    + intros xs x d s' P' L' e' _ G' _ S Hr. apply wp_ret.
      eapply worker_turn_end; [exact Hse|exact R|exact G'|exact S|exact Hr|]. rewrite Hse. exact HQ.
  - apply wp_ret. by eapply HQ.
Qed.
