(* ===== verification/Unmap.v ===== *)
(** * Unmapping: [extmem_munmap] of [core.c], proofs

    The pages of the range are untracked and recycled one by one; their
    addresses are hidden from the invariant until the kernel has unmapped
    the range ([Masked]). *)

From S2P Require Import Prelude Kernel State Fifo Rules Uring Migrate Invariant Masked Policy.
From S2P Require Import Core Tracked Handlers.

Section unmap.
Context {K D : Type} `{KL : KernelLaws K D may_fail, PO : !PolicyOps K, PL : !PolicyLaws K D may_fail}.
Context {E : fault -> Prop} `{!Tolerates may_fail E}.
Implicit Types (s : state K) (e : env K) (P : gmap loc user_page) (L : fifo_id -> list loc).
Implicit Types (C : Z -> D) (F : list loc).

Lemma wp_remove_page a x px s P L e (Q : unit -> state K -> Prop) :
  View s P L e -> P !! x = Some px -> va px = a -> pages e !! a = Some x -> pages_lock ∉ held e ->
  (forall s', View s' P L (set_pages (delete a (pages e)) e) -> Q tt s') ->
  wp E (remove_page (Some x)) s Q.
Proof.
  intros V Hx <- Ht Hl HQ. unfold remove_page. vstep. do 2 vstep. rewrite Ht.
  rewrite bool_decide_eq_true_2 by done. vstep. vstep. apply HQ. by destruct e.
Qed.

(** The addresses of the range that have been dealt with. *)
Definition before (start a : Z) : Z -> bool := fun b => bool_decide (start <= b < a).

(** The steps of the loop. *)
Record unmap_step e e' : Prop := {
  um_glob : forall x, is_counter x = false -> x <> mem_allocated -> x <> mem_mmaped -> x <> pages_freed ->
    glob e' x = glob e x;
  um_flag : flag e' = flag e;
  um_kern : kern e' = kern e;
  um_self : self e' = self e }.

(** The state between two iterations, the allocator lock taken. *)
Record unmapping C start a s P L e : Prop := {
  up_view : View s P L e;
  up_held : held e = [allocator_lock];
  up_inv : inv (OB := masked (before start a)) 0 [] C [] P L (set_held [] e);
  up_conf : conf_ok e }.

(** The same state, seen without the lock. *)
Definition unlocked s e : state K := State (heap s) (lists s) (set_held [] e).

Lemma unmapping_pager C start a s P L e :
  unmapping C start a s P L e ->
  pager (OB := masked (before start a)) 0 [] C [] (unlocked s e) P L (set_held [] e).
Proof.
  intros [[] Hh I _]. split; [by split|done|by intros ? ?%elem_of_nil|constructor].
Qed.

(** Nothing is tracked at an address that is not a page's. *)
Lemma next_hidden start a b : a mod PAGE_SIZE = 0 -> b mod PAGE_SIZE = 0 -> b <> a ->
  before start a b = false -> before start (a + PAGE_SIZE) b = false.
Proof.
  unfold before, PAGE_SIZE, BASEPAGE_SIZE. intros Ha Hb Hne Hg%bool_decide_eq_false.
  apply bool_decide_eq_false. intros Hin. apply Hg. Z.div_mod_to_equations. lia.
Qed.

Lemma unmap_hide C start a P L e pgs (x : list loc) :
  inv (OB := masked (before start a)) 0 x C [] P L (set_held [] e) -> conf_ok e -> start <= a -> a mod PAGE_SIZE = 0 ->
  (forall b, b <> a -> pgs !! b = pages e !! b) -> (pgs !! a = None) ->
  (forall y py, y ∉ x -> managed P y py -> pages e !! va py = Some y -> va py <> a) ->
  inv (OB := masked (before start (a + PAGE_SIZE))) 0 x C [] P L (set_pages pgs (set_held [] e)).
Proof.
  intros I Hc Hsa Ha Hpgs Hpa Hlive.
  assert (forall b, before start a b = true -> before start (a + PAGE_SIZE) b = true) as Hmono.
  { unfold before. intros b Hb%bool_decide_eq_true. apply bool_decide_eq_true.
    unfold PAGE_SIZE, BASEPAGE_SIZE. lia. }


  eapply inv_hide; [exact I|by destruct Hc|exact Hmono| | |].
  - intros b Hb. simpl. apply Hpgs. intros ->. unfold before in Hb. apply bool_decide_eq_false in Hb.
    unfold PAGE_SIZE, BASEPAGE_SIZE in Hb. lia.
  - simpl. intros b y Hy. rewrite <- Hpgs; [done|]. intros ->. congruence.
  - intros y py Hy Hm [Ht H0 Hal Hr]. simpl in *. apply next_hidden; [done|done|by eapply Hlive|].
    by apply masked_registered in Hr as [_ ?].
Qed.

Lemma wp_munmap_body C start stop a s P L e0 e (Q : Z + unit -> state K -> Prop) :
  unmapping C start a s P L e -> start <= a -> a mod PAGE_SIZE = 0 -> 0 < a < stop -> stop <= 2 ^ 47 ->
  unmap_step e0 e -> (mmgr_waits = true -> L eviction_list = [] \/ E wait_for_evictor) ->
  (forall s' P' L' e', unmapping C start (a + PAGE_SIZE) s' P' L' e' -> unmap_step e0 e' ->
     (L eviction_list = [] -> L' eviction_list = []) ->
     Q (inl (a + PAGE_SIZE)) s') ->
  wp E (munmap_body stop a) s Q.
Proof.
  intros U Hsa Ha Has Hst Hstep Hwt HQ. pose proof (unmapping_pager _ _ _ _ _ _ _ U) as G.
  destruct U as [V Hh I Hc]. unfold munmap_body. rewrite bool_decide_eq_true_2 by lia.
  assert (u64 (a + PAGE_SIZE) = a + PAGE_SIZE) as Hu by (apply u64_small; unfold PAGE_SIZE, BASEPAGE_SIZE; lia).
  apply wp_bind. eapply wp_find_page; [done|by right|]. intros s1 V1.
  destruct (pages e !! a) as [x|] eqn:Ht.
  2:{ apply wp_ret. change BASEPAGE_SIZE with PAGE_SIZE. rewrite Hu. eapply (HQ s1 P L e); [split| |]; try done.
    assert (set_held [] e = set_pages (pages e) (set_held [] e)) as -> by by destruct e.
    eapply unmap_hide; [exact I|exact Hc|done..|]. intros y py _ _ Hy Heq. congruence. }
  destruct (tracked_cases (OB := masked (before start a)) _ _ _ _ _ _ _ G Ht)
    as (px & l & Hm & Hv & Hl & Hrole); [lia|]. pose proof Hm as [Hx Hpt].
  assert (l <> disk_reserve_list) as Hlr by (destruct Hrole as [[Hlru _]|[-> _]]; [by destruct l|done]).
  assert (migrating px = false) as Hmg by by destruct Hrole as [[_ []]|[_ []]].
  vstep; [rewrite Hh; not_in|]. vstep. rewrite Hmg. vstep. vstep. vstep; [rewrite Hh; not_in|].
  set (px1 := set_migrating true px) in *.
  assert (set_held (held e) (set_held (handler_lock :: held e) e) = e) as He by by destruct e.
  rewrite He in *.
  apply wp_bind. eapply (wp_remove_page a x px1); [eassumption|by rewrite lookup_insert_eq|done|done|rewrite Hh; not_in|].
  intros s4 V4. vclear.
  destruct (pager_claim (OB := masked (before start a)) _ _ _ _ _ _ _ _ _ _ G Hl Hlr) as [[_ Ic _ _] _].
  apply (inv_set (OB := masked (before start a)) x px px1) in Ic; [|left|done|by split].
  eapply (unmap_hide _ _ _ _ _ _ (delete a (pages e))) in Ic; [|exact Hc|done|done| | |].
  2:{ intros b Hb. by rewrite lookup_delete_ne. }
  2:{ apply lookup_delete_eq. }
  2:{ intros y py Hy _ Hty Heq. rewrite Heq, Ht in Hty. inv_in. }
  assert (removable (<[x := px1]> P) L l x px1) as Hrem.
  { destruct Hrole as [[Hlru R]|[-> Hsw]]; [left|right].
    - split_and!; [done|apply R|]. intros Hres. destruct (re_reserve _ _ _ _ _ _ R Hres) as (r & rp & ? & Hr & ? & ? & _).
      exists r, rp. split_and!; try done. rewrite lookup_insert_ne; [done|]. intros <-.
      apply Hlr. symmetry. by eapply (pager_uniq (OB := masked (before start a)) _ _ _ _ _ _ _ _ _ _ _ G).
    - split_and!; [done|apply Hsw|apply Hsw]. }
  apply wp_bind. eapply (pl_remove E (masked (before start (a + PAGE_SIZE)))); [exact V4| |exact Ic|exact Hl| |exact Hrem|simpl; lia| | |].
  { intros l'. simpl. rewrite Hh. not_in. }
  { split; [by rewrite lookup_insert_eq|done]. }
  { intros b Hb Hpb. simpl in Hpb. apply lookup_delete_Some in Hpb as [Hne Hpb].
    destruct (i_table _ _ _ _ _ _ _ I b x Hpb Hb) as (pg & [Hpg _] & Hvb). congruence. }
  { intros Hw ->. destruct (Hwt Hw) as [Hn|]; [|done]. rewrite Hn in Hl. inv_in. }
  intros s5 P5 L5 px5 V5 He5 I5 [Hx5 Hpt5]. vclear. vstep. rewrite Hpt5. vstep. do 4 vstep.
  change BASEPAGE_SIZE with PAGE_SIZE. rewrite Hu.
  match goal with V' : View ?s' _ _ ?e' |- Q _ ?s' => apply (HQ s' P5 L5 e') end; [split| |].
  - eassumption.
  - exact Hh.
  - eapply (inv_vars (OB := masked _)); [exact I5|vars_done..].
  - eapply (conf_ok_env e); [exact Hc|vars_done..|done|done].
  - destruct Hstep as [Hg Hf Hk Hse]. split; [|done|done|done]. intros y Hy H1 H2 H3. simpl.
    rewrite !fupd_ne by congruence. by apply Hg.
  - exact He5.
Qed.

(** Before the first iteration nothing is hidden. *)
Lemma unmapping_start C start P L e s' :
  let e1 := set_held [allocator_lock] (set_flag (internal_call (self e)) true e) in
  inv 0 [] C [] P L e -> View s' P L e1 -> unmapping C start start s' P L e1.
Proof.
  intros e1 I V'. pose proof (i_held _ _ _ _ _ _ _ I) as Hh.
  assert (conf_ok e1) as Hc by (eapply (conf_ok_env e); [apply I|unfold e1; vars_done..|done|done]).
  split; [done|done| |done].
  assert (set_held [] e1 = set_pages (pages e) (set_held [] e1)) as -> by by destruct e.
  eapply (inv_hide (fun _ => false)); [|eapply (conf_ok_env e); [apply I|unfold e1; vars_done..|done|done]|done|done|done|].
  - eapply inv_nothing_gone, inv_vars; [exact I|unfold e1; vars_done..|by rewrite Hh|done|done].
  - intros y py _ _ _. apply bool_decide_eq_false. lia.
Qed.

(** After the last one the kernel unmaps what is hidden. *)
Lemma inv_unmapped C start len s P L e k' :
  unmapping C start (start + len) s P L e -> k_munmap start len (kern e) = (0, k') ->
  (forall a, in_range start len a -> registered (kern e) a = true) ->
  inv 0 [] C [] P L (set_kern k' (set_held [] e)).
Proof.
  intros [_ _ I Hc] Hkm Hreg. destruct (l_munmap _ _ _ _ _ Hkm eq_refl) as (Hin & Hmo & Hout & Hdo & Hro).
  assert (forall b, before start (start + len) b = true <-> in_range start len b) as Hbef
    by (intros b; apply bool_decide_eq_true).
  assert (forall b, before start (start + len) b = false <-> ~ in_range start len b) as Hnbef
    by (intros b; apply bool_decide_eq_false).
  apply (inv_reveal (before start (start + len)) 0 [] C P L (set_held [] e) k' I).
  - eapply (conf_ok_env e); [exact Hc|vars_done..|done|done].
  - intros b Hb%Hbef. by apply Hreg.
  - intros b. simpl. destruct (before start (start + len) b) eqn:Hb.
    + apply Hbef in Hb. destruct (Hin b Hb) as (_ & -> & _). by rewrite andb_false_r.
    + apply Hnbef in Hb. destruct (Hout b Hb) as [-> _]. by rewrite andb_true_r.
  - intros b Hb%Hnbef. by apply Hout.
  - eapply same_mem_but_mono; [|exact Hmo]. intros b. apply Hbef.
  - exact Hdo.
  - exact Hro.
Qed.

(** The range is unmapped and its pages are recycled; everything else is as
    it was. *)
Lemma wp_extmem_munmap fuel C s P L e start len (Q : Z -> state K -> Prop) :
  E (SysFail "libc munmap: ") -> (mmgr_waits = true -> L eviction_list = [] \/ E wait_for_evictor) -> at_rest C s P L e ->
  start mod PAGE_SIZE = 0 -> len mod PAGE_SIZE = 0 -> 0 < len -> (Z.to_nat (len / PAGE_SIZE) < fuel)%nat ->
  (forall a, in_range start len a -> registered (kern e) a = true) ->
  (forall s' P' L' e', at_rest C s' P' L' e' -> flag e' (internal_call (self e')) = false -> self e' = self e ->
     (forall a, in_range start len a -> mapped (kern e') a = false) ->
     (forall a, registered (kern e') a = true <-> registered (kern e) a = true /\ ~ in_range start len a) ->
     Q 0 s') ->
  wp E (extmem_munmap fuel start len) s Q.
Proof.
  intros HE Hwt [G Hs Hi Hf Hca] Hsa Hla Hl Hfuel Hreg HQ. pager_facts G.
  assert (held e = []) as Hh by apply I.
  assert (0 < start /\ start + len <= 2 ^ 47) as [H0 Hend].
  { pose proof (i_range _ _ _ _ _ _ _ I start) as H1. pose proof (i_range _ _ _ _ _ _ _ I (start + len - 1)) as H2.
    unfold in_range in Hreg. rewrite !Hreg in H1, H2 by lia. specialize (H1 eq_refl). specialize (H2 eq_refl). lia. }
  unfold extmem_munmap. vstep. vstep; [rewrite Hh; not_in|]. rewrite u64_small by lia.
  match goal with V' : View ?s' _ _ ?e' |- wp _ _ ?s' _ => set (e1 := e') in * end.
  apply wp_bind. eapply (wp_loop _ _ _ (fun n a s => exists P' L' e', unmapping C start a s P' L' e' /\
    unmap_step e1 e' /\ start <= a <= start + len /\ a mod PAGE_SIZE = 0 /\
    n = Z.to_nat ((start + len - a) / PAGE_SIZE) /\ (mmgr_waits = true -> L' eviction_list = [] \/ E wait_for_evictor)) _ (Z.to_nat (len / PAGE_SIZE))); [|done|].
  - exists P, L, e1. split_and!; [|done|lia|lia|done|by rewrite Z.add_simpl_l|done].
    unfold e1 in *. rewrite Hh in *. by apply unmapping_start.
  - clear dependent s P L. intros n a s (P & L & e2 & U & Hstep & Ha & Hal & -> & Hwt).
    destruct (decide (a < start + len)) as [Hlt|Hge].
    + eapply wp_munmap_body; [exact U|lia|done|lia|done|exact Hstep|done|].
      intros s' P' L' e' U' Hstep' He'. destruct (next_page start len a) as (Hs1 & Hs2 & Hs3); [done..|].
      exists (Z.to_nat ((start + len - (a + PAGE_SIZE)) / PAGE_SIZE)). split; [lia|].
      exists P', L', e'. split_and!; [done|done|unfold PAGE_SIZE, BASEPAGE_SIZE in *; lia|done|done|done|].
      intros Hw. destruct (Hwt Hw); auto.
    + assert (a = start + len) as -> by lia. unfold munmap_body. rewrite bool_decide_eq_false_2 by lia.
      apply wp_ret. pose proof U as [V2 Hh2 _ _]. destruct Hstep as [Hg2 Hf2 Hk2 Hse2].
      assert (kern e2 = kern e) as Hk by by rewrite Hk2.
      apply wp_bind. eapply wp_sys; [exact V2|]. intros ret k' s3 Hkm V3. vclear.
      apply wp_bind, wp_die_if; [by right|]. intros ->%negb_false_iff%bool_decide_eq_true.
      pose proof (inv_unmapped _ _ _ _ _ _ _ _ U Hkm ltac:(by rewrite Hk)) as I'. rewrite Hk in Hkm.
      destruct (l_munmap _ _ _ _ _ Hkm eq_refl) as (Hin & _ & Hout & _).
      apply wp_bind. eapply wp_unlock_last; [exact V3|exact Hh2|not_in|]. intros s4 V4. vclear.
      vstep. vstep.
      match goal with V' : View ?s' _ _ ?e' |- Q _ ?s' => apply (HQ s' P L e'); [split; [split| | | |]| | | |] end.
      * eassumption.
      * eapply inv_vars; [exact I'|vars_done..].
      * by intros ? ?%elem_of_nil.
      * constructor.
      * simpl. simp_fupd. rewrite Hf2. unfold e1. simpl. by simp_fupd.
      * simpl. simp_fupd. rewrite Hf2. unfold e1. simpl. by simp_fupd.
      * unfold frames in *. simpl. rewrite Hg2 by done. done.
      * intros m Hm. simpl in *. rewrite Hse2 in Hm. simpl in Hm.
        rewrite Hf2, Hse2. unfold e1. simpl. rewrite !fupd_ne by congruence. by apply Hca.
      * simpl. by simp_fupd.
      * exact Hse2.
      * intros b Hb. simpl. by apply Hin.
      * intros b. simpl. destruct (decide (in_range start len b)) as [Hb|Hb].
        -- destruct (Hin b Hb) as (_ & -> & _). split; [done|]. by intros [_ ?].
        -- destruct (Hout b Hb) as [-> _]. split; [done|]. by intros [? _].
Qed.
End unmap.
