(* ===== verification/Intercept.v ===== *)
(** * System call interception: [intercept_layer.c]

    [hook] sees every system call of the application; [mmap] and [munmap] are
    filtered, the rest goes to the kernel.  A result of 1 means "make the
    native call", 0 means that the call was handled and [*result] set.  The
    constructor binds the native functions and starts the library; the
    destructor calls [extmem_stop], whose [policy_shutdown] is empty. *)

From S2P Require Import Prelude Kernel State Policy Core.

Section functions.
Context {K : Type} `{KernelOps K, PolicyOps K}.
Context (fuel : nat).
Local Abbreviation M := (M (state K)).

Definition SYS_mmap : Z := 9.
Definition SYS_munmap : Z := 11.

(** The result of a filter: its return value and [*result] when written. *)
Definition mmap_filter (addr length prot flags fd offset : Z) : M (Z * option Z) :=
  if negb (Z.land flags MAP_ANONYMOUS =p MAP_ANONYMOUS) then mret (1, None)
  else if Z.land flags MAP_STACK =p MAP_STACK then mret (1, None)
  else
    ic ← rdbt internal_call;
    if (ic : bool) then mret (1, None)
    else
      init ← rdb is_init;
      if negb init then mret (1, None)
      else if bool_decide (length < 2 * 1024 * 1024 * 1024) then mret (1, None)
      else
        r ← extmem_mmap fuel addr length prot flags fd offset;
        mret (0, Some r).

Definition munmap_filter (addr length : Z) : M (Z * option Z) :=
  ic ← rdbt internal_call;
  if (ic : bool) then mret (1, None)
  else
    r ← extmem_munmap fuel addr length;
    mret (0, Some (u64 r)).

Definition hook (syscall_number arg0 arg1 arg2 arg3 arg4 arg5 : Z) : M (Z * option Z) :=
  if syscall_number =p SYS_mmap then
    mmap_filter arg0 (u64 arg1) (i32 arg2) (i32 arg3) (i32 arg4) arg5
  else if syscall_number =p SYS_munmap then munmap_filter arg0 (u64 arg1)
  else mret (1, None).

(** ** The constructor *)

(** [dlsym(RTLD_NEXT, sym)], outside the repository: the address of the next
    definition of a symbol, 0 if there is none. *)
Variable dlsym : string -> Z.

Definition bind_symbol (sym : string) : M Z :=
  let ptr := dlsym sym in
  if ptr =p 0 then fail (SysFail "interception layer: dlsym failed") else mret ptr.

(** The pointers to the native functions. *)
Record layer := Layer { libc_mmap : Z; libc_munmap : Z; libc_malloc : Z; libc_free : Z }.

(** [init], which the loader runs: the layer it leaves, with the hook set. *)
Definition intercept_init (c : config) : M layer :=
  mmap ← bind_symbol "mmap";
  munmap ← bind_symbol "munmap";
  malloc ← bind_symbol "malloc";
  free ← bind_symbol "free";
  extmem_init c;;
  mret (Layer mmap munmap malloc free).
End functions.

(** With a complete C library the constructor is [extmem_init], whose
    theorems it inherits; otherwise the program stops untouched. *)
Lemma wp_intercept_init {K} `{KernelOps K, PolicyOps K} E dlsym c (s : state K) Q :
  (forall sym, In sym ["mmap"; "munmap"; "malloc"; "free"] -> dlsym sym <> 0) ->
  wp E (extmem_init c) s (fun _ s' =>
    Q (Layer (dlsym "mmap") (dlsym "munmap") (dlsym "malloc") (dlsym "free")) s') ->
  wp E (intercept_init dlsym c) s Q.
Proof.
  intros Hd Hi. unfold intercept_init, bind_symbol.
  rewrite !bool_decide_eq_false_2 by (apply Hd; simpl; tauto).
  do 4 (apply wp_bind, wp_ret). apply wp_bind. eapply wp_mono; [exact Hi|]. intros ? ? Hq. by apply wp_ret.
Qed.
