(* ===== verification/Timer.v ===== *)
(** * Time differences: [timer.c]

    [timeDiff] subtracts two [struct timeval]s with a borrow of one second,
    [elapsed_micro] reads the difference in microseconds, as a [double], and
    [clock_time_elapsed] subtracts two [struct timespec]s. *)

From S2P Require Import Prelude.

Record timeval := Timeval { tv_sec : Z; tv_usec : Z }.
Record timespec := Timespec { ts_sec : Z; ts_nsec : Z }.

Definition timeDiff (a b : timeval) : timeval :=
  let sec := i64 (tv_sec a - tv_sec b) in
  let usec := i64 (tv_usec a - tv_usec b) in
  if bool_decide (usec < 0) then Timeval (i64 (sec - 1)) (i64 (usec + 1000000)) else Timeval sec usec.

(** The macro of [timer.h], in [long] arithmetic *)
Definition tv_to_micro (t : timeval) : Z := i64 (i64 (tv_sec t * 1000000) + tv_usec t).

(** The conversion of a [long] to [double]: the integer with 53 significant
    bits that is nearest, the even one of two.  Every such [double] is an
    integer, so that [Z] holds it. *)
Definition round_half_even (n unit : Z) : Z :=
  let q := n / unit in
  let r := n mod unit in
  if bool_decide (2 * r < unit) || bool_decide (2 * r = unit) && Z.even q then q else q + 1.
Definition last_place (n : Z) : Z := 2 ^ Z.max 0 (Z.log2 n - 52).
Definition double_of_long (z : Z) : Z :=
  let n := Z.abs z in
  Z.sgn z * (round_half_even n (last_place n) * last_place n).

Definition elapsed_micro (starttime endtime : timeval) : Z :=
  double_of_long (tv_to_micro (timeDiff endtime starttime)).

Definition clock_time_elapsed (start stop : timespec) : Z :=
  let seconds := i64 (ts_sec stop - ts_sec start) in
  let nanoseconds := i64 (ts_nsec stop - ts_nsec start) in
  i64 (i64 (seconds * 1000000000) + nanoseconds).

(** ** The conversion *)

Lemma last_place_pos n : 0 < last_place n.
Proof. apply Z.pow_pos_nonneg; lia. Qed.

(** Half a unit in the last place. *)
Lemma round_half_even_close n u : 0 <= n -> 0 < u -> 2 * Z.abs (round_half_even n u * u - n) <= u.
Proof.
  intros Hn Hu. unfold round_half_even. pose proof (Z.div_mod n u ltac:(lia)). pose proof (Z.mod_pos_bound n u Hu).
  destruct (bool_decide (2 * (n mod u) < u)) eqn:H1; [apply bool_decide_eq_true in H1; simpl; nia|].
  apply bool_decide_eq_false in H1. simpl. destruct (bool_decide (2 * (n mod u) = u)) eqn:H2; simpl; [|nia].
  apply bool_decide_eq_true in H2. destruct (Z.even _); nia.
Qed.

Lemma last_place_small n : 0 <= n < 2 ^ 53 -> last_place n = 1.
Proof.
  intros Hn. unfold last_place. rewrite Z.max_l; [done|].
  destruct (decide (n = 0)) as [->|]; [done|]. pose proof (proj1 (Z.log2_lt_pow2 n 53 ltac:(lia))). lia.
Qed.

(** Integers of up to 53 bits are converted exactly. *)
Lemma double_of_long_exact z : Z.abs z <= 2 ^ 53 -> double_of_long z = z.
Proof.
  intros Hz. unfold double_of_long. destruct (decide (Z.abs z = 2 ^ 53)) as [He|He].
  - rewrite He. assert (z = 2 ^ 53 \/ z = - 2 ^ 53) as [->| ->] by lia; reflexivity.
  - rewrite last_place_small by lia. unfold round_half_even. rewrite Z.div_1_r, Zmod_1_r. simpl.
    rewrite Z.mul_1_r, Z.mul_comm. apply Z.abs_sgn.
Qed.

(** The relative error is at most [2 ^ -53]. *)
Lemma double_of_long_close z : Z.abs (double_of_long z - z) * 2 ^ 53 <= Z.abs z.
Proof.
  destruct (decide (Z.abs z <= 2 ^ 53)) as [Hz|Hz].
  { rewrite double_of_long_exact by done. rewrite Z.sub_diag. simpl. lia. }
  unfold double_of_long. set (n := Z.abs z) in *. pose proof (last_place_pos n) as Hu.
  pose proof (round_half_even_close n (last_place n) ltac:(lia) Hu) as Hc.
  assert (last_place n * 2 ^ 52 <= n) as Hl.
  { assert (53 <= Z.log2 n) by (apply Z.log2_le_pow2; lia).
    unfold last_place. rewrite Z.max_r, <- Z.pow_add_r by lia.
    rewrite Z.sub_add. apply Z.log2_spec. lia. }
  set (d := round_half_even n (last_place n) * last_place n) in *.
  assert (Z.abs (Z.sgn z * d - z) = Z.abs (d - n)) as ->.
  { rewrite <- (Z.abs_sgn z) at 2. fold n. rewrite (Z.mul_comm n), <- Z.mul_sub_distr_l, Z.abs_mul.
    replace (Z.abs (Z.sgn z)) with 1; [lia|]. destruct z; [simpl in *; lia|done..]. }
  lia.
Qed.
