(* ===== verification/Components.v ===== *)
(** * Properties of the components

    The lists, the address arithmetic, the flags of a mapping, the system
    call filter and the timer, each on its own; the properties of
    the pager as a whole are in [FlatMemory]. *)

From S2P Require Import Prelude Kernel SimKernel State Fifo Rules Queues Uring Migrate.
From S2P Require Import Policy Entry Core Tracked Handlers Intercept Timer.

(** ** Starting points of the concrete instances *)

(** A process of the concrete kernel: empty lists, the pages of [h]. *)
Definition process_env (k : sim) : env sim := Env (fun _ => 0) (fun _ => false) ∅ [] k (application 0).
Definition process (h : gmap loc user_page) (k : sim) : state sim :=
  State h (fun _ => FifoList None None 0) (process_env k).

#[export] Instance sim_policy : PolicyOps sim := lru_ops 20.

Lemma view_process h k :
  payload <$> h = h -> Z.of_nat (size h) < 2 ^ 63 ->
  (forall x pg, h !! x = Some pg -> list_of pg = None /\ next pg = None /\ prev pg = None) ->
  View (process h k) h (fun _ => []) (process_env k).
Proof.
  intros Hp Hsz Hh. split; simpl; [done|done| | | |done].
  - intros l. by split.
  - intros l. constructor.
  - intros x pg Hx. destruct (Hh x pg Hx) as (-> & ? & ?). done.
Qed.

Definition three_pages : gmap loc user_page :=
  <[1%positive := zeroed_page]> (<[2%positive := zeroed_page]> {[3%positive := zeroed_page]}).

Lemma view_three_pages k : View (process three_pages k) three_pages (fun _ => []) (process_env k).
Proof.
  apply view_process; [by vm_compute|by vm_compute|].
  intros x pg. unfold three_pages. rewrite !lookup_insert_Some, lookup_singleton_Some.
  naive_solver.
Qed.

(** ** The lists *)

(** C14: any series of calls to the list functions of [fifo.c] that respects
    the callers' contract returns the results of the queue specification and
    leaves the lists representing its sequences; none of them fails. *)
Theorem exec_refines_model {K} (cs : list qcall) (s : state K) P L e :
  View s P L e -> held e = [] -> contract_run P cs L ->
  exists s', exec_run cs s = Ok (fst (model_run cs L)) s' /\ View s' P (snd (model_run cs L)) e.
Proof.
  intros V Hh Hc. destruct (wp_run _ _ _ (wp_exec_run cs s P L e V Hh Hc)) as (rs & s' & Hr & -> & V').
  by exists s'.
Qed.

Definition some_calls : list qcall :=
  [Enqueue dram_free_list 1%positive; Enqueue dram_free_list 2%positive;
   Enqueue active_list 3%positive; NextPage dram_free_list (Some 1%positive);
   Dequeue dram_free_list; TryRemove (Some active_list) 2%positive; RemovePage dram_free_list 2%positive; DequeueVector active_list 5].

Lemma exec_refines_model_witness :
  exists s', exec_run some_calls (process three_pages sim_empty) =
    Ok [Nothing; Nothing; Nothing; APage (Some 2%positive); APage (Some 1%positive); Code (-1);
        Nothing; Pages 1 [Some 3%positive]] s'.
Proof.
  destruct (exec_refines_model some_calls (process three_pages sim_empty) three_pages
    (fun _ => []) _ (view_three_pages _) eq_refl) as (s' & Hs & _).
  - repeat split; try (eexists; by vm_compute); try (by vm_compute).
    + intros l. by not_in.
    + intros l. by destruct l; vm_compute; not_in.
    + intros l. by destruct l; vm_compute; not_in.
    + vm_compute. by right; left.
    + vm_compute. left. by left.
  - exists s'. exact Hs.
Defined.

(** ** Page arithmetic *)

(** C36: the faulting page is the greatest multiple of the page size below the
    address. *)
Theorem page_of_greatest a : 0 <= a < 2 ^ 64 ->
  page_of a mod PAGE_SIZE = 0 /\ page_of a <= a /\
  (forall b, b mod PAGE_SIZE = 0 -> b <= a -> b <= page_of a).
Proof.
  intros Ha. destruct (page_of_down a Ha) as [Hm [Hl Hu]]. split_and!; [done|done|].
  intros b Hb Hba. unfold PAGE_SIZE, BASEPAGE_SIZE in *. Z.div_mod_to_equations. lia.
Qed.

Lemma page_of_greatest_witness : page_of 8200 = 8192 /\ 8192 <= 8200.
Proof. split; [reflexivity|]. apply (page_of_greatest 8200). lia. Defined.

(** C35: a mapping is as long as the least multiple of the page size that
    covers the requested length, unless that multiple does not fit 64 bits,
    when the length wraps to 0. *)
Theorem PAGE_ROUND_UP_least x : 0 < x < 2 ^ 64 ->
  if decide (x + PAGE_SIZE - 1 < 2 ^ 64)
  then PAGE_ROUND_UP x mod PAGE_SIZE = 0 /\ x <= PAGE_ROUND_UP x /\
       (forall b, b mod PAGE_SIZE = 0 -> x <= b -> PAGE_ROUND_UP x <= b)
  else PAGE_ROUND_UP x = 0.
Proof.
  intros Hx. unfold PAGE_ROUND_UP. change PAGE_SIZE with (2 ^ 12). rewrite land_align.
  2-3: pose proof (u64_range (x + 2 ^ 12 - 1)); lia.
  destruct (decide _) as [Hs|Hw].
  - rewrite u64_small by lia. split_and!; [| |intros b]; Z.div_mod_to_equations; lia.
  - unfold u64. rewrite <- (Z.mod_add _ (-1)) by lia. rewrite Z.mod_small by lia.
    rewrite Z.div_small by lia. done.
Qed.

Lemma PAGE_ROUND_UP_least_witness :
  PAGE_ROUND_UP 5000 = 8192 /\ 5000 <= PAGE_ROUND_UP 5000 /\ PAGE_ROUND_UP (2 ^ 64 - 1) = 0.
Proof.
  split; [reflexivity|]. split; [apply (PAGE_ROUND_UP_least 5000); lia|].
  apply (PAGE_ROUND_UP_least (2 ^ 64 - 1)). lia.
Defined.

(** ** Flags of [mmap] *)

#[local] Opaque Z.testbit.
(** Bits of words built with [Z.lor] and [Z.ldiff]. *)
Ltac bits := repeat first [rewrite if_bit | rewrite lor_bit by lia | rewrite ldiff_bit by lia].

(** C33: the flags passed to the kernel never ask for a shared, populated or
    huge page mapping, always for an anonymous one without swap reservation;
    a shared request becomes private, population is reported to the caller,
    and every other bit is the caller's. *)
Theorem mmap_flags_bits flags flags' asked :
  mmap_flags flags = (flags', asked) ->
  asked = Z.testbit flags 15 /\
  (forall i, 0 <= i -> Z.testbit flags' i =
     if decide (i = 0 \/ i = 15 \/ i = 18) then false
     else if decide (i = 1) then Z.testbit flags 0 || Z.testbit flags 1
     else if decide (i = 5 \/ i = 14) then true else Z.testbit flags i).
Proof.
  unfold mmap_flags.
  change MAP_SHARED with (2 ^ 0). change MAP_PRIVATE with (2 ^ 1). change MAP_NORESERVE with (2 ^ 14).
  change MAP_ANONYMOUS with (2 ^ 5). change MAP_POPULATE with (2 ^ 15). change MAP_HUGETLB with (2 ^ 18).
  rewrite !land_bit by lia.
  set (f1 := if Z.testbit flags 0 then _ else flags). set (f3 := Z.lor (Z.lor f1 _) _).
  assert (forall i, 0 <= i -> Z.testbit f3 i = (5 =? i) || (14 =? i) || negb (0 =? i) && 
    (Z.testbit flags i || ((1 =? i) && Z.testbit flags 0))) as H3.
  { intros i Hi. unfold f3, f1. bits. rewrite orb_assoc. f_equal.
    destruct (Z.eqb_spec 0 i) as [<-|]; [by destruct (Z.testbit flags 0)|].
    destruct (Z.testbit flags 0); simpl; [by rewrite andb_true_r, orb_comm|by rewrite andb_false_r, orb_false_r]. }
  assert (Z.testbit f3 15 = Z.testbit flags 15) as -> by (rewrite H3 by lia; simpl; by rewrite orb_false_r).
  set (f4 := if Z.testbit flags 15 then _ else f3).
  assert (forall i, 0 <= i -> Z.testbit f4 i = negb (15 =? i) && Z.testbit f3 i) as H4.
  { intros i Hi. unfold f4. bits. destruct (Z.testbit flags 15) eqn:H15; [done|].
    destruct (Z.eqb_spec 15 i) as [<-|]; [|done]. rewrite H3 by lia. simpl. by rewrite H15. }
  intros [= <- <-]. split; [done|]. intros i Hi.
  transitivity (negb (18 =? i) && Z.testbit f4 i).
  { bits. destruct (Z.testbit f4 18) eqn:H18; [done|]. by destruct (Z.eqb_spec 18 i) as [<-|]. }
  rewrite H4, H3 by lia.
  destruct (decide (i = 0)) as [->|]; [done|].
  destruct (decide (i = 1)) as [->|].
  { simpl. apply orb_comm. }
  destruct (decide (i = 15)) as [->|]; [done|]. destruct (decide (i = 18)) as [->|]; [done|].
  destruct (decide (i = 5)) as [->|]; [done|]. destruct (decide (i = 14)) as [->|]; [reflexivity|].
  rewrite !decide_False by lia. rewrite !(proj2 (Z.eqb_neq _ i)) by lia. simpl. by rewrite orb_false_r.
Qed.

Lemma mmap_flags_bits_witness : mmap_flags 0x8021 = (0x4022, true) /\ Z.testbit 0x4022 0 = false.
Proof.
  split; [by vm_compute|]. apply (mmap_flags_bits 0x8021 0x4022 true); [by vm_compute|lia].
Defined.

(** ** System call interception *)

(** C34: while the library runs (its thread-local [internal_call] is set)
    every system call goes to the kernel, and nothing changes. *)
Theorem hook_reentrant {K} `{KernelOps K, PolicyOps K} fuel n a0 a1 a2 a3 a4 a5 (s : state K) :
  flag (envt s) (internal_call (self (envt s))) = true -> hook fuel n a0 a1 a2 a3 a4 a5 s = Ok (1, None) s.
Proof.
  intros Hi. unfold hook, mmap_filter, munmap_filter.
  destruct (n =p SYS_mmap); [|destruct (n =p SYS_munmap)].
  - destruct (negb _); [done|]. destruct (_ =p MAP_STACK); [done|].
    unfold mbind, M_bind, rdbt, get_env. by rewrite Hi.
  - unfold mbind, M_bind, rdbt, get_env. by rewrite Hi.
  - done.
Qed.

Lemma hook_reentrant_witness :
  let s := State ∅ (fun _ => FifoList None None 0) (set_flag (internal_call (application 0)) true (process_env sim_empty)) in
  flag (envt s) (internal_call (self (envt s))) = true /\
  hook 5 SYS_mmap 0 (2 ^ 32) 3 0x22 (-1) 0 s = Ok (1, None) s.
Proof. intros s. split; [reflexivity|]. apply hook_reentrant. reflexivity. Defined.

(** ** The timer *)

Definition in_micro (t : timeval) : Z := tv_sec t * 1000000 + tv_usec t.
Definition normal (t : timeval) : Prop := 0 <= tv_usec t < 1000000.

(** C40: the difference of two normalised times is normalised, and what
    [elapsed_micro] returns for them is the number of microseconds between
    them as a [double]: without overflow for times within 2^40 seconds of the
    epoch, exactly for differences of up to 2^53 microseconds (285 years), and
    with a relative error of at most 2^-53 beyond. *)
Theorem elapsed_micro_exact a b :
  normal a -> normal b -> Z.abs (tv_sec a) < 2 ^ 40 -> Z.abs (tv_sec b) < 2 ^ 40 ->
  let d := in_micro b - in_micro a in
  normal (timeDiff b a) /\ in_micro (timeDiff b a) = d /\
  (Z.abs d <= 2 ^ 53 -> elapsed_micro a b = d) /\ Z.abs (elapsed_micro a b - d) * 2 ^ 53 <= Z.abs d.
Proof.
  intros Ha Hb Hsa Hsb d. unfold normal in *.
  assert (0 <= tv_usec (timeDiff b a) < 1000000 /\ in_micro (timeDiff b a) = d /\
    tv_to_micro (timeDiff b a) = d) as (Hn & Hd & Hm).
  { unfold d, in_micro, tv_to_micro, timeDiff. rewrite (i64_small (tv_sec b - tv_sec a)), (i64_small (tv_usec b - tv_usec a)) by lia.
    case_bool_decide; simpl; rewrite ?(i64_small (_ + 1000000)), ?(i64_small (_ - _ - 1)) by lia;
      rewrite (i64_small (_ * _)), i64_small by lia; lia. }
  unfold elapsed_micro. rewrite Hm. split_and!; [lia..|done| |apply double_of_long_close].
  apply double_of_long_exact.
Qed.

(** The last difference, of 2^53 microseconds and a quarter of a second, is
    rounded. *)
Lemma elapsed_micro_exact_witness :
  elapsed_micro (Timeval 10 900000) (Timeval 12 100000) = 1200000 /\ normal (Timeval 1 200000) /\
  elapsed_micro (Timeval 0 0) (Timeval 9007199255 1) = 9007199255000000.
Proof.
  assert (forall sec usec, normal (Timeval sec usec) <-> 0 <= usec < 1000000) as Hno by done.
  pose proof (elapsed_micro_exact (Timeval 10 900000) (Timeval 12 100000)
    ltac:(apply Hno; lia) ltac:(apply Hno; lia) ltac:(simpl; lia) ltac:(simpl; lia)) as (Hn & _ & Hx & _).
  split; [exact (Hx ltac:(vm_compute; discriminate))|]. split; [exact Hn|vm_compute; reflexivity].
Defined.
