(* ===== verification/FlatMemory.v ===== *)
(** * The application's memory

    Programs that map and unmap memory through the library, load and store,
    in several threads that take turns, run on the whole model: system calls
    go through [hook], accesses to pages that are not present through the
    fault handler, and the threads of the policy take turns where the program
    lets them.  They observe an ordinary flat memory, initially zero,
    whatever is evicted, swapped in and prefetched in between. *)

From S2P Require Import Prelude Kernel SimKernel State Fifo Rules Uring Migrate Invariant Policy Entry.
From S2P Require Import Core Tracked Prefetch Handlers Workers VectorWorker Unmap Intercept Components.

(** ** The processor

    A store by the application to a page that is present: [store a d] gives
    it the content [d] and sets its dirty bit. *)
Class CpuOps (K D : Type) := store : Z -> D -> K -> K.

Class CpuLaws (K D : Type) `{OB : KernelObs K D, CPU : CpuOps K D} : Prop := {
  l_store a d k : is_Some (mem k a) ->
    mem (store a d k) a = Some d /\ dirty (store a d k) a = true /\
    same_mem_but (fun b => b = a) k (store a d k) /\ same_disk k (store a d k) /\
    same_reg k (store a d k) /\ same_rings k (store a d k) }.

#[export] Instance sim_cpu : CpuOps sim Z := sim_store.
#[export] Instance sim_cpu_laws : CpuLaws sim Z.
Proof.
  split. intros a d k _. unfold store, sim_cpu, sim_store. split_and!; simpl.
  - by rewrite lookup_insert_eq.
  - by rewrite lookup_insert_eq.
  - split; simpl; intros b Hb; by rewrite lookup_insert_ne by congruence.
  - done.
  - done.
  - done.
Qed.

(** ** Programs *)

(** [len], [prot] and [flags] are those of [mmap]; a store applies [f] to
    the content of the page; at a [Yield] the thread [t] of the policy takes
    a turn; after [Switch n] the program goes on in thread [n] of the
    application. *)
Inductive prog (D A : Type) :=
  | Ret (a : A)
  | Load (addr : Z) (k : D -> prog D A)
  | Store (addr : Z) (f : D -> D) (k : prog D A)
  | Map (len prot flags : Z) (k : Z -> prog D A)
  | Unmap (start len : Z) (k : prog D A)
  | Yield (t : thread) (k : prog D A)
  | Switch (n : nat) (k : prog D A).
Arguments Ret {D A}.
Arguments Load {D A}.
Arguments Store {D A}.
Arguments Map {D A}.
Arguments Unmap {D A}.
Arguments Yield {D A}.
Arguments Switch {D A}.

Section programs.
Context {D A : Type} (zero : D).
Implicit Types (p : prog D A) (R : Z -> Prop) (C : Z -> D).

Definition set_page C (a : Z) (d : D) : Z -> D := fun b => if decide (b = a) then d else C b.
Definition fresh_zeroes C (start len : Z) : Z -> D :=
  fun a => if bool_decide (start <= a < start + len) then zero else C a.

(** An address range [mmap] may return. *)
Definition good_range R (q len : Z) : Prop :=
  0 < q /\ q mod PAGE_SIZE = 0 /\ q + len <= 2 ^ 47 /\ forall a, in_range q len a -> ~ R a.

(** The meaning of a program over a flat memory [C], of which [R] is mapped. *)
Fixpoint flat p C R (r : A) : Prop :=
  match p with
  | Ret a => r = a
  | Load addr k => flat (k (C (page_of addr))) C R r
  | Store addr f k => flat k (set_page C (page_of addr) (f (C (page_of addr)))) R r
  | Map len prot flags k => exists q, good_range R q (PAGE_ROUND_UP len) /\
      flat (k q) (fresh_zeroes C q (PAGE_ROUND_UP len))
        (fun a => in_range q (PAGE_ROUND_UP len) a \/ R a) r
  | Unmap start len k => flat k C (fun a => R a /\ ~ in_range start len a) r
  | Yield _ k | Switch _ k => flat k C R r
  end.

(** Programs that access mapped memory only, map anonymous memory of at
    least 2 GB, which is what the library takes over, for reading and writing
    and where the kernel likes ([plain_mapping]), and unmap whole pages of
    what they mapped. *)
Fixpoint safe p R : Prop :=
  match p with
  | Ret a => True
  | Load addr k => 0 <= addr < 2 ^ 64 /\ R (page_of addr) /\ forall d, safe (k d) R
  | Store addr f k => 0 <= addr < 2 ^ 64 /\ R (page_of addr) /\ safe k R
  | Map len prot flags k =>
      2 ^ 31 <= len <= 2 ^ 47 /\ 0 <= prot < 2 ^ 31 /\ Z.land prot PROT_RW = PROT_RW /\
      0 <= flags < 2 ^ 31 /\ plain_mapping flags = true /\
      Z.land flags MAP_ANONYMOUS = MAP_ANONYMOUS /\ Z.land flags MAP_STACK <> MAP_STACK /\
      forall q, good_range R q (PAGE_ROUND_UP len) ->
        safe (k q) (fun a => in_range q (PAGE_ROUND_UP len) a \/ R a)
  | Unmap start len k =>
      start mod PAGE_SIZE = 0 /\ len mod PAGE_SIZE = 0 /\ 0 < len <= 2 ^ 47 /\
      (forall a, in_range start len a -> R a) /\ safe k (fun a => R a /\ ~ in_range start len a)
  | Yield _ k | Switch _ k => safe k R
  end.
End programs.

(** ** Execution *)

Section execution.
Context {K D A : Type} `{KO : KernelOps K, OB : KernelObs K D, CPU : CpuOps K D, PO : !PolicyOps K, BG : !Background K}.
Local Abbreviation M := (M (state K)).

(** An access to an address under userfaultfd: while no page is present the
    kernel raises SIGBUS, whose handler runs before the access is tried
    again. *)
Definition touch (addr : Z) : M unit :=
  loop "page fault" 3 (fun _ : unit =>
    d ← get_env (fun e => mem (kern e) (page_of addr));
    match d with
    | Some _ => mret (inr tt)
    | None => uswap_sig_handler SIGBUS addr;; mret (inl tt)
    end) tt.

Definition load (addr : Z) : M D :=
  touch addr;; get_env (fun e => content (kern e) (page_of addr)).

Definition store_to (addr : Z) (f : D -> D) : M unit :=
  touch addr;;
  sys_do (fun k => store (page_of addr) (f (content k (page_of addr))) k).

(** One iteration of the populating loop per page of the mapping. *)
Definition map_fuel (len : Z) : nat := S (Z.to_nat (PAGE_ROUND_UP len / PAGE_SIZE)).

(** One iteration of the unmapping loop per page. *)
Definition unmap_fuel (len : Z) : nat := S (Z.to_nat (len / PAGE_SIZE)).

Fixpoint run (p : prog D A) : M A :=
  match p with
  | Ret a => mret a
  | Load addr k => d ← load addr; run (k d)
  | Store addr f k => store_to addr f;; run k
  | Map len prot flags k =>
      r ← hook (map_fuel len) SYS_mmap 0 len prot flags (-1) 0;
      match snd r with
      | Some q => run (k q)
      | None => fail (AssertFailed "the call went to the kernel")
      end
  | Unmap start len k =>
      hook (unmap_fuel len) SYS_munmap start len 0 0 0 0;; run k
  | Yield t k => take_turn t;; run k
  | Switch n k => upd_env (set_self (application n));; run k
  end.
End execution.

(** ** The invariant along a program *)

Section proofs.
Context {K D : Type} `{KL : KernelLaws K D may_fail, PO : !PolicyOps K, PL : !PolicyLaws K D may_fail}.
Context `{CPU : CpuOps K D, !CpuLaws K D} {E : fault -> Prop} `{!Tolerates may_fail E}.
Implicit Types (s : state K) (e : env K) (P : gmap loc user_page) (L : fifo_id -> list loc).
Implicit Types (C : Z -> D) (F : list loc).

(** A store to a resident page changes the logical memory at that page. *)
Lemma inv_store k C P L e x px d :
  inv k [] C [] P L e -> managed P x px -> (exists l, x ∈ L l /\ lru l = true) ->
  (forall l l', x ∈ L l -> x ∈ L l' -> l = l') -> resident C P L e x px ->
  inv k [] (set_page C (va px) d) [] P L (set_kern (store (va px) d (kern e)) e).
Proof.
  intros I Hm [l [Hl Hlru]] Huniq R. pose proof R as [Hdr [Ht H0 Ha Hr] Hmem Hres Hmg Hso].
  destruct (l_store (va px) d (kern e)) as (Hm1 & Hd1 & Hmo & Hdo & Hgo & Hro); [by eexists|].
  set (k' := store (va px) d (kern e)) in *.
  assert (forall b, b <> va px -> set_page C (va px) d b = C b) as HC.
  { intros b Hb. unfold set_page. by rewrite decide_False. }
  eapply (inv_update [x]); [exact I| | | | | |apply I|constructor|apply I].
  - split; try done.
    + intros y py HT _ Hmy [Hty _ _ _]. assert (va py <> va px) as Hne.
      { intros Heq. rewrite Heq, Ht in Hty. inv_in. }
      simpl. rewrite (sm_mem _ _ _ Hmo), (sm_dirty _ _ _ Hmo), (sg_registered _ _ Hgo), HC by done. done.
    + intros a Hra Hna. simpl in *. rewrite (sg_registered _ _ Hgo) in Hra.
      assert (a <> va px) by congruence. rewrite (sm_mem _ _ _ Hmo), HC by done.
      by apply (i_untracked _ _ _ _ _ _ _ I).
    + intros a. simpl. rewrite (sg_registered _ _ Hgo). apply (i_range _ _ _ _ _ _ _ I).
    + intros y Hy Hyr. inv_in. assert (l = disk_reserve_list) as -> by by apply Huniq. done.
  - split; try done.
    + intros y Hy. inv_in. exists px. split; [done|]. intros a Hta Ha0.
      destruct (i_table _ _ _ _ _ _ _ I a x Hta Ha0) as (pg & [Hp _] & Hv). destruct Hm. congruence.
    + intros y l' pg Hy Hl' _ [Hpg _]. inv_in. assert (l' = l) as -> by by apply Huniq.
      assert (pg = px) as -> by (destruct Hm; congruence).
      assert (resident (set_page C (va px) d) P L (set_kern k' e) x px) as R'.
      { split; try done.
        - split; simpl; [done..|by rewrite (sg_registered _ _ Hgo)].
        - simpl. unfold set_page. by rewrite decide_True.
        - intros Hh. destruct (Hres Hh) as (r & rp & ? & ? & ? & ? & _). exists r, rp.
          split_and!; try done. simpl. by rewrite Hd1. }
      by destruct l.
    + intros y Hy. inv_in. right. by exists l.
    + by intros y ?%elem_of_nil.
  - eapply slots_env; [apply I|done|done].
  - eapply (conf_ok_step e); [apply I|apply env_step_set_kern|done|].
    unfold content. simpl. rewrite (sm_mem _ _ _ Hmo); [done|]. intros Heq.
    destruct (co_cache _ (i_conf _ _ _ _ _ _ _ I)) as (_ & Hcr & _). congruence.
  - apply rings_ok_same; [apply I|done].
Qed.

(** A page present at a registered address is a resident one. *)
Lemma present_resident C s P L e a :
  pager 0 [] C [] s P L e -> registered (kern e) a = true -> present_at e a ->
  exists x px l, managed P x px /\ va px = a /\ x ∈ L l /\ lru l = true /\ resident C P L e x px.
Proof.
  intros G Hr [d Hd]. pager_facts G. pose proof (i_range _ _ _ _ _ _ _ I a Hr) as Ha.
  destruct (pages e !! a) as [x|] eqn:Ht.
  - destruct (tracked_cases _ _ _ _ _ _ _ G Ht) as (px & l & Hm & Hv & Hl & Hrole); [lia|].
    destruct Hrole as [[Hlru R]|[_ Hsw]]; [by exists x, px, l|].
    pose proof (sw_mem _ _ _ _ Hsw). congruence.
  - destruct (i_untracked _ _ _ _ _ _ _ I a Hr Ht). congruence.
Qed.

(** The access goes through after at most two faults: the second one, if
    any, does not start a prefetch that could evict the page again. *)
Lemma wp_touch C s P L e addr (Q : unit -> state K -> Prop) :
  buffers_fail E -> running C s P L e -> 0 <= addr < 2 ^ 64 ->
  registered (kern e) (page_of addr) = true ->
  (forall s' P' L' e', running C s' P' L' e' -> present_at e' (page_of addr) ->
     (forall b, registered (kern e') b = registered (kern e) b) -> Q tt s') ->
  wp E (touch addr) s Q.
Proof.
  intros HE G Ha Hr HQ. set (a := page_of addr) in *. unfold touch.
  eapply (wp_loop _ _ _ (fun n _ s => exists P' L' e', running C s P' L' e' /\
    (forall b, registered (kern e') b = registered (kern e) b) /\
    (n = 2%nat \/ n = 1%nat /\ (present_at e' a \/ glob e' (prev_fault_1 (self e')) = a) \/
     n = 0%nat /\ present_at e' a)) _ 2%nat); [|lia|].
  { exists P, L, e. split_and!; [done|done|by left]. }
  clear dependent s P L. intros n [] s (P & L & e1 & [G Happ Hic] & Hregs & Hn).
  pose proof (ar_pager _ _ _ _ _ G) as Gp. pager_facts Gp.
  assert (registered (kern e1) a = true) as Hr1 by by rewrite Hregs.
  pose proof (i_range _ _ _ _ _ _ _ I a Hr1) as Ha1.
  apply wp_bind. eapply wp_get_env; [done|]. fold a. destruct (mem (kern e1) a) as [d|] eqn:Hd.
  { apply wp_ret. eapply (HQ s P L e1); [by split|by exists d|done]. }
  assert (~ present_at e1 a) as Hnp by (intros [d' ?]; congruence).
  apply wp_bind. eapply wp_uswap_sig_handler; [done|exact G|done|fold a; lia|done|done|].
  intros s' P' L' e' G' Hseq Hor Hi' Hse' Hr'. fold a in Hseq, Hor. apply wp_ret.
  destruct Hn as [->|[[-> [Hp|Hp]]|[-> Hp]]]; [exists 1%nat|done|exists 0%nat|done]; (split; [lia|]);
    exists P', L', e'; (split; [split; [done|by rewrite Hse'|done]|]); (split; [intros b; by rewrite Hr'|]).
  - right. left. done.
  - right. right. split; [done|]. apply Hseq. unfold sequential. rewrite Hp.
    apply andb_false_iff. left. apply bool_decide_eq_false. unfold PAGE_SIZE, BASEPAGE_SIZE.
    rewrite u64_small by lia. lia.
Qed.

Lemma wp_load C s P L e addr (Q : D -> state K -> Prop) :
  buffers_fail E -> running C s P L e -> 0 <= addr < 2 ^ 64 ->
  registered (kern e) (page_of addr) = true ->
  (forall s' P' L' e', running C s' P' L' e' ->
     (forall b, registered (kern e') b = registered (kern e) b) -> Q (C (page_of addr)) s') ->
  wp E (load addr) s Q.
Proof.
  intros HE G Ha Hr HQ. apply wp_bind. eapply wp_touch; [done|exact G|done|done|].
  intros s1 P1 L1 e1 G1 Hp Hr1. pose proof (ar_pager _ _ _ _ _ (ru_rest _ _ _ _ _ G1)) as Gp. pager_facts Gp.
  destruct (present_resident C s1 P1 L1 e1 (page_of addr)) as (x & px & l & _ & Hv & _ & _ & R);
    [done|by rewrite Hr1|done|].
  eapply wp_get_env; [done|]. unfold content. rewrite <- Hv, (re_mem _ _ _ _ _ _ R), Hv. by eapply HQ.
Qed.

Lemma wp_store_to C s P L e addr f (Q : unit -> state K -> Prop) :
  buffers_fail E -> running C s P L e -> 0 <= addr < 2 ^ 64 ->
  registered (kern e) (page_of addr) = true ->
  (forall s' P' L' e', running (set_page C (page_of addr) (f (C (page_of addr)))) s' P' L' e' ->
     (forall b, registered (kern e') b = registered (kern e) b) -> Q tt s') ->
  wp E (store_to addr f) s Q.
Proof.
  intros HE G Ha Hr HQ. apply wp_bind. eapply wp_touch; [done|exact G|done|done|].
  intros s1 P1 L1 e1 [R1 Happ Hic] Hp Hr1. pose proof (ar_pager _ _ _ _ _ R1) as G1. pager_facts G1.
  destruct (present_resident C s1 P1 L1 e1 (page_of addr)) as (x & px & l & Hm & Hv & Hl & Hlru & R);
    [done|by rewrite Hr1|done|].
  eapply wp_sys_do; [done|]. intros s2 V2. unfold content in V2. rewrite <- Hv in *.
  rewrite (re_mem _ _ _ _ _ _ R) in V2. simpl in V2.
  assert (same_reg (kern e1) (store (va px) (f (C (va px))) (kern e1))) as [Hg _].
  { destruct (l_store (va px) (f (C (va px))) (kern e1)) as (_ & _ & _ & _ & ? & _); [|done].
    rewrite (re_mem _ _ _ _ _ _ R). by eexists. }
  match type of V2 with View _ _ _ ?e2 => apply (HQ s2 P1 L1 e2) end; [split; [eapply at_rest_step; [exact R1| |by split]|done|done]|].
  - split; [exact V2| |by intros ? ?%elem_of_nil|constructor].
    eapply inv_store; [exact I|exact Hm|by exists l| |exact R].
    intros l1 l2 H1 H2. symmetry. by eapply pager_uniq.
  - intros b. simpl. by rewrite Hg.
Qed.

Lemma wp_map C s P L e len prot flags (Q : Z * option Z -> state K -> Prop) :
  can_run_out E -> E (SysFail "mmap") -> running C s P L e ->
  2 ^ 31 <= len <= 2 ^ 47 -> 0 <= prot < 2 ^ 31 -> 0 <= flags < 2 ^ 31 -> plain_mapping flags = true ->
  Z.land flags MAP_ANONYMOUS = MAP_ANONYMOUS -> Z.land flags MAP_STACK <> MAP_STACK ->
  (forall s' P' L' e' q, running (zeroed C q (PAGE_ROUND_UP len)) s' P' L' e' ->
     good_range (fun a => registered (kern e) a = true) q (PAGE_ROUND_UP len) ->
     (forall a, registered (kern e') a = true <->
        (in_range q (PAGE_ROUND_UP len) a \/ registered (kern e) a = true)) -> Q (0, Some q) s') ->
  wp E (hook (map_fuel len) SYS_mmap 0 len prot flags (-1) 0) s Q.
Proof.
  intros HE HEm [G Happ Hic] Hl Hpr Hfl Hpl Han Hst HQ. pose proof (ar_pager _ _ _ _ _ G) as Gp. pager_facts Gp.
  unfold hook. rewrite bool_decide_eq_true_2 by done. unfold mmap_filter.
  rewrite u64_small, !i32_small by lia.
  rewrite (bool_decide_eq_true_2 _ Han), (bool_decide_eq_false_2 _ Hst). simpl.
  vstep. rewrite Hic. vstep. rewrite (ar_init _ _ _ _ _ G). simpl.
  rewrite bool_decide_eq_false_2 by lia. apply wp_bind.
  eapply wp_extmem_mmap; [done|done|exact G|lia|exact Hpl|unfold map_fuel; lia|].
  intros s' P' L' e' q G' H0 Hal Hend Hun Hreg Hic' Hse' _. apply wp_ret.
  eapply HQ; [split; [done|by rewrite Hse'|done]| |done]. split_and!; [done..|]. intros a Ha. by rewrite Hun.
Qed.
Lemma wp_unmap C s P L e start len (Q : Z * option Z -> state K -> Prop) :
  E (SysFail "libc munmap: ") -> (mmgr_waits = true -> L eviction_list = [] \/ E wait_for_evictor) -> running C s P L e ->
  start mod PAGE_SIZE = 0 -> len mod PAGE_SIZE = 0 -> 0 < len <= 2 ^ 47 ->
  (forall a, in_range start len a -> registered (kern e) a = true) ->
  (forall s' P' L' e', running C s' P' L' e' ->
     (forall a, registered (kern e') a = true <-> registered (kern e) a = true /\ ~ in_range start len a) ->
     Q (0, Some 0) s') ->
  wp E (hook (unmap_fuel len) SYS_munmap start len 0 0 0 0) s Q.
Proof.
  intros HE Hwt [G Happ Hic] Hs Hl Hlen Hreg HQ. pose proof (ar_pager _ _ _ _ _ G) as Gp. pager_facts Gp.
  unfold hook. rewrite bool_decide_eq_false_2, bool_decide_eq_true_2 by done. unfold munmap_filter.
  rewrite u64_small by lia. vstep. rewrite Hic. apply wp_bind.
  eapply wp_extmem_munmap; [done|done|exact G|done|done|lia|unfold unmap_fuel; lia|done|].
  intros s' P' L' e' G' Hic' Hse' _ Hreg'. apply wp_ret. eapply HQ; [split; [done|by rewrite Hse'|done]|done].
Qed.
End proofs.

(** ** The theorem *)

(** The failures the theorem tolerates: a system call that fails, and no
    frame or no disk slot left to evict to. *)
Definition resource_failure (f : fault) : Prop :=
  match f with
  | SysFail _ => True
  | AssertFailed what => what = "Out of memory" \/ what = "No disk page found"
  | _ => False
  end.

(** The same, the wait of a policy whose [mmgr_remove] leaves a page that is
    about to be evicted to the eviction workers, and the failure of a system
    call or a lack of resources in one of the policy's own threads. *)
Definition pager_failure {K} `{PolicyOps K, Background K} (f : fault) : Prop :=
  resource_failure f \/ mmgr_waits = true /\ f = wait_for_evictor \/
  exists g, f = ThreadFault g /\ ((exists what, g = SysFail what) \/ background_fault g).

Section theorem.
Context {K D : Type} `{KL : KernelLaws K D may_fail, PO : !PolicyOps K, PL : !PolicyLaws K D may_fail}.
Context `{CPU : CpuOps K D, !CpuLaws K D, BG : !Background K, BL : !BackgroundLaws K D may_fail}.
Implicit Types (s : state K) (e : env K) (C : Z -> D).

#[export] Instance tolerates_resource : Tolerates may_fail resource_failure.
Proof. by intros what _. Qed.

Lemma resource_out : can_run_out resource_failure.
Proof. split; simpl; auto. Qed.

Lemma resource_buffers : buffers_fail resource_failure.
Proof. split; [apply resource_out|by split]. Qed.

#[export] Instance tolerates_pager : Tolerates may_fail pager_failure.
Proof. intros what _. by left. Qed.

Lemma pager_out : can_run_out pager_failure.
Proof. split; left; simpl; auto. Qed.

Lemma pager_buffers : buffers_fail pager_failure.
Proof. split; [apply pager_out|split; by left]. Qed.

Lemma pager_waits (l : list loc) : mmgr_waits = true -> l = [] \/ pager_failure wait_for_evictor.
Proof. right. right. by left. Qed.

Lemma pager_thread g : (exists what, g = SysFail what) \/ background_fault g -> pager_failure (ThreadFault g).
Proof. right. right. by exists g. Qed.

Lemma run_flat {A} (p : prog D A) : forall R C s P L e,
  running C s P L e -> (forall a, R a <-> registered (kern e) a = true) -> safe p R ->
  wp pager_failure (run p) s (fun r s' => flat zero_page p C R r /\
    exists C' P' L' e', running C' s' P' L' e').
Proof.
  induction p as [a|addr k IH|addr f k IH|len prot flags k IH|start len k IH|t k IH|n k IH]; intros R C s P L e G HR Hs; simpl in *.
  - apply wp_ret. split; [done|]. by exists C, P, L, e.
  - destruct Hs as (Ha & Hr & Hk). apply wp_bind.
    eapply wp_load; [apply pager_buffers|exact G|done|by apply HR|].
    intros s' P' L' e' G' Hr'. eapply IH; [exact G'| |done]. intros b. by rewrite Hr'.
  - destruct Hs as (Ha & Hr & Hk). apply wp_bind.
    eapply wp_store_to; [apply pager_buffers|exact G|done|by apply HR|].
    intros s' P' L' e' G' Hr'. eapply IH; [exact G'| |done]. intros b. by rewrite Hr'.
  - destruct Hs as (Hl & Hp & _ & Hf & Hpl & Han & Hst & Hk). apply wp_bind.
    eapply wp_map; [apply pager_out|by left|exact G|done..|].
    intros s' P' L' e' q G' Hq Hr'. simpl.
    assert (good_range R q (PAGE_ROUND_UP len)) as Hq'.
    { destruct Hq as (? & ? & ? & Hq). split_and!; try done. intros a Ha Ra. by apply (Hq a), HR. }
    eapply wp_mono; [eapply IH; [exact G'| |by apply Hk]|].
    + intros a. by rewrite Hr', HR.
    + intros r s1 [Hflat Hs1]. split; [by exists q|done].
  - destruct Hs as (Hst & Hl & Hlen & Hin & Hk). apply wp_bind.
    eapply wp_unmap; [by left|apply pager_waits|exact G|done|done|done|intros a Ha; by apply HR, Hin|].
    intros s' P' L' e' G' Hr'. eapply IH; [exact G'| |done]. intros a. by rewrite Hr', HR.
  - apply wp_bind. eapply (wp_take_turn (may_fail := may_fail)); [intros _ what|intros g Hg|exact G|].
    { apply pager_thread. left. by exists what. }
    { apply pager_thread. by right. }
    intros s' P' L' e' G' Hr'. eapply IH; [exact G'| |done]. intros a. by rewrite Hr'.
  - pose proof (pg_view _ _ _ _ _ _ _ _ (ar_pager _ _ _ _ _ (ru_rest _ _ _ _ _ G))) as V. vstep.
    match goal with V' : View ?s' _ _ _ |- _ => eapply (IH _ C s' P L (set_self (application n) e)) end; [|done|done].
    by eapply running_to.
Qed.

(** From the start of the process to the end of the program. *)
Lemma run_from_boot {A} (p : prog D A) (c : config) (s : state K) e :
  boot s e -> good_config c -> safe p (fun _ => False) ->
  wp pager_failure (extmem_init c;; run p) s (fun r s' =>
    flat zero_page p (fun _ => zero_page) (fun _ => False) r /\ exists C P L e', running C s' P L e').
Proof.
  intros Hb Hc Hs. apply wp_bind.
  eapply (wp_extmem_init (fun _ => zero_page)); [exact Hb|exact Hc|by left|].
  intros s' P' L' e' G Hi Hse Hr. eapply run_flat; [split; [done|rewrite Hse, (bt_main _ _ Hb); by exists 0%nat|done]| |done].
  intros a. by rewrite Hr.
Qed.

(** C1: the application sees flat memory. Any program that accesses only
    memory it mapped, in threads that take turns, run from the start of the
    process (initialisation, system call interception, page faults, eviction,
    swap-in, prefetching, kswapd and the eviction workers taking turns at any
    point, all over any policy that satisfies the policy interface), either
    computes a result that it can compute over a flat, initially zero memory,
    or stops because the system ran out of frames or a system call failed; it
    never dereferences a bad pointer, fails another assertion, deadlocks or
    spins, except that unmapping a page queued for eviction waits for the
    eviction workers if the policy leaves such pages to them ([mmgr_waits],
    which the default policy does not), and that a thread of the policy may
    stop the program with one of the faults its interface names
    ([background_fault]). *)
Theorem flat_memory {A} (p : prog D A) (c : config) (s : state K) e :
  boot s e -> good_config c -> safe p (fun _ => False) ->
  match (extmem_init c;; run p) s with
  | Ok r _ => flat zero_page p (fun _ => zero_page) (fun _ => False) r
  | Fault f => pager_failure f
  end.
Proof.
  intros Hb Hc Hs. pose proof (run_from_boot p c s e Hb Hc Hs) as H. unfold wp in H.
  destruct ((extmem_init c;; run p) s) as [r s'|f]; [by destruct H|done].
Qed.
End theorem.

(** ** A concrete run *)

#[export] Instance sim_policy_laws : PolicyLaws sim Z False.
Proof. apply (lru_laws 20). lia. Qed.

Lemma quiet_process k : (forall r, s_prep k r = []) -> (forall r, s_infl k r = []) ->
  rings_ok [] (process_env k).
Proof. intros Hp Hi. split; simpl; try done; intros r; by rewrite ?Hi, flying_nil. Qed.

Lemma boot_process : boot (process ∅ sim_empty) (process_env sim_empty).
Proof.
  split; try done.
  - apply view_process; [by vm_compute|by vm_compute|]. intros x pg. by rewrite lookup_empty.
  - by apply quiet_process.
Qed.

(** A configuration with [dram] frames and [disk] slots. *)
Definition small (dram disk : Z) : config :=
  Config true true true true 5 6 0 (Some (dram * PAGE_SIZE)) (Some (disk * PAGE_SIZE)).

(** Adds to the [n] pages from [q], the last one first. *)
Fixpoint fill (q : Z) (n : nat) (k : prog Z Z) : prog Z Z :=
  match n with
  | O => k
  | S n => Store (q + PAGE_SIZE * Z.of_nat n) (fun d => d + Z.of_nat n + 1) (Yield kswapd_thread (fill q n k))
  end.

(** Adds up the contents of [n] pages from the [i]-th. *)
Fixpoint sum (q : Z) (i n : nat) (acc : Z) (k : Z -> prog Z Z) : prog Z Z :=
  match n with
  | O => k acc
  | S n => Load (q + PAGE_SIZE * Z.of_nat i) (fun d => sum q (S i) n (acc + d) k)
  end.

Definition fill_and_sum (n : nat) : prog Z Z :=
  Map (2 ^ 31) 3 (Z.lor MAP_PRIVATE MAP_ANONYMOUS) (fun q =>
    fill q n (sum q 0 n 0 (fun acc => Unmap q (10 * PAGE_SIZE) (Ret acc)))).

Lemma page_of_offset R q n i :
  good_range R q n -> 0 <= i -> PAGE_SIZE * i < n ->
  0 <= q + PAGE_SIZE * i < 2 ^ 64 /\ in_range q n (page_of (q + PAGE_SIZE * i)).
Proof.
  intros (H0 & Hq & Hn & _) Hi Hl. unfold PAGE_SIZE, BASEPAGE_SIZE in *.
  destruct (page_of_down (q + 4 * 1024 * i)) as [Ha Hb]; [lia|].
  unfold in_range, PAGE_SIZE, BASEPAGE_SIZE in *. Z.div_mod_to_equations. lia.
Qed.

(** What is mapped after a first mapping of two gigabytes at [q]. *)
Definition two_gb (q : Z) : Z -> Prop := fun a => in_range q (2 ^ 31) a \/ False.

Lemma safe_fill q n k : good_range (fun _ => False) q (2 ^ 31) -> (n <= 100)%nat ->
  safe k (two_gb q) -> safe (fill q n k) (two_gb q).
Proof.
  intros Hq. revert k. induction n as [|m IH]; intros k Hn Hk; simpl; [done|].
  destruct (page_of_offset _ q _ (Z.of_nat m) Hq) as [? ?]; [lia|unfold PAGE_SIZE, BASEPAGE_SIZE; lia|].
  split_and!; [lia|lia|by left|]. apply IH; [lia|done].
Qed.

Lemma safe_sum q n i acc k : good_range (fun _ => False) q (2 ^ 31) -> (i + n <= 100)%nat ->
  (forall acc, safe (k acc) (two_gb q)) -> safe (sum q i n acc k) (two_gb q).
Proof.
  intros Hq. revert i acc k. induction n as [|m IH]; intros i acc k Hi Hk; simpl; [done|].
  destruct (page_of_offset _ q _ (Z.of_nat i) Hq) as [? ?]; [lia|unfold PAGE_SIZE, BASEPAGE_SIZE; lia|].
  split_and!; [lia|lia|by left|]. intros d. apply IH; [lia|done].
Qed.

Lemma safe_map_two_gb {A} flags (k : Z -> prog Z A) :
  0 <= flags < 2 ^ 31 -> plain_mapping flags = true ->
  Z.land flags MAP_ANONYMOUS = MAP_ANONYMOUS -> Z.land flags MAP_STACK <> MAP_STACK ->
  (forall q, good_range (fun _ => False) q (2 ^ 31) -> safe (k q) (two_gb q)) ->
  safe (Map (2 ^ 31) 3 flags k) (fun _ => False).
Proof. intros [] ? ? ? Hk. change (PAGE_ROUND_UP (2 ^ 31)) with (2 ^ 31) in *. split_and!; try lia; try done. Qed.

Lemma safe_fill_and_sum n : (n <= 100)%nat -> safe (fill_and_sum n) (fun _ => False).
Proof.
  intros Hn. apply safe_map_two_gb; [done..|]. intros q Hq.
  apply safe_fill; [done|done|]. apply safe_sum; [done|simpl; lia|]. intros acc. simpl. destruct Hq as (H0 & Hal & _).
  split_and!; try done. unfold two_gb, in_range, PAGE_SIZE, BASEPAGE_SIZE in *. intros a Ha. left. lia.
Qed.

Lemma good_small : good_config (small 64 256).
Proof. split; vm_compute; repeat split; congruence. Qed.

(** 100 pages on 64 frames: eviction, swap-in and prefetching take place. *)
Definition evicting_run := (extmem_init (small 64 256);; run (fill_and_sum 100)) (process ∅ sim_empty).

(** The same with two threads: the eviction workers take turns between the
    writes of the first thread and the reads of the second one. *)
Definition in_two_threads : prog Z Z :=
  Map (2 ^ 31) 3 (Z.lor MAP_PRIVATE MAP_ANONYMOUS) (fun q =>
    fill q 100 (Yield (eviction_thread 0) (Yield (eviction_thread 1) (
      Switch 1 (sum q 0 50 0 (fun acc => Yield (eviction_thread 1) (
      Switch 0 (sum q 50 50 acc (fun acc => Ret acc))))))))).

Lemma safe_in_two_threads : safe in_two_threads (fun _ => False).
Proof.
  apply safe_map_two_gb; [done..|]. intros q Hq. apply safe_fill; [done|lia|]. cbn [safe].
  apply (safe_sum q 50 0); [done|lia|]. intros acc. cbn [safe]. by apply (safe_sum q 50 50); [|lia|].
Qed.

Lemma flat_memory_witness :
  match (extmem_init (small 64 256);; run in_two_threads) (process ∅ sim_empty) with
  | Ok r s' => r = 5050 /\ glob (envt s') migrations_down = 88 /\ glob (envt s') major_faults_handled = 8 /\
      flag (envt s') (uring_init (eviction_thread 1)) = true /\
      flag (envt s') (prefetch_buffer_allocated (application 0)) = true /\
      flat 0 in_two_threads (fun _ => 0) (fun _ => False) r
  | Fault f => False
  end.
Proof.
  pose proof (flat_memory in_two_threads (small 64 256) (process ∅ sim_empty) _ boot_process
    good_small safe_in_two_threads) as H.
  change zero_page with 0 in H. set (o := (extmem_init (small 64 256);; run in_two_threads) (process ∅ sim_empty)) in *.
  assert (match o with
    | Ok r s' => (r =? 5050) && (glob (envt s') migrations_down =? 88) &&
        (glob (envt s') major_faults_handled =? 8) && flag (envt s') (uring_init (eviction_thread 1)) &&
        flag (envt s') (prefetch_buffer_allocated (application 0))
    | Fault _ => false end = true) as Hr by (vm_compute; reflexivity).
  clearbody o. destruct o as [r s'|f]; [|discriminate].
  apply andb_prop in Hr as [[[[Hr H1]%andb_prop H2]%andb_prop H3]%andb_prop H4].
  split_and!; [by apply Z.eqb_eq|by apply Z.eqb_eq|by apply Z.eqb_eq|done|done|exact H].
Defined.
