(* ===== verification/Guarantees.v ===== *)
(** * What holds after any program

    Consequences of the invariant for the concrete state in which a program
    of [FlatMemory] leaves the process: the lists, the descriptors, the
    table of pages, the memory and the disk. *)

From S2P Require Import Prelude Kernel SimKernel State Fifo Rules Uring Migrate Invariant Policy Entry.
From S2P Require Import Core Tracked Handlers Workers VectorWorker Components FlatMemory.

Section guarantees.
Context {K D : Type} `{KL : KernelLaws K D may_fail, PO : !PolicyOps K, PL : !PolicyLaws K D may_fail}.
Context `{CPU : CpuOps K D, !CpuLaws K D, BG : !Background K, BL : !BackgroundLaws K D may_fail}.
Implicit Types (s : state K) (e : env K) (P : gmap loc user_page) (L : fifo_id -> list loc).
Implicit Types (C : Z -> D).

(** The pages of a tracked address, of the LRU lists. *)
Definition on_lru (pg : user_page) : Prop := exists l, list_of pg = Some l /\ lru l = true.

Lemma after_program {A} (p : prog D A) (c : config) (s : state K) e (Φ : state K -> Prop) :
  boot s e -> good_config c -> safe p (fun _ => False) ->
  (forall C s' P L e', running C s' P L e' -> Φ s') ->
  match (extmem_init c;; run p) s with Ok _ s' => Φ s' | Fault f => pager_failure f end.
Proof.
  intros Hb Hc Hs HΦ. pose proof (run_from_boot p c s e Hb Hc Hs) as H. unfold wp in H.
  destruct ((extmem_init c;; run p) s) as [r s'|f]; [|done].
  destruct H as (_ & C & P & L & e' & G). by eapply HΦ.
Qed.

(** C20: no frame is ever lost or invented. After any program the four lists
    of pages that occupy a frame (free, active, inactive, chosen for
    eviction) hold as many pages as DRAM has frames. *)
Theorem frames_never_lost {A} (p : prog D A) (c : config) (s : state K) e :
  boot s e -> good_config c -> safe p (fun _ => False) ->
  match (extmem_init c;; run p) s with
  | Ok _ s' =>
      numentries (lists s' dram_free_list) + numentries (lists s' active_list) +
      numentries (lists s' inactive_list) + numentries (lists s' eviction_list) =
      glob (envt s') dramsize / PAGE_SIZE
  | Fault f => pager_failure f
  end.
Proof.
  intros Hb Hc Hs. eapply (after_program p c s e (fun s' => _ = _)); [done..|].
  intros C s' P L e' [[G _ _ _] _]. pager_facts G.
  pose proof (i_count _ _ _ _ _ _ _ I) as Hn. unfold on_frames, frames in Hn.
  rewrite (v_env _ _ _ _ V).
  rewrite !(h_num _ _ _ _ (v_header _ _ _ _ V _)). lia.
Qed.

(** C4: no two page descriptors ever own the same frame or the same disk
    slot, and each owns one that lies within its device. *)
Theorem slots_never_shared {A} (p : prog D A) (c : config) (s : state K) e :
  boot s e -> good_config c -> safe p (fun _ => False) ->
  match (extmem_init c;; run p) s with
  | Ok _ s' => forall x y px py, heap s' !! x = Some px -> heap s' !! y = Some py ->
      pt px = BASEP -> pt py = BASEP ->
      (in_dram px = in_dram py -> virtual_offset px = virtual_offset py -> x = y) /\
      0 <= virtual_offset px /\ virtual_offset px mod PAGE_SIZE = 0 /\
      virtual_offset px + PAGE_SIZE <= glob (envt s') (if in_dram px then dramsize else disksize)
  | Fault f => pager_failure f
  end.
Proof.
  intros Hb Hc Hs. eapply (after_program p c s e (fun s' => forall x y px py, _)); [done..|].
  intros C s' P L e' [[G _ _ _] _] x y px py Hx Hy Htx Hty. pager_facts G.
  assert (managed P x (payload px)) as Hmx by (split; [by eapply view_heap|by destruct px]).
  assert (managed P y (payload py)) as Hmy by (split; [by eapply view_heap|by destruct py]).
  pose proof (i_slots _ _ _ _ _ _ _ I) as [Sf Sa Si _]. split.
  - intros Hd Ho. eapply Si; [done|done|by destruct px, py|by destruct px, py].
  - pose proof (Sf x _ Hmx) as (H0 & H1 & _). pose proof (Sa x _ Hmx) as H2.
    rewrite (v_env _ _ _ _ V). unfold limit in H1. destruct px; simpl in *. split_and!; try done.
    by destruct in_dram.
Qed.

(** C21: a tracked page is in memory or on disk, never in between: at rest
    none is marked as migrating, the page at an address is present exactly
    when its descriptor says so, and the descriptor is on a list of that
    kind. *)
Theorem tracked_pages_settled {A} (p : prog D A) (c : config) (s : state K) e :
  boot s e -> good_config c -> safe p (fun _ => False) ->
  match (extmem_init c;; run p) s with
  | Ok _ s' => forall a x, pages (envt s') !! a = Some x -> a <> 0 ->
      exists px, heap s' !! x = Some px /\ va px = a /\ migrating px = false /\
        swapped_out px = negb (in_dram px) /\ a mod PAGE_SIZE = 0 /\
        if in_dram px then is_Some (mem (kern (envt s')) a) /\ on_lru px
        else mem (kern (envt s')) a = None /\ list_of px = Some disk_active_list
  | Fault f => pager_failure f
  end.
Proof.
  intros Hb Hc Hs. eapply (after_program p c s e (fun s' => forall a x, _)); [done..|].
  intros C s' P L e' [[G _ _ _] _] a x. pager_facts G. rewrite (v_env _ _ _ _ V). intros Ht H0.
  destruct (tracked_cases _ _ _ _ _ _ _ G Ht H0) as (px & l & [Hx Hpt] & Hv & Hl & Hrole).
  destruct (view_elem _ _ _ _ _ _ V Hl) as (pg & Hpg & Hlo).
  pose proof (view_heap _ _ _ _ _ _ V Hpg) as Hpay. rewrite Hx in Hpay. injection Hpay as ->.
  exists pg. destruct Hrole as [[Hlru R]|[-> Hsw]].
  - destruct R as [Hdr [_ _ Hal _] Hmem _ Hmg Hso]. destruct pg; simpl in *. subst.
    split_and!; try done. by exists l.
  - destruct Hsw as [Hdr [_ _ Hal _] Hmem _ _ Hmg Hso]. destruct pg; simpl in *. subst. done.
Qed.

(** C6: evicting a page without writing it back is safe. Whenever a page in
    memory that has a disk copy is not dirty, the copy holds exactly the
    page's content. *)
Theorem clean_copies_valid {A} (p : prog D A) (c : config) (s : state K) e :
  boot s e -> good_config c -> safe p (fun _ => False) ->
  match (extmem_init c;; run p) s with
  | Ok _ s' => forall a x px, pages (envt s') !! a = Some x -> a <> 0 -> heap s' !! x = Some px ->
      has_reserve px = true -> dirty (kern (envt s')) a = false ->
      exists r rp, reserve px = Some r /\ heap s' !! r = Some rp /\ reserve rp = Some x /\
        list_of rp = Some disk_reserve_list /\
        mem (kern (envt s')) a = Some (disk (kern (envt s')) (virtual_offset rp))
  | Fault f => pager_failure f
  end.
Proof.
  intros Hb Hc Hs. eapply (after_program p c s e (fun s' => forall a x px, _)); [done..|].
  intros C s' P L e' [[G _ _ _] _] a x pg. pager_facts G. rewrite (v_env _ _ _ _ V). intros Ht H0 Hpg Hres Hdi.
  destruct (tracked_cases _ _ _ _ _ _ _ G Ht H0) as (px & l & [Hx Hpt] & Hv & Hl & Hrole).
  pose proof (view_heap _ _ _ _ _ _ V Hpg) as Hpay. rewrite Hx in Hpay. injection Hpay as ->.
  destruct Hrole as [[Hlru R]|[_ Hsw]].
  - destruct (re_reserve _ _ _ _ _ _ R) as (r & rp & Hr & Hrl & Hrp & Hback & Hclean); [by destruct pg|].
    destruct (view_elem _ _ _ _ _ _ V Hrl) as (rpg & Hrpg & Hlo).
    pose proof (view_heap _ _ _ _ _ _ V Hrpg) as Hrpay. rewrite Hrp in Hrpay. injection Hrpay as ->.
    pose proof (re_mem _ _ _ _ _ _ R) as Hmem. rewrite Hv in *.
    exists r, rpg. split_and!; [by destruct pg|done|by destruct rpg|done|].
    rewrite Hmem, <- (Hclean Hdi). by destruct rpg.
  - pose proof (sw_reserve _ _ _ _ Hsw). by destruct pg; simpl in *; congruence.
Qed.

(** C31: whatever a program made the library do, no mutex is left taken and
    the library is ready to intercept the next call of any of its threads. *)
Theorem locks_released {A} (p : prog D A) (c : config) (s : state K) e :
  boot s e -> good_config c -> safe p (fun _ => False) ->
  match (extmem_init c;; run p) s with
  | Ok _ s' => held (envt s') = [] /\ (forall n, flag (envt s') (internal_call (application n)) = false) /\
      flag (envt s') is_init = true /\ flag (envt s') shrinkage_running = false
  | Fault f => pager_failure f
  end.
Proof.
  intros Hb Hc Hs. eapply (after_program p c s e (fun s' => _ = _ /\ _)); [done..|].
  intros C s' P L e' R. pose proof (ru_rest _ _ _ _ _ R) as [G Hsh Hi _ _]. pager_facts G. rewrite (v_env _ _ _ _ V).
  split_and!; [apply I|intros n; by eapply running_external|done..].
Qed.
End guarantees.

(** ** On the concrete run *)

Lemma evicting_ends (Φ : state sim -> Prop) :
  match evicting_run with Ok _ s' => Φ s' | Fault f => pager_failure (K := sim) f end ->
  exists r s', evicting_run = Ok r s' /\ Φ s'.
Proof.
  assert (match evicting_run with Ok _ _ => true | Fault _ => false end = true) as Hr by (vm_compute; reflexivity).
  destruct evicting_run as [r s'|f]; [|discriminate]. intros H. by exists r, s'.
Qed.

Lemma frames_never_lost_witness : exists r s', evicting_run = Ok r s' /\
  numentries (lists s' dram_free_list) + numentries (lists s' active_list) +
  numentries (lists s' inactive_list) + numentries (lists s' eviction_list) =
  glob (envt s') dramsize / PAGE_SIZE.
Proof.
  apply evicting_ends.
  exact (frames_never_lost (fill_and_sum 100) (small 64 256) _ _ boot_process good_small
    (safe_fill_and_sum 100 ltac:(lia))).
Defined.

Lemma slots_never_shared_witness : exists r s', evicting_run = Ok r s' /\
  forall x y px py, heap s' !! x = Some px -> heap s' !! y = Some py -> pt px = BASEP -> pt py = BASEP ->
    in_dram px = in_dram py -> virtual_offset px = virtual_offset py -> x = y.
Proof.
  apply evicting_ends.
  pose proof (slots_never_shared (fill_and_sum 100) (small 64 256) _ _ boot_process good_small
    (safe_fill_and_sum 100 ltac:(lia))) as H.
  change ((extmem_init (small 64 256);; run (fill_and_sum 100)) (process ∅ sim_empty)) with evicting_run in H.
  destruct evicting_run as [r s'|f]; [|done]. intros x y px py Hx Hy Htx Hty. by apply (H x y px py).
Defined.

Lemma tracked_pages_settled_witness : exists r s', evicting_run = Ok r s' /\
  forall a x, pages (envt s') !! a = Some x -> a <> 0 -> a mod PAGE_SIZE = 0.
Proof.
  apply evicting_ends.
  pose proof (tracked_pages_settled (fill_and_sum 100) (small 64 256) _ _ boot_process good_small
    (safe_fill_and_sum 100 ltac:(lia))) as H.
  change ((extmem_init (small 64 256);; run (fill_and_sum 100)) (process ∅ sim_empty)) with evicting_run in H.
  destruct evicting_run as [r s'|f]; [|done]. intros a x Ht H0.
  by destruct (H a x Ht H0) as (px & _ & _ & _ & _ & ? & _).
Defined.

(** The page at 8777728 is clean and has a copy. *)
Lemma clean_copies_valid_witness : exists r s', evicting_run = Ok r s' /\
  exists x px q rp, pages (envt s') !! 8777728 = Some x /\ heap s' !! x = Some px /\ reserve px = Some q /\
    heap s' !! q = Some rp /\ mem (kern (envt s')) 8777728 = Some (disk (kern (envt s')) (virtual_offset rp)).
Proof.
  apply evicting_ends.
  pose proof (clean_copies_valid (fill_and_sum 100) (small 64 256) _ _ boot_process good_small
    (safe_fill_and_sum 100 ltac:(lia))) as H.
  change ((extmem_init (small 64 256);; run (fill_and_sum 100)) (process ∅ sim_empty)) with evicting_run in H.
  assert (match evicting_run with
    | Ok _ s' => match pages (envt s') !! 8777728 with
      | Some x => match heap s' !! x with
        | Some px => has_reserve px && negb (dirty (kern (envt s')) 8777728)
        | None => false end
      | None => false end
    | Fault _ => false end = true) as Hr by (vm_compute; reflexivity).
  destruct evicting_run as [r s'|f]; [|done].
  destruct (pages (envt s') !! 8777728) as [x|] eqn:Ht; [|done].
  destruct (heap s' !! x) as [px|] eqn:Hx; [|done].
  apply andb_prop in Hr as [Hh Hd%negb_true_iff].
  destruct (H 8777728 x px Ht ltac:(done) Hx Hh Hd) as (q & rp & ? & ? & _ & _ & ?).
  by exists x, px, q, rp.
Defined.

Lemma locks_released_witness : exists r s', evicting_run = Ok r s' /\
  held (envt s') = [] /\ (forall n, flag (envt s') (internal_call (application n)) = false) /\
  flag (envt s') is_init = true /\ flag (envt s') shrinkage_running = false.
Proof.
  apply evicting_ends.
  exact (locks_released (fill_and_sum 100) (small 64 256) _ _ boot_process good_small
    (safe_fill_and_sum 100 ltac:(lia))).
Defined.
