(* ===== verification/Operations.v ===== *)
(** * The operations of the core

    What each operation of [core.c] promises when it is called on a process
    at rest: page faults, prefetching, mapping, unmapping and populating,
    whatever the policy.  The witnesses run on the concrete kernel. *)

From S2P Require Import Prelude Kernel SimKernel State Fifo Rules Uring Migrate Invariant Policy Entry.
From S2P Require Import Core Tracked Prefetch Handlers Workers VectorWorker Unmap Intercept Components FlatMemory.

(** ** Reaching a process at rest *)

(** The concrete process after initialisation and the program [p]. *)
Definition after {A} (p : prog Z A) : res (state sim) A :=
  (extmem_init (small 64 256);; run p) (process ∅ sim_empty).

Definition finished {A} (p : prog Z A) (test : A -> state sim -> bool) : bool :=
  match after p with Ok r s => test r s | Fault _ => false end.

(** A program that runs to its end leaves the process at rest. *)
Lemma after_running {A} (p : prog Z A) (test : A -> state sim -> bool) :
  safe p (fun _ => False) -> finished p test = true ->
  exists r s C P L, after p = Ok r s /\ running C s P L (envt s) /\ test r s = true.
Proof.
  intros Hs Ht. pose proof (run_from_boot p (small 64 256) (process ∅ sim_empty) _ boot_process good_small Hs) as H.
  unfold wp in H. fold (after p) in H. unfold finished in Ht.
  destruct (after p) as [r s|f]; [|done]. destruct H as (_ & C & P & L & e & G). exists r, s, C, P, L.
  pose proof (ar_pager _ _ _ _ _ (ru_rest _ _ _ _ _ G)) as Gp. pager_facts Gp. by rewrite (v_env _ _ _ _ V).
Qed.

Definition is_ok {S A} (r : res S A) : bool := match r with Ok _ _ => true | Fault _ => false end.

Lemma wp_ends {S A} E (m : M S A) s Q : wp E m s Q -> is_ok (m s) = true -> exists r s', m s = Ok r s' /\ Q r s'.
Proof. unfold wp. destruct (m s) as [r s'|]; [|done]. intros HQ _. by exists r, s'. Qed.

(** Two gigabytes mapped, [n] pages of them written. *)
Definition filled (n : nat) : prog Z Z :=
  Map (2 ^ 31) 3 (Z.lor MAP_PRIVATE MAP_ANONYMOUS) (fun q => fill q n (Ret q)).

Lemma safe_filled n : (n <= 100)%nat -> safe (filled n) (fun _ => False).
Proof. intros Hn. apply safe_map_two_gb; [done..|]. intros q Hq. by apply safe_fill. Qed.

(** ** Page faults *)

Section faults.
Context {K D : Type} `{KL : KernelLaws K D may_fail, PO : !PolicyOps K, PL : !PolicyLaws K D may_fail}.
Implicit Types (s : state K) (e : env K) (P : gmap loc user_page) (L : fifo_id -> list loc) (C : Z -> D).

(** At rest, what is present at a registered address is the logical memory. *)
Lemma present_content C s P L e a :
  at_rest C s P L e -> registered (kern e) a = true -> present_at e a -> mem (kern e) a = Some (C a).
Proof.
  intros G Hr Hp. destruct (present_resident C s P L e a) as (x & px & l & _ & <- & _ & _ & R);
    [apply G|done|done|apply R].
Qed.

Lemma registered_nonzero C s P L e a : at_rest C s P L e -> registered (kern e) a = true -> a <> 0.
Proof. intros G Hr. pose proof (i_range _ _ _ _ _ _ _ (pg_inv _ _ _ _ _ _ _ _ (ar_pager _ _ _ _ _ G)) a Hr). lia. Qed.

(** C2: a page fault is resolved. Whatever the state of the page (never
    touched, evicted, or present by now), when the handler returns the page
    is present with the content the application last gave it, every other
    page keeps its content, and the pager is at rest; the one exception is
    the third fault of a sequential series, after which a prefetch runs
    that may have evicted the page again. *)
Theorem fault_resolved C s P L e addr :
  at_rest C s P L e -> (exists n, self e = application n) ->
  0 <= addr < 2 ^ 64 -> registered (kern e) (page_of addr) = true ->
  wp resource_failure (uswap_sig_handler SIGBUS addr) s (fun _ s' =>
    exists P' L' e', running C s' P' L' e' /\
      (forall a, registered (kern e') a = registered (kern e) a) /\
      (sequential e (page_of addr) = false -> mem (kern e') (page_of addr) = Some (C (page_of addr)))).
Proof.
  intros G Hap Ha Hr. eapply wp_uswap_sig_handler; [apply resource_buffers|exact G|done| |done|done|].
  { by eapply registered_nonzero. }
  intros s' P' L' e' G' Hp _ Hic Hse Hr'. exists P', L', e'. split_and!; [split; [done|by rewrite Hse|done]|done|].
  intros Hs. apply (present_content C s' P' L' e'); [done|by rewrite Hr'|by apply Hp].
Qed.

(** C15: two faults suffice. An access to mapped memory, retried by the
    processor after each fault, goes through after at most two of them: the
    handler does not livelock with eviction or prefetching. *)
Theorem two_faults_suffice C s P L e addr :
  running C s P L e -> 0 <= addr < 2 ^ 64 -> registered (kern e) (page_of addr) = true ->
  wp resource_failure (touch addr) s (fun _ s' =>
    exists P' L' e', running C s' P' L' e' /\ mem (kern e') (page_of addr) = Some (C (page_of addr))).
Proof.
  intros G Ha Hr. eapply wp_touch; [apply resource_buffers|exact G|done|done|].
  intros s' P' L' e' G' Hp Hr'. exists P', L', e'. split; [done|].
  apply (present_content C s' P' L' e'); [apply G'|by rewrite Hr'|done].
Qed.

(** C29: the first access to a page finds zeroes. A fault on a page without a
    descriptor takes a free frame, enters it in the table of pages under the
    page's address and fills it with zeroes; no other page is entered or
    left out. *)
Theorem first_fault_zeroes C s P L e a :
  at_rest C s P L e -> pages e !! a = None -> a mod PAGE_SIZE = 0 -> registered (kern e) a = true ->
  wp resource_failure (handle_first_fault a) s (fun _ s' =>
    exists P' L' e' x, at_rest C s' P' L' e' /\ pages e' = <[a := x]> (pages e) /\
      mem (kern e') a = Some zero_page).
Proof.
  intros G Ht Ha Hr. eapply wp_handle_first_fault; [apply resource_out|exact G|done| |done|done|].
  { by eapply registered_nonzero. }
  intros s' P' L' e' x G' Hp Hpr _ Hr'. exists P', L', e', x. split_and!; [done|done|].
  rewrite (present_content C s' P' L' e') by (done || by rewrite Hr').
  pose proof (ar_pager _ _ _ _ _ G) as Gp. pager_facts Gp.
  by destruct (i_untracked _ _ _ _ _ _ _ I a Hr Ht) as [_ ->].
Qed.

(** A segmentation fault is never repaired: the handler aborts before it
    looks at the page, whatever the state of the process. *)
Theorem sigsegv_aborts s addr : uswap_sig_handler SIGSEGV addr s = Fault (AssertFailed "0").
Proof. done. Qed.

(** C11: prefetching is invisible and always comes to an end. From any state
    at rest in which the read ring is set up, reading the pages after [base]
    ahead leaves every page's content as it was, tracks and registers
    nothing new, and reports at most as many pages as one batch holds. *)
Theorem prefetch_preserves_memory C s P L e base :
  at_rest C s P L e -> 0 < base < 2 ^ 47 -> flag e (uring_read_init (self e)) = true ->
  wp resource_failure (core_try_prefetch base) s (fun n s' => 0 <= n <= CORE_PREFETCH_RATE /\
    exists P' L' e', at_rest C s' P' L' e' /\ pages e' = pages e /\
      (forall a, registered (kern e') a = registered (kern e) a)).
Proof.
  intros R Hb Hu. pose proof R as [G Hs Hi Hf _].
  eapply wp_core_try_prefetch; [apply resource_out|done|exact G|done|by left|done|done|].
  intros n s' P' L' e' G' S Hn. split; [done|]. exists P', L', e'. split_and!; [|apply S|apply S].
  eapply at_rest_step; [exact R|done|by apply call_prefetch].
Qed.
End faults.

(** ** Mapping and unmapping *)

Section mappings.
Context {K D : Type} `{KL : KernelLaws K D may_fail, PO : !PolicyOps K, PL : !PolicyLaws K D may_fail}.
Context `{BG : !Background K}.
Implicit Types (s : state K) (e : env K) (P : gmap loc user_page) (L : fifo_id -> list loc) (C : Z -> D).

(** C10: [mmap] gives fresh zeroed memory, where the kernel chooses the place:
    for flags without [MAP_FIXED], [MAP_GROWSDOWN] and [MAP_LOCKED]. The
    returned range is page aligned, covers the requested length, overlaps
    nothing the library manages, reads as zeroes, and is under the library's
    control from then on; all other memory keeps its content. With
    [MAP_POPULATE] this costs one round of the loop per page. *)
Theorem mmap_fresh_zeroes fuel C s P L e addr len prot flags fd off :
  at_rest C s P L e -> (exists n, self e = application n) -> plain_mapping flags = true ->
  0 < len <= 2 ^ 63 -> (Z.to_nat (PAGE_ROUND_UP len / PAGE_SIZE) < fuel)%nat ->
  wp resource_failure (extmem_mmap fuel addr len prot flags fd off) s (fun q s' =>
    let n := PAGE_ROUND_UP len in
    exists P' L' e', running (fun a => if bool_decide (q <= a < q + n) then zero_page else C a) s' P' L' e' /\
      0 < q /\ q mod PAGE_SIZE = 0 /\ len <= n /\ q + n <= 2 ^ 47 /\
      (forall a, in_range q n a -> registered (kern e) a = false) /\
      (forall a, registered (kern e') a = true <-> in_range q n a \/ registered (kern e) a = true)).
Proof.
  intros G Hap Hpl Hl Hf. eapply wp_extmem_mmap; [apply resource_out|done|exact G|done|done|done|].
  intros s' P' L' e' q G' H0 Ha He Hn Hr Hic Hse _. exists P', L', e'.
  split_and!; [split; [done|by rewrite Hse|done]|done|done| |done|done|done].
  pose proof (PAGE_ROUND_UP_least len) as H. rewrite decide_True in H; unfold PAGE_SIZE, BASEPAGE_SIZE in *; [|lia].
  apply H. lia.
Qed.

(** C9: [munmap] of pages the library manages unmaps exactly them: the range
    is no longer mapped nor registered, the frames, slots and reserves of
    its pages are free again, and the rest of the memory is untouched. (A
    policy with [mmgr_waits] may wait for the eviction workers first.) *)
Theorem munmap_exact fuel C s P L e start len :
  at_rest C s P L e -> (exists n, self e = application n) -> start mod PAGE_SIZE = 0 -> len mod PAGE_SIZE = 0 -> 0 < len ->
  (Z.to_nat (len / PAGE_SIZE) < fuel)%nat ->
  (forall a, in_range start len a -> registered (kern e) a = true) ->
  wp pager_failure (extmem_munmap fuel start len) s (fun r s' => r = 0 /\
    exists P' L' e', running C s' P' L' e' /\
      (forall a, in_range start len a -> mapped (kern e') a = false) /\
      (forall a, registered (kern e') a = true <-> registered (kern e) a = true /\ ~ in_range start len a)).
Proof.
  intros G Hap Hs Hl Hl0 Hf Hr. eapply wp_extmem_munmap; [by left|apply pager_waits|exact G|done..|].
  intros s' P' L' e' G' Hic Hse Hm Hr'. split; [done|]. exists P', L', e'.
  split_and!; [split; [done|by rewrite Hse|done]|done|done].
Qed.

(** C30: [MAP_POPULATE] tracks the whole range: afterwards every page of it
    has a descriptor, and no content has changed. *)
Theorem populate_tracks_all fuel C s P L e q len :
  at_rest C s P L e -> q mod PAGE_SIZE = 0 -> len mod PAGE_SIZE = 0 -> 0 < q -> 0 < len -> q + len <= 2 ^ 47 ->
  (forall a, in_range q len a -> registered (kern e) a = true /\ pages e !! a = None) ->
  (Z.to_nat (len / PAGE_SIZE) < fuel)%nat ->
  wp resource_failure (extmem_mmap_populate fuel q len) s (fun _ s' =>
    exists P' L' e', at_rest C s' P' L' e' /\
      (forall a, in_range q len a -> a mod PAGE_SIZE = 0 -> is_Some (pages e' !! a))).
Proof.
  intros G Hq Hl Hq0 Hl0 Hend Hin Hf. eapply wp_populate; [apply resource_out|exact G|done|done| | |done..|].
  - intros a Ha. by apply Hin.
  - intros a Ha. by apply Hin.
  - intros s' P' L' e' G' _ _ Hp. by exists P', L', e'.
Qed.

(** C39: the account of mapped memory forgets earlier mappings:
    [mem_mmaped], which [munmap] decrements page by page, is set to the
    length of the last mapping, whatever was mapped before. *)
Theorem mem_mmaped_last_only fuel C s P L e addr len prot flags fd off :
  at_rest C s P L e -> plain_mapping flags = true \/ (mmap_flags flags).2 = false ->
  0 < len <= 2 ^ 63 -> (Z.to_nat (PAGE_ROUND_UP len / PAGE_SIZE) < fuel)%nat ->
  wp resource_failure (extmem_mmap fuel addr len prot flags fd off) s (fun _ s' =>
    glob (envt s') mem_mmaped = PAGE_ROUND_UP len).
Proof.
  intros G [Hpl|Hpop] Hl Hf.
  - eapply wp_extmem_mmap; [apply resource_out|done|exact G|done|done|done|].
    intros s' P' L' e' q G' _ _ _ _ _ _ _ Hm. pose proof (ar_pager _ _ _ _ _ G') as Gp. pager_facts Gp.
    by rewrite (v_env _ _ _ _ V).
  - pose proof G as [Gp _ Hin _ _]. pager_facts Gp. unfold extmem_mmap.
    vstep. vstep. vstep. vstep; [by rewrite bool_decide_eq_false_2 by lia|].
    destruct (mmap_flags flags) as [flags' populate]. simpl in Hpop. subst populate.
    apply wp_bind. eapply wp_sys; [eassumption|]. intros p k1 s1 _ V1. vclear.
    apply wp_bind, wp_die_if; [by right|]. intros _.
    vstep. apply wp_bind. eapply wp_sys; [eassumption|]. intros r k2 s3 _ V3. vclear.
    apply wp_bind, wp_die_if; [by right|]. intros _.
    apply wp_bind, wp_ret. vstep. apply wp_bind. eapply pl_ack_vma; [eassumption|]. intros s5 e5 V5 O5. vclear.
    vstep. vstep.
    match goal with V' : View ?s' _ _ _ |- glob (envt ?s') _ = _ => rewrite (v_env _ _ _ _ V') end.
    simpl. rewrite (ow_glob _ _ O5) by done. simpl. by simp_fupd.
Qed.
End mappings.

(** ** Start-up *)

Section start.
Context {K D : Type} `{KL : KernelLaws K D may_fail, PO : !PolicyOps K, PL : !PolicyLaws K D may_fail}.
Implicit Types (s : state K) (e : env K) (P : gmap loc user_page) (L : fifo_id -> list loc) (C : Z -> D).

(** C32: start-up succeeds or aborts on its buffer: from the start of a
    process, with a usable configuration, [extmem_init] leaves the pager at
    rest over an all-zero memory, initialised, with nothing registered. *)
Theorem init_at_rest c s e :
  boot s e -> good_config c ->
  wp resource_failure (extmem_init c) s (fun _ s' =>
    exists P' L' e', running (fun _ => zero_page) s' P' L' e' /\ flag e' is_init = true /\
      (forall a, registered (kern e') a = false)).
Proof.
  intros Hb Hc. eapply wp_extmem_init; [done|done|done|].
  intros s' P' L' e' G Hic Hse Hr. exists P', L', e'.
  split_and!; [split; [done|exists 0%nat; rewrite Hse; apply Hb|done]|apply G|done].
Qed.

(** C37: start-up never continues without its four files, its swap device,
    userfaultfd or its ring: whatever is missing first, in the order of the
    code, decides the failure, before any page is handed out. *)
Theorem init_refuses c (s : state K) :
  let ret := fst (io_uring_queue_init QD (io_ring (self (envt s))) 0 (kern (envt s))) in
  ~ (cf_logfile c = true /\ cf_traces c = true /\ 0 <= cf_diskfd c /\ cf_uffd c <> -1 /\ cf_uffdio_api c <> -1 /\
     0 <= ret /\ cf_timef c = true /\ cf_statsf c = true) ->
  extmem_init c s = Fault (
    if negb (cf_logfile c) then SysFail "log file open"
    else if negb (cf_traces c) then SysFail "log file open"
    else if negb (bool_decide (0 <= cf_diskfd c)) then AssertFailed "diskfd >= 0"
    else if cf_uffd c =p -1 then SysFail "uffd"
    else if cf_uffdio_api c =p -1 then SysFail "ioctl uffdio_api"
    else if bool_decide (ret < 0) then SysFail "io_uring_queue_init"
    else if negb (cf_timef c) then SysFail "time file fopen"
    else SysFail "stats file fopen").
Proof.
  intros ret Hc. unfold extmem_init, mbind, M_bind.
  destruct (cf_logfile c) eqn:H1; [|done]. destruct (cf_traces c) eqn:H2; [|done]. simpl.
  case_bool_decide as H3; [|done]. simpl. case_bool_decide as H4; [done|]. simpl. case_bool_decide as H5; [done|].
  simpl. unfold uswap_init_iouring, mbind, M_bind, own, sys, get_env, mret, M_ret. simpl.
  unfold ret in *. destruct (io_uring_queue_init _ _ _ _) as [r k']. simpl in *.
  case_bool_decide as H6; [done|]. simpl. destruct (cf_timef c) eqn:H7; [|done]. destruct (cf_statsf c) eqn:H8; [|done].
  destruct Hc. split_and!; (done || lia).
Qed.
End start.

(** ** On the concrete kernel *)

(** [reach p test] runs [p] and hands over the state it ends in. *)
Ltac reach p test :=
  let H := fresh "Ht" in
  destruct (after_running p test) as (q & s & C & P & L & Hs & G & H);
  [by apply safe_filled; lia|vm_compute; reflexivity|]; cbv beta zeta in H;
  repeat match type of H with _ && _ = true => apply andb_prop in H as [H ?] end;
  repeat match goal with
  | H : bool_decide _ = true |- _ => apply bool_decide_eq_true in H
  | H : negb _ = true |- _ => apply negb_true_iff in H
  end;
  exists q, s; split; [exact Hs|].

(** The last of 70 pages written first was evicted by the others. *)
Lemma fault_resolved_witness : exists q s, after (filled 70) = Ok q s /\
  let a := q + 69 * PAGE_SIZE in
  mem (kern (envt s)) a = None /\
  exists C s', uswap_sig_handler SIGBUS (a + 5) s = Ok tt s' /\ mem (kern (envt s')) a = Some (C a).
Proof.
  reach (filled 70) (fun q s => let a := q + 69 * PAGE_SIZE in
    bool_decide (page_of (a + 5) = a) && bool_decide (0 <= a < 2 ^ 63) && registered (kern (envt s)) a &&
    bool_decide (mem (kern (envt s)) a = None) && negb (sequential (envt s) a) &&
    is_ok (uswap_sig_handler SIGBUS (a + 5) s)).
  intros a. fold a in H, H0, H1, H2, H3, Ht. split; [done|]. exists C.
  destruct (wp_ends _ _ _ _ (fault_resolved C s P L (envt s) (a + 5) ltac:(apply G) ltac:(apply G) ltac:(lia) ltac:(by rewrite Ht)) H)
    as ([] & s' & Hs' & P' & L' & e' & G' & _ & Hm).
  exists s'. split; [exact Hs'|]. rewrite Ht in Hm.
  pose proof (ar_pager _ _ _ _ _ (ru_rest _ _ _ _ _ G')) as Gp. pager_facts Gp. rewrite (v_env _ _ _ _ V).
  by apply Hm.
Defined.

Lemma two_faults_suffice_witness : exists q s, after (filled 70) = Ok q s /\
  let a := q + 69 * PAGE_SIZE in
  exists C s', touch (a + 5) s = Ok tt s' /\ mem (kern (envt s')) a = Some (C a).
Proof.
  reach (filled 70) (fun q s => let a := q + 69 * PAGE_SIZE in
    bool_decide (page_of (a + 5) = a) && bool_decide (0 <= a < 2 ^ 63) && registered (kern (envt s)) a &&
    is_ok (touch (a + 5) s)).
  intros a. fold a in H, H0, H1, Ht. exists C.
  destruct (wp_ends _ _ _ _ (two_faults_suffice C s P L (envt s) (a + 5) G ltac:(lia) ltac:(by rewrite Ht)) H)
    as ([] & s' & Hs' & P' & L' & e' & G' & Hm).
  exists s'. split; [exact Hs'|]. rewrite Ht in Hm.
  pose proof (ar_pager _ _ _ _ _ (ru_rest _ _ _ _ _ G')) as Gp. pager_facts Gp. by rewrite (v_env _ _ _ _ V).
Defined.

Lemma first_fault_zeroes_witness : exists q s, after (filled 0) = Ok q s /\
  pages (envt s) !! q = None /\ exists s', handle_first_fault q s = Ok tt s' /\ mem (kern (envt s')) q = Some 0.
Proof.
  reach (filled 0) (fun q s => bool_decide (pages (envt s) !! q = None) && bool_decide (q mod PAGE_SIZE = 0) &&
    registered (kern (envt s)) q && is_ok (handle_first_fault q s)).
  split; [done|].
  destruct (wp_ends _ _ _ _ (first_fault_zeroes C s P L (envt s) q ltac:(apply G) Ht H1 H0) H)
    as ([] & s' & Hs' & P' & L' & e' & x & G' & _ & Hm).
  exists s'. split; [exact Hs'|].
  pose proof (ar_pager _ _ _ _ _ G') as Gp. pager_facts Gp. by rewrite (v_env _ _ _ _ V).
Defined.

(** The six pages written first are on disk; one is read back, which sets
    the ring up. *)
Definition filled_and_read : prog Z Z :=
  Map (2 ^ 31) 3 (Z.lor MAP_PRIVATE MAP_ANONYMOUS) (fun q =>
    fill q 70 (Load (q + 65 * PAGE_SIZE) (fun _ => Ret q))).

Lemma safe_filled_and_read : safe filled_and_read (fun _ => False).
Proof.
  apply safe_map_two_gb; [done..|]. intros q Hq. apply safe_fill; [done|lia|].
  exact (safe_sum q 1 65 0 (fun _ => Ret q) Hq ltac:(lia) (fun _ => I)).
Qed.

Lemma prefetch_preserves_memory_witness : exists q s, after filled_and_read = Ok q s /\
  exists s', core_try_prefetch (q + 65 * PAGE_SIZE) s = Ok 4 s' /\ 0 <= 4 <= CORE_PREFETCH_RATE /\
    pages (envt s') = pages (envt s).
Proof.
  destruct (after_running filled_and_read (fun q s => bool_decide (0 < q + 65 * PAGE_SIZE < 2 ^ 47) &&
    flag (envt s) (uring_read_init (self (envt s))) && match core_try_prefetch (q + 65 * PAGE_SIZE) s with
      Ok n _ => bool_decide (n = 4) | Fault _ => false end)) as (q & s & C & P & L & Hs & G & Ht);
    [apply safe_filled_and_read|vm_compute; reflexivity|].
  apply andb_prop in Ht as [[Hq%bool_decide_eq_true Hu]%andb_prop Hn].
  exists q, s. split; [exact Hs|].
  destruct (wp_ends _ _ _ _ (prefetch_preserves_memory C s P L (envt s) (q + 65 * PAGE_SIZE) ltac:(apply G) Hq Hu))
    as (n & s' & Hs' & Hb & P' & L' & e' & G' & Hp & _).
  { by destruct (core_try_prefetch _ s). }
  rewrite Hs' in Hn. apply bool_decide_eq_true in Hn as ->. exists s'. split; [exact Hs'|]. split; [exact Hb|].
  pose proof (ar_pager _ _ _ _ _ G') as Gp. pager_facts Gp. by rewrite (v_env _ _ _ _ V).
Defined.

Definition populate_flags : Z := Z.lor MAP_POPULATE (Z.lor MAP_SHARED MAP_ANONYMOUS).

Lemma mmap_fresh_zeroes_witness : exists q s, after (filled 0) = Ok q s /\
  exists p s', extmem_mmap 3 0 5000 3 populate_flags (-1) 0 s = Ok p s' /\ 0 < p /\ p mod PAGE_SIZE = 0 /\
    registered (kern (envt s')) (p + 4096) = true.
Proof.
  reach (filled 0) (fun (q : Z) s => is_ok (extmem_mmap 3 0 5000 3 populate_flags (-1) 0 s)).
  destruct (wp_ends _ _ _ _ (mmap_fresh_zeroes 3 C s P L (envt s) 0 5000 3 populate_flags (-1) 0 ltac:(apply G) ltac:(apply G)
    eq_refl ltac:(lia) ltac:(by vm_compute; lia)) Ht) as (p & s' & Hs' & P' & L' & e' & G' & H0 & Ha & _ & _ & _ & Hr).
  exists p, s'. split_and!; [exact Hs'|done|done|].
  pose proof (ar_pager _ _ _ _ _ (ru_rest _ _ _ _ _ G')) as Gp. pager_facts Gp. rewrite (v_env _ _ _ _ V).
  apply Hr. left. change (PAGE_ROUND_UP 5000) with 8192. unfold in_range. lia.
Defined.

Lemma mem_mmaped_last_only_witness : exists q s, after (filled 0) = Ok q s /\
  glob (envt s) mem_mmaped = 2 ^ 31 /\
  exists p s', extmem_mmap 3 0 5000 3 populate_flags (-1) 0 s = Ok p s' /\ glob (envt s') mem_mmaped = 8192.
Proof.
  reach (filled 0) (fun (q : Z) s => bool_decide (glob (envt s) mem_mmaped = 2 ^ 31) &&
    is_ok (extmem_mmap 3 0 5000 3 populate_flags (-1) 0 s)).
  split; [done|].
  destruct (wp_ends _ _ _ _ (mem_mmaped_last_only 3 C s P L (envt s) 0 5000 3 populate_flags (-1) 0 ltac:(apply G)
    (or_introl eq_refl) ltac:(lia) ltac:(by vm_compute; lia)) H) as (p & s' & Hs' & Hm).
  exists p, s'. split; [exact Hs'|exact Hm].
Defined.

Lemma munmap_exact_witness : exists q s, after (filled 3) = Ok q s /\
  exists s', extmem_munmap 2 q 4096 s = Ok 0 s' /\ mapped (kern (envt s')) q = false.
Proof.
  reach (filled 3) (fun q s => bool_decide (q mod PAGE_SIZE = 0) &&
    forallb (fun i => registered (kern (envt s)) (q + Z.of_nat i)) (seq 0 4096) && is_ok (extmem_munmap 2 q 4096 s)).
  assert (forall a, in_range q 4096 a -> registered (kern (envt s)) a = true) as Hr.
  { intros a Ha. unfold in_range in Ha. rewrite forallb_forall in H0.
    specialize (H0 (Z.to_nat (a - q))). rewrite Z2Nat.id in H0 by lia.
    replace (q + (a - q)) with a in H0 by lia. apply H0, in_seq. lia. }
  destruct (wp_ends _ _ _ _ (munmap_exact 2 C s P L (envt s) q 4096 ltac:(apply G) ltac:(apply G) Ht ltac:(done) ltac:(lia)
    ltac:(by vm_compute; lia) Hr) H) as (r & s' & Hs' & -> & P' & L' & e' & G' & Hm & _).
  exists s'. split; [exact Hs'|].
  pose proof (ar_pager _ _ _ _ _ (ru_rest _ _ _ _ _ G')) as Gp. pager_facts Gp. rewrite (v_env _ _ _ _ V).
  apply Hm. unfold in_range. lia.
Defined.

Lemma populate_tracks_all_witness : exists q s, after (filled 0) = Ok q s /\
  exists s', extmem_mmap_populate 2 q 4096 s = Ok tt s' /\ is_Some (pages (envt s') !! q).
Proof.
  reach (filled 0) (fun q s => bool_decide (q mod PAGE_SIZE = 0) && bool_decide (0 < q < 2 ^ 46) &&
    forallb (fun i => registered (kern (envt s)) (q + Z.of_nat i) &&
      bool_decide (pages (envt s) !! (q + Z.of_nat i) = None)) (seq 0 4096) && is_ok (extmem_mmap_populate 2 q 4096 s)).
  assert (forall a, in_range q 4096 a -> registered (kern (envt s)) a = true /\ pages (envt s) !! a = None) as Hr.
  { intros a Ha. unfold in_range in Ha. rewrite forallb_forall in H0.
    specialize (H0 (Z.to_nat (a - q))). rewrite Z2Nat.id in H0 by lia.
    replace (q + (a - q)) with a in H0 by lia.
    destruct (andb_prop _ _ (H0 ltac:(apply in_seq; lia))) as [Hra Hpa%bool_decide_eq_true]. by split. }
  destruct (wp_ends _ _ _ _ (populate_tracks_all 2 C s P L (envt s) q 4096 ltac:(apply G) Ht ltac:(done)
    ltac:(lia) ltac:(lia) ltac:(lia) Hr ltac:(by vm_compute; lia)) H) as ([] & s' & Hs' & P' & L' & e' & G' & Hp).
  exists s'. split; [exact Hs'|].
  pose proof (ar_pager _ _ _ _ _ G') as Gp. pager_facts Gp. rewrite (v_env _ _ _ _ V).
  apply Hp; [unfold in_range; lia|exact Ht].
Defined.

Lemma init_at_rest_witness : exists s', extmem_init (small 64 256) (process ∅ sim_empty) = Ok tt s' /\
  flag (envt s') is_init = true.
Proof.
  assert (is_ok (extmem_init (small 64 256) (process ∅ sim_empty)) = true) as Hok by (vm_compute; reflexivity).
  destruct (wp_ends _ _ _ _ (init_at_rest (small 64 256) (process ∅ sim_empty) _ boot_process good_small) Hok) as ([] & s' & Hs' & P' & L' & e' & G' & Hi & _).
  exists s'. split; [exact Hs'|].
  pose proof (ar_pager _ _ _ _ _ (ru_rest _ _ _ _ _ G')) as Gp. pager_facts Gp. by rewrite (v_env _ _ _ _ V).
Defined.

(** The swap device does not open; the statistics file does not. *)
Lemma init_refuses_witness :
  extmem_init (Config true true true true (-1) 6 0 None None) (process ∅ sim_empty) =
    Fault (AssertFailed "diskfd >= 0") /\
  extmem_init (Config true true true false 5 6 0 None None) (process ∅ sim_empty) =
    Fault (SysFail "stats file fopen").
Proof.
  split; etransitivity.
  - apply (init_refuses (Config true true true true (-1) 6 0 None None)). simpl. lia.
  - vm_compute. reflexivity.
  - apply (init_refuses (Config true true true false 5 6 0 None None)). simpl. intros (_ & _ & _ & _ & _ & _ & _ & ?). discriminate.
  - vm_compute. reflexivity.
Defined.
