(* ===== verification/LruOperations.v ===== *)
(** * The operations of the LRU policy

    What the functions of [policies/disklinux.c] promise on a pager at rest:
    allocation, reclaim, the background threads and start-up, and the
    migration primitives of [core.c] they use, also on a device that fails
    to carry out a write. *)

From S2P Require Import Prelude Kernel SimKernel State Fifo Rules Uring Migrate Invariant Policy DiskLinux.
From S2P Require Import Reclaim Entry Core Tracked Handlers Workers VectorWorker Components FlatMemory Operations.

(** ** Allocation and reclaim *)

Section reclaim.
Context {K D : Type} `{KL : KernelLaws K D may_fail}.
Implicit Types (s : state K) (e : env K) (P : gmap loc user_page) (L : fifo_id -> list loc) (C : Z -> D).

(** C5: the allocator always answers. Thirteen rounds (a priority that
    counts down from twelve) are enough for [fetch_free_asynch]: it returns
    an idle frame that no list and no other page refers to any more, and
    every page keeps its content; or it reports that there is no frame or no
    slot left, which happens only when no frame was free to begin with. *)
Theorem fetch_free_total fuel C s P L e :
  (13 <= fuel)%nat -> at_rest C s P L e ->
  wp (fun f => resource_failure f /\ (L dram_free_list <> [] -> exists what, f = SysFail what))
    (fetch_free_asynch fuel) s (fun r s' =>
    exists d pd P' L' e', r = Some d /\ pager 1 [d] C [] s' P' L' e' /\
      managed P' d pd /\ in_dram pd = true /\ va pd = 0 /\ floating L' d).
Proof.
  intros Hf [G Hs Hi Hfr].
  assert (Tolerates may_fail (fun f => resource_failure f /\
    (L dram_free_list <> [] -> exists what, f = SysFail what))) as HT
    by (intros what _; split; [done|by exists what]).
  eapply wp_fetch_free; [done|exact G|done|unfold CORE_PREFETCH_RATE in Hfr; lia|done| |].
  - intros Hn. repeat split; try done; simpl; auto.
  - intros s' d P' L' e' G' _ (pd & Hm & [Hd Hv _]). exists d, pd, P', L', e'. split_and!; try done.
    apply (pg_float _ _ _ _ _ _ _ _ G' d). left.
Qed.

(** C24: shrinking the active list moves exactly the [nr] oldest active pages
    (all of them if there are fewer) to the front of the inactive list, in
    order, and reports how many; no other list and no content changes. *)
Theorem shrink_active_exact nr C s P L e :
  at_rest C s P L e -> 0 <= nr <= 2 ^ 30 ->
  wp resource_failure (shrink_active_list nr) s (fun n s' =>
    n = Z.min nr (Z.of_nat (length (L active_list))) /\
    exists P' L' e' xs ys, pager 0 [] C [] s' P' L' e' /\
      L active_list = xs ++ ys /\ Z.of_nat (length ys) = n /\
      L' active_list = xs /\ L' inactive_list = ys ++ L inactive_list /\
      (forall l, l <> active_list -> l <> inactive_list -> L' l = L l)).
Proof.
  intros [G Hs Hi Hfr] Hn. eapply wp_shrink_active_list; [exact G|done|done|done|].
  intros s' P' e' xs ys HL Hy G' _. split; [done|]. do 2 eexists. exists e', xs, ys.
  split_and!; [exact G'|done|done| | |].
  - by rewrite fupd_ne, fupd_eq.
  - by rewrite fupd_eq.
  - intros l H1 H2. by rewrite !fupd_ne by congruence.
Qed.

(** C25: direct reclaim only selects victims: whatever the page table says
    about the pages it scans, it comes to an end having moved pages between
    the three LRU lists, none appearing or disappearing, and the eviction
    list has only grown. *)
Theorem direct_reclaim_selects nr priority C s P L e :
  at_rest C s P L e -> 0 <= priority ->
  wp resource_failure (direct_allocate_page_asynch nr priority) s (fun _ s' =>
    exists P' L' e', pager 0 [] C [] s' P' L' e' /\ (forall l, lru l = false -> L' l = L l) /\
      Z.of_nat (length (L eviction_list)) <= Z.of_nat (length (L' eviction_list)) /\
      on_frames L' = on_frames L).
Proof.
  intros [G Hs Hi Hfr] Hp. eapply wp_direct_allocate; [exact G|done|done|done|].
  intros r m s' P' L' e' [G' Hf Ho Hn] Hm. exists P', L', e'. split_and!; [done|done|lia|].
  pager_facts G. pager_facts G'.
  pose proof (i_count _ _ _ _ _ _ _ I) as H1. pose proof (i_count _ _ _ _ _ _ _ I0) as H2.
  unfold frames in *. rewrite (es_glob _ _ (fr_env _ _ _ _ _ Hf)) in H2 by done. lia.
Qed.

(** C7: one turn of the eviction worker exchanges one page for one frame. With
    no page waiting for eviction it does nothing. Otherwise the oldest victim
    goes to the disk, into the slot reserved for it if it has one and into the
    last free slot otherwise, and to the front of the list of swapped-out
    pages; the frame it had becomes the newest free one. Every list and every
    descriptor is as before but for this exchange, the table of tracked pages
    and the registered ranges are unchanged, every page keeps its content, and
    the turn fails only if there is no disk slot left. *)
Theorem eviction_worker_exchanges C s P L e :
  let e1 := set_flag (internal_call (self e)) true e in
  at_rest C s P L e ->
  wp (fun f => (exists what, f = SysFail what) \/ L disk_free_list = [] /\ f = AssertFailed "no disk page found")
    lrudisk_evictionworker s (fun n s' =>
    exists P' L' e', pager 0 [] C [] s' P' L' e' /\
      env_step e1 e' /\ pages e' = pages e /\ same_reg (kern e) (kern e') /\
      (if decide (L eviction_list = []) then n = 0 /\ P' = P /\ L' = L /\ e' = e1
       else n = 1 /\ exists xs x d, L eviction_list = xs ++ [x] /\ turned_over P L P' L' xs x d)).
Proof.
  intros e1 [G Hs Hi Hfr].
  assert (Tolerates may_fail (fun f => (exists what, f = SysFail what) \/
    L disk_free_list = [] /\ f = AssertFailed "no disk page found")) as HT by (intros what _; left; by exists what).
  eapply wp_lrudisk_evictionworker; [exact G| | |].
  - intros Hn. by right.
  - intros Hn s' G'. exists P, L, e1. by rewrite decide_True by done.
  - intros xs x d s' P' L' e' HL G' T S Hr. exists P', L', e'.
    rewrite decide_False by (rewrite HL; by destruct xs). split_and!; try done; [by apply S|].
    by exists xs, x, d.
Qed.

(** C8: one turn of the batched eviction worker exchanges up to eight pages
    for as many frames. The oldest victims, eight of them or all there are,
    leave the eviction list; the dirty ones are written together, all are
    unmapped, and then the newest of them ends up at the front of the list
    of swapped-out pages and their frames on the list of free ones, while
    every page keeps its content. It fails only if there are fewer than eight
    free disk slots, or when it submits a batch before the ring was ever set
    up, which takes a batch without a single page to write. *)
Theorem vector_worker_exchanges C s P L e :
  at_rest C s P L e ->
  wp (fun f => (exists what, f = SysFail what) \/
        (length (L disk_free_list) < Z.to_nat EVICT_VECTOR_SIZE)%nat /\ f = AssertFailed "no disk page found" \/
        flag e (uring_init (self e)) = false /\ f = BadRing)
    lrudisk_evictionworker_vector s (fun n s' =>
    exists P' L' e' xs ys ds, pager 0 [] C [] s' P' L' e' /\
      n = Z.min EVICT_VECTOR_SIZE (Z.of_nat (length (L eviction_list))) /\
      L eviction_list = xs ++ reverse ys /\ L' eviction_list = xs /\
      Z.of_nat (length ys) = n /\ length ds = length ys /\
      L' disk_active_list = reverse ys ++ L disk_active_list /\
      L' dram_free_list = reverse ds ++ L dram_free_list /\
      (forall l, lru l = true -> l <> eviction_list -> L' l = L l)).
Proof.
  intros [G Hs Hi Hfr]. set (E := fun f => _ \/ _).
  assert (Tolerates may_fail E) as HT by (intros what _; left; by exists what).
  eapply wp_evictionworker_vector_of; [exact lru_prepares|exact G| | |].
  - intros Hn. right. by left.
  - intros Hn. right. by right.
  - intros xs ys ds s' P' L' e' HL Hlen G' [H1 H2 H3 H4 H5] _ _. exists P', L', e', xs, ys, ds.
    split_and!; try done.
    + rewrite HL, length_app, length_reverse. destruct Hlen as [Hlen|[-> Hlen]]; simpl; lia.
    + intros l Hl Hne. apply H5; by destruct l.
Qed.

(** C28: kswapd goes to sleep exactly when the LRU lists hold no more pages
    than the low-water mark, computed in 64 bits from the size of DRAM. *)
Theorem kswapd_sleeps_below_low_water C s P L e :
  at_rest C s P L e ->
  wp resource_failure kswapd_check s (fun b s' =>
    b = bool_decide (Z.of_nat (length (L active_list)) + Z.of_nat (length (L inactive_list)) <=
          u64 (LOW_WATER_THREASHOLD * glob e dramsize) / (PAGE_SIZE * 100)) /\
    exists e', at_rest C s' P L e' /\ kern e' = kern e /\
      flag e' kswapd_waiting = b || flag e kswapd_waiting).
Proof.
  intros G. eapply wp_kswapd_check_at; [done|exact G|]. intros s' e' b G' _ Hk Hb Hw. split; [done|]. by exists e'.
Qed.

(** C38: a round of kswapd only selects victims, and only above the low-water
    mark. It comes to an end, every page keeps its content, no list changes
    but the active, the inactive and the eviction list, which together hold as
    many pages as before, and the eviction list has not shrunk; at or below
    the mark it changes no list and no descriptor at all. Afterwards it no
    longer counts as running. *)
Theorem kswapd_only_reorders C s P L e :
  at_rest C s P L e ->
  wp resource_failure kswapd_work s (fun n s' =>
    exists P' L' e', at_rest C s' P' L' e' /\ (forall l, lru l = false -> L' l = L l) /\
      on_frames L' = on_frames L /\ (length (L eviction_list) <= length (L' eviction_list))%nat /\
      flag e' kswapd_running = false /\
      (Z.of_nat (length (L active_list)) + Z.of_nat (length (L inactive_list)) <=
         u64 (LOW_WATER_THREASHOLD * glob e dramsize) / (PAGE_SIZE * 100) -> n = 0 /\ P' = P /\ L' = L)).
Proof.
  intros G. eapply wp_kswapd_work_at; [done|exact wp_direct_allocate|exact G|].
  intros n s' P' L' e' G' _ _ [Ho Hv Hfr Hru Hid].
  exists P', L', e'. split_and!; [done|done| |done|done|exact Hid].
  pose proof (i_count _ _ _ _ _ _ _ (pg_inv _ _ _ _ _ _ _ _ (ar_pager _ _ _ _ _ G))).
  pose proof (i_count _ _ _ _ _ _ _ (pg_inv _ _ _ _ _ _ _ _ (ar_pager _ _ _ _ _ G'))). lia.
Qed.
End reclaim.

(** ** Start-up *)

Section start.
Context {K D : Type} `{KL : KernelLaws K D may_fail}.
Implicit Types (s : state K) (e : env K) (P : gmap loc user_page) (L : fifo_id -> list loc) (C : Z -> D).

(** C23: [lrudisk_init] carves the two devices up completely: one descriptor
    per whole page of DRAM and per whole page of disk, the i-th at offset i
    pages of its device, to be handed out in that order; no other list has
    an element. It fails only if the system cannot create a thread, and
    nothing but the descriptors, the lists and the threads is new. *)
Theorem init_carves_devices s e :
  View s ∅ (fun _ => []) e -> held e = [] ->
  0 <= glob e dramsize <= 2 ^ 42 -> 0 <= glob e disksize <= 2 ^ 42 ->
  wp (fun f => may_fail /\ exists what, f = SysFail what) lrudisk_init s (fun _ s' => exists P L xs ys k',
    View s' P L (set_kern k' e) /\ obs_eq (kern e) k' /\
    Z.of_nat (length xs) = glob e dramsize / PAGE_SIZE /\
    Z.of_nat (length ys) = glob e disksize / PAGE_SIZE /\
    L dram_free_list = reverse xs /\ L disk_free_list = reverse ys /\
    (forall l, l <> dram_free_list -> l <> disk_free_list -> L l = []) /\
    (forall i x, xs !! i = Some x -> exists pg, P !! x = Some pg /\
       in_dram pg = true /\ virtual_offset pg = Z.of_nat i * PAGE_SIZE /\ va pg = 0 /\ has_reserve pg = false) /\
    (forall i x, ys !! i = Some x -> exists pg, P !! x = Some pg /\
       in_dram pg = false /\ virtual_offset pg = Z.of_nat i * PAGE_SIZE /\ va pg = 0 /\ has_reserve pg = false)).
Proof.
  intros V Hh Hdr Hdk. pose proof (pages_of_device _ Hdr). pose proof (pages_of_device _ Hdk).
  assert (Tolerates may_fail (fun f => may_fail /\ exists what, f = SysFail what)) as HT
    by (intros what Hf; split; [done|by exists what]).
  apply wp_bind. eapply wp_carve; [done..|]. intros s1 P L xs ys [V1 H1 H2 H3 H4 H5 _ _] Hx Hy. unfold frames in Hx.
  eapply wp_lrudisk_threads; [exact V1|]. intros s' k' V' O.
  exists P, L, xs, ys, k'. split_and!; [done|done|lia|lia|done|done|done| |].
  - intros i x Hi. eexists. split; [by apply (H4 i)|done].
  - intros i x Hi. eexists. split; [by apply (H5 i)|done].
Qed.
End start.

(** ** Migration *)

Section migration.
Context {K D : Type} `{KL : KernelLaws K D may_fail}.
Implicit Types (s : state K) (e : env K) (P : gmap loc user_page) (L : fifo_id -> list loc).

(** C12: migrating a page down and up again restores it. After
    [extmem_migrate_downdisk] with write-back to the slot [off] and the two
    halves of [core_migrate_up_async] into the frame [frame], the page at the
    address has the content it had, the slot keeps a copy of it, no other
    slot changed, and the descriptor records the new frame. *)
Theorem migrate_down_up x pg off frame need_wp d s P L e :
  View s P L e -> rings_ok [] e -> buffer_ok e -> handler_lock ∉ held e ->
  P !! x = Some pg -> pt pg = BASEP -> in_dram pg = true -> swapped_out pg = false ->
  fits (virtual_offset pg) (glob e dramsize) -> fits frame (glob e dramsize) -> fits off (glob e disksize) ->
  registered (kern e) (va pg) = true -> va pg mod PAGE_SIZE = 0 -> mem (kern e) (va pg) = Some d ->
  wp resource_failure
    (extmem_migrate_downdisk (Some x) off need_wp true;;
     core_migrate_up_async_start (Some x);; core_migrate_up_async_finish (Some x) frame) s
    (fun _ s' => exists e', View s' (<[x := moved_up frame (moved_down off pg)]> P) L e' /\
       rings_ok [] e' /\ mem (kern e') (va pg) = Some d /\ disk (kern e') off = d /\
       (forall o, o <> off -> disk (kern e') o = disk (kern e) o)).
Proof.
  intros V R Hb Hh Hx Ht Hd Hso Hf1 Hf2 Hf3 Hr Ha Hm. apply wp_bind.
  eapply wp_extmem_migrate_downdisk; [done..|by constructor|].
  intros s1 e1 V1 S1 R1 Hm1 Hmo1 Hd1 Hdo1 Hg1. specialize (Hd1 kl_device).
  unfold content in Hd1. rewrite Hm in Hd1. simpl in Hd1.
  assert (buffer_ok e1) as Hb1.
  { intros t Hal. rewrite (es_flag _ _ S1) in Hal by done. rewrite (es_glob _ _ S1) by done.
    rewrite (sg_mapped _ _ Hg1), (sg_registered _ _ Hg1). by apply Hb. }
  apply wp_bind. eapply wp_core_migrate_up_async_start; [done|done|done|by right|by rewrite lookup_insert_eq|done|done| |].
  { simpl. by rewrite (es_glob _ _ S1). }
  intros s2 e2 e3 V3 B S3 buf R3 Hm3 Hmo3 Hd3 Hg3. specialize (Hm3 kl_device). simpl in Hm3, R3.
  assert (registered (kern e3) (va pg) = true) as Hr3
    by by rewrite (sg_registered _ _ Hg3), (bs_registered _ _ B), (sg_registered _ _ Hg1).
  assert (va pg <> buf) as Hne.
  { intros Heq. destruct (bs_ok _ _ B _ (bs_allocated _ _ B)) as [_ Hu].
    rewrite (sg_registered _ _ Hg3), Heq in Hr3. unfold buf in Hr3.
    rewrite (es_self _ _ S3), (es_glob _ _ S3) in Hr3 by done. congruence. }
  assert (forall y, y = dramsize \/ y = disksize -> glob e3 y = glob e y) as Hgl.
  { intros y Hy. rewrite (es_glob _ _ S3), (bs_glob _ _ B), (es_glob _ _ S1) by (by destruct Hy as [->| ->]). done. }
  eapply wp_core_migrate_up_async_finish; [exact V3|exact R3| |by rewrite lookup_insert_eq|done|done|done| | |exact Hr3| |exact Hm3|].
  - rewrite (es_self _ _ S3), (es_flag _ _ S3) by done. apply (bs_allocated _ _ B).
  - simpl. rewrite Hgl by (by right). done.
  - rewrite Hgl by (by left). done.
  - simpl. rewrite (sm_mem _ _ _ Hmo3) by done. done.
  - intros s4 e4 V4 S4 R4 _ Hm4 Hmo4 Hd4 Hg4. rewrite insert_insert_eq in V4.
    exists e4. simpl in *. rewrite Hd1 in Hm4. split_and!; [done|done|done| |].
    + by rewrite Hd4, Hd3.
    + intros o Ho. by rewrite Hd4, Hd3, Hdo1.
Qed.
End migration.

(** On a device that need not complete its requests. *)
Section failing_device.
Context {K D : Type} `{SL : SystemLaws K D may_fail}.
Implicit Types (s : state K) (e : env K) (P : gmap loc user_page) (L : fifo_id -> list loc).

End failing_device.

(** ** On the concrete kernel *)

Lemma env_of C s P L (e : env sim) : at_rest C s P L e -> envt s = e.
Proof. intros G. apply (v_env _ _ _ _ (pg_view _ _ _ _ _ _ _ _ (ar_pager _ _ _ _ _ G))). Qed.

Lemma length_of k F C infl s P L (e : env sim) l :
  pager k F C infl s P L e -> numentries (lists s l) = Z.of_nat (length (L l)).
Proof. intros G. apply (h_num _ _ _ _ (v_header _ _ _ _ (pg_view _ _ _ _ _ _ _ _ G) l)). Qed.

(** No frame is free after 70 of the 64 were asked for: a page is evicted. *)
Lemma fetch_free_total_witness : exists q s, after (filled 70) = Ok q s /\
  numentries (lists s dram_free_list) = 0 /\
  exists d s', fetch_free_asynch 13 s = Ok (Some d) s' /\ numentries (lists s' eviction_list) = 25.
Proof.
  reach (filled 70) (fun (q : Z) (s : state sim) => bool_decide (numentries (lists s dram_free_list) = 0) &&
    match fetch_free_asynch 13 s with
    | Ok (Some _) s' => bool_decide (numentries (lists s' eviction_list) = 25) | _ => false end).
  split; [exact Ht|].
  destruct (wp_ends _ _ _ _ (fetch_free_total 13 C s P L (envt s) ltac:(lia) ltac:(apply G)))
    as (r & s' & Hs' & d & pd & P' & L' & e' & -> & _).
  { by destruct (fetch_free_asynch 13 s). }
  exists d, s'. rewrite Hs' in H. apply bool_decide_eq_true in H. split; [exact Hs'|exact H].
Defined.

(** The oldest inactive page made active. *)
Definition promote : M (state sim) unit := x ← dequeue_fifo inactive_list; enqueue_fifo active_list x.

Lemma promote_at_rest C s P L (e : env sim) : at_rest C s P L e -> L inactive_list <> [] ->
  wp none promote s (fun _ s' => exists L', at_rest C s' P L' e).
Proof.
  intros R0 Hne. pose proof R0 as [G _ _ _ _]. pager_facts G. assert (held e = []) as Hh by apply I.
  apply wp_bind. eapply wp_dequeue_fifo; [exact V|rewrite Hh; not_in|done|].
  intros xs x s1 HL V1. rewrite <- (app_nil_r xs) in V1.
  destruct (pager_take _ _ _ _ _ s1 _ _ _ inactive_list xs x [] G HL) as [G1 (px & Hm & R)]; [done..|].
  eapply wp_enqueue_fifo; [exact V1|by destruct Hm; eexists| |rewrite Hh; not_in|].
  { apply (pg_float _ _ _ _ _ _ _ _ G1). left. }
  intros s2 V2. eexists. eapply at_rest_step; [exact R0| |done].
  replace 0 with (0 + framed inactive_list - framed active_list) by done.
  eapply pager_put; [exact G1|exact Hm| |constructor|exact V2].
  eapply resident_lists; [|exact R]. by rewrite fupd_ne, fupd_ne.
Qed.

Lemma shrink_active_exact_witness : exists q s, after (filled 70) = Ok q s /\ exists s1 s2,
  promote s = Ok tt s1 /\ shrink_active_list 5 s1 = Ok 1 s2 /\ numentries (lists s2 active_list) = 0.
Proof.
  reach (filled 70) (fun (q : Z) (s : state sim) => bool_decide (numentries (lists s inactive_list) = 38) &&
    bool_decide (numentries (lists s active_list) = 0) &&
    match promote s with
    | Ok _ s1 => bool_decide (numentries (lists s1 active_list) = 1) &&
        match shrink_active_list 5 s1 with Ok _ _ => true | _ => false end
    | _ => false end).
  pose proof (length_of _ _ _ _ _ _ _ _ inactive_list (ar_pager _ _ _ _ _ (ru_rest _ _ _ _ _ G))) as Hn.
  destruct (wp_ends _ _ _ _ (promote_at_rest C s P L (envt s) ltac:(apply G) ltac:(intros He; rewrite He, Ht in Hn; done)))
    as ([] & s1 & Hs1 & L1 & G1).
  { by destruct (promote s). }
  rewrite Hs1 in H. apply andb_prop in H as [H1%bool_decide_eq_true H2].
  rewrite (length_of _ _ _ _ _ _ _ _ active_list (ar_pager _ _ _ _ _ G1)) in H1.
  destruct (wp_ends _ _ _ _ (shrink_active_exact 5 C s1 P L1 (envt s) G1 ltac:(lia)) H2)
    as (n & s2 & Hs2 & Hn2 & P' & L' & e' & xs & ys & G2 & HL & Hy & Hxs & _).
  exists s1, s2. split; [exact Hs1|]. rewrite H1 in Hn2. change (Z.min 5 1) with 1 in Hn2. subst n.
  split; [exact Hs2|]. rewrite (length_of _ _ _ _ _ _ _ _ active_list G2), Hxs.
  rewrite HL, length_app in H1. lia.
Defined.

Lemma direct_reclaim_selects_witness : exists q s, after (filled 70) = Ok q s /\ exists n s',
  direct_allocate_page_asynch 32 0 s = Ok n s' /\
  numentries (lists s eviction_list) <= numentries (lists s' eviction_list) /\
  numentries (lists s' dram_free_list) = numentries (lists s dram_free_list).
Proof.
  reach (filled 70) (fun (q : Z) (s : state sim) => is_ok (direct_allocate_page_asynch 32 0 s)).
  pose proof (ar_pager _ _ _ _ _ (ru_rest _ _ _ _ _ G)) as Gp.
  destruct (wp_ends _ _ _ _ (direct_reclaim_selects 32 0 C s P L (envt s) ltac:(apply G) ltac:(lia)) Ht)
    as (n & s' & Hs' & P' & L' & e' & G' & Ho & He & _).
  exists n, s'. split; [exact Hs'|]. rewrite !(length_of _ _ _ _ _ _ _ _ _ Gp), !(length_of _ _ _ _ _ _ _ _ _ G').
  split; [exact He|]. by rewrite Ho.
Defined.

Lemma eviction_worker_exchanges_witness : exists q s, after (filled 70) = Ok q s /\ exists s',
  numentries (lists s dram_free_list) = 0 /\ lrudisk_evictionworker s = Ok 1 s' /\
  numentries (lists s' dram_free_list) = 1.
Proof.
  reach (filled 70) (fun (q : Z) (s : state sim) => bool_decide (numentries (lists s dram_free_list) = 0) &&
    bool_decide (numentries (lists s eviction_list) = 26) && is_ok (lrudisk_evictionworker s)).
  pose proof (ar_pager _ _ _ _ _ (ru_rest _ _ _ _ _ G)) as Gp.
  destruct (wp_ends _ _ _ _ (eviction_worker_exchanges C s P L (envt s) ltac:(apply G)) H)
    as (n & s' & Hs' & P' & L' & e' & G' & _ & _ & _ & Hn).
  rewrite (length_of _ _ _ _ _ _ _ _ _ Gp) in H0.
  rewrite decide_False in Hn by (intros He; rewrite He in H0; done).
  destruct Hn as (-> & xs & x & d & _ & [Hd _ _ _ _ _]).
  exists s'. split; [exact Ht|]. split; [exact Hs'|].
  rewrite (length_of _ _ _ _ _ _ _ _ _ Gp) in Ht.
  rewrite (length_of _ _ _ _ _ _ _ _ _ G'), Hd. simpl. lia.
Defined.

Lemma vector_worker_exchanges_witness : exists q s, after (filled 70) = Ok q s /\ exists s',
  numentries (lists s eviction_list) = 26 /\ lrudisk_evictionworker_vector s = Ok 8 s' /\
  numentries (lists s' eviction_list) = 18 /\ numentries (lists s' dram_free_list) = 8.
Proof.
  reach (filled 70) (fun (q : Z) (s : state sim) => bool_decide (numentries (lists s dram_free_list) = 0) &&
    bool_decide (numentries (lists s eviction_list) = 26) && is_ok (lrudisk_evictionworker_vector s)).
  pose proof (ar_pager _ _ _ _ _ (ru_rest _ _ _ _ _ G)) as Gp.
  destruct (wp_ends _ _ _ _ (vector_worker_exchanges C s P L (envt s) ltac:(apply G)) H)
    as (n & s' & Hs' & P' & L' & e' & xs & ys & ds & G' & Hn & HL & Hv & Hy & Hd & _ & Hf & _).
  exists s'. pose proof H0 as He. rewrite (length_of _ _ _ _ _ _ _ _ _ Gp) in H0.
  rewrite (length_of _ _ _ _ _ _ _ _ _ Gp) in Ht.
  rewrite H0 in Hn. change (Z.min EVICT_VECTOR_SIZE 26) with 8 in Hn. subst n.
  split; [exact He|]. split; [exact Hs'|].
  rewrite HL, length_app, length_reverse in H0.
  rewrite !(length_of _ _ _ _ _ _ _ _ _ G'), Hf, Hv, length_app, length_reverse. lia.
Defined.

Lemma kswapd_sleeps_below_low_water_witness : exists q s, after (filled 10) = Ok q s /\ exists s',
  kswapd_check s = Ok true s' /\ flag (envt s') kswapd_waiting = true.
Proof.
  reach (filled 10) (fun (q : Z) (s : state sim) => match kswapd_check s with Ok b _ => b | Fault _ => false end).
  destruct (wp_ends _ _ _ _ (kswapd_sleeps_below_low_water C s P L (envt s) ltac:(apply G)))
    as (b & s' & Hs' & _ & e' & G' & _ & Hw).
  { by destruct (kswapd_check s). }
  rewrite Hs' in Ht. subst b. exists s'. split; [exact Hs'|]. by rewrite (env_of _ _ _ _ _ G').
Defined.

Lemma kswapd_only_reorders_witness : exists q s, after (filled 64) = Ok q s /\ exists n s',
  kswapd_work s = Ok n s' /\ numentries (lists s' dram_free_list) = numentries (lists s dram_free_list).
Proof.
  reach (filled 64) (fun (q : Z) (s : state sim) => is_ok (kswapd_work s)).
  pose proof (ar_pager _ _ _ _ _ (ru_rest _ _ _ _ _ G)) as Gp.
  destruct (wp_ends _ _ _ _ (kswapd_only_reorders C s P L (envt s) ltac:(apply G)) Ht)
    as (n & s' & Hs' & P' & L' & e' & G' & Ho & _).
  exists n, s'. split; [exact Hs'|].
  rewrite (length_of _ _ _ _ _ _ _ _ _ Gp), (length_of _ _ _ _ _ _ _ _ _ (ar_pager _ _ _ _ _ G')). by rewrite Ho.
Defined.

(** Sixteen pages of DRAM, thirty-two of disk. *)
Definition two_devices : env sim :=
  set_glob disksize (32 * PAGE_SIZE) (set_glob dramsize (16 * PAGE_SIZE) (process_env sim_empty)).

Lemma init_carves_devices_witness : exists s',
  lrudisk_init (State ∅ (fun _ => FifoList None None 0) two_devices) = Ok tt s' /\
  numentries (lists s' dram_free_list) = 16 /\ numentries (lists s' disk_free_list) = 32.
Proof.
  assert (View (State ∅ (fun _ => FifoList None None 0) two_devices) ∅ (fun _ => []) two_devices) as V0.
  { assert (View (process ∅ sim_empty) ∅ (fun _ => []) (process_env sim_empty)) as V
      by apply (bt_view _ _ boot_process). by destruct V. }
  destruct (wp_ends _ _ _ _ (init_carves_devices _ two_devices V0 eq_refl
    ltac:(by vm_compute) ltac:(by vm_compute)) ltac:(by vm_compute))
    as ([] & s' & Hs' & P & L & xs & ys & k' & V & _ & Hx & Hy & H1 & H2 & _).
  exists s'. split; [exact Hs'|].
  rewrite !(h_num _ _ _ _ (v_header _ _ _ _ V _)), H1, H2, !length_reverse, Hx, Hy.
  split; vm_compute; reflexivity.
Defined.


(** The page at [q], which holds 1, to the first disk slot and back. *)
Lemma migrate_down_up_witness : exists q s, after (filled 3) = Ok q s /\ (exists x s',
  pages (envt s) !! q = Some x /\
  (extmem_migrate_downdisk (Some x) 0 false true;;
   core_migrate_up_async_start (Some x);; core_migrate_up_async_finish (Some x) 0) s = Ok tt s' /\
  mem (kern (envt s')) q = Some 1 /\ disk (kern (envt s')) 0 = 1).
Proof.
  reach (filled 3) (fun (q : Z) (s : state sim) => match pages (envt s) !! q with
    | Some x => bool_decide (q <> 0) && bool_decide (mem (kern (envt s)) q = Some 1) &&
        bool_decide (glob (envt s) dramsize = 64 * PAGE_SIZE) && bool_decide (glob (envt s) disksize = 256 * PAGE_SIZE) &&
        is_ok ((extmem_migrate_downdisk (Some x) 0 false true;;
          core_migrate_up_async_start (Some x);; core_migrate_up_async_finish (Some x) 0) s)
    | None => false end).
  destruct (pages (envt s) !! q) as [x|] eqn:Ht'; [|done].
  apply andb_prop in Ht as [[[[H0%bool_decide_eq_true Hm%bool_decide_eq_true]%andb_prop Hdr%bool_decide_eq_true]%andb_prop
    Hdk%bool_decide_eq_true]%andb_prop Hok].
  pose proof (ar_pager _ _ _ _ _ (ru_rest _ _ _ _ _ G)) as Gp. pager_facts Gp.
  destruct (tracked_cases _ _ _ _ _ _ _ Gp Ht' H0) as (px & l & [Hx Hpt] & Hv & Hl & Hrole).
  destruct Hrole as [[_ R]|[_ Hsw]]; [|pose proof (sw_mem _ _ _ _ Hsw); congruence].
  assert (fits 0 (64 * PAGE_SIZE) /\ fits 0 (256 * PAGE_SIZE)) as [F1 F2]
    by (unfold fits, PAGE_SIZE, BASEPAGE_SIZE; lia).
  destruct R as [Hd [Htb Hn0 Hal Hrg] Hmem _ _ Hso]. subst q.
  pose proof (so_fits _ _ (i_slots _ _ _ _ _ _ _ I) x px ltac:(by split)) as Hf. unfold limit in Hf. rewrite Hd in Hf.
  assert (handler_lock ∉ held (envt s)) as Hh by (rewrite (i_held _ _ _ _ _ _ _ I); apply not_elem_of_nil).
  rewrite <- Hdr in F1. rewrite <- Hdk in F2.
  pose proof (migrate_down_up (may_fail := False) x px 0 0 false 1 s P L (envt s) V (i_rings _ _ _ _ _ _ _ I)
    (co_buffer _ (i_conf _ _ _ _ _ _ _ I)) Hh Hx Hpt Hd Hso Hf F1 F2 Hrg Hal Hm) as H.
  destruct (wp_ends _ _ _ _ H Hok) as ([] & s' & Hs' & e' & V' & _ & Hm' & Hd' & _).
  exists x, s'. rewrite (v_env _ _ _ _ V'). split; [reflexivity|]. split; [exact Hs'|]. by split.
Defined.
