(* ===== verification/PageRankOperations.v ===== *)
(** * The operations of the PageRank policy

    What [policies/pageRank.c] promises: the same flat memory as the default
    policy, the choice of victims by distance, the draining of the eviction
    list, the prefetching thread, and how far its functions are those of [policies/disklinux.c]. *)

From S2P Require Import Prelude Kernel SimKernel State Fifo Rules Uring Migrate Invariant Policy DiskLinux.
From S2P Require Import Reclaim Entry Core Tracked Prefetch Handlers Workers VectorWorker PageRank PageRankPager.
From S2P Require Import Unmap Components FlatMemory Operations LruOperations.

(** ** Choosing victims *)

Section choice.
Context {K D : Type} `{KL : KernelLaws K D may_fail}.
Implicit Types (s : state K) (e : env K) (P : gmap loc user_page) (L : fifo_id -> list loc) (C : Z -> D).

(** C17: victims are chosen outside the window. Once a page was swapped in,
    direct reclaim puts no page on the eviction list that lies less than 512
    MB before or less than 130 MB after the last one swapped in. It comes to
    an end, changes no content, and moves pages between the LRU lists only;
    what is on the active list stays there, so that pages promoted to it are
    never evicted again. *)
Theorem reclaim_outside_window nr priority C s P L e :
  at_rest C s P L e -> 0 <= priority ->
  wp resource_failure (PageRank.direct_allocate_page_asynch nr priority) s (fun _ s' =>
    exists P' L' e', pager 0 [] C [] s' P' L' e' /\ (forall l, lru l = false -> L' l = L l) /\
      on_frames L' = on_frames L /\ (forall y, y ∈ L active_list -> y ∈ L' active_list) /\
      (glob e safe_to_free <> 0 -> forall y py, y ∈ L' eviction_list -> y ∉ L eviction_list ->
         P !! y = Some py -> in_window (glob e safe_to_free) (va py) = false)).
Proof.
  intros R0 Hp. pose proof R0 as [G Hs _ _ _]. eapply wp_direct_allocate_selects; [exact G|done|done|done|].
  intros r m s' P' L' e' [G' Hf Ho Hn] Hm [Sp Sv Sa Sn]. exists P', L', e'.
  split_and!; [done|done| |done|done]. pager_facts G. pager_facts G'.
  pose proof (i_count _ _ _ _ _ _ _ I) as H1. pose proof (i_count _ _ _ _ _ _ _ I0) as H2.
  unfold frames in *. rewrite (es_glob _ _ (fr_env _ _ _ _ _ Hf)) in H2 by done. lia.
Qed.

(** The window in addresses. *)
Lemma in_window_spec pos v : 0 <= pos < 2 ^ 64 -> 0 <= v < 2 ^ 64 ->
  in_window pos v = true <-> v <> pos /\ pos - 512 * 2 ^ 20 < v < pos + 130 * 2 ^ 20.
Proof.
  intros Hp Hv. unfold in_window. change (u64 (PR_WINDOW_SIZE + 512 * 4096)) with (130 * 2 ^ 20).
  destruct (decide (v < pos)).
  - rewrite (bool_decide_eq_true_2 (v < pos)), (bool_decide_eq_false_2 (pos < v)) by lia.
    rewrite u64_small by lia. simpl. rewrite orb_false_r, bool_decide_eq_true. lia.
  - rewrite (bool_decide_eq_false_2 (v < pos)) by lia. simpl. destruct (decide (pos < v)).
    + rewrite (bool_decide_eq_true_2 (pos < v)), u64_small by lia. simpl. rewrite bool_decide_eq_true. lia.
    + rewrite (bool_decide_eq_false_2 (pos < v)) by lia. simpl. split; [done|lia].
Qed.
End choice.

(** ** The eviction workers *)

Section workers.
Context {K D : Type} `{KL : KernelLaws K D may_fail}.
Implicit Types (s : state K) (e : env K) (P : gmap loc user_page) (L : fifo_id -> list loc) (C : Z -> D).

(** [n] iterations of the worker's loop. *)
Fixpoint worker_turns (n : nat) : M (state K) unit :=
  match n with O => mret tt | S n => PageRank.lrudisk_evictionworker;; worker_turns n end.

Lemma turn_at_rest {E : fault -> Prop} `{!Tolerates may_fail E} C s P L e xs x (Q : Z -> state K -> Prop) :
  at_rest C s P L e -> L disk_free_list <> [] -> L eviction_list = xs ++ [x] ->
  (forall d s' P' L' e', at_rest C s' P' L' e' -> turned_over P L P' L' xs x d -> Q 1 s') ->
  wp E PageRank.lrudisk_evictionworker s Q.
Proof.
  intros R Hd HL HQ. eapply pr_wp_lrudisk_evictionworker; [apply R|done| |].
  - intros Hn. rewrite HL in Hn. by destruct xs.
  - intros xs' x' d s' P' L' e' HL' G' T S _. rewrite HL in HL'. apply app_inj_tail in HL' as [<- <-].
    eapply HQ; [|exact T]. eapply at_rest_step; [exact R|done|]. etrans; [|by apply call_env]. call_done.
Qed.

End workers.

(** ** The two policies compared *)

Section same.
Context {K D : Type} `{KL : KernelLaws K D may_fail}.
Implicit Types (s : state K) (e : env K) (P : gmap loc user_page) (L : fifo_id -> list loc) (C : Z -> D).

(** C27: at rest the two eviction workers are the same function: the
    assertion [victim->va != 0] that [pageRank.c] adds to a turn never fails,
    for no page without an address is queued for eviction. *)
Theorem same_eviction_worker C s P L e :
  at_rest C s P L e -> PageRank.lrudisk_evictionworker s = DiskLinux.lrudisk_evictionworker s.
Proof.
  intros [G _ _ _ _]. pager_facts G. assert (held e = []) as Hh by apply I.
  apply (bind_agree none). eapply wp_wrb; [exact V|]. intros s1 V1.
  apply (bind_agree none). eapply wp_dequeue_fifo; [exact V1|simpl; rewrite Hh; not_in|done|].
  intros xs x s2 HL V2.
  destruct (pager_role _ _ _ _ _ _ _ _ eviction_list x G) as (px & [Hx _] & R).
  { rewrite HL. apply elem_of_app. right. left. }
  apply bind_is. eapply wp_ld; [apply _|exact V2|exact Hx|]. by rewrite bool_decide_eq_false_2 by apply R.
Qed.

Lemma same_shrink nr s P L e :
  View s P L e -> glob e safe_to_free = 0 -> PageRank.shrink_inactive_list nr s = DiskLinux.shrink_inactive_list nr s.
Proof.
  intros V H0. unfold PageRank.shrink_inactive_list, DiskLinux.shrink_inactive_list.
  apply (bind_agree none). eapply wp_ldl_view; [exact V|]. intros _.
  apply (bind_agree none). eapply wp_wrb; [exact V|]. intros s1 V1.
  apply bind_is. eapply wp_rd; [exact V1|]. simpl. by rewrite H0.
Qed.

(** C26: until the first page is swapped in, direct reclaim is the default
    policy's, as long as its scan would not have got to the active list:
    same victims, same result, same state. *)
Theorem same_reclaim nr priority C s P L e :
  at_rest C s P L e -> 0 <= priority -> glob e safe_to_free = 0 ->
  Z.of_nat (length (L active_list)) < 2 ^ priority ->
  PageRank.direct_allocate_page_asynch nr priority s = DiskLinux.direct_allocate_page_asynch nr priority s.
Proof.
  intros [G Hs _ _ _] Hp H0 Ha. pager_facts G. unfold DiskLinux.direct_allocate_page_asynch.
  assert (Tolerates may_fail (fun f => exists what, f = SysFail what)) as HT by (intros what _; by exists what).
  symmetry. apply bind_is. eapply wp_ldl_view; [exact V|]. intros Hd. rewrite (h_num _ _ _ _ Hd).
  rewrite Z.shiftr_div_pow2, Z.div_small by lia. change (i32 0) with 0. symmetry.
  apply (bind_agree none). eapply wp_ldl_view; [exact V|]. intros _.
  set (ti := i32 _). apply (loop_agree (fun f => exists what, f = SysFail what) _ _ _
    (fun c => (sc_reclaimed c, sc_scanned_inactive c))
    (fun c s => sc_scanned_active c = 0 /\ exists P' L' e', pager 0 [] C [] s P' L' e' /\
       flag e' shrinkage_running = false /\ glob e' safe_to_free = 0)) with (v := Scan 0 0 0 0).
  { split; [done|]. by exists P, L, e. }
  intros [r co sa si] s1 (Hc & P1 & L1 & e1 & G1 & Hs1 & H1). simpl in Hc. subst sa.
  unfold DiskLinux.direct_allocate_body, PageRank.direct_allocate_body. simpl.
  destruct (_ && _); [|done].
  pose proof (same_shrink SWAP_CLUSTER_COUNT s1 P1 L1 e1 (pg_view _ _ _ _ _ _ _ _ G1) H1) as Heq. split.
  { unfold mbind, M_bind. rewrite Heq. by destruct (DiskLinux.shrink_inactive_list _ s1). }
  apply wp_bind. unfold wp at 1. rewrite <- Heq.
  eapply (pr_wp_shrink_inactive_list (E := fun f => exists what, f = SysFail what)); [exact G1|done|done|done|].
  intros m s2 P2 L2 e2 Hsc Hm Hsel. apply wp_ret. simpl. split; [done|]. exists P2, L2, e2.
  split_and!; [apply Hsc|by rewrite (scanned_flag _ _ _ _ _ _ _ _ _ _ _ _ _ Hsc)|by rewrite (sl_pos _ _ _ _ _ _ Hsel)].
Qed.
End same.

(** ** Running out of memory *)

(** No frame is free, no page is queued for eviction, and every inactive page
    is in the window. *)
Record crowded {K} (P : gmap loc user_page) (L : fifo_id -> list loc) (e : env K) : Prop := {
  cr_pos : glob e safe_to_free <> 0;
  cr_free : L dram_free_list = [];
  cr_evict : L eviction_list = [];
  cr_near : forall y py, y ∈ L inactive_list -> P !! y = Some py -> in_window (glob e safe_to_free) (va py) = true }.

Section crowd.
Context {K D : Type} `{KL : KernelLaws K D may_fail} {E : fault -> Prop} `{!Tolerates may_fail E}.
Implicit Types (s : state K) (e : env K) (P : gmap loc user_page) (L : fifo_id -> list loc) (C : Z -> D).

(** Every page that a scan of a crowded state leaves on a list was there. *)
Lemma crowded_inactive m C s P L e s' P' L' e' y l :
  pager 0 [] C [] s P L e -> crowded P L e -> scanned m 0 [] C [] P L e s' P' L' e' -> selected P L e P' L' e' ->
  y ∈ L' l -> l = inactive_list \/ l = eviction_list -> y ∈ L inactive_list.
Proof.
  intros G Hc [G' _ Ho _] [_ Hv Ha _] Hy Hl. pager_facts G'. pager_facts G.
  destruct (pager_role _ _ _ _ _ _ _ _ _ _ G' Hy) as (py' & [Hpy' Ht] & _).
  pose proof (Hv y) as Hvy. rewrite Hpy' in Hvy. destruct (P !! y) as [py|] eqn:Hpy; [|done].
  assert (is_Some (P' !! y)) as Hd by by rewrite Hpy'.
  assert (exists l0, y ∈ L l0) as [l0 Hl0].
  { assert (managed P y py) as Hm by (split; [done|]; unfold whose in Hvy; simpl in Hvy; congruence).
    by destruct (i_where _ _ _ _ _ _ _ I0 y py Hm) as [Hn%elem_of_nil|]. }
  assert (forall l1, y ∈ L' l1 -> l1 = l) as Hone by (intros l1 Hl1; by apply (view_disjoint _ _ _ _ _ _ _ V Hl1)).
  destruct (lru l0) eqn:Hlru.
  - destruct l0; try done; [|rewrite (cr_evict _ _ _ Hc) in Hl0; by apply elem_of_nil in Hl0].
    apply Ha, Hone in Hl0. subst l. by destruct Hl.
  - rewrite <- Ho in Hl0 by done. apply Hone in Hl0. subst l0. by destruct Hl as [-> | ->].
Qed.

(** A scan of a crowded state finds nothing. *)
Lemma crowded_scan m C s P L e s' P' L' e' :
  pager 0 [] C [] s P L e -> crowded P L e -> scanned m 0 [] C [] P L e s' P' L' e' -> selected P L e P' L' e' ->
  crowded P' L' e'.
Proof.
  intros G Hc Hsc Hsel. pose proof Hc as [Hpos Hd Hev Hnear]. pose proof Hsel as [Sp Sv _ Sn].
  assert (forall y py', P' !! y = Some py' -> exists py, P !! y = Some py /\ va py = va py') as Hback.
  { intros y py' Hy. pose proof (Sv y) as Hv. rewrite Hy in Hv. destruct (P !! y) as [py|]; [|done].
    exists py. split; [done|]. unfold whose in Hv. simpl in Hv. congruence. }
  split; [by rewrite Sp|by rewrite (sc_others _ _ _ _ _ _ _ _ _ _ _ _ Hsc)| |].
  - destruct (L' eviction_list) as [|y ys] eqn:Hy; [done|]. exfalso.
    assert (y ∈ L' eviction_list) as Hin by (rewrite Hy; left).
    assert (y ∈ L inactive_list) as Hin0 by (eapply crowded_inactive; eauto).
    destruct (pager_role _ _ _ _ _ _ _ _ _ _ (sc_pager _ _ _ _ _ _ _ _ _ _ _ _ Hsc) Hin) as (py' & [Hpy' _] & _).
    destruct (Hback y py' Hpy') as (py & Hpy & _). pose proof (Hnear y py Hin0 Hpy) as Hw.
    rewrite <- Hy in Sn. rewrite (Sn Hpos y py Hin) in Hw; [done| |done]. rewrite Hev. apply not_elem_of_nil.
  - intros y py' Hy Hpy'. destruct (Hback y py' Hpy') as (py & Hpy & <-). rewrite Sp.
    apply (Hnear y); [eapply crowded_inactive; eauto|done].
Qed.

Lemma crowded_round prio C s P L e (Q : Z + ptr -> state K -> Prop) :
  pager 0 [] C [] s P L e -> crowded P L e -> flag e shrinkage_running = false -> 0 < frames e -> 0 < prio ->
  (forall s' P' L' e', pager 0 [] C [] s' P' L' e' -> crowded P' L' e' -> env_step e e' -> Q (inl (prio - 1)) s') ->
  wp E (fetch_free_body PageRank.direct_allocate_page_asynch prio) s Q.
Proof.
  intros G Hc Hs Hfr Hp HQ. unfold fetch_free_body. pose proof Hc as [_ Hd Hev _]. pager_facts G.
  assert (held e = []) as Hh by apply I. rewrite bool_decide_eq_true_2 by done.
  apply wp_bind. eapply wp_dequeue_fifo; [done|rewrite Hh; not_in| |].
  2:{ intros xs x s1 HL. rewrite Hd in HL. by destruct xs. }
  intros _ s1 V1. assert (pager 0 [] C [] s1 P L e) as G1 by (destruct G; by split). clear dependent s.
  do 4 vstep. rewrite Hs. simpl.
  pose proof (i_count _ _ _ _ _ _ _ I) as Hcount. unfold on_frames in Hcount. rewrite Hd, Hev in Hcount. simpl in Hcount.
  pose proof (list_bound _ _ _ _ _ _ _ _ active_list G1 eq_refl ltac:(lia)) as Hact.
  pose proof (list_bound _ _ _ _ _ _ _ _ inactive_list G1 eq_refl ltac:(lia)) as Hina.
  rewrite u64_small by lia. apply wp_bind. rewrite bool_decide_eq_true_2.
  2:{ unfold frames, PAGE_SIZE, BASEPAGE_SIZE in *. Z.div_mod_to_equations. lia. }
  apply wp_bind. eapply wp_direct_allocate_selects; [exact G1|done|lia|done|].
  intros r m s2 P2 L2 e2 Hsc _ Hsel. vstep. pose proof (crowded_scan _ _ _ _ _ _ _ _ _ _ G1 Hc Hsc Hsel) as Hc2.
  pose proof (sc_pager _ _ _ _ _ _ _ _ _ _ _ _ Hsc) as G2. pose proof G2 as [V2 I2 _ _].
  apply wp_bind. eapply wp_dequeue_fifo; [done|rewrite (i_held _ _ _ _ _ _ _ I2); not_in| |].
  2:{ intros xs x s3 HL. rewrite (cr_evict _ _ _ Hc2) in HL. by destruct xs. }
  intros _ s3 V3. vstep. eapply HQ; [destruct G2; by split|exact Hc2|apply Hsc].
Qed.
End crowd.

Section crowded_out.
Context {K D : Type} `{KL : KernelLaws K D may_fail}.
Implicit Types (s : state K) (e : env K) (P : gmap loc user_page) (L : fifo_id -> list loc) (C : Z -> D).

(** C18: crowded by its own window, the policy gives up. Once a page was
    swapped in, with no free frame and no page queued for eviction, if all
    pages on the inactive list are in the window around it, the next request
    for a frame stops the program with "Out of memory" (or because a system
    call failed), however many pages are on the active list and however much
    of the disk is free. *)
Theorem out_of_memory_in_window fuel C s P L e :
  (13 <= fuel)%nat -> at_rest C s P L e -> crowded P L e ->
  wp (fun f => f = AssertFailed "Out of memory" \/ exists what, f = SysFail what)
    (PageRank.fetch_free_asynch fuel) s (fun _ _ => False).
Proof.
  intros Hfuel [G Hs _ Hfr _] Hc. set (E := fun f => _ \/ _).
  assert (Tolerates may_fail E) as HT by (intros what _; right; by exists what).
  apply wp_bind. eapply wp_wake_kswapd; [exact G|]. intros s1 e1 G1 S1 _ Hg1.
  assert (0 < frames e) as Hfr0 by (unfold CORE_PREFETCH_RATE in Hfr; lia).
  eapply (wp_loop _ _ _ (fun n prio s => n = Z.to_nat prio /\ 0 <= prio /\ exists P' L' e',
    pager 0 [] C [] s P' L' e' /\ crowded P' L' e' /\ flag e' shrinkage_running = false /\ frames e' = frames e))
    with (n := 12%nat); [|lia|].
  - split_and!; [done|done|]. exists P, L, e1. split_and!; [done| | |].
    + destruct Hc as [H1 H2 H3 H4]. by split; rewrite ?Hg1.
    + by rewrite (es_flag _ _ S1).
    + unfold frames. by rewrite (es_glob _ _ S1).
  - clear dependent s s1 P L. intros n prio s (-> & Hp & P & L & e2 & G & Hc & Hs2 & Hf2).
    destruct (decide (0 < prio)).
    + eapply crowded_round; [exact G|exact Hc|done|lia|done|]. intros s' P' L' e' G' Hc' S'.
      exists (Z.to_nat (prio - 1)). split_and!; [lia|done|lia|]. exists P', L', e'. split_and!; [done|done| |].
      * by rewrite (es_flag _ _ S').
      * unfold frames in *. by rewrite (es_glob _ _ S').
    + unfold fetch_free_body. rewrite bool_decide_eq_false_2 by done. apply wp_fail. by left.
Qed.
End crowded_out.

(** ** Draining the eviction list *)

Section policy.
Context {K D : Type} `{KL : KernelLaws K D may_fail} (fuel : nat) (Hfuel : (13 <= fuel)%nat).
Implicit Types (s : state K) (e : env K) (P : gmap loc user_page) (L : fifo_id -> list loc) (C : Z -> D).
#[local] Instance pr_policy_here : PolicyOps K := pr_ops fuel.
#[local] Instance pr_laws_here : PolicyLaws K D may_fail := pr_laws fuel Hfuel.

(** C16: the eviction list drains. After as many turns of the eviction worker
    as there are pages queued for eviction, if the disk has at least that many
    free slots (a turn that finds none fails its assertion), the list is
    empty, every page went to the disk with its content and each of them left
    a free frame behind; an [extmem_munmap] called from then on unmaps its
    range without waiting, whatever it unmaps. (One that already waits holds
    the allocator lock: that state is not at rest, and not covered.) *)
Theorem eviction_drains C s P L e :
  at_rest C s P L e -> (length (L eviction_list) <= length (L disk_free_list))%nat ->
  wp (fun f => exists what, f = SysFail what) (worker_turns (length (L eviction_list))) s (fun _ s' =>
    exists P' L' e', at_rest C s' P' L' e' /\ L' eviction_list = [] /\
      L' inactive_list = L inactive_list /\ L' active_list = L active_list /\
      (length (L' dram_free_list) = length (L dram_free_list) + length (L eviction_list))%nat /\
      (forall start len n, start mod PAGE_SIZE = 0 -> len mod PAGE_SIZE = 0 -> 0 < len ->
         (Z.to_nat (len / PAGE_SIZE) < n)%nat ->
         (forall a, in_range start len a -> registered (kern e') a = true) ->
         wp (fun f => exists what, f = SysFail what) (extmem_munmap n start len) s' (fun r _ => r = 0))).
Proof.
  intros G Hlen.
  assert (Tolerates may_fail (fun f => exists what, f = SysFail what)) as HT by (intros what _; by exists what).
  remember (length (L eviction_list)) as n eqn:Hn. revert s P L e G Hlen Hn.
  induction n as [|n IH]; intros s P L e G Hlen Hn; simpl.
  - apply wp_ret. exists P, L, e. assert (L eviction_list = []) as He by (by destruct (L eviction_list)).
    split_and!; [done|done|done|done|lia|]. intros start len m Hs Hl Hl0 Hm Hr.
    eapply wp_extmem_munmap; [by eexists|by left|exact G|done..].
  - destruct (L eviction_list) as [|x xs _] eqn:HL using rev_ind; [done|].
    rewrite length_app in Hn. simpl in Hn.
    apply wp_bind. eapply turn_at_rest; [exact G|intros Hd; rewrite Hd in Hlen; simpl in Hlen; lia|exact HL|].
    intros d s1 P1 L1 e1 G1 T. pose proof (to_slots _ _ _ _ _ _ _ T) as T5. destruct T as [T1 T2 T3 T4 _ _].
    eapply wp_mono; [apply (IH s1 P1 L1 e1 G1); [lia|rewrite T3; lia]|].
    intros _ s2 (P2 & L2 & e2 & G2 & H1 & H2 & H3 & H4 & H5). exists P2, L2, e2.
    rewrite H2, H3, H4, !T4, T1 by done. split_and!; try done. simpl. lia.
Qed.

(** ** The prefetching thread *)

(** One turn: what it relies on and what it keeps. *)
Lemma wp_prefetch_block E C s P L e head :
  Tolerates may_fail E -> can_run_out E -> E (SysFail "prefetch buffer space mmap") ->
  at_rest C s P L e -> flag e (uring_read_init (self e)) = true \/ E BadRing ->
  0 < head <= 2 ^ 47 - 2 * PR_BLOCK_SIZE -> head mod PAGE_SIZE = 0 ->
  wp E (loop "lrudisk_prefetchworker" (S (S (Z.to_nat (PR_BLOCK_SIZE / PAGE_SIZE)))) (prefetch_body fuel head) head) s
    (fun _ s' => exists P' L' e', at_rest C s' P' L' e' /\ prefetch_step e e').
Proof.
  intros HT HE HEb G Hui Hh Ha.
  assert (PR_BLOCK_SIZE = 8192 * PAGE_SIZE) as HB by done.
  eapply (wp_loop _ _ _ (fun n a s => exists P' L' e', at_rest C s P' L' e' /\ prefetch_step e e' /\
    head <= a /\ a mod PAGE_SIZE = 0 /\ a <= head + PR_BLOCK_SIZE + CORE_PREFETCH_RATE * PAGE_SIZE /\
    Z.of_nat n = Z.max 0 ((head + PR_BLOCK_SIZE - a) / PAGE_SIZE + 1)) _ (Z.to_nat (PR_BLOCK_SIZE / PAGE_SIZE + 1))).
  - exists P, L, e. unfold CORE_PREFETCH_RATE. rewrite HB. unfold PAGE_SIZE, BASEPAGE_SIZE in *.
    split_and!; [done|done|lia|done|lia|]. Z.div_mod_to_equations. lia.
  - rewrite HB. unfold PAGE_SIZE, BASEPAGE_SIZE. lia.
  - clear dependent s P L. intros n a s (P & L & e1 & G1 & S1 & Hle & Hal & Hmax & Hn).
    unfold prefetch_body. unfold CORE_PREFETCH_RATE in Hmax. rewrite HB in *. unfold PAGE_SIZE, BASEPAGE_SIZE in *.
    rewrite u64_small by lia. case_bool_decide as Hin; [|apply wp_ret; by exists P, L, e1].
    vstep. apply wp_bind.
    pose proof G1 as [Gp Hsh _ Hfr _].
    eapply wp_core_try_prefetch; [exact HE|exact HEb|exact Gp|lia| |exact Hfr|exact Hsh|].
    { destruct Hui; [left; by apply S1|by right]. }
    intros r s' P' L' e' G' S' Hr. unfold CORE_PREFETCH_RATE in *.
    assert (at_rest C s' P' L' e') as G2.
    { eapply at_rest_step; [exact G1|done|by apply call_prefetch]. }
    case_bool_decide as H0; [apply wp_ret; exists P', L', e'; split; [done|by etrans]|].
    apply wp_ret. rewrite u64_small by lia.
    exists (Z.to_nat (Z.max 0 ((head + 8192 * (4 * 1024) - (a + r * (4 * 1024))) / (4 * 1024) + 1))). split.
    { Z.div_mod_to_equations. lia. }
    exists P', L', e'. split_and!; [done|by etrans|lia| |lia|lia].
    rewrite Z.mod_add by lia. done.
Qed.

(** C19: the prefetching thread keeps to its contract. A turn of
    [lrudisk_prefetchworker] comes to an end (at most 8193 batches, one page
    each, cover the block), or stops the program because a resource ran out
    or because it submits to the thread's read ring before that was ever set
    up, which takes a batch without a single page to read. When it comes to
    an end every page's content and the mappings are as they were. Nothing
    happens before a mapping of 5 GB and a first swap-in; from then on the
    turn leaves [block_head] one block after the last page swapped in,
    whatever the uninitialised variable held. *)
Theorem prefetchworker_turn block_head C s P L e :
  at_rest C s P L e ->
  0 <= glob e safe_to_free <= 2 ^ 47 - 3 * PR_BLOCK_SIZE -> glob e safe_to_free mod PAGE_SIZE = 0 ->
  wp (fun f => resource_failure f \/ flag e (uring_read_init (self e)) = false /\ f = BadRing)
    (lrudisk_prefetchworker fuel block_head) s (fun head s' =>
    (exists P' L' e', at_rest C s' P' L' e' /\ pages e' = pages e /\ self e' = self e /\
       flag e' (internal_call (self e)) = true /\
       (forall a, registered (kern e') a = registered (kern e) a)) /\
    head = if (glob e main_vma_va =p 0) || (glob e safe_to_free =p 0) ||
              bool_decide (glob e main_vma_size < 5 * 1024 * 1024 * 1024)
           then block_head else glob e safe_to_free + PR_BLOCK_SIZE).
Proof.
  intros G Hpos Hal. set (E := fun f : fault => _ \/ _). unfold lrudisk_prefetchworker.
  assert (Tolerates may_fail E) as HT by (intros what _; by left).
  assert (flag e (uring_read_init (self e)) = true \/ E BadRing) as Hui.
  { destruct (flag e (uring_read_init (self e))) eqn:Hf; [by left|right; by right]. }
  assert (can_run_out E) as HE by (split; left; apply resource_out).
  pose proof (ar_pager _ _ _ _ _ G) as Gp. pager_facts Gp.
  vstep. set (e1 := set_flag (internal_call (self e)) true e) in *.
  match goal with V' : View ?s' _ _ e1 |- _ => assert (at_rest C s' P L e1) as G1 end.
  { eapply at_rest_step; [exact G| |unfold e1; call_done]. eapply pager_vars; [exact Gp|eassumption|unfold e1; vars_done..]. }
  assert (flag e1 (internal_call (self e)) = true) as Hic by (unfold e1; simpl; by simp_fupd).
  do 3 vstep. change (glob e1) with (glob e).
  destruct (_ || _ || _) eqn:Hidle.
  { vstep. split; [by exists P, L, e1|done]. }
  apply orb_false_iff in Hidle as [[_ H0%bool_decide_eq_false]%orb_false_iff _].
  assert (PR_BLOCK_SIZE = 2 ^ 25) as HB by done.
  assert (u64 (glob e safe_to_free + u64 (PR_BLOCK_SIZE * 1)) = glob e safe_to_free + PR_BLOCK_SIZE) as ->
    by (rewrite HB in *; rewrite (u64_small (2 ^ 25 * 1)), u64_small by lia; lia).
  case_bool_decide as Hsame; [vstep; split; [by exists P, L, e1|done]|].
  apply wp_bind. eapply wp_mono; [eapply wp_prefetch_block; [exact HT|exact HE|by left|exact G1| | |]|].
  - unfold e1. simpl. by rewrite fupd_ne.
  - lia.
  - rewrite HB. unfold PAGE_SIZE, BASEPAGE_SIZE in *. Z.div_mod_to_equations. lia.
  - intros [] s1 (P2 & L2 & e2 & G2 & [_ Sf _ Sp Ss Sr]). apply wp_ret. split; [|done].
    exists P2, L2, e2. split_and!; [done|done|done|by rewrite Sf|done].
Qed.

(** ** The application's memory *)

Context `{CPU : CpuOps K D, !CpuLaws K D}.
#[local] Instance pr_background_here : Background K := pr_background.
#[local] Instance pr_background_laws_here : BackgroundLaws K D may_fail := pr_background_laws.

(** What stops a program: resources that run out and failing system calls,
    the wait of [extmem_munmap], and the same in a thread of the policy. *)
Definition pr_failure (f : fault) : Prop :=
  resource_failure f \/ f = wait_for_evictor \/
  exists g, f = ThreadFault g /\ ((exists what, g = SysFail what) \/ g = AssertFailed "no disk page found").

Lemma pr_run_from_boot {A} (p : prog D A) (c : config) s e :
  boot s e -> good_config c -> safe p (fun _ => False) ->
  wp pr_failure (extmem_init c;; run p) s (fun r s' =>
    flat zero_page p (fun _ => zero_page) (fun _ => False) r /\ exists C P L e', running C s' P L e').
Proof.
  intros Hb Hc Hs. eapply wp_weaken; [by eapply run_from_boot|]. intros f [Hf|[[_ Hf]|Hf]]; [by left|right; by left|by right; right].
Qed.

(** C3: the PageRank build gives the application the same flat memory as the
    default one, although it chooses its victims differently: any program
    that accesses only memory it mapped, in threads that take turns with
    kswapd and the eviction workers, computes a result it can compute over
    flat, initially zero memory, or stops because frames or disk slots ran
    out or a system call failed (in one of its threads or in one of the
    policy's), or waits while it unmaps a page queued for eviction. *)
Theorem pagerank_flat_memory {A} (p : prog D A) (c : config) s e :
  boot s e -> good_config c -> safe p (fun _ => False) ->
  match (extmem_init c;; run p) s with
  | Ok r _ => flat zero_page p (fun _ => zero_page) (fun _ => False) r
  | Fault f => pr_failure f
  end.
Proof.
  intros Hb Hc Hs. pose proof (pr_run_from_boot p c s e Hb Hc Hs) as H. unfold wp in H.
  destruct ((extmem_init c;; run p) s) as [r s'|f]; [by destruct H|done].
Qed.
End policy.

(** ** On the concrete kernel *)

Lemma enough_rounds : (13 <= 20)%nat.
Proof. lia. Qed.

#[local] Instance pr_sim : PolicyOps sim := pr_ops 20.
#[local] Instance pr_sim_background : Background sim := pr_background.

(** The process of the PageRank build after initialisation and the program [p]. *)
Definition pr_after {A} (p : prog Z A) : res (state sim) A :=
  (extmem_init (small 64 256);; run p) (process ∅ sim_empty).

Lemma pr_after_running {A} (p : prog Z A) (test : A -> state sim -> bool) :
  safe p (fun _ => False) -> match pr_after p with Ok r s => test r s | Fault _ => false end = true ->
  exists r s C P L, pr_after p = Ok r s /\ running C s P L (envt s) /\ test r s = true.
Proof.
  intros Hs Ht. pose proof (pr_run_from_boot 20 enough_rounds p _ _ _ boot_process good_small Hs) as H.
  change (wp pr_failure (extmem_init (small 64 256);; run p) (process ∅ sim_empty)
    (fun r s' => flat zero_page p (fun _ => zero_page) (fun _ => False) r /\ exists C P L e', running C s' P L e')) in H.
  unfold wp in H. unfold pr_after in *.
  destruct ((extmem_init (small 64 256);; run p) _) as [r s|f]; [|done]. destruct H as (_ & C & P & L & e & G). exists r, s, C, P, L.
  by rewrite (env_of _ _ _ _ _ (ru_rest _ _ _ _ _ G)).
Qed.

(** Seventy pages written on 64 frames, the [n] after the 65th read. *)
Definition written_and_read (n : nat) : prog Z Z :=
  Map (2 ^ 31) 3 (Z.lor MAP_PRIVATE MAP_ANONYMOUS) (fun q => fill q 70 (sum q 65 n 0 (fun _ => Ret q))).

Lemma safe_written_and_read n : (n <= 35)%nat -> safe (written_and_read n) (fun _ => False).
Proof.
  intros Hn. apply safe_map_two_gb; [done..|]. intros q Hq. apply safe_fill; [done|lia|].
  by apply safe_sum; [done|lia|].
Qed.

(** [pr_reach n test] runs [written_and_read n] and hands over its last state. *)
Ltac pr_reach n test :=
  let H := fresh "Ht" in
  destruct (pr_after_running (written_and_read n) test) as (q & s & C & P & L & Hs & G & H);
  [by apply safe_written_and_read; lia|vm_compute; reflexivity|]; cbv beta zeta in H;
  repeat match type of H with _ && _ = true => apply andb_prop in H as [H ?] end;
  repeat match goal with
  | H : bool_decide _ = true |- _ => apply bool_decide_eq_true in H
  | H : negb _ = true |- _ => apply negb_true_iff in H
  end;
  exists q, s; split; [exact Hs|].

Lemma reclaim_outside_window_witness : exists q s, pr_after (written_and_read 10) = Ok q s /\ exists n s',
  glob (envt s) safe_to_free <> 0 /\ PageRank.direct_allocate_page_asynch 32 0 s = Ok n s' /\
  numentries (lists s' dram_free_list) = numentries (lists s dram_free_list).
Proof.
  pr_reach 10%nat (fun (q : Z) (s : state sim) => bool_decide (glob (envt s) safe_to_free <> 0) &&
    is_ok (PageRank.direct_allocate_page_asynch 32 0 s)).
  pose proof (ar_pager _ _ _ _ _ (ru_rest _ _ _ _ _ G)) as Gp.
  destruct (wp_ends _ _ _ _ (reclaim_outside_window 32 0 C s P L (envt s) ltac:(apply G) ltac:(lia)) H)
    as (n & s' & Hs' & P' & L' & e' & G' & Ho & _).
  exists n, s'. split; [exact Ht|]. split; [exact Hs'|].
  rewrite (length_of _ _ _ _ _ _ _ _ _ Gp), (length_of _ _ _ _ _ _ _ _ _ G'). by rewrite Ho.
Defined.

Lemma eviction_drains_witness : exists q s, pr_after (written_and_read 10) = Ok q s /\
  numentries (lists s eviction_list) = 16 /\ numentries (lists s dram_free_list) = 0 /\
  exists s', worker_turns 16 s = Ok tt s' /\
    numentries (lists s' eviction_list) = 0 /\ numentries (lists s' dram_free_list) = 16.
Proof.
  pr_reach 10%nat (fun (q : Z) (s : state sim) => bool_decide (numentries (lists s eviction_list) = 16) &&
    bool_decide (numentries (lists s dram_free_list) = 0) &&
    bool_decide (16 <= numentries (lists s disk_free_list)) && is_ok (worker_turns 16 s)).
  pose proof (ar_pager _ _ _ _ _ (ru_rest _ _ _ _ _ G)) as Gp.
  pose proof (length_of _ _ _ _ _ _ _ _ eviction_list Gp) as He.
  pose proof (length_of _ _ _ _ _ _ _ _ dram_free_list Gp) as Hd.
  pose proof (length_of _ _ _ _ _ _ _ _ disk_free_list Gp) as Hk.
  pose proof (eviction_drains 20 enough_rounds C s P L (envt s) ltac:(apply G) ltac:(lia)) as Hdr.
  replace (length (L eviction_list)) with 16%nat in Hdr by lia.
  destruct (wp_ends _ _ _ _ Hdr H) as ([] & s' & Hs' & P' & L' & e' & G' & H0' & _ & _ & H1' & _).
  split; [exact Ht|]. split; [exact H1|]. exists s'. split; [exact Hs'|].
  pose proof (ar_pager _ _ _ _ _ G') as Gp'. rewrite !(length_of _ _ _ _ _ _ _ _ _ Gp'), H0', H1'.
  split; [reflexivity|lia].
Defined.

Lemma same_eviction_worker_witness : exists q s, pr_after (written_and_read 10) = Ok q s /\
  numentries (lists s eviction_list) = 16 /\
  PageRank.lrudisk_evictionworker s = DiskLinux.lrudisk_evictionworker s.
Proof.
  pr_reach 10%nat (fun (q : Z) (s : state sim) => bool_decide (numentries (lists s eviction_list) = 16)).
  split; [exact Ht|]. apply (same_eviction_worker C s P L (envt s)). apply G.
Defined.

(** Nothing was swapped in yet. *)
Lemma same_reclaim_witness : exists q s, pr_after (written_and_read 0) = Ok q s /\
  numentries (lists s inactive_list) = 38 /\
  PageRank.direct_allocate_page_asynch 32 0 s = DiskLinux.direct_allocate_page_asynch 32 0 s.
Proof.
  pr_reach 0%nat (fun (q : Z) (s : state sim) => bool_decide (numentries (lists s inactive_list) = 38) &&
    bool_decide (glob (envt s) safe_to_free = 0) && bool_decide (numentries (lists s active_list) = 0)).
  split; [exact Ht|].
  pose proof (ar_pager _ _ _ _ _ (ru_rest _ _ _ _ _ G)) as Gp.
  pose proof (length_of _ _ _ _ _ _ _ _ active_list Gp) as Ha.
  apply (same_reclaim 32 0 C s P L (envt s)); [apply G|lia|exact H0|lia].
Defined.

(** All pages in memory are in the window. *)
Definition near (s : state sim) : bool :=
  forallb (fun '(_, pg) => (va pg =p 0) || negb (in_dram pg) || in_window (glob (envt s) safe_to_free) (va pg))
    (map_to_list (heap s)).

Lemma near_inactive k C s P L (e : env sim) y py : pager k [] C [] s P L e -> near s = true ->
  y ∈ L inactive_list -> P !! y = Some py -> in_window (glob e safe_to_free) (va py) = true.
Proof.
  intros G Hn Hy Hp. pager_facts G. rewrite <- (v_env _ _ _ _ V).
  destruct (pager_role _ _ _ _ _ _ _ _ _ _ G Hy) as (py' & [Hpy' _] & R). simpl in R.
  assert (py' = py) as -> by congruence. pose proof (v_payload _ _ _ _ V) as Hpl. rewrite <- Hpl, lookup_fmap in Hp.
  destruct (heap s !! y) as [pg|] eqn:Hh; [|done]. simpl in Hp. injection Hp as <-.
  unfold near in Hn. rewrite forallb_forall in Hn.
  specialize (Hn (y, pg)). simpl in Hn. rewrite <- list_elem_of_In, elem_of_map_to_list in Hn. specialize (Hn Hh).
  destruct R as [Hd [_ Hv _ _] _ _ _ _]. simpl in *.
  rewrite Hd, orb_false_r, (bool_decide_eq_false_2 _ Hv) in Hn. exact Hn.
Qed.

Lemma out_of_memory_in_window_witness : exists q s, pr_after (written_and_read 27) = Ok q s /\ 
  numentries (lists s inactive_list) = 64 /\ exists f, PageRank.fetch_free_asynch 20 s = Fault f /\
  (f = AssertFailed "Out of memory" \/ exists what, f = SysFail what).
Proof.
  pr_reach 27%nat (fun (q : Z) (s : state sim) => bool_decide (numentries (lists s inactive_list) = 64) &&
    bool_decide (numentries (lists s dram_free_list) = 0) && bool_decide (numentries (lists s eviction_list) = 0) &&
    bool_decide (glob (envt s) safe_to_free <> 0) && near s).
  pose proof (ar_pager _ _ _ _ _ (ru_rest _ _ _ _ _ G)) as Gp.
  pose proof (length_of _ _ _ _ _ _ _ _ eviction_list Gp) as He.
  pose proof (length_of _ _ _ _ _ _ _ _ dram_free_list Gp) as Hd.
  assert (crowded P L (envt s)) as Hc.
  { split; [exact H0| | |].
    - destruct (L dram_free_list); [reflexivity|simpl in Hd; lia].
    - destruct (L eviction_list); [reflexivity|simpl in He; lia].
    - intros y py. by apply (near_inactive _ _ _ _ _ _ y py Gp). }
  split; [exact Ht|].
  pose proof (out_of_memory_in_window 20 C s P L (envt s) ltac:(lia) ltac:(apply G) Hc) as Hw. unfold wp in Hw.
  destruct (PageRank.fetch_free_asynch 20 s) as [r s'|f]; [destruct Hw|]. exists f. split; [reflexivity|exact Hw].
Defined.

(** A second mapping, of six gigabytes, after the first swap-ins; the page
    [far] pages from the start, written first, is on disk by then. *)
Definition sweeping (far : Z) : prog Z Z :=
  Map (2 ^ 31) 3 (Z.lor MAP_PRIVATE MAP_ANONYMOUS) (fun q =>
    Store (q + PAGE_SIZE * far) (fun d => d + 5) (fill q 70 (sum q 65 10 0 (fun _ =>
      Map (6 * 2 ^ 30) 3 (Z.lor MAP_PRIVATE MAP_ANONYMOUS) (fun _ => Ret q))))).

Lemma safe_sweeping far : 0 <= far < 10000 -> safe (sweeping far) (fun _ => False).
Proof.
  intros Hfar. apply safe_map_two_gb; [done..|]. intros q Hq. cbn [safe].
  destruct (page_of_offset _ q _ far Hq) as [? ?]; [lia|unfold PAGE_SIZE, BASEPAGE_SIZE; lia|].
  split_and!; [lia|lia|by left|]. apply safe_fill; [done|lia|].
  apply safe_sum; [done|lia|]. intros acc. simpl. split_and!; done.
Qed.

Definition as_thread (t : thread) (s : state sim) : state sim := State (heap s) (lists s) (set_self t (envt s)).

Lemma as_thread_at_rest C s P L t :
  running C s P L (envt s) -> at_rest C (as_thread t s) P L (envt (as_thread t s)).
Proof.
  intros G. eapply running_switch; [exact G|].
  destruct (pg_view _ _ _ _ _ _ _ _ (ar_pager _ _ _ _ _ (ru_rest _ _ _ _ _ G))). by split.
Qed.

(** The first turn of the prefetching thread reads the far page ahead, one
    block after the last page swapped in. *)
Lemma prefetchworker_turn_witness : exists q s, pr_after (sweeping 8260) = Ok q s /\ exists s',
  flag (envt s) (uring_read_init (prefetch_thread 0)) = false /\
  lrudisk_prefetchworker 20 7 (as_thread (prefetch_thread 0) s) = Ok (q + 67 * PAGE_SIZE + PR_BLOCK_SIZE) s' /\
  mem (kern (envt s)) (q + PAGE_SIZE * 8260) = None /\ mem (kern (envt s')) (q + PAGE_SIZE * 8260) = Some 5 /\
  pages (envt s') = pages (envt s) /\ flag (envt s') (internal_call (prefetch_thread 0)) = true.
Proof.
  destruct (pr_after_running (sweeping 8260) (fun q s =>
    let o := lrudisk_prefetchworker 20 7 (as_thread (prefetch_thread 0) s) in
    bool_decide (glob (envt s) safe_to_free = q + 67 * PAGE_SIZE) &&
    bool_decide (0 < glob (envt s) safe_to_free <= 2 ^ 46) && bool_decide (glob (envt s) safe_to_free mod PAGE_SIZE = 0) &&
    bool_decide (glob (envt s) main_vma_va <> 0) && bool_decide (6 * 2 ^ 30 <= glob (envt s) main_vma_size) &&
    negb (flag (envt s) (uring_read_init (prefetch_thread 0))) && is_ok o &&
    bool_decide (mem (kern (envt s)) (q + PAGE_SIZE * 8260) = None) &&
    match o with Ok _ s' => bool_decide (mem (kern (envt s')) (q + PAGE_SIZE * 8260) = Some 5) | Fault _ => false end))
    as (q & s & C & P & L & Hs & G & Ht); [by apply safe_sweeping|vm_compute; reflexivity|].
  cbv beta zeta in Ht.
  apply andb_prop in Ht as [[[[[[[[Hq%bool_decide_eq_true Hb%bool_decide_eq_true]%andb_prop Ha%bool_decide_eq_true]%andb_prop
    Hv%bool_decide_eq_true]%andb_prop Hz%bool_decide_eq_true]%andb_prop Hu%negb_true_iff]%andb_prop Hok]%andb_prop
    Hn%bool_decide_eq_true]%andb_prop Hr].
  exists q, s. split; [exact Hs|].
  assert (PR_BLOCK_SIZE = 2 ^ 25) as HB by reflexivity.
  destruct (wp_ends _ _ _ _ (prefetchworker_turn 20 enough_rounds 7 C _ P L _
    (as_thread_at_rest C s P L (prefetch_thread 0) G) ltac:(simpl; lia) Ha) Hok)
    as (head & s' & Hs' & (P' & L' & e' & G' & Hp & _ & Hic & _) & Hh).
  simpl in Hh, Hp. rewrite !bool_decide_eq_false_2 in Hh by lia. simpl in Hh. rewrite Hq in Hh. subst head.
  rewrite Hs' in Hr. apply bool_decide_eq_true in Hr. rewrite <- (env_of _ _ _ _ _ G') in Hp, Hic.
  exists s'. split; [exact Hu|]. split; [exact Hs'|]. split; [exact Hn|]. split; [exact Hr|]. split; [exact Hp|exact Hic].
Defined.

(** With nothing on disk there, it submits to a ring that was never set up. *)
Lemma prefetchworker_unset_ring :
  match pr_after (sweeping 0) with
  | Ok q s => lrudisk_prefetchworker 20 7 (as_thread (prefetch_thread 0) s) = Fault BadRing
  | Fault _ => False
  end.
Proof.
  assert (match pr_after (sweeping 0) with
    | Ok _ s => match lrudisk_prefetchworker 20 7 (as_thread (prefetch_thread 0) s) with
        | Fault BadRing => true | _ => false end
    | Fault _ => false end = true) as H by (vm_compute; reflexivity).
  destruct (pr_after _) as [q s|f]; [|done]. by destruct (lrudisk_prefetchworker _ _ _) as [|[]].
Qed.

(** Seventy pages on 64 frames, the first ten unmapped at the end. *)
Lemma pagerank_flat_memory_witness :
  match pr_after (fill_and_sum 70) with
  | Ok r s' => r = 2485 /\ glob (envt s') safe_to_free <> 0 /\
      flat 0 (fill_and_sum 70) (fun _ => 0) (fun _ => False) r
  | Fault f => False
  end.
Proof.
  assert (match pr_after (fill_and_sum 70) with
    | Ok r _ => flat 0 (fill_and_sum 70) (fun _ => 0) (fun _ => False) r
    | Fault f => pr_failure f end) as H
    by exact (pagerank_flat_memory 20 enough_rounds (fill_and_sum 70) (small 64 256) (process ∅ sim_empty) _
      boot_process good_small (safe_fill_and_sum 70 ltac:(lia))).
  assert (match pr_after (fill_and_sum 70) with
    | Ok r s' => bool_decide (r = 2485) && bool_decide (glob (envt s') safe_to_free <> 0) | Fault _ => false end = true)
    as Hc by (vm_compute; reflexivity).
  destruct (pr_after (fill_and_sum 70)) as [r s'|f]; [|discriminate].
  apply andb_prop in Hc as [H1%bool_decide_eq_true H2%bool_decide_eq_true]. split; [exact H1|]. split; [exact H2|exact H].
Defined.
