(* ===== verification/Uthash.v ===== *)
(** * The hash table of tracked pages: [uthash.h]

    [core.c] keeps its tracked pages in a hash table made by the macros of
    [uthash.h]: [HASH_FIND], [HASH_ADD] and [HASH_DEL] on the head [pages],
    keyed by the eight bytes of [va], through the hash handle [hh] inside each
    page.  The rest of the development takes this table for a finite map from
    addresses to pages; this file justifies that.  It translates the macros
    as the build expands them (Jenkins' hash, no bloom filter, no key
    emission, no recovery from a failed allocation) on the pointer level:
    the bucket chains, the list in the order of insertion, the doubling of
    the buckets. [UthashProofs] proves them a refinement of a finite map. *)

From S2P Require Import Prelude State.

Definition u32 (z : Z) : Z := z mod 2 ^ 32.

Lemma u32_small z : 0 <= z < 2 ^ 32 -> u32 z = z.
Proof. intros. unfold u32. by rewrite Z.mod_small. Qed.

Lemma u32_range z : 0 <= u32 z < 2 ^ 32.
Proof. unfold u32. apply Z.mod_pos_bound. lia. Qed.

(** ** The data *)

Definition HASH_INITIAL_NUM_BUCKETS : Z := 2097152.
Definition HASH_INITIAL_NUM_BUCKETS_LOG2 : Z := 21.
Definition HASH_BKT_CAPACITY_THRESH : Z := 10.
Definition HASH_SIGNATURE : Z := 0xa0111fe1.

(** A hash handle lies at a fixed offset in its element, so that
    [ELMT_FROM_HH] and [HH_FROM_ELMT] are the identity on [loc]s. [key]
    points to the field [va] of an element. *)
Record UT_hash_handle := HashHandle {
  tbl : ptr;
  prev : ptr; next : ptr;          (* in the order of insertion *)
  hh_prev : ptr; hh_next : ptr;    (* in the bucket *)
  key : ptr; keylen : Z; hashv : Z }.

Record UT_hash_bucket := HashBucket { hh_head : ptr; count : Z; expand_mult : Z }.

(** What [uthash_malloc] of [bsize] buckets and [uthash_bzero] return: cells
    that were not written are zero. *)
Record bucket_array := BucketArray { bsize : Z; bcells : gmap Z UT_hash_bucket }.

Record UT_hash_table := HashTable {
  buckets : bucket_array;
  num_buckets : Z; log2_num_buckets : Z; num_items : Z;
  tail : ptr;
  ideal_chain_maxlen : Z; nonideal_items : Z; ineff_expands : Z; noexpand : Z;
  signature : Z }.

Definition set_tbl x h := HashHandle x (prev h) (next h) (hh_prev h) (hh_next h) (key h) (keylen h) (hashv h).
Definition set_prev x h := HashHandle (tbl h) x (next h) (hh_prev h) (hh_next h) (key h) (keylen h) (hashv h).
Definition set_next x h := HashHandle (tbl h) (prev h) x (hh_prev h) (hh_next h) (key h) (keylen h) (hashv h).
Definition set_hh_prev x h := HashHandle (tbl h) (prev h) (next h) x (hh_next h) (key h) (keylen h) (hashv h).
Definition set_hh_next x h := HashHandle (tbl h) (prev h) (next h) (hh_prev h) x (key h) (keylen h) (hashv h).
Definition set_key x h := HashHandle (tbl h) (prev h) (next h) (hh_prev h) (hh_next h) x (keylen h) (hashv h).
Definition set_keylen x h := HashHandle (tbl h) (prev h) (next h) (hh_prev h) (hh_next h) (key h) x (hashv h).
Definition set_hashv x h := HashHandle (tbl h) (prev h) (next h) (hh_prev h) (hh_next h) (key h) (keylen h) x.

Definition set_buckets x t := HashTable x (num_buckets t) (log2_num_buckets t) (num_items t) (tail t)
  (ideal_chain_maxlen t) (nonideal_items t) (ineff_expands t) (noexpand t) (signature t).
Definition set_num_buckets x t := HashTable (buckets t) x (log2_num_buckets t) (num_items t) (tail t)
  (ideal_chain_maxlen t) (nonideal_items t) (ineff_expands t) (noexpand t) (signature t).
Definition set_log2_num_buckets x t := HashTable (buckets t) (num_buckets t) x (num_items t) (tail t)
  (ideal_chain_maxlen t) (nonideal_items t) (ineff_expands t) (noexpand t) (signature t).
Definition set_num_items x t := HashTable (buckets t) (num_buckets t) (log2_num_buckets t) x (tail t)
  (ideal_chain_maxlen t) (nonideal_items t) (ineff_expands t) (noexpand t) (signature t).
Definition set_tail x t := HashTable (buckets t) (num_buckets t) (log2_num_buckets t) (num_items t) x
  (ideal_chain_maxlen t) (nonideal_items t) (ineff_expands t) (noexpand t) (signature t).
Definition set_ideal_chain_maxlen x t := HashTable (buckets t) (num_buckets t) (log2_num_buckets t) (num_items t)
  (tail t) x (nonideal_items t) (ineff_expands t) (noexpand t) (signature t).
Definition set_nonideal_items x t := HashTable (buckets t) (num_buckets t) (log2_num_buckets t) (num_items t)
  (tail t) (ideal_chain_maxlen t) x (ineff_expands t) (noexpand t) (signature t).
Definition set_ineff_expands x t := HashTable (buckets t) (num_buckets t) (log2_num_buckets t) (num_items t)
  (tail t) (ideal_chain_maxlen t) (nonideal_items t) x (noexpand t) (signature t).
Definition set_noexpand x t := HashTable (buckets t) (num_buckets t) (log2_num_buckets t) (num_items t)
  (tail t) (ideal_chain_maxlen t) (nonideal_items t) (ineff_expands t) x (signature t).
Definition set_signature x t := HashTable (buckets t) (num_buckets t) (log2_num_buckets t) (num_items t)
  (tail t) (ideal_chain_maxlen t) (nonideal_items t) (ineff_expands t) (noexpand t) x.

Definition set_hh_head x b := HashBucket x (count b) (expand_mult b).
Definition set_count x b := HashBucket (hh_head b) x (expand_mult b).
Definition set_expand_mult x b := HashBucket (hh_head b) (count b) x.

(** The head of the table (the variable [pages]), the keys of the elements
    (their [va]), their hash handles, and the tables that are allocated. *)
Record hstate := HState {
  head : ptr;
  vas : gmap loc Z;
  handles : gmap loc UT_hash_handle;
  tables : gmap loc UT_hash_table }.

Definition put_head x s := HState x (vas s) (handles s) (tables s).
Definition put_handles x s := HState (head s) (vas s) x (tables s).
Definition put_tables x s := HState (head s) (vas s) (handles s) x.

(** ** The statements *)

Local Abbreviation M := (M hstate).

(** [p->f], [p->f = v] for a hash handle, a table and a bucket of an array. *)
Definition hld {A} (f : UT_hash_handle -> A) (p : ptr) : M A := fun s =>
  match p with
  | None => Fault Segv
  | Some x => match handles s !! x with None => Fault Segv | Some h => Ok (f h) s end
  end.
Definition hst (g : UT_hash_handle -> UT_hash_handle) (p : ptr) : M unit := fun s =>
  match p with
  | None => Fault Segv
  | Some x => match handles s !! x with
      | None => Fault Segv
      | Some h => Ok tt (put_handles (<[x := g h]> (handles s)) s)
      end
  end.
Definition tld {A} (f : UT_hash_table -> A) (p : ptr) : M A := fun s =>
  match p with
  | None => Fault Segv
  | Some x => match tables s !! x with None => Fault Segv | Some t => Ok (f t) s end
  end.
Definition tst (g : UT_hash_table -> UT_hash_table) (p : ptr) : M unit := fun s =>
  match p with
  | None => Fault Segv
  | Some x => match tables s !! x with
      | None => Fault Segv
      | Some t => Ok tt (put_tables (<[x := g t]> (tables s)) s)
      end
  end.
Definition bucket_at (a : bucket_array) (i : Z) : UT_hash_bucket :=
  default (HashBucket None 0 0) (bcells a !! i).
Definition bld {A} (f : UT_hash_bucket -> A) (a : bucket_array) (i : Z) : M A :=
  if bool_decide (0 <= i < bsize a) then mret (f (bucket_at a i)) else fail Segv.
Definition bst (g : UT_hash_bucket -> UT_hash_bucket) (a : bucket_array) (i : Z) : M bucket_array :=
  if bool_decide (0 <= i < bsize a) then mret (BucketArray (bsize a) (<[i := g (bucket_at a i)]> (bcells a)))
  else fail Segv.

Definition get_head : M ptr := fun s => Ok (head s) s.
Definition set_head (p : ptr) : M unit := fun s => Ok tt (put_head p s).

(** An element's [va], through a pointer to it. *)
Definition va_at (p : ptr) : M Z := fun s =>
  match p with
  | None => Fault Segv
  | Some x => match vas s !! x with None => Fault Segv | Some v => Ok v s end
  end.

(** The chains of a bucket end within as many steps as there are handles. *)
Definition chain_fuel : M nat := fun s => Ok (S (size (handles s))) s.

(** ** Jenkins' hash *)

Definition HASH_JEN_MIX (abc : Z * Z * Z) : Z * Z * Z :=
  let '(a, b, c) := abc in
  let a := Z.lxor (u32 (u32 (a - b) - c)) (Z.shiftr c 13) in
  let b := Z.lxor (u32 (u32 (b - c) - a)) (u32 (Z.shiftl a 8)) in
  let c := Z.lxor (u32 (u32 (c - a) - b)) (Z.shiftr b 13) in
  let a := Z.lxor (u32 (u32 (a - b) - c)) (Z.shiftr c 12) in
  let b := Z.lxor (u32 (u32 (b - c) - a)) (u32 (Z.shiftl a 16)) in
  let c := Z.lxor (u32 (u32 (c - a) - b)) (Z.shiftr b 5) in
  let a := Z.lxor (u32 (u32 (a - b) - c)) (Z.shiftr c 3) in
  let b := Z.lxor (u32 (u32 (b - c) - a)) (u32 (Z.shiftl a 10)) in
  let c := Z.lxor (u32 (u32 (c - a) - b)) (Z.shiftr b 15) in
  (a, b, c).

(** Four bytes of the key as an [unsigned]. *)
Definition word (b0 b1 b2 b3 : Z) : Z :=
  u32 (u32 (u32 (b0 + u32 (Z.shiftl b1 8)) + u32 (Z.shiftl b2 16)) + u32 (Z.shiftl b3 24)).

(** [while (_hj_k >= 12U)]: whole blocks of twelve bytes. *)
Fixpoint jen_blocks (k : list Z) (ijh : Z * Z * Z) : list Z * (Z * Z * Z) :=
  match k with
  | b0 :: b1 :: b2 :: b3 :: b4 :: b5 :: b6 :: b7 :: b8 :: b9 :: b10 :: b11 :: k' =>
      let '(i, j, h) := ijh in
      jen_blocks k' (HASH_JEN_MIX (u32 (i + word b0 b1 b2 b3), u32 (j + word b4 b5 b6 b7),
        u32 (h + word b8 b9 b10 b11)))
  | _ => (k, ijh)
  end.

(** The [switch] whose cases all fall through: the case [n] adds byte [n - 1]
    if at least [n] bytes are left. *)
Definition jen_case (rest : list Z) (n shift : Z) (x : Z) : Z :=
  if bool_decide (n <= Z.of_nat (length rest))
  then u32 (x + u32 (Z.shiftl (nth (Z.to_nat (n - 1)) rest 0) shift)) else x.

Definition HASH_JEN (k : list Z) : Z :=
  let '(rest, (i, j, h)) := jen_blocks k (0x9e3779b9, 0x9e3779b9, 0xfeedbeef) in
  let h := u32 (h + u32 (Z.of_nat (length k))) in
  let h := jen_case rest 9 8 (jen_case rest 10 16 (jen_case rest 11 24 h)) in
  let j := jen_case rest 5 0 (jen_case rest 6 8 (jen_case rest 7 16 (jen_case rest 8 24 j))) in
  let i := jen_case rest 1 0 (jen_case rest 2 8 (jen_case rest 3 16 (jen_case rest 4 24 i))) in
  snd (HASH_JEN_MIX (i, j, h)).

(** The bytes of a [uint64_t], the lowest first. *)
Definition bytes_of (v : Z) : list Z :=
  (fun i => Z.land (Z.shiftr v (8 * i)) 255) <$> [0; 1; 2; 3; 4; 5; 6; 7].

Definition HASH_VALUE (v : Z) : Z := HASH_JEN (bytes_of v).

Definition HASH_TO_BKT (hashv num_bkts : Z) : Z := Z.land hashv (u32 (num_bkts - 1)).

(** ** The macros *)

Section macros.

(** [libc_malloc], outside the repository: whether an allocation of [sz]
    bytes succeeds in a state. *)
Variable malloc_ok : hstate -> Z -> bool.

Definition sizeof_bucket : Z := 16.
Definition sizeof_table : Z := 64.

Definition uthash_fatal {A} : M A := fail (SysFail "uthash: out of memory").

Definition uthash_malloc (sz : Z) : M unit := fun s =>
  if malloc_ok s sz then Ok tt s else uthash_fatal s.
Definition malloc_buckets (n : Z) : M bucket_array :=
  uthash_malloc (u64 (n * sizeof_bucket));; mret (BucketArray n ∅).
Definition zeroed_table : UT_hash_table := HashTable (BucketArray 0 ∅) 0 0 0 NULL 0 0 0 0 0.
Definition new_table : M ptr := fun s =>
  let t := fresh (dom (tables s)) in Ok (Some t) (put_tables (<[t := zeroed_table]> (tables s)) s).
Definition malloc_table : M ptr := uthash_malloc sizeof_table;; new_table.
Definition free_table (t : ptr) : M unit := fun s =>
  match t with
  | None => Ok tt s
  | Some x => Ok tt (put_tables (delete x (tables s)) s)
  end.

(** [memcmp] of two keys of eight bytes *)
Definition HASH_KEYCMP (a : ptr) (v : Z) : M bool := k ← va_at a; mret (bool_decide (k = v)).

Definition find_in_bkt_body (v keylen_in hashval : Z) (out : ptr) : M (ptr + ptr) :=
  if bool_decide (out = NULL) then mret (inr out)
  else
    hv ← hld hashv out;
    kl ← hld keylen out;
    found ← (if bool_decide (hv = hashval) && bool_decide (kl = keylen_in)
             then k ← hld key out; HASH_KEYCMP k v else mret false);
    if (found : bool) then mret (inr out)
    else nxt ← hld hh_next out; mret (inl nxt).

Definition HASH_FIND_IN_BKT (bkt : UT_hash_bucket) (v keylen_in hashval : Z) : M ptr :=
  fuel ← chain_fuel;
  loop "HASH_FIND_IN_BKT" fuel (find_in_bkt_body v keylen_in hashval) (hh_head bkt).

Definition HASH_FIND_BYHASHVALUE (v keylen hashval : Z) : M ptr :=
  hd ← get_head;
  if bool_decide (hd = NULL) then mret NULL
  else
    t ← hld tbl hd;
    n ← tld num_buckets t;
    a ← tld buckets t;
    bkt ← bld id a (HASH_TO_BKT hashval n);
    HASH_FIND_IN_BKT bkt v keylen hashval.

Definition HASH_FIND (v keylen : Z) : M ptr :=
  hd ← get_head;
  if bool_decide (hd = NULL) then mret NULL
  else HASH_FIND_BYHASHVALUE v keylen (HASH_VALUE v).

Definition HASH_MAKE_TABLE (hd : ptr) : M unit :=
  t ← malloc_table;
  hst (set_tbl t) hd;;
  tst (set_tail hd) t;;
  tst (set_num_buckets HASH_INITIAL_NUM_BUCKETS) t;;
  tst (set_log2_num_buckets HASH_INITIAL_NUM_BUCKETS_LOG2) t;;
  a ← malloc_buckets HASH_INITIAL_NUM_BUCKETS;
  tst (set_buckets a) t;;
  tst (set_signature HASH_SIGNATURE) t.

Definition HASH_APPEND_LIST (add : ptr) : M unit :=
  hd ← get_head;
  hst (set_next NULL) add;;
  t ← hld tbl hd;
  last ← tld tail t;
  hst (set_prev last) add;;
  hst (set_next add) last;;
  tst (set_tail add) t.

(** Counting an element in its new bucket: a chain beyond the ideal length is
    allowed to grow before it asks for the next expansion. *)
Definition count_one (t : ptr) (new_buckets : bucket_array) (bkt : Z) : M bucket_array :=
  new_buckets ← bst (fun b => set_count (u32 (count b + 1)) b) new_buckets bkt;
  c ← bld count new_buckets bkt;
  ideal ← tld ideal_chain_maxlen t;
  if bool_decide (ideal < c) then
    tst (fun t => set_nonideal_items (u32 (nonideal_items t + 1)) t) t;;
    m ← bld expand_mult new_buckets bkt;
    if bool_decide (u32 (m * ideal) < c)
    then bst (fun b => set_expand_mult (u32 (expand_mult b + 1)) b) new_buckets bkt
    else mret new_buckets
  else mret new_buckets.

(** One element of an old chain moves to its bucket in the new array. *)
Definition expand_one (t : ptr) : ptr * bucket_array -> M ((ptr * bucket_array) + bucket_array) :=
  fun '(thh, new_buckets) =>
  if bool_decide (thh = NULL) then mret (inr new_buckets)
  else
    hh_nxt ← hld hh_next thh;
    hv ← hld hashv thh;
    n ← tld num_buckets t;
    let bkt := HASH_TO_BKT hv (u32 (n * 2)) in
    new_buckets ← count_one t new_buckets bkt;
    hst (set_hh_prev NULL) thh;;
    hd ← bld hh_head new_buckets bkt;
    hst (set_hh_next hd) thh;;
    (if bool_decide (hd = NULL) then mret tt else hst (set_hh_prev thh) hd);;
    new_buckets ← bst (set_hh_head thh) new_buckets bkt;
    mret (inl (hh_nxt, new_buckets)).

Definition expand_bucket (t : ptr) : Z * bucket_array -> M ((Z * bucket_array) + bucket_array) :=
  fun '(i, new_buckets) =>
  n ← tld num_buckets t;
  if bool_decide (i < n) then
    a ← tld buckets t;
    thh ← bld hh_head a i;
    fuel ← chain_fuel;
    new_buckets ← loop "HASH_EXPAND_BUCKETS" fuel (expand_one t) (thh, new_buckets);
    mret (inl (u32 (i + 1), new_buckets))
  else mret (inr new_buckets).

(** [x >> n] of an [unsigned x] is undefined from the width of [x] on. *)
Definition shift_count (n : Z) : M unit :=
  if bool_decide (n < 32) then mret tt else fail (Undefined "shift by 32 bits").

Definition HASH_EXPAND_BUCKETS (t : ptr) : M unit :=
  n ← tld num_buckets t;
  new_buckets ← malloc_buckets (2 * n);
  lg ← tld log2_num_buckets t;
  shift_count (u32 (lg + 1));;
  tst (fun t => set_ideal_chain_maxlen
    (u32 (Z.shiftr (num_items t) (u32 (log2_num_buckets t + 1)) +
      (if bool_decide (Z.land (num_items t) (u32 (u32 (num_buckets t * 2) - 1)) <> 0) then 1 else 0))) t) t;;
  tst (set_nonideal_items 0) t;;
  new_buckets ← loop "HASH_EXPAND_BUCKETS" (S (Z.to_nat n)) (expand_bucket t) (0, new_buckets);
  tst (fun t => set_num_buckets (u32 (num_buckets t * 2)) t) t;;
  tst (fun t => set_log2_num_buckets (u32 (log2_num_buckets t + 1)) t) t;;
  tst (set_buckets new_buckets) t;;
  tst (fun t => set_ineff_expands
    (if bool_decide (Z.shiftr (num_items t) 1 < nonideal_items t) then u32 (ineff_expands t + 1) else 0) t) t;;
  ineff ← tld ineff_expands t;
  if bool_decide (1 < ineff) then tst (set_noexpand 1) t else mret tt.

(** [i] is the index of the bucket in the array of the table [t]. *)
Definition HASH_ADD_TO_BKT (t : ptr) (i : Z) (addhh : ptr) : M unit :=
  a ← tld buckets t;
  a ← bst (fun b => set_count (u32 (count b + 1)) b) a i;
  hd ← bld hh_head a i;
  hst (set_hh_next hd) addhh;;
  hst (set_hh_prev NULL) addhh;;
  (if bool_decide (hd = NULL) then mret tt else hst (set_hh_prev addhh) hd);;
  a ← bst (set_hh_head addhh) a i;
  tst (set_buckets a) t;;
  b ← bld id a i;
  t' ← hld tbl addhh;
  no ← tld noexpand t';
  if bool_decide (u32 (u32 (expand_mult b + 1) * HASH_BKT_CAPACITY_THRESH) <= count b) && bool_decide (no = 0)
  then HASH_EXPAND_BUCKETS t' else mret tt.

Definition HASH_ADD_TO_TABLE (hashval : Z) (add : ptr) : M unit :=
  hd ← get_head;
  t ← hld tbl hd;
  tst (fun t => set_num_items (u32 (num_items t + 1)) t) t;;
  n ← tld num_buckets t;
  HASH_ADD_TO_BKT t (HASH_TO_BKT hashval n) add.

(** [keyptr] is [&add->va]. *)
Definition HASH_ADD_KEYPTR_BYHASHVALUE (keyptr : ptr) (keylen_in hashval : Z) (add : ptr) : M unit :=
  hst (set_hashv hashval) add;;
  hst (set_key keyptr) add;;
  hst (set_keylen (u32 keylen_in)) add;;
  hd ← get_head;
  (if bool_decide (hd = NULL) then
     hst (set_next NULL) add;;
     hst (set_prev NULL) add;;
     HASH_MAKE_TABLE add;;
     set_head add
   else
     t ← hld tbl hd;
     hst (set_tbl t) add;;
     HASH_APPEND_LIST add);;
  HASH_ADD_TO_TABLE hashval add.

Definition HASH_ADD (keylen_in : Z) (add : ptr) : M unit :=
  v ← va_at add;
  HASH_ADD_KEYPTR_BYHASHVALUE add keylen_in (HASH_VALUE v) add.

Definition HASH_DEL_IN_BKT (a : bucket_array) (i : Z) (delhh : ptr) : M bucket_array :=
  a ← bst (fun b => set_count (u32 (count b - 1)) b) a i;
  hd ← bld hh_head a i;
  nxt ← hld hh_next delhh;
  a ← (if bool_decide (hd = delhh) then bst (set_hh_head nxt) a i else mret a);
  prv ← hld hh_prev delhh;
  (if bool_decide (prv = NULL) then mret tt else hst (set_hh_next nxt) prv);;
  (if bool_decide (nxt = NULL) then mret tt else hst (set_hh_prev prv) nxt);;
  mret a.

Definition HASH_DELETE_HH (del : ptr) : M unit :=
  prv ← hld prev del;
  nxt ← hld next del;
  hd ← get_head;
  t ← hld tbl hd;
  if bool_decide (prv = NULL) && bool_decide (nxt = NULL) then free_table t;; set_head NULL
  else
    last ← tld tail t;
    (if bool_decide (del = last) then tst (set_tail prv) t else mret tt);;
    (if bool_decide (prv = NULL) then set_head nxt else hst (set_next nxt) prv);;
    (if bool_decide (nxt = NULL) then mret tt else hst (set_prev prv) nxt);;
    hv ← hld hashv del;
    hd ← get_head;
    t ← hld tbl hd;
    n ← tld num_buckets t;
    a ← tld buckets t;
    a ← HASH_DEL_IN_BKT a (HASH_TO_BKT hv n) del;
    tst (set_buckets a) t;;
    tst (fun t => set_num_items (u32 (num_items t - 1)) t) t.
End macros.
