(* ===== verification/UthashProofs.v ===== *)
(** * The hash table of tracked pages: proofs

    [represents s m]: the hash table of the state [s] holds the elements of
    the finite map [m] from keys to elements.  The chains of the buckets and
    the list in insertion order are doubly linked lists over the same
    handles; both are instances of [chained]. *)

From S2P Require Import Prelude State Fifo Uthash.

#[local] Arguments HASH_VALUE : simpl never.
#[local] Arguments HASH_TO_BKT : simpl never.

(** ** Doubly linked lists

    [g x] are the two links of [x], backward and forward. *)

Definition links : Type := loc -> option (ptr * ptr).

Fixpoint chained (g : links) (pp : ptr) (xs : list loc) (qq : ptr) : Prop :=
  match xs with
  | [] => True
  | x :: tl => g x = Some (pp, hd_or tl qq) /\ chained g (Some x) tl qq
  end.

(** The forward links alone, up to the end. *)
Fixpoint path (g : links) (xs : list loc) : Prop :=
  match xs with
  | [] => True
  | x :: tl => snd <$> g x = Some (hd_or tl None) /\ path g tl
  end.

Definition set_fwd (p v : ptr) (g : links) : links := fun z =>
  if bool_decide (p = Some z) then (fun l => (fst l, v)) <$> g z else g z.
Definition set_bwd (p v : ptr) (g : links) : links := fun z =>
  if bool_decide (p = Some z) then (fun l => (v, snd l)) <$> g z else g z.

Section chains.
Implicit Types (g : links) (xs ys : list loc).

Lemma chained_ext g g' pp xs qq :
  (forall x, x ∈ xs -> g' x = g x) -> chained g pp xs qq -> chained g' pp xs qq.
Proof.
  revert pp. induction xs as [|x xs IH]; intros pp Heq; simpl; [done|]. intros [Hx Hs].
  split; [by rewrite Heq by left|]. apply IH; [|done]. intros. apply Heq. by right.
Qed.

Lemma chained_app g pp xs ys qq :
  chained g pp (xs ++ ys) qq <-> chained g pp xs (hd_or ys qq) /\ chained g (last_or pp xs) ys qq.
Proof.
  revert pp. induction xs as [|x xs IH]; intros pp; simpl; [tauto|]. rewrite hd_or_app, IH. tauto.
Qed.

Lemma chained_elem g pp xs qq x : chained g pp xs qq -> x ∈ xs -> is_Some (g x).
Proof.
  revert pp. induction xs as [|y xs IH]; intros pp; [by intros _ ?%elem_of_nil|].
  intros [Hy Hs] [->|Hx]%elem_of_cons; [by eexists|by eapply IH].
Qed.

Lemma path_ext g g' xs : (forall x, x ∈ xs -> g' x = g x) -> path g xs -> path g' xs.
Proof.
  induction xs as [|x xs IH]; intros Heq; simpl; [done|]. intros [Hx Hs].
  split; [by rewrite Heq by left|]. apply IH; [|done]. intros. apply Heq. by right.
Qed.

Lemma chained_path g pp xs : chained g pp xs None -> path g xs.
Proof.
  revert pp. induction xs as [|x xs IH]; intros pp; simpl; [done|]. intros [-> Hs]. split; [done|by eapply IH].
Qed.

Lemma last_or_elem p xs x : last_or p xs = Some x -> x ∈ xs \/ p = Some x /\ xs = [].
Proof.
  revert p. induction xs as [|y xs IH]; intros p; simpl; [by right|]. intros H.
  apply IH in H as [H|[[= ->] _]]; left; [by right|by left].
Qed.

Lemma hd_or_elem xs x : hd_or xs None = Some x -> x ∈ xs.
Proof. destruct xs; [done|]. intros [= ->]. left. Qed.

(** An element is put in front. *)
Lemma chained_push g x xs :
  x ∉ xs -> NoDup xs -> g x = Some (None, hd_or xs None) -> chained g None xs None ->
  chained (set_bwd (hd_or xs None) (Some x) g) None (x :: xs) None.
Proof.
  intros Hx Hnd Hg Hs. unfold set_bwd. split.
  - rewrite bool_decide_eq_false_2; [done|]. intros ?%hd_or_elem. done.
  - destruct xs as [|y xs]; [done|]. destruct Hs as [Hy Hs]. apply NoDup_cons in Hnd as [Hny _]. split.
    + simpl. rewrite bool_decide_eq_true_2 by done. by rewrite Hy.
    + eapply chained_ext, Hs. intros z Hz. rewrite bool_decide_eq_false_2; [done|]. intros [= ->]. done.
Qed.

(** An element is put at the end. *)
Lemma chained_snoc g x xs :
  x ∉ xs -> NoDup xs -> g x = Some (last_or None xs, None) -> chained g None xs None ->
  chained (set_fwd (last_or None xs) (Some x) g) None (xs ++ [x]) None.
Proof.
  intros Hx Hnd Hg Hs. apply chained_app. simpl. split; [|split; [|done]].
  - destruct xs as [|y ys _] using rev_ind; [done|]. rewrite last_or_app. simpl.
    apply chained_app in Hs as [Hs [Hy _]]. apply chained_app. unfold set_fwd. split; [|split; [|done]].
    + eapply chained_ext, Hs. intros z Hz. rewrite bool_decide_eq_false_2; [done|]. intros [= ->].
      apply NoDup_app in Hnd as (_ & Hnd & _). apply (Hnd z Hz). left.
    + rewrite bool_decide_eq_true_2 by done. by rewrite Hy.
  - unfold set_fwd. rewrite bool_decide_eq_false_2; [done|]. intros [?|[? _]]%last_or_elem; done.
Qed.

(** An element is taken out. *)
Lemma chained_delete g x xs ys :
  NoDup (xs ++ x :: ys) -> chained g None (xs ++ x :: ys) None ->
  chained (set_bwd (hd_or ys None) (last_or None xs) (set_fwd (last_or None xs) (hd_or ys None) g)) None (xs ++ ys) None.
Proof.
  intros Hnd [Hs1 [Hx Hs2]]%chained_app. apply NoDup_app in Hnd as (Hn1 & Hn12 & [Hxy Hn2]%NoDup_cons).
  assert (forall z, z ∈ xs -> z ∉ ys) as Hdis by (intros z Hz Hy; apply (Hn12 z Hz); by right).
  apply chained_app. split.
  - destruct xs as [|y xs' _] using rev_ind; [done|]. rewrite last_or_app in *. simpl in *.
    apply chained_app in Hs1 as [Hs1 [Hy _]]. simpl in Hy. apply chained_app. split; [|split; [|done]].
    + eapply chained_ext, Hs1. intros z Hz. unfold set_bwd, set_fwd.
      rewrite bool_decide_eq_false_2.
      2:{ intros Hh%hd_or_elem. apply (Hdis z); [|done]. apply elem_of_app. by left. }
      rewrite bool_decide_eq_false_2; [done|]. intros [= ->].
      apply NoDup_app in Hn1 as (_ & Hn1 & _). apply (Hn1 z Hz). left.
    + unfold set_bwd, set_fwd. rewrite bool_decide_eq_false_2.
      2:{ intros Hh%hd_or_elem. apply (Hdis y); [|done]. apply elem_of_app. right. left. }
      rewrite bool_decide_eq_true_2 by done. by rewrite Hy.
  - destruct ys as [|y ys]; [done|]. destruct Hs2 as [Hy Hs2]. apply NoDup_cons in Hn2 as [Hny _].
    assert (forall z, z ∈ y :: ys -> last_or None xs <> Some z) as Hlast.
    { intros z Hz [Hl|[? _]]%last_or_elem; [|done]. by apply (Hdis z). }
    split.
    + unfold set_bwd, set_fwd. simpl. rewrite bool_decide_eq_true_2 by done.
      rewrite bool_decide_eq_false_2 by (apply Hlast; left). by rewrite Hy.
    + eapply chained_ext, Hs2. intros z Hz. unfold set_bwd, set_fwd. simpl.
      rewrite bool_decide_eq_false_2 by (intros [= ->]; done).
      rewrite bool_decide_eq_false_2 by (apply Hlast; by right). done.
Qed.
End chains.

(** ** The two lists a handle is on, and the rest of it *)

Definition app_of (H : gmap loc UT_hash_handle) : links := fun x => (fun h => (prev h, next h)) <$> H !! x.
Definition bkt_of (H : gmap loc UT_hash_handle) : links := fun x => (fun h => (hh_prev h, hh_next h)) <$> H !! x.
Definition meta_of (H : gmap loc UT_hash_handle) (x : loc) : option (ptr * ptr * Z * Z) :=
  (fun h => (tbl h, key h, keylen h, hashv h)) <$> H !! x.

(** A store through a pointer that may be NULL, which the code tests. *)
Definition alter_at (g : UT_hash_handle -> UT_hash_handle) (p : ptr) (H : gmap loc UT_hash_handle) :=
  match p with None => H | Some x => alter g x H end.

Section projections.
Implicit Types (H : gmap loc UT_hash_handle) (p v : ptr).

Lemma proj_alter {B} (f : UT_hash_handle -> B) g p H z :
  f <$> alter_at g p H !! z = if bool_decide (p = Some z) then f ∘ g <$> H !! z else f <$> H !! z.
Proof.
  destruct p as [x|]; simpl; [|done]. destruct (decide (x = z)) as [->|Hne].
  - rewrite bool_decide_eq_true_2, lookup_alter_eq by done. by destruct (H !! z).
  - rewrite bool_decide_eq_false_2, lookup_alter_ne by congruence. done.
Qed.

Lemma proj_alter_same {B} (f : UT_hash_handle -> B) g p H z :
  (forall h, f (g h) = f h) -> f <$> alter_at g p H !! z = f <$> H !! z.
Proof. intros Hf. rewrite proj_alter. case_bool_decide; [|done]. destruct (H !! z); simpl; by rewrite ?Hf. Qed.

Lemma app_set_prev p v H z : app_of (alter_at (set_prev v) p H) z = set_bwd p v (app_of H) z.
Proof. unfold app_of, set_bwd. rewrite proj_alter. case_bool_decide; [|done]. by destruct (H !! z). Qed.
Lemma app_set_next p v H z : app_of (alter_at (set_next v) p H) z = set_fwd p v (app_of H) z.
Proof. unfold app_of, set_fwd. rewrite proj_alter. case_bool_decide; [|done]. by destruct (H !! z). Qed.
Lemma bkt_set_prev p v H z : bkt_of (alter_at (set_hh_prev v) p H) z = set_bwd p v (bkt_of H) z.
Proof. unfold bkt_of, set_bwd. rewrite proj_alter. case_bool_decide; [|done]. by destruct (H !! z). Qed.
Lemma bkt_set_next p v H z : bkt_of (alter_at (set_hh_next v) p H) z = set_fwd p v (bkt_of H) z.
Proof. unfold bkt_of, set_fwd. rewrite proj_alter. case_bool_decide; [|done]. by destruct (H !! z). Qed.

Lemma alter_at_some g p H z : is_Some (alter_at g p H !! z) <-> is_Some (H !! z).
Proof. destruct p as [x|]; [|done]. simpl. apply lookup_alter_is_Some. Qed.
Lemma alter_at_size g p H : size (alter_at g p H) = size H.
Proof.
  rewrite <- !(size_dom (D := gset loc)). destruct p as [x|]; [|done]. simpl. by rewrite dom_alter_L.
Qed.
End projections.

(** ** Proof rules of the statements *)

Section rules.
Implicit Types (s : hstate) (E : fault -> Prop).

Lemma wp_hld {A B} (π : UT_hash_handle -> B) (f : UT_hash_handle -> A) (g : B -> A) E x b s (Q : A -> hstate -> Prop) :
  π <$> handles s !! x = Some b -> (forall h, f h = g (π h)) -> Q (g b) s -> wp E (hld f (Some x)) s Q.
Proof.
  intros Hx Hf HQ. unfold wp, hld. destruct (handles s !! x) as [h|]; [|done]. simpl in Hx. injection Hx as <-. by rewrite Hf.
Qed.

Lemma wp_hst E g x s (Q : unit -> hstate -> Prop) :
  is_Some (handles s !! x) -> Q tt (put_handles (alter_at g (Some x) (handles s)) s) -> wp E (hst g (Some x)) s Q.
Proof.
  intros [h Hx] HQ. unfold wp, hst. rewrite Hx. simpl in HQ.
  assert (alter g x (handles s) = <[x := g h]> (handles s)) as Heq; [|by rewrite <- Heq].
  apply map_eq. intros z. destruct (decide (x = z)) as [->|].
  - by rewrite lookup_alter_eq, lookup_insert_eq, Hx.
  - by rewrite lookup_alter_ne, lookup_insert_ne.
Qed.

Lemma wp_hst_at E g p s (Q : unit -> hstate -> Prop) :
  (forall x, p = Some x -> is_Some (handles s !! x)) -> Q tt (put_handles (alter_at g p (handles s)) s) ->
  wp E (if bool_decide (p = NULL) then mret tt else hst g p) s Q.
Proof.
  intros Hp HQ. destruct p as [x|]; [|by destruct s]. by apply wp_hst; [apply Hp|].
Qed.

Lemma wp_tld {A} E (f : UT_hash_table -> A) t T s (Q : A -> hstate -> Prop) :
  tables s !! t = Some T -> Q (f T) s -> wp E (tld f (Some t)) s Q.
Proof. intros Ht HQ. unfold wp, tld. by rewrite Ht. Qed.

Lemma wp_tst E g t T s (Q : unit -> hstate -> Prop) :
  tables s !! t = Some T -> Q tt (put_tables (<[t := g T]> (tables s)) s) -> wp E (tst g (Some t)) s Q.
Proof. intros Ht HQ. unfold wp, tst. by rewrite Ht. Qed.

Lemma wp_bld {A} E (f : UT_hash_bucket -> A) a i s (Q : A -> hstate -> Prop) :
  0 <= i < bsize a -> Q (f (bucket_at a i)) s -> wp E (bld f a i) s Q.
Proof. intros Hi HQ. unfold bld. by rewrite bool_decide_eq_true_2. Qed.

Definition bput (g : UT_hash_bucket -> UT_hash_bucket) (a : bucket_array) (i : Z) : bucket_array :=
  BucketArray (bsize a) (<[i := g (bucket_at a i)]> (bcells a)).

Lemma wp_bst E g a i s (Q : bucket_array -> hstate -> Prop) :
  0 <= i < bsize a -> Q (bput g a i) s -> wp E (bst g a i) s Q.
Proof. intros Hi HQ. unfold bst. by rewrite bool_decide_eq_true_2. Qed.

Lemma bput_eq g a i : bucket_at (bput g a i) i = g (bucket_at a i).
Proof. unfold bucket_at, bput. simpl. by rewrite lookup_insert_eq. Qed.
Lemma bput_ne g a i j : i <> j -> bucket_at (bput g a i) j = bucket_at a j.
Proof. intros. unfold bucket_at, bput. simpl. by rewrite lookup_insert_ne. Qed.

Lemma wp_get_head E s (Q : ptr -> hstate -> Prop) : Q (head s) s -> wp E get_head s Q.
Proof. done. Qed.
Lemma wp_set_head E p s (Q : unit -> hstate -> Prop) : Q tt (put_head p s) -> wp E (set_head p) s Q.
Proof. done. Qed.
Lemma wp_va_at E x v s (Q : Z -> hstate -> Prop) : vas s !! x = Some v -> Q v s -> wp E (va_at (Some x)) s Q.
Proof. intros Hx HQ. unfold wp, va_at. by rewrite Hx. Qed.
Lemma wp_chain_fuel E s (Q : nat -> hstate -> Prop) : Q (S (size (handles s))) s -> wp E chain_fuel s Q.
Proof. done. Qed.
End rules.

(** ** The buckets *)

Definition hv_of (H : gmap loc UT_hash_handle) (x : loc) : Z :=
  match meta_of H x with Some (_, _, _, hv) => hv | None => 0 end.

(** The bucket of [x] among [2 ^ lg]. *)
Definition home (H : gmap loc UT_hash_handle) (lg : Z) (x : loc) : Z := HASH_TO_BKT (hv_of H x) (2 ^ lg).

Lemma to_bkt_mod hv lg : 0 <= lg <= 32 -> HASH_TO_BKT hv (2 ^ lg) = hv mod 2 ^ lg.
Proof.
  intros Hlg. unfold HASH_TO_BKT. rewrite u32_small, <- Z.land_ones by lia || (
    pose proof (Z.pow_pos_nonneg 2 lg ltac:(lia) ltac:(lia)); pose proof (Z.pow_le_mono_r 2 lg 32 ltac:(lia) ltac:(lia)); lia).
  by rewrite Z.ones_equiv, Z.sub_1_r.
Qed.

Lemma to_bkt_range hv lg : 0 <= lg <= 32 -> 0 <= HASH_TO_BKT hv (2 ^ lg) < 2 ^ lg.
Proof. intros Hlg. rewrite to_bkt_mod by done. apply Z.mod_pos_bound, Z.pow_pos_nonneg; lia. Qed.

Definition bucket_ok (g : links) (b : UT_hash_bucket) (xs : list loc) : Prop :=
  hh_head b = hd_or xs None /\ count b = Z.of_nat (length xs) /\ chained g None xs None /\ NoDup xs.

(** The array [a] of [2 ^ lg] buckets holds the elements [es], each in the
    chain [ch] of its home. *)
Record buckets_ok (H : gmap loc UT_hash_handle) (a : bucket_array) (lg : Z) (es : list loc) (ch : Z -> list loc)
    : Prop := {
  bo_size : bsize a = 2 ^ lg;
  bo_bucket : forall i, 0 <= i < 2 ^ lg -> bucket_ok (bkt_of H) (bucket_at a i) (ch i);
  bo_elem : forall i x, 0 <= i < 2 ^ lg -> x ∈ ch i <-> x ∈ es /\ home H lg x = i;
  bo_dom : forall x, x ∈ es -> is_Some (H !! x) }.

(** What the stores to the links of the buckets leave alone. *)
Record links_only (H H' : gmap loc UT_hash_handle) : Prop := {
  lo_app : forall x, app_of H' x = app_of H x;
  lo_meta : forall x, meta_of H' x = meta_of H x;
  lo_some : forall x, is_Some (H' !! x) <-> is_Some (H !! x);
  lo_size : size H' = size H }.

#[export] Instance links_only_preorder : PreOrder links_only.
Proof.
  split; [by split|]. intros ? ? ? [A1 M1 S1 Z1] [A2 M2 S2 Z2].
  split; [intros ?; by rewrite A2|intros ?; by rewrite M2|intros ?; by rewrite S2|congruence].
Qed.

Lemma links_only_bkt g p H :
  (exists v, g = set_hh_prev v \/ g = set_hh_next v) -> links_only H (alter_at g p H).
Proof.
  intros [v Hg]. split.
  - intros x. apply proj_alter_same. intros h. by destruct Hg as [-> | ->].
  - intros x. apply proj_alter_same. intros h. by destruct Hg as [-> | ->].
  - intros x. apply alter_at_some.
  - apply alter_at_size.
Qed.

Lemma links_only_home H H' lg x : links_only H H' -> home H' lg x = home H lg x.
Proof. intros HL. unfold home, hv_of. by rewrite (lo_meta _ _ HL). Qed.

Section buckets.
Implicit Types (H : gmap loc UT_hash_handle) (a : bucket_array) (es : list loc) (ch : Z -> list loc).

Lemma chain_size H xs : NoDup xs -> (forall x, x ∈ xs -> is_Some (H !! x)) -> (length xs <= size H)%nat.
Proof. apply NoDup_length_map. Qed.

Lemma bucket_disjoint H a lg es ch i j x :
  buckets_ok H a lg es ch -> 0 <= i < 2 ^ lg -> 0 <= j < 2 ^ lg -> x ∈ ch i -> x ∈ ch j -> i = j.
Proof. intros B Hi Hj [_ <-]%(bo_elem _ _ _ _ _ B) [_ <-]%(bo_elem _ _ _ _ _ B); done. Qed.

Lemma buckets_length H a lg es ch i :
  buckets_ok H a lg es ch -> 0 <= i < 2 ^ lg -> (length (ch i) <= size H)%nat.
Proof.
  intros B Hi. destruct (bo_bucket _ _ _ _ _ B i Hi) as (_ & _ & _ & Hnd). apply chain_size; [done|].
  intros x Hx. apply (bo_elem _ _ _ _ _ B) in Hx as [Hx _]; [|done]. by apply (bo_dom _ _ _ _ _ B).
Qed.

Lemma buckets_ext H a lg es es' ch :
  buckets_ok H a lg es ch -> (forall x, x ∈ es <-> x ∈ es') -> buckets_ok H a lg es' ch.
Proof.
  intros [? ? Hel Hd] Hes. split; [done|done| |].
  - intros i x Hi. by rewrite <- Hes, Hel.
  - intros x Hx. by apply Hd, Hes.
Qed.

Lemma buckets_room H a lg es ch i x :
  buckets_ok H a lg es ch -> 0 <= i < 2 ^ lg -> x ∉ es -> is_Some (H !! x) -> (length (ch i) < size H)%nat.
Proof.
  intros B Hi Hx Hd. destruct (bo_bucket _ _ _ _ _ B i Hi) as (_ & _ & _ & Hnd).
  apply (chain_size H (x :: ch i)).
  - constructor; [|done]. intros [? _]%(bo_elem _ _ _ _ _ B); done.
  - intros z [-> |Hz]%elem_of_cons; [done|]. apply (bo_elem _ _ _ _ _ B) in Hz as [Hz _]; [|done].
    by apply (bo_dom _ _ _ _ _ B).
Qed.

(** [x] is put in front of the chain of its home. *)
Lemma buckets_push H H' a a' lg es ch x :
  buckets_ok H a lg es ch -> links_only H H' -> 0 <= lg <= 32 -> x ∉ es -> is_Some (H !! x) ->
  let i := home H lg x in
  (forall z, z <> x -> bkt_of H' z = set_bwd (hd_or (ch i) None) (Some x) (bkt_of H) z) ->
  bkt_of H' x = Some (None, hd_or (ch i) None) ->
  bsize a' = bsize a -> (forall j, j <> i -> bucket_at a' j = bucket_at a j) ->
  hh_head (bucket_at a' i) = Some x -> count (bucket_at a' i) = Z.of_nat (length (ch i)) + 1 ->
  buckets_ok H' a' lg (x :: es) (fupd ch i (x :: ch i)).
Proof.
  intros B HL Hlg Hx Hdx i Hz Hxl Hsz Hoth Hhd Hc.
  assert (0 <= i < 2 ^ lg) as Hi by by apply to_bkt_range.
  assert (x ∉ ch i) as Hxi by (intros [? _]%(bo_elem _ _ _ _ _ B); done).
  destruct (bo_bucket _ _ _ _ _ B i Hi) as (H1 & H2 & H3 & H4). split.
  - by rewrite Hsz, (bo_size _ _ _ _ _ B).
  - intros j Hj. destruct (decide (i = j)) as [<-|Hne].
    + rewrite fupd_eq. split_and!; [done|rewrite Hc; simpl; lia| |by constructor].
      set (g := fun z => if decide (z = x) then Some (None, hd_or (ch i) None) else bkt_of H z).
      eapply (chained_ext (set_bwd (hd_or (ch i) None) (Some x) g)).
      * intros z Hzi. unfold set_bwd, g. destruct (decide (z = x)) as [->|Hzx].
        { rewrite bool_decide_eq_false_2; [done|]. intros ?%hd_or_elem. done. }
        rewrite Hz by done. done.
      * apply chained_push; [done|done|unfold g; by rewrite decide_True|].
        eapply chained_ext, H3. intros z Hzi. unfold g. rewrite decide_False by congruence. done.
    + rewrite fupd_ne, Hoth by done. destruct (bo_bucket _ _ _ _ _ B j Hj) as (J1 & J2 & J3 & J4).
      split_and!; [done|done| |done]. eapply chained_ext, J3. intros z Hzj.
      assert (z ∈ es) by by apply (bo_elem _ _ _ _ _ B) in Hzj as [].
      rewrite Hz by congruence. unfold set_bwd. rewrite bool_decide_eq_false_2; [done|].
      intros Hh%hd_or_elem. destruct Hne. by eapply bucket_disjoint.
  - intros j z Hj. rewrite (links_only_home _ _ _ _ HL), elem_of_cons. destruct (decide (i = j)) as [<-|Hne].
    + rewrite fupd_eq, elem_of_cons, (bo_elem _ _ _ _ _ B) by done. split.
      * intros [-> |[]]; [split; [by left|done]|split; [by right|done]].
      * intros [[-> | Hin] He]; [by left|by right].
    + rewrite fupd_ne, (bo_elem _ _ _ _ _ B) by done. split.
      * intros []. split; [by right|done].
      * intros [[-> | Hin] He]; [by destruct Hne|done].
  - intros z [-> |Hin]%elem_of_cons; apply (lo_some _ _ HL); [done|]. by apply (bo_dom _ _ _ _ _ B).
Qed.

(** [x] is taken out of its chain. *)
Lemma buckets_delete H H' a a' lg es es' ch x xs ys :
  buckets_ok H a lg es ch -> links_only H H' -> 0 <= lg <= 32 -> x ∈ es ->
  let i := home H lg x in
  ch i = xs ++ x :: ys -> (forall z, z ∈ es' <-> z ∈ es /\ z <> x) ->
  (forall z, bkt_of H' z =
     set_bwd (hd_or ys None) (last_or None xs) (set_fwd (last_or None xs) (hd_or ys None) (bkt_of H)) z) ->
  bsize a' = bsize a -> (forall j, j <> i -> bucket_at a' j = bucket_at a j) ->
  hh_head (bucket_at a' i) = hd_or (xs ++ ys) None ->
  count (bucket_at a' i) = Z.of_nat (length (ch i)) - 1 ->
  buckets_ok H' a' lg es' (fupd ch i (xs ++ ys)).
Proof.
  intros B HL Hlg Hx i Hch Hes Hz Hsz Hoth Hhd Hc.
  assert (0 <= i < 2 ^ lg) as Hi by by apply to_bkt_range.
  destruct (bo_bucket _ _ _ _ _ B i Hi) as (H1 & H2 & H3 & H4). rewrite Hch in H3, H4, Hc.
  assert (NoDup (xs ++ ys) /\ x ∉ xs ++ ys) as [Hnd Hxn].
  { rewrite <- Permutation_middle in H4. by apply NoDup_cons in H4 as []. }
  split.
  - by rewrite Hsz, (bo_size _ _ _ _ _ B).
  - intros j Hj. destruct (decide (i = j)) as [<-|Hne].
    + rewrite fupd_eq. split_and!; [done|rewrite Hc, !length_app; simpl; lia| |done].
      eapply chained_ext; [intros z _; apply Hz|]. by apply (chained_delete _ x).
    + rewrite fupd_ne, Hoth by done. destruct (bo_bucket _ _ _ _ _ B j Hj) as (J1 & J2 & J3 & J4).
      split_and!; [done|done| |done]. eapply chained_ext, J3. intros z Hzj.
      assert (z ∉ ch i) as Hzi by (intros Hzi; destruct Hne; by eapply bucket_disjoint).
      rewrite Hch in Hzi. rewrite Hz. unfold set_bwd, set_fwd. rewrite bool_decide_eq_false_2.
      2:{ intros Hh%hd_or_elem. apply Hzi, elem_of_app. right. by right. }
      rewrite bool_decide_eq_false_2; [done|]. intros [Hl|[? _]]%last_or_elem; [|done].
      apply Hzi, elem_of_app. by left.
  - intros j z Hj. rewrite (links_only_home _ _ _ _ HL), Hes. destruct (decide (i = j)) as [<-|Hne].
    + rewrite fupd_eq. assert (z ∈ xs ++ ys <-> z ∈ ch i /\ z <> x) as ->.
      { rewrite Hch, <- Permutation_middle, elem_of_cons. split; [intros; split; [by right|by intros ->]|naive_solver]. }
      rewrite (bo_elem _ _ _ _ _ B) by done. tauto.
    + rewrite fupd_ne, (bo_elem _ _ _ _ _ B) by done. split; [|tauto]. intros [Hz' <-].
      split; [split; [done|]|done]. by intros ->.
  - intros z [Hin _]%Hes. apply (lo_some _ _ HL). by apply (bo_dom _ _ _ _ _ B).
Qed.
End buckets.

(** ** Looking a key up in a bucket *)

(** The handle of an element of the table [t] whose key is [v]. *)
Definition keyed (s : hstate) (t x : loc) (v : Z) : Prop :=
  vas s !! x = Some v /\ meta_of (handles s) x = Some (Some t, Some x, 8, HASH_VALUE v).

Section find.
Implicit Types (s : hstate) (E : fault -> Prop).

Lemma wp_find_in_bkt_body E v s t x tl (Q : ptr + ptr -> hstate -> Prop) u :
  keyed s t x u -> snd <$> bkt_of (handles s) x = Some (hd_or tl None) ->
  (u = v -> Q (inr (Some x)) s) -> (u <> v -> Q (inl (hd_or tl None)) s) ->
  wp E (find_in_bkt_body v 8 (HASH_VALUE v) (Some x)) s Q.
Proof.
  intros [Hv Hm] Hn HQ1 HQ2. unfold find_in_bkt_body. simpl.
  assert ((fun h => hh_next h) <$> handles s !! x = Some (hd_or tl None)) as Hn'.
  { unfold bkt_of in Hn. by destruct (handles s !! x). }
  apply wp_bind. eapply (wp_hld _ hashv (fun '(_, _, _, h) => h)); [exact Hm|done|].
  apply wp_bind. eapply (wp_hld _ keylen (fun '(_, _, k, _) => k)); [exact Hm|done|].
  rewrite (bool_decide_eq_true_2 (8 = 8)), andb_true_r by done.
  apply wp_bind. case_bool_decide as Hh.
  - apply wp_bind. eapply (wp_hld _ key (fun '(_, k, _, _) => k)); [exact Hm|done|].
    apply wp_bind, (wp_va_at _ x u); [done|]. apply wp_ret. case_bool_decide as Hk; [by apply wp_ret, HQ1|].
    apply wp_bind. eapply (wp_hld _ hh_next id); [exact Hn'|done|]. by apply wp_ret, HQ2.
  - apply wp_ret. apply wp_bind. eapply (wp_hld _ hh_next id); [exact Hn'|done|]. apply wp_ret, HQ2. congruence.
Qed.

Lemma wp_find_in_bkt E v s t b xs (Q : ptr -> hstate -> Prop) :
  hh_head b = hd_or xs None -> path (bkt_of (handles s)) xs -> (length xs <= size (handles s))%nat ->
  (forall x, x ∈ xs -> exists u, keyed s t x u) ->
  (forall r, match r with Some x => x ∈ xs /\ vas s !! x = Some v | None => forall x, x ∈ xs -> vas s !! x <> Some v end ->
     Q r s) ->
  wp E (HASH_FIND_IN_BKT b v 8 (HASH_VALUE v)) s Q.
Proof.
  intros Hb Hp Hlen Hk HQ. apply wp_bind, wp_chain_fuel.
  eapply (wp_loop _ _ _ (fun n p s' => s' = s /\ exists dn ys, xs = dn ++ ys /\ p = hd_or ys None /\ n = length ys /\
    path (bkt_of (handles s)) ys /\ forall x, x ∈ dn -> vas s !! x <> Some v)) with (n := length xs); [|lia|].
  { split; [done|]. exists [], xs. split_and!; try done. by intros x ?%elem_of_nil. }
  intros n p s' (-> & dn & ys & -> & -> & -> & Hys & Hdn). destruct ys as [|y ys].
  - apply wp_ret, HQ. intros x. rewrite app_nil_r. apply Hdn.
  - destruct Hys as [Hy Hys]. assert (y ∈ dn ++ y :: ys) as Hin by (apply elem_of_app; right; left).
    destruct (Hk y Hin) as (u & Hku). eapply wp_find_in_bkt_body; [exact Hku|exact Hy| |].
    + intros ->. apply HQ. split; [done|apply Hku].
    + intros Hne. exists (length ys). split; [simpl; lia|]. split; [done|]. exists (dn ++ [y]), ys.
      rewrite <- app_assoc. split_and!; try done. intros x [Hx| ->%list_elem_of_singleton]%elem_of_app; [by apply Hdn|].
      destruct Hku as [-> _]. congruence.
Qed.
End find.

(** ** Putting a handle in front of a chain *)

Lemma links_front H y hd z :
  hd <> Some y -> is_Some (H !! y) ->
  let H1 := alter_at (set_hh_next hd) (Some y) (alter_at (set_hh_prev NULL) (Some y) H) in
  let H2 := alter_at (set_hh_prev NULL) (Some y) (alter_at (set_hh_next hd) (Some y) H) in
  (forall H', H' = H1 \/ H' = H2 ->
     bkt_of (alter_at (set_hh_prev (Some y)) hd H') z =
       (if decide (z = y) then Some (None, hd) else set_bwd hd (Some y) (bkt_of H) z) /\
     links_only H (alter_at (set_hh_prev (Some y)) hd H')).
Proof.
  intros Hne [h Hy] H1 H2 H' HH'. split.
  - rewrite bkt_set_prev. unfold set_bwd. destruct (decide (z = y)) as [->|Hz].
    + rewrite bool_decide_eq_false_2 by done. destruct HH' as [-> | ->]; subst H1 H2; rewrite ?bkt_set_prev, ?bkt_set_next;
        unfold set_bwd, set_fwd; rewrite !bool_decide_eq_true_2 by done; rewrite ?bkt_set_prev, ?bkt_set_next;
        unfold set_bwd, set_fwd; rewrite !bool_decide_eq_true_2 by done; unfold bkt_of; by rewrite Hy.
    + assert (bkt_of H' z = bkt_of H z) as ->; [|done].
      destruct HH' as [-> | ->]; subst H1 H2; unfold bkt_of; simpl; by rewrite !lookup_alter_ne by congruence.
  - etrans; [|apply links_only_bkt; eauto]. destruct HH' as [-> | ->]; subst H1 H2;
      (etrans; [|apply links_only_bkt; eauto]); apply links_only_bkt; eauto.
Qed.

(** ** Doubling the buckets *)

(** What an expansion leaves of the table until it installs the new array. *)
Record same_table (T T' : UT_hash_table) : Prop := {
  st_buckets : buckets T' = buckets T;
  st_num : num_buckets T' = num_buckets T;
  st_log : log2_num_buckets T' = log2_num_buckets T;
  st_items : num_items T' = num_items T;
  st_tail : tail T' = tail T }.

#[export] Instance same_table_preorder : PreOrder same_table.
Proof. split; [by split|]. intros ? ? ? [? ? ? ? ?] [? ? ? ? ?]. split; congruence. Qed.

(** From [s] to [s']: the head, the keys, the order of insertion and the
    parts of the handles that are not links are as before. *)
Record kept (s s' : hstate) : Prop := {
  kp_head : head s' = head s;
  kp_vas : vas s' = vas s;
  kp_links : links_only (handles s) (handles s') }.

#[export] Instance kept_preorder : PreOrder kept.
Proof. split; [by split|]. intros ? ? ? [? ? ?] [? ? ?]. split; [congruence..|by etrans]. Qed.

Section expand.
Context {E : fault -> Prop}.
Implicit Types (s : hstate) (T : UT_hash_table) (nb : bucket_array) (es : list loc) (ch : Z -> list loc).

Lemma wp_count_one t T nb i s (Q : bucket_array -> hstate -> Prop) :
  tables s !! t = Some T -> 0 <= i < bsize nb ->
  (forall nb' T' s', s' = put_tables (<[t := T']> (tables s)) s -> same_table T T' -> bsize nb' = bsize nb ->
     (forall j, j <> i -> bucket_at nb' j = bucket_at nb j) ->
     hh_head (bucket_at nb' i) = hh_head (bucket_at nb i) ->
     count (bucket_at nb' i) = u32 (count (bucket_at nb i) + 1) -> Q nb' s') ->
  wp E (count_one (Some t) nb i) s Q.
Proof.
  intros Ht Hi HQ. unfold count_one. apply wp_bind, wp_bst; [done|]. apply wp_bind, wp_bld; [done|].
  rewrite bput_eq. simpl. apply wp_bind. eapply wp_tld; [done|].
  assert (s = put_tables (<[t := T]> (tables s)) s) as Hs.
  { destruct s. unfold put_tables. simpl in *. by rewrite insert_id. }
  assert (forall T' s', s' = put_tables (<[t := T']> (tables s)) s -> same_table T T' ->
    Q (bput (λ b, set_count (u32 (count b + 1)) b) nb i) s') as HQ'.
  { intros T' s' Hs' HT. eapply HQ; [exact Hs'|exact HT|done| |by rewrite bput_eq|by rewrite bput_eq].
    intros j Hj. by rewrite bput_ne by congruence. }
  case_bool_decide; [|apply wp_ret; by apply (HQ' T)].
  apply wp_bind. eapply wp_tst; [done|]. apply wp_bind, wp_bld; [done|].
  case_bool_decide; [|by eapply wp_ret, HQ'].
  apply wp_bst; [done|]. eapply HQ; [done|done|done| |by rewrite !bput_eq|by rewrite !bput_eq].
  intros j Hj. by rewrite !bput_ne by congruence.
Qed.

Lemma wp_expand_one t lg y hn s T nb es ch (Q : (ptr * bucket_array) + bucket_array -> hstate -> Prop) :
  tables s !! t = Some T -> num_buckets T = 2 ^ lg -> 0 <= lg < 31 ->
  buckets_ok (handles s) nb (lg + 1) es ch -> y ∉ es -> is_Some (handles s !! y) ->
  snd <$> bkt_of (handles s) y = Some hn -> Z.of_nat (size (handles s)) < 2 ^ 32 ->
  (forall s' nb' T', kept s s' -> tables s' !! t = Some T' -> same_table T T' ->
     let k := home (handles s) (lg + 1) y in
     buckets_ok (handles s') nb' (lg + 1) (y :: es) (fupd ch k (y :: ch k)) ->
     (forall z, z <> y -> z ∉ es -> bkt_of (handles s') z = bkt_of (handles s) z) -> Q (inl (hn, nb')) s') ->
  wp E (expand_one (Some t) (Some y, nb)) s Q.
Proof.
  intros Ht Hnum Hlg B Hy [h Hh] Hn Hsz HQ. unfold expand_one. simpl.
  assert (hh_next h = hn) as <- by (unfold bkt_of in Hn; rewrite Hh in Hn; by injection Hn).
  apply wp_bind. eapply (wp_hld id hh_next hh_next _ _ h); [simpl; by rewrite Hh|done|].
  apply wp_bind. eapply (wp_hld id hashv hashv _ _ h); [simpl; by rewrite Hh|done|].
  apply wp_bind. eapply wp_tld; [done|]. rewrite Hnum.
  assert (2 ^ lg * 2 = 2 ^ (lg + 1)) as -> by (rewrite Z.pow_add_r by lia; lia).
  rewrite (u32_small (2 ^ (lg + 1))).
  2:{ split; [apply Z.pow_nonneg; lia|]. apply Z.pow_lt_mono_r; lia. }
  assert (HASH_TO_BKT (hashv h) (2 ^ (lg + 1)) = home (handles s) (lg + 1) y) as ->.
  { unfold home, hv_of, meta_of. by rewrite Hh. }
  set (k := home (handles s) (lg + 1) y) in *.
  assert (0 <= k < 2 ^ (lg + 1)) as Hk by (apply to_bkt_range; lia).
  destruct (bo_bucket _ _ _ _ _ B k Hk) as (H1 & H2 & H3 & H4).
  pose proof (buckets_room _ _ _ _ _ k y B Hk Hy ltac:(by eexists)) as Hlen.
  assert (hd_or (ch k) None <> Some y) as Hne by (intros [? _]%hd_or_elem%(bo_elem _ _ _ _ _ B); done).
  apply wp_bind. eapply wp_count_one; [done|by rewrite (bo_size _ _ _ _ _ B)|].
  intros nb1 T1 s1 -> HT1 Hsz1 Hoth1 Hhd1 Hc1. rewrite H2, u32_small in Hc1 by lia.
  apply wp_bind, wp_hst; [simpl; by rewrite Hh|].
  apply wp_bind, wp_bld; [by rewrite Hsz1, (bo_size _ _ _ _ _ B)|]. rewrite Hhd1, H1.
  apply wp_bind, wp_hst; [apply alter_at_some; simpl; by rewrite Hh|].
  assert (forall z, is_Some (handles s !! z) -> hd_or (ch k) None = Some z -> z ∈ es) as Hin.
  { by intros z _ [? _]%hd_or_elem%(bo_elem _ _ _ _ _ B). }
  apply wp_bind, wp_hst_at.
  { intros z Hz. simpl. rewrite !lookup_alter_is_Some. apply (bo_dom _ _ _ _ _ B).
    by apply hd_or_elem, (bo_elem _ _ _ _ _ B) in Hz as []. }
  apply wp_bind, wp_bst; [by rewrite Hsz1, (bo_size _ _ _ _ _ B)|]. apply wp_ret.
  pose proof (fun z => links_front (handles s) y (hd_or (ch k) None) z Hne ltac:(by eexists) _ (or_introl eq_refl)) as Hl.
  pose proof (proj2 (Hl y)) as HL. simpl in HL, Hl.
  eapply (HQ _ _ T1); [by split|simpl; by rewrite lookup_insert_eq|done| |].
  - simpl. eapply (buckets_push (handles s)); [exact B|exact HL|lia|done|by eexists| | | | | |].
    + intros z Hz. destruct (Hl z) as [-> _]. by rewrite decide_False.
    + destruct (Hl y) as [-> _]. by rewrite decide_True.
    + by rewrite <- Hsz1.
    + intros j Hj. rewrite bput_ne by done. by apply Hoth1.
    + by rewrite bput_eq.
    + rewrite bput_eq. exact Hc1.
  - intros z Hz Hze. simpl. destruct (Hl z) as [-> _]. rewrite decide_False by done. unfold set_bwd.
    rewrite bool_decide_eq_false_2; [done|]. intros [? _]%hd_or_elem%(bo_elem _ _ _ _ _ B); done.
Qed.
End expand.

(** While the elements [es] move from the chains [ch] to an array of twice
    the size: those of the buckets before [i] have moved, and those of the
    bucket [i] up to [ys]. *)
Record moving (s0 : hstate) (t : loc) (T0 : UT_hash_table) (lg : Z) (es : list loc) (ch : Z -> list loc)
    (i : Z) (ys : list loc) (s : hstate) (nb : bucket_array) (dn : list loc) (ch' : Z -> list loc) : Prop := {
  mv_kept : kept s0 s;
  mv_table : exists T, tables s !! t = Some T /\ same_table T0 T;
  mv_new : buckets_ok (handles s) nb (lg + 1) dn ch';
  mv_done : forall x, x ∈ dn <->
    x ∈ es /\ (home (handles s0) lg x < i \/ home (handles s0) lg x = i /\ x ∉ ys);
  mv_path : path (bkt_of (handles s)) ys;
  mv_nodup : NoDup ys;
  mv_here : forall x, x ∈ ys -> x ∈ es /\ home (handles s0) lg x = i;
  mv_later : forall j, i < j < 2 ^ lg -> path (bkt_of (handles s)) (ch j) }.

Section redistribute.
Context {E : fault -> Prop} (s0 : hstate) (t : loc) (T0 : UT_hash_table) (lg : Z) (es : list loc) (ch : Z -> list loc).
Context (Hlg : 0 <= lg < 31) (Hnum : num_buckets T0 = 2 ^ lg).
Context (B0 : buckets_ok (handles s0) (buckets T0) lg es ch) (Hsz : Z.of_nat (size (handles s0)) < 2 ^ 32).
Implicit Types (s : hstate) (nb : bucket_array) (dn : list loc).
Local Abbreviation moving := (moving s0 t T0 lg es ch).

Lemma moving_step i y ys s nb dn ch' s' nb' T' :
  moving i (y :: ys) s nb dn ch' -> kept s s' -> tables s' !! t = Some T' -> same_table T0 T' ->
  let k := home (handles s) (lg + 1) y in
  buckets_ok (handles s') nb' (lg + 1) (y :: dn) (fupd ch' k (y :: ch' k)) ->
  (forall z, z <> y -> z ∉ dn -> bkt_of (handles s') z = bkt_of (handles s) z) ->
  moving i ys s' nb' (y :: dn) (fupd ch' k (y :: ch' k)).
Proof.
  intros [Hk _ _ Hd [_ Hp] [Hy Hnd]%NoDup_cons Hh Hl] Hk' Ht HT k B Hz. split; [by etrans|by exists T'|done| | |done| |].
  - intros x. rewrite elem_of_cons, Hd. destruct (Hh y ltac:(left)) as [Hye Hyh]. split.
    + intros [-> |(He & [? |[? Hn]])]; [split; [done|by right]|split; [done|by left]|split; [done|right]].
      split; [done|]. intros ?. apply Hn. by right.
    + intros [He [? |[? Hn]]]; [right; split; [done|by left]|].
      destruct (decide (x = y)) as [->|]; [by left|right]. split; [done|right]. split; [done|].
      by intros [? |?]%elem_of_cons.
  - eapply path_ext, Hp. intros x Hx. apply Hz; [by intros ->|]. rewrite Hd.
    destruct (Hh x ltac:(by right)) as [_ Hxh]. intros [_ [? |[_ Hn]]]; [lia|]. apply Hn. by right.
  - intros x Hx. apply Hh. by right.
  - intros j Hj. eapply path_ext, Hl, Hj. intros x Hx.
    apply (bo_elem _ _ _ _ _ B0) in Hx as [_ Hxh].
    2:{ destruct (Hh y ltac:(left)) as [_ <-]. pose proof (to_bkt_range (hv_of (handles s0) y) lg ltac:(lia)).
        unfold home in *. lia. }
    destruct (Hh y ltac:(left)) as [_ Hyh]. apply Hz; [intros ->; lia|]. rewrite Hd. intros [_ [? |[? _]]]; lia.
Qed.

Lemma moving_enter i s nb dn ch' :
  moving (i - 1) [] s nb dn ch' -> 0 <= i < 2 ^ lg -> moving i (ch i) s nb dn ch'.
Proof.
  intros [Hk Ht B Hd _ _ _ Hl] Hi. destruct (bo_bucket _ _ _ _ _ B0 i Hi) as (_ & _ & _ & Hnd).
  split; [done|done|done| |apply Hl; lia|done| |].
  - intros x. rewrite Hd, (bo_elem _ _ _ _ _ B0) by done. split.
    + intros [He [? |[? _]]]; (split; [done|left; lia]).
    + intros [He [? |[? Hn]]]; [split; [done|]|by destruct Hn].
      destruct (decide (home (handles s0) lg x = i - 1)); [right; split; [done|apply not_elem_of_nil]|left; lia].
  - intros x. by apply (bo_elem _ _ _ _ _ B0).
  - intros j Hj. apply Hl. lia.
Qed.

Lemma wp_expand_chain i s nb dn ch' (Q : bucket_array -> hstate -> Prop) :
  moving i (ch i) s nb dn ch' -> 0 <= i < 2 ^ lg ->
  (forall s' nb' dn' ch', moving i [] s' nb' dn' ch' -> Q nb' s') ->
  wp E (loop "HASH_EXPAND_BUCKETS" (S (size (handles s))) (expand_one (Some t)) (hd_or (ch i) None, nb)) s Q.
Proof.
  intros Hm Hi HQ.
  eapply (wp_loop _ _ _ (fun n '(p, nb) s => exists ys dn ch', moving i ys s nb dn ch' /\ p = hd_or ys None /\ n = length ys))
    with (n := length (ch i)).
  - by exists (ch i), dn, ch'.
  - pose proof (buckets_length _ _ _ _ _ _ B0 Hi). pose proof (lo_size _ _ (kp_links _ _ (mv_kept _ _ _ _ _ _ _ _ _ _ _ _ Hm))).
    lia.
  - clear dependent s nb dn ch'. intros n [p nb] s (ys & dn & ch' & Hm & -> & ->). destruct ys as [|y ys].
    { apply wp_ret. by eapply HQ. }
    pose proof Hm as [Hk (T & Ht & HT) B Hd [Hy Hp] Hnd Hh Hl].
    destruct (Hh y ltac:(left)) as [Hye Hyh].
    eapply wp_expand_one; [exact Ht|by rewrite (st_num _ _ HT)|exact Hlg|exact B| | |exact Hy| |].
    + rewrite Hd. intros [_ [? |[_ Hn]]]; [lia|]. apply Hn. left.
    + apply (lo_some _ _ (kp_links _ _ Hk)). by apply (bo_dom _ _ _ _ _ B0).
    + by rewrite (lo_size _ _ (kp_links _ _ Hk)).
    + intros s' nb' T' Hk' Ht' HT' k B' Hz. exists (length ys). split; [simpl; lia|].
      exists ys, (y :: dn), (fupd ch' k (y :: ch' k)). split_and!; [|done|done].
      eapply moving_step; [exact Hm|exact Hk'|exact Ht'|by etrans|exact B'|exact Hz].
Qed.

Lemma wp_expand_all s nb (Q : bucket_array -> hstate -> Prop) ch1 :
  moving (-1) [] s nb [] ch1 ->
  (forall s' nb' ch', kept s0 s' -> (exists T, tables s' !! t = Some T /\ same_table T0 T) ->
     buckets_ok (handles s') nb' (lg + 1) es ch' -> Q nb' s') ->
  wp E (loop "HASH_EXPAND_BUCKETS" (S (Z.to_nat (2 ^ lg))) (expand_bucket (Some t)) (0, nb)) s Q.
Proof.
  intros Hm HQ.
  eapply (wp_loop _ _ _ (fun n '(i, nb) s => exists dn ch', moving (i - 1) [] s nb dn ch' /\ 0 <= i <= 2 ^ lg /\
    n = Z.to_nat (2 ^ lg - i))) with (n := Z.to_nat (2 ^ lg)); [|lia|].
  { exists [], ch1. split_and!; [done|lia|apply Z.pow_nonneg; lia|f_equal; lia]. }
  clear dependent s nb. intros n [i nb] s (dn & ch' & Hm & Hi & ->).
  pose proof (mv_table _ _ _ _ _ _ _ _ _ _ _ _ Hm) as (T & Ht & HT). unfold expand_bucket.
  apply wp_bind. eapply wp_tld; [done|]. rewrite (st_num _ _ HT), Hnum. case_bool_decide as Hlt.
  - apply wp_bind. eapply wp_tld; [done|]. rewrite (st_buckets _ _ HT).
    apply wp_bind, wp_bld; [rewrite (bo_size _ _ _ _ _ B0); lia|].
    destruct (bo_bucket _ _ _ _ _ B0 i ltac:(lia)) as (-> & _ & _ & _).
    apply wp_bind, wp_chain_fuel. apply wp_bind.
    eapply wp_expand_chain; [apply moving_enter; [exact Hm|lia]|lia|].
    intros s' nb' dn' ch2 Hm'. apply wp_ret. rewrite u32_small.
    2:{ pose proof (Z.pow_lt_mono_r 2 lg 32 ltac:(lia) ltac:(lia) ltac:(lia)). lia. }
    exists (Z.to_nat (2 ^ lg - (i + 1))). split; [lia|]. exists dn', ch2.
    replace (i + 1 - 1) with i by lia. split_and!; [done|lia|lia|done].
  - apply wp_ret. destruct Hm as [Hk HT' B Hd _ _ _ _]. eapply (HQ _ _ ch'); [exact Hk|exact HT'|].
    eapply buckets_ext; [exact B|]. intros x. rewrite Hd. split; [by intros []|]. intros He. split; [done|].
    pose proof (to_bkt_range (hv_of (handles s0) x) lg ltac:(lia)). unfold home in *.
    destruct (decide (HASH_TO_BKT (hv_of (handles s0) x) (2 ^ lg) = i - 1)); [right; split; [done|apply not_elem_of_nil]|left; lia].
Qed.
End redistribute.

(** The table [t] holds the elements [es] in [2 ^ lg] buckets. *)
Record hashed (s : hstate) (t : loc) (T : UT_hash_table) (lg : Z) (es : list loc) (ch : Z -> list loc) : Prop := {
  hs_table : tables s !! t = Some T;
  hs_num : num_buckets T = 2 ^ lg;
  hs_log : log2_num_buckets T = lg;
  hs_lg : 0 <= lg < 32;
  hs_buckets : buckets_ok (handles s) (buckets T) lg es ch }.

Lemma empty_buckets H lg : 0 <= lg -> buckets_ok H (BucketArray (2 ^ lg) ∅) lg [] (fun _ => []).
Proof.
  intros Hlg. split; [done| | |].
  - intros i Hi. unfold bucket_at. simpl. rewrite lookup_empty. split_and!; try done. constructor.
  - intros i x Hi. split; [by intros ?%elem_of_nil|by intros [?%elem_of_nil _]].
  - by intros x ?%elem_of_nil.
Qed.

(** The elements of [t] in the order of insertion. *)
Record in_order (s : hstate) (t : loc) (T : UT_hash_table) (order : list loc) : Prop := {
  io_head : head s = hd_or order None;
  io_tail : tail T = last_or None order;
  io_items : num_items T = Z.of_nat (length order);
  io_nodup : NoDup order;
  io_chain : chained (app_of (handles s)) None order None;
  io_keyed : forall x, x ∈ order -> exists v, keyed s t x v }.

(** The table holds the map [m] from keys to elements. *)
Record represents (s : hstate) (m : gmap Z loc) : Prop := {
  rp_size : Z.of_nat (size (handles s)) < 2 ^ 32;
  rp_handles : forall x, is_Some (vas s !! x) -> is_Some (handles s !! x);
  rp_table : m = ∅ /\ head s = NULL \/ exists t T lg order ch, order <> [] /\ hashed s t T lg order ch /\
    in_order s t T order /\ forall k x, m !! k = Some x <-> x ∈ order /\ vas s !! x = Some k }.

Lemma keyed_kept s s' t x v : kept s s' -> keyed s t x v -> keyed s' t x v.
Proof. intros [_ Hv HL] [H1 H2]. split; [by rewrite Hv|by rewrite (lo_meta _ _ HL)]. Qed.

Lemma in_order_kept s s' t T T' order :
  in_order s t T order -> kept s s' -> num_items T' = num_items T -> tail T' = tail T -> in_order s' t T' order.
Proof.
  intros [H1 H2 H3 H4 H5 H6] K Hi Ht. split; [by rewrite (kp_head _ _ K)|congruence|congruence|done| |].
  - eapply chained_ext, H5. intros x _. apply (lo_app _ _ (kp_links _ _ K)).
  - intros x Hx. destruct (H6 x Hx) as [v Hv]. exists v. by eapply keyed_kept.
Qed.

Lemma keyed_hv s t x v : keyed s t x v -> hv_of (handles s) x = HASH_VALUE v.
Proof. intros [_ Hm]. unfold hv_of. by rewrite Hm. Qed.

Lemma wp_hld_tbl E s t x v (Q : ptr -> hstate -> Prop) :
  keyed s t x v -> Q (Some t) s -> wp E (hld tbl (Some x)) s Q.
Proof. intros [_ Hm] HQ. by eapply (wp_hld _ tbl (fun '(p, _, _, _) => p)); [exact Hm| |]. Qed.

(** The head of a table that is not empty is one of its elements. *)
Lemma head_keyed s t T order : in_order s t T order -> order <> [] -> exists x v, head s = Some x /\ keyed s t x v.
Proof.
  intros IO Hne. destruct order as [|x order]; [done|]. destruct (io_keyed _ _ _ _ IO x ltac:(left)) as [v Hv].
  exists x, v. split; [apply (io_head _ _ _ _ IO)|done].
Qed.

(** [HASH_FIND] is the lookup. *)
Lemma wp_HASH_FIND E s m v (Q : ptr -> hstate -> Prop) :
  represents s m -> Q (m !! v) s -> wp E (HASH_FIND v 8) s Q.
Proof.
  intros [Hsz _ Htab] HQ. unfold HASH_FIND. apply wp_bind, wp_get_head.
  destruct Htab as [[-> ->]|(t & T & lg & order & ch & Hne & Hh & IO & Hm)]; [done|].
  destruct (head_keyed _ _ _ _ IO Hne) as (x0 & v0 & Hx0 & Hk0). rewrite Hx0, bool_decide_eq_false_2 by done. unfold HASH_FIND_BYHASHVALUE.
  apply wp_bind, wp_get_head. rewrite Hx0, bool_decide_eq_false_2 by done. apply wp_bind. eapply wp_hld_tbl; [exact Hk0|].
  destruct Hh as [Ht Hnum _ Hlg B]. apply wp_bind. eapply wp_tld; [done|]. rewrite Hnum.
  apply wp_bind. eapply wp_tld; [done|]. set (i := HASH_TO_BKT _ _).
  assert (0 <= i < 2 ^ lg) as Hi by (apply to_bkt_range; lia).
  apply wp_bind, wp_bld; [by rewrite (bo_size _ _ _ _ _ B)|].
  destruct (bo_bucket _ _ _ _ _ B i Hi) as (Hhd & _ & Hc & Hnd).
  eapply (wp_find_in_bkt _ _ _ t); [exact Hhd|by eapply chained_path|by eapply buckets_length| |].
  { intros x [Hx _]%(bo_elem _ _ _ _ _ B); [|done]. by apply (io_keyed _ _ _ _ IO). }
  intros r Hr. assert (r = m !! v) as ->; [|done]. destruct r as [x|].
  - destruct Hr as [Hx Hv]. symmetry. apply Hm. split; [|done]. by apply (bo_elem _ _ _ _ _ B) in Hx as [].
  - destruct (m !! v) as [x|] eqn:Hx; [|done]. apply Hm in Hx as [Hx Hv]. destruct (Hr x); [|done].
    apply (bo_elem _ _ _ _ _ B); [done|]. split; [done|]. destruct (io_keyed _ _ _ _ IO x Hx) as [u Hu].
    unfold home, i. rewrite (keyed_hv _ _ _ _ Hu). destruct Hu as [Hu _]. congruence.
Qed.

Section operations.
Context (malloc_ok : hstate -> Z -> bool) (E : fault -> Prop).

(** A failed allocation, and the doubling of 2 ^ 31 buckets. *)
Hypothesis oom : E (SysFail "uthash: out of memory").
Hypothesis too_many : E (Undefined "shift by 32 bits").
Implicit Types (s : hstate) (T : UT_hash_table) (es order : list loc) (ch : Z -> list loc).

Lemma wp_malloc_buckets n s (Q : bucket_array -> hstate -> Prop) :
  Q (BucketArray n ∅) s -> wp E (malloc_buckets malloc_ok n) s Q.
Proof.
  intros HQ. unfold malloc_buckets. apply wp_bind. unfold wp, uthash_malloc. by destruct (malloc_ok s _).
Qed.

Lemma wp_shift_count n s (Q : unit -> hstate -> Prop) : (n < 32 -> Q tt s) -> wp E (shift_count n) s Q.
Proof. intros HQ. unfold shift_count. case_bool_decide; [by apply HQ|done]. Qed.

Lemma wp_expand_buckets t T lg es ch s (Q : unit -> hstate -> Prop) :
  hashed s t T lg es ch -> Z.of_nat (size (handles s)) < 2 ^ 32 ->
  (forall s' T' lg' ch', kept s s' -> hashed s' t T' lg' es ch' -> num_items T' = num_items T ->
     tail T' = tail T -> Q tt s') ->
  wp E (HASH_EXPAND_BUCKETS malloc_ok (Some t)) s Q.
Proof.
  intros [Ht Hnum Hlog Hlg B] Hsz HQ. unfold HASH_EXPAND_BUCKETS.
  apply wp_bind. eapply wp_tld; [done|]. rewrite Hnum. apply wp_bind, wp_malloc_buckets.
  assert (2 * 2 ^ lg = 2 ^ (lg + 1)) as H2 by (rewrite Z.pow_add_r by lia; lia). rewrite H2.
  apply wp_bind. eapply wp_tld; [done|]. rewrite Hlog, u32_small by lia. apply wp_bind, wp_shift_count. intros Hbig.
  apply wp_bind. eapply wp_tst; [done|]. apply wp_bind. eapply wp_tst; [simpl; by rewrite lookup_insert_eq|].
  set (s0 := put_tables _ (put_tables _ s)). set (T0 := set_nonideal_items _ _) in s0.
  apply wp_bind. eapply (wp_expand_all s0 t T0 lg es ch); [lia|done|exact B|exact Hsz| |].
  { split; [done| |by apply empty_buckets; lia| |done|constructor| |].
    - exists T0. split; [|done]. subst s0. simpl. by rewrite lookup_insert_eq.
    - intros x. split; [by intros ?%elem_of_nil|]. pose proof (to_bkt_range (hv_of (handles s0) x) lg ltac:(lia)).
      unfold home in *. intros [_ [? |[? _]]]; lia.
    - by intros x ?%elem_of_nil.
    - intros j Hj. destruct (bo_bucket _ _ _ _ _ B j ltac:(lia)) as (_ & _ & Hc & _). by eapply chained_path. }
  intros s1 nb ch' Hk (T1 & Ht1 & HT1) B1.
  assert (kept s s1) as Hk1 by (etrans; [|exact Hk]; by split).
  do 4 (apply wp_bind; eapply wp_tst; [done || (simpl; by rewrite lookup_insert_eq)|]).
  apply wp_bind. eapply wp_tld; [simpl; by rewrite lookup_insert_eq|].
  assert (forall s' T', head s' = head s1 -> vas s' = vas s1 -> handles s' = handles s1 ->
    tables s' !! t = Some T' -> num_buckets T' = u32 (num_buckets T1 * 2) ->
    log2_num_buckets T' = u32 (log2_num_buckets T1 + 1) -> buckets T' = nb ->
    num_items T' = num_items T1 -> tail T' = tail T1 -> Q tt s') as Hend.
  { intros s' T' Hh Hv Hs Ht' Hn' Hl' Hb' Hi' Hta'. apply (HQ s' T' (lg + 1) ch').
    - etrans; [exact Hk1|]. split; [done|done|]. by rewrite Hs.
    - split; [done| | |lia|by rewrite Hs, Hb'].
      + rewrite Hn', (st_num _ _ HT1). simpl. rewrite Hnum, Z.mul_comm, H2. apply u32_small.
        split; [apply Z.pow_nonneg; lia|apply Z.pow_lt_mono_r; lia].
      + rewrite Hl', (st_log _ _ HT1). simpl. rewrite Hlog. apply u32_small. lia.
    - by rewrite Hi', (st_items _ _ HT1).
    - by rewrite Hta', (st_tail _ _ HT1). }
  case_bool_decide.
  - eapply wp_tst; [simpl; by rewrite lookup_insert_eq|].
    eapply Hend; [done|done|done|simpl; by rewrite lookup_insert_eq|done..].
  - apply wp_ret. eapply Hend; [done|done|done|simpl; by rewrite lookup_insert_eq|done..].
Qed.

(** With 2 ^ 31 buckets the shift is by the width of its operand. *)
Lemma expand_undefined t T s :
  tables s !! t = Some T -> log2_num_buckets T = 31 -> malloc_ok s (u64 (2 * num_buckets T * sizeof_bucket)) = true ->
  HASH_EXPAND_BUCKETS malloc_ok (Some t) s = Fault (Undefined "shift by 32 bits").
Proof.
  intros Ht Hlg Hm. unfold HASH_EXPAND_BUCKETS, malloc_buckets, uthash_malloc, tld, mbind, M_bind. rewrite Ht.
  rewrite Hm. simpl. rewrite Ht, Hlg. done.
Qed.

(** An element is added to the bucket of its hash value. *)
Lemma wp_add_to_bkt t T lg es ch x s (Q : unit -> hstate -> Prop) :
  hashed s t T lg es ch -> Z.of_nat (size (handles s)) < 2 ^ 32 -> x ∉ es ->
  tbl <$> handles s !! x = Some (Some t) ->
  (forall s' T' lg' ch', kept s s' -> hashed s' t T' lg' (x :: es) ch' -> num_items T' = num_items T ->
     tail T' = tail T -> Q tt s') ->
  wp E (HASH_ADD_TO_BKT malloc_ok (Some t) (home (handles s) lg x) (Some x)) s Q.
Proof.
  intros Hs Hsz Hx Htb HQ. pose proof Hs as [Ht Hnum Hlog Hlg B]. set (i := home _ lg x) in *.
  assert (0 <= i < 2 ^ lg) as Hi by (apply to_bkt_range; lia).
  assert (is_Some (handles s !! x)) as Hd by (by destruct (handles s !! x)).
  destruct (bo_bucket _ _ _ _ _ B i Hi) as (H1 & H2 & H3 & H4).
  pose proof (buckets_room _ _ _ _ _ i x B Hi Hx Hd) as Hlen.
  assert (hd_or (ch i) None <> Some x) as Hne by (intros [? _]%hd_or_elem%(bo_elem _ _ _ _ _ B); done).
  pose proof (bo_size _ _ _ _ _ B) as Hbs.
  unfold HASH_ADD_TO_BKT. apply wp_bind. eapply wp_tld; [done|]. apply wp_bind, wp_bst; [lia|].
  apply wp_bind, wp_bld; [simpl; lia|]. rewrite bput_eq. simpl. rewrite H1.
  apply wp_bind, wp_hst; [done|]. apply wp_bind, wp_hst; [by apply alter_at_some|].
  apply wp_bind, wp_hst_at.
  { intros z Hz. simpl. rewrite !lookup_alter_is_Some. apply (bo_dom _ _ _ _ _ B).
    by apply hd_or_elem, (bo_elem _ _ _ _ _ B) in Hz as []. }
  apply wp_bind, wp_bst; [simpl; lia|]. apply wp_bind. eapply wp_tst; [done|].
  apply wp_bind, wp_bld; [simpl; lia|].
  pose proof (fun z => links_front (handles s) x (hd_or (ch i) None) z Hne Hd _ (or_intror eq_refl)) as Hl.
  pose proof (proj2 (Hl x)) as HL. simpl in HL, Hl. simpl.
  set (H' := alter_at _ (hd_or (ch i) None) _) in *. set (a' := bput _ _ i).
  set (s1 := put_tables _ _).
  assert (hashed s1 t (set_buckets a' T) lg (x :: es) (fupd ch i (x :: ch i))) as Hs1.
  { split; try done; [unfold s1; simpl; by rewrite lookup_insert_eq|].
    eapply (buckets_push (handles s)); [exact B|exact HL|lia|done|done| | |done| | |].
    - intros z Hz. etrans; [apply (Hl z)|]. by rewrite decide_False.
    - etrans; [apply (Hl x)|]. by rewrite decide_True.
    - intros j Hj. simpl. unfold a'. by rewrite !bput_ne by done.
    - fold i. simpl. unfold a'. by rewrite bput_eq.
    - fold i. simpl. unfold a'. rewrite !bput_eq. simpl. rewrite H2. apply u32_small. lia. }
  assert (kept s s1) as Hk by by split.
  assert (tbl <$> H' !! x = Some (Some t)) as Ht'.
  { pose proof (lo_meta _ _ HL x) as Hm. unfold meta_of in Hm. destruct (H' !! x), (handles s !! x); simpl in *; congruence. }
  apply wp_bind. eapply (wp_hld tbl tbl id); [exact Ht'|done|].
  apply wp_bind. eapply wp_tld; [apply (hs_table _ _ _ _ _ _ Hs1)|]. case_bool_decide; simpl.
  2:{ apply wp_ret. eapply HQ; [exact Hk|exact Hs1|done|done]. }
  case_bool_decide; [|apply wp_ret; eapply HQ; [exact Hk|exact Hs1|done|done]].
  eapply wp_expand_buckets; [exact Hs1| |].
  - by rewrite (lo_size _ _ (kp_links _ _ Hk)).
  - intros s2 T2 lg2 ch2 Hk2 Hs2 Hi2 Hta2. eapply HQ; [by etrans|exact Hs2|done|done].
Qed.
(** The second half of an insertion: counting, and the bucket. *)
Lemma wp_add_to_table t T lg es ch x v order s (Q : unit -> hstate -> Prop) :
  hashed s t T lg es ch -> Z.of_nat (size (handles s)) < 2 ^ 32 -> x ∉ es ->
  in_order s t (set_num_items (num_items T + 1) T) order -> keyed s t x v ->
  (forall y, y ∈ order <-> y ∈ x :: es) -> (length order <= size (handles s))%nat ->
  (forall s' T' lg' ch', kept s s' -> hashed s' t T' lg' order ch' -> in_order s' t T' order -> Q tt s') ->
  wp E (HASH_ADD_TO_TABLE malloc_ok (HASH_VALUE v) (Some x)) s Q.
Proof.
  intros Hh Hsz Hx IO Hk Ho Hlen HQ. unfold HASH_ADD_TO_TABLE. apply wp_bind, wp_get_head.
  destruct (head_keyed _ _ _ _ IO) as (x0 & v0 & -> & Hk0).
  { intros ->. assert (x ∈ @nil loc) as Hn by (apply Ho; left). by apply elem_of_nil in Hn. }
  apply wp_bind. eapply wp_hld_tbl; [exact Hk0|]. pose proof Hh as [Ht Hnum Hlog Hlg B].
  apply wp_bind. eapply wp_tst; [done|]. pose proof (io_items _ _ _ _ IO) as Hit. simpl in Hit.
  apply wp_bind. eapply wp_tld; [simpl; by rewrite lookup_insert_eq|]. simpl. rewrite Hnum, (u32_small (num_items T + 1)) by lia.
  set (s1 := put_tables _ s). set (T1 := set_num_items _ T) in *.
  assert (HASH_TO_BKT (HASH_VALUE v) (2 ^ lg) = home (handles s1) lg x) as ->
    by (unfold home; simpl; by rewrite (keyed_hv _ _ _ _ Hk)).
  assert (kept s s1) as K1 by by split.
  eapply (wp_add_to_bkt t T1 lg es ch x s1); [|done|done| |].
  - split; [unfold s1; simpl; by rewrite lookup_insert_eq|done..].
  - destruct Hk as [_ Hm]. unfold meta_of in Hm. simpl. destruct (handles s !! x); simpl in *; congruence.
  - intros s2 T2 lg2 ch2 K2 [Ht2 Hn2 Hl2 Hlg2 B2] Hi2 Hta2. assert (kept s s2) as K by by etrans.
    eapply (HQ s2 T2 lg2 ch2); [done|split; try done|by eapply in_order_kept].
    eapply buckets_ext; [exact B2|]. intros y. by rewrite Ho.
Qed.

(** Stores to the handle of an element [x] that is not in the table. *)
Lemma hashed_frame s s' t T T' lg es ch :
  hashed s t T lg es ch -> tables s' !! t = Some T' -> num_buckets T' = num_buckets T ->
  log2_num_buckets T' = log2_num_buckets T -> buckets T' = buckets T ->
  (forall z, z ∈ es -> bkt_of (handles s') z = bkt_of (handles s) z /\ hv_of (handles s') z = hv_of (handles s) z) ->
  hashed s' t T' lg es ch.
Proof.
  intros [Ht Hn Hl Hlg [B1 B2 B3 B4]] Ht' Hn' Hl' Hb' Hz. split; [done|congruence|congruence|done|].
  rewrite Hb'. split; [done| | |].
  - intros i Hi. destruct (B2 i Hi) as (H1 & H2 & H3 & H4). split_and!; [done|done| |done].
    eapply chained_ext, H3. intros z Hzi. apply Hz. by apply (B3 i).
  - intros i z Hi. rewrite (B3 i z Hi). unfold home. split; intros [He <-]; (split; [done|]);
      by destruct (Hz z He) as [_ ->].
  - intros z He. destruct (Hz z He) as [Hb _]. specialize (B4 z He). unfold bkt_of in Hb.
    destruct (handles s' !! z); [done|]. by destruct (handles s !! z), B4.
Qed.

Lemma in_order_frame s s' t T order :
  in_order s t T order -> head s' = head s -> vas s' = vas s ->
  (forall z, z ∈ order -> handles s' !! z = handles s !! z) -> in_order s' t T order.
Proof.
  intros [H1 H2 H3 H4 H5 H6] Hh Hv Hz. split; [by rewrite Hh|done..| |].
  - eapply chained_ext, H5. intros z Hin. unfold app_of. by rewrite Hz.
  - intros z Hin. destruct (H6 z Hin) as [u [K1 K2]]. exists u. split; [by rewrite Hv|].
    unfold meta_of in *. by rewrite Hz.
Qed.

(** [represents] once the bucket and the order have their new element. *)
Lemma represents_table s t T lg order ch m :
  Z.of_nat (size (handles s)) < 2 ^ 32 -> (forall x, is_Some (vas s !! x) -> is_Some (handles s !! x)) ->
  hashed s t T lg order ch -> in_order s t T order ->
  (order = [] -> False) -> (forall k x, m !! k = Some x <-> x ∈ order /\ vas s !! x = Some k) -> represents s m.
Proof. intros Hsz Hd Hh IO Hne Hm. split; [done|done|]. right. by exists t, T, lg, order, ch. Qed.

Lemma wp_malloc_table s (Q : ptr -> hstate -> Prop) :
  (forall t, tables s !! t = None -> Q (Some t) (put_tables (<[t := zeroed_table]> (tables s)) s)) ->
  wp E (malloc_table malloc_ok) s Q.
Proof.
  intros HQ. unfold malloc_table. apply wp_bind. unfold wp at 1, uthash_malloc. destruct (malloc_ok s _); [|done].
  unfold wp, new_table. apply HQ, not_elem_of_dom, is_fresh.
Qed.

(** The keys and the map after an insertion. *)
Lemma map_insert_spec (vs : gmap loc Z) (m : gmap Z loc) (order order' : list loc) x v :
  (forall k y, m !! k = Some y <-> y ∈ order /\ vs !! y = Some k) -> m !! v = None -> vs !! x = Some v ->
  (forall y, y ∈ order' <-> y = x \/ y ∈ order) ->
  forall k y, <[v := x]> m !! k = Some y <-> y ∈ order' /\ vs !! y = Some k.
Proof.
  intros Hm Hv Hx Ho k y. rewrite Ho. destruct (decide (v = k)) as [<-|Hne].
  - rewrite lookup_insert_eq. split; [intros [= <-]; by split; [left|]|].
    intros [[-> |Hy] Hk]; [done|]. assert (m !! v = Some y) by by apply Hm. congruence.
  - rewrite lookup_insert_ne, Hm by done. split; [intros []; split; [by right|done]|].
    intros [[-> |Hy] Hk]; [congruence|done].
Qed.

(** The first element makes the table. *)
Lemma wp_make_table x v s (Q : unit -> hstate -> Prop) :
  head s = NULL -> vas s !! x = Some v -> key <$> handles s !! x = Some (Some x) ->
  keylen <$> handles s !! x = Some 8 -> hashv <$> handles s !! x = Some (HASH_VALUE v) ->
  (forall s' t T, vas s' = vas s -> (forall y, is_Some (handles s' !! y) <-> is_Some (handles s !! y)) ->
     size (handles s') = size (handles s) ->
     hashed s' t T 21 [] (fun _ => []) -> in_order s' t (set_num_items (num_items T + 1) T) [x] -> keyed s' t x v ->
     Q tt s') ->
  wp E (hst (set_next NULL) (Some x);; hst (set_prev NULL) (Some x);;
        HASH_MAKE_TABLE malloc_ok (Some x);; set_head (Some x)) s Q.
Proof.
  intros Hhd Hv Hk Hkl Hhv HQ. destruct (handles s !! x) as [h|] eqn:Hx; [|done].
  apply wp_bind, wp_hst; [by rewrite Hx|]. apply wp_bind, wp_hst; [by apply alter_at_some; rewrite Hx|].
  apply wp_bind. unfold HASH_MAKE_TABLE. apply wp_bind, wp_malloc_table. intros t Ht.
  apply wp_bind, wp_hst; [apply alter_at_some, alter_at_some; by rewrite Hx|].
  do 3 (apply wp_bind; eapply wp_tst; [cbn [tables put_tables put_handles]; by rewrite lookup_insert_eq|]).
  apply wp_bind, wp_malloc_buckets.
  apply wp_bind; eapply wp_tst; [cbn [tables put_tables put_handles]; by rewrite lookup_insert_eq|].
  eapply wp_tst; [cbn [tables put_tables put_handles]; by rewrite lookup_insert_eq|]. apply wp_set_head.
  set (H' := alter_at (set_tbl (Some t)) (Some x) (alter_at (set_prev NULL) (Some x) (alter_at (set_next NULL) (Some x) (handles s)))).
  match goal with |- Q tt (put_head _ (put_tables (<[t := ?T']> _) _)) => set (T := T') end.
  assert (H' !! x = Some (set_tbl (Some t) (set_prev NULL (set_next NULL h)))) as Hx'.
  { unfold H'. simpl. by rewrite !lookup_alter_eq, Hx. }
  set (s' := put_head _ _). assert (handles s' = H') as Hs' by done.
  assert (keyed s' t x v) as Hky.
  { split; [exact Hv|]. unfold meta_of. rewrite Hs', Hx'. simpl in *. congruence. }
  apply (HQ s' t T); [done| |by rewrite Hs'; unfold H'; rewrite !alter_at_size| | |done].
  - intros y. rewrite Hs'. unfold H'. by rewrite !alter_at_some.
  - split; [by unfold s'; cbn [tables put_tables put_head]; rewrite lookup_insert_eq|done|done|lia|].
    exact (empty_buckets _ 21 ltac:(lia)).
  - split; [done|done|done|by apply NoDup_singleton| |].
    + split; [|done]. unfold app_of. by rewrite Hs', Hx'.
    + intros y ->%list_elem_of_singleton. by exists v.
Qed.

(** A further element goes to the end of the list. *)
Lemma wp_append x v s t T lg order ch (Q : unit -> hstate -> Prop) :
  hashed s t T lg order ch -> in_order s t T order -> order <> [] -> x ∉ order -> keyed s t x v ->
  (forall s' T', vas s' = vas s -> (forall y, is_Some (handles s' !! y) <-> is_Some (handles s !! y)) ->
     size (handles s') = size (handles s) ->
     hashed s' t T' lg order ch -> in_order s' t (set_num_items (num_items T' + 1) T') (order ++ [x]) ->
     keyed s' t x v -> Q tt s') ->
  wp E (HASH_APPEND_LIST (Some x)) s Q.
Proof.
  intros Hh IO Hne Hx Hk HQ. destruct (head_keyed _ _ _ _ IO Hne) as (x0 & v0 & Hx0 & Hk0).
  destruct (Hk) as [Hv Hm]. assert (is_Some (handles s !! x)) as Hd by (unfold meta_of in Hm; by destruct (handles s !! x)).
  assert (exists l, last_or None order = Some l /\ l ∈ order) as (l & Hl & Hlo).
  { destruct order as [|l order' _] using rev_ind; [done|]. exists l. rewrite last_or_app. split; [done|].
    apply elem_of_app. right. left. }
  assert (l <> x) as Hlx by congruence.
  unfold HASH_APPEND_LIST. apply wp_bind, wp_get_head. rewrite Hx0. apply wp_bind, wp_hst; [done|].
  apply wp_bind. eapply (wp_hld_tbl _ _ t x0 v0).
  { destruct Hk0 as [Hv0 Hm0]. split; [done|]. cbn [handles put_handles]. rewrite <- Hm0. by apply proj_alter_same. }
  pose proof (hs_table _ _ _ _ _ _ Hh) as Ht. apply wp_bind. eapply wp_tld; [done|]. rewrite (io_tail _ _ _ _ IO), Hl.
  apply wp_bind, wp_hst; [by apply alter_at_some|].
  apply wp_bind, wp_hst; [do 2 apply alter_at_some; by apply (bo_dom _ _ _ _ _ (hs_buckets _ _ _ _ _ _ Hh))|].
  eapply wp_tst; [done|]. set (H' := alter_at (set_next (Some x)) (Some l) (alter_at (set_prev (Some l)) (Some x)
    (alter_at (set_next NULL) (Some x) (handles s)))).
  set (s' := put_tables _ _). assert (handles s' = H') as Hs' by done.
  assert (forall y, meta_of H' y = meta_of (handles s) y) as Hmeta.
  { intros y. unfold H', meta_of. by rewrite !proj_alter_same. }
  assert (forall y, bkt_of H' y = bkt_of (handles s) y) as Hbkt.
  { intros y. unfold H', bkt_of. by rewrite !proj_alter_same. }
  apply (HQ s' (set_tail (Some x) T)); [done| |by rewrite Hs'; unfold H'; rewrite !alter_at_size| | |].
  - intros y. rewrite Hs'. unfold H'. by rewrite !alter_at_some.
  - eapply hashed_frame; [exact Hh|unfold s'; cbn [tables put_tables]; by rewrite lookup_insert_eq|done..|].
    intros z _. rewrite Hs', Hbkt. split; [done|]. unfold hv_of. by rewrite Hmeta.
  - destruct IO as [H1 H2 H3 H4 H5 H6]. split.
    + change (head s = hd_or (order ++ [x]) None). rewrite H1. by destruct order.
    + by rewrite last_or_app.
    + simpl. rewrite H3, length_app. simpl. lia.
    + apply NoDup_app. split_and!; [done| |by apply NoDup_singleton]. by intros z Hz ->%list_elem_of_singleton.
    + rewrite Hs'. set (g := fun z => if decide (z = x) then Some (last_or None order, None) else app_of (handles s) z).
      eapply (chained_ext (set_fwd (last_or None order) (Some x) g)).
      * intros z _. unfold H'. rewrite Hl, app_set_next. unfold set_fwd.
        assert (app_of (alter_at (set_prev (Some l)) (Some x) (alter_at (set_next NULL) (Some x) (handles s))) z = g z) as ->; [|done].
        unfold g. rewrite app_set_prev. unfold set_bwd. rewrite app_set_next. unfold set_fwd.
        destruct (decide (z = x)) as [->|]; [|by rewrite !bool_decide_eq_false_2 by congruence].
        rewrite !bool_decide_eq_true_2 by done. rewrite Hl. unfold app_of. by destruct (handles s !! x), Hd.
      * apply chained_snoc; [done|done|unfold g; by rewrite decide_True|]. eapply chained_ext, H5.
        intros z Hz. unfold g. rewrite decide_False; [done|]. by intros ->.
    + intros z [Hz | ->%list_elem_of_singleton]%elem_of_app.
      * destruct (H6 z Hz) as [u [K1 K2]]. exists u. split; [done|]. by rewrite Hs', Hmeta.
      * exists v. split; [done|]. by rewrite Hs', Hmeta.
  - split; [done|]. by rewrite Hs', Hmeta.
Qed.

(** The handle of [x] has its hash value and its key: the state [s1] from
    which the insertion of [x] into the table of [s] goes on. *)
Record prepared (s s1 : hstate) (x : loc) (v : Z) : Prop := {
  pr_head : head s1 = head s;
  pr_vas : vas s1 = vas s;
  pr_tables : tables s1 = tables s;
  pr_some : forall y, is_Some (handles s1 !! y) <-> is_Some (handles s !! y);
  pr_size : size (handles s1) = size (handles s);
  pr_others : forall y, y <> x -> handles s1 !! y = handles s !! y;
  pr_key : (fun h => (key h, keylen h, hashv h)) <$> handles s1 !! x = Some (Some x, 8, HASH_VALUE v) }.

Lemma wp_prepare x v s (Q : unit -> hstate -> Prop) (m : M hstate unit) :
  is_Some (handles s !! x) -> (forall s1, prepared s s1 x v -> wp E m s1 Q) ->
  wp E (hst (set_hashv (HASH_VALUE v)) (Some x);; hst (set_key (Some x)) (Some x);;
        hst (set_keylen (u32 8)) (Some x);; m) s Q.
Proof.
  intros [h Hx] HQ. assert (is_Some (handles s !! x)) as Hd by by eexists.
  apply wp_bind, wp_hst; [done|]. apply wp_bind, wp_hst; [by apply alter_at_some|].
  apply wp_bind, wp_hst; [by do 2 apply alter_at_some|]. apply HQ.
  set (H1 := alter_at (set_keylen (u32 8)) (Some x) (alter_at (set_key (Some x)) (Some x)
    (alter_at (set_hashv (HASH_VALUE v)) (Some x) (handles s)))).
  set (s1 := put_handles _ _). assert (handles s1 = H1) as Hs1 by done.
  split; [done..| | | |]; rewrite Hs1; unfold H1.
  - intros y. by rewrite !alter_at_some.
  - by rewrite !alter_at_size.
  - intros y Hy. simpl. by rewrite !lookup_alter_ne.
  - simpl. by rewrite !lookup_alter_eq, Hx.
Qed.

(** From the order of insertion to the end of [HASH_ADD]. *)
Lemma wp_finish_insert x v m s s2 t T lg es ch order (Q : unit -> hstate -> Prop) :
  represents s m -> vas s2 = vas s -> (forall y, is_Some (handles s2 !! y) <-> is_Some (handles s !! y)) ->
  size (handles s2) = size (handles s) -> hashed s2 t T lg es ch -> x ∉ es ->
  in_order s2 t (set_num_items (num_items T + 1) T) order -> keyed s2 t x v -> (forall y, y ∈ order <-> y ∈ x :: es) ->
  (forall k y, <[v := x]> m !! k = Some y <-> y ∈ order /\ vas s !! y = Some k) ->
  (forall s', represents s' (<[v := x]> m) -> vas s' = vas s -> Q tt s') ->
  wp E (HASH_ADD_TO_TABLE malloc_ok (HASH_VALUE v) (Some x)) s2 Q.
Proof.
  intros [Hsz Hdom _] Hv2 Hd2 Hz2 Hh Hx IO Hk Ho Hmap HQ.
  eapply wp_add_to_table; [exact Hh|by rewrite Hz2|exact Hx|exact IO|exact Hk|exact Ho| |].
  - apply chain_size; [apply IO|]. intros y Hy. destruct (io_keyed _ _ _ _ IO y Hy) as [u [Hu _]].
    apply Hd2, Hdom. rewrite <- Hv2. by eexists.
  - intros s3 T3 lg3 ch3 K3 Hh3 IO3. apply HQ; [|by rewrite (kp_vas _ _ K3)].
    pose proof (kp_links _ _ K3) as L3. eapply represents_table; [| |exact Hh3|exact IO3| |].
    + by rewrite (lo_size _ _ L3), Hz2.
    + intros y Hy. apply (lo_some _ _ L3), Hd2, Hdom. by rewrite <- Hv2, <- (kp_vas _ _ K3).
    + intros ->. assert (x ∈ @nil loc) as Hn by (apply Ho; left). by apply elem_of_nil in Hn.
    + intros k y. by rewrite (kp_vas _ _ K3), Hv2.
Qed.

(** Insertion into a table that has elements. *)
Lemma wp_add_next x v m s s1 t T lg order ch (Q : unit -> hstate -> Prop) :
  represents s m -> prepared s s1 x v -> vas s !! x = Some v -> m !! v = None ->
  order <> [] -> hashed s t T lg order ch -> in_order s t T order ->
  (forall k y, m !! k = Some y <-> y ∈ order /\ vas s !! y = Some k) ->
  (forall s', represents s' (<[v := x]> m) -> vas s' = vas s -> Q tt s') ->
  wp E ((t ← hld tbl (head s1); hst (set_tbl t) (Some x);; HASH_APPEND_LIST (Some x));;
        HASH_ADD_TO_TABLE malloc_ok (HASH_VALUE v) (Some x)) s1 Q.
Proof.
  intros R [Hh1 Hv1 Ht1 Hd1 Hz1 Ho1 Hk1] Hv Hm Hne Hh IO Hmap HQ.
  assert (x ∉ order) as Hx by (intros Hx; assert (m !! v = Some x) by (by apply Hmap); congruence).
  destruct (head_keyed _ _ _ _ IO Hne) as (x0 & v0 & Hx0 & Hk0). rewrite Hh1, Hx0.
  assert (x0 <> x) as Hne0.
  { intros ->. apply Hx. apply hd_or_elem. by rewrite <- (io_head _ _ _ _ IO). }
  apply wp_bind. apply wp_bind. eapply (wp_hld_tbl _ s1 t x0 v0).
  { destruct Hk0 as [K1 K2]. split; [by rewrite Hv1|]. unfold meta_of in *. by rewrite Ho1. }
  assert (is_Some (handles s1 !! x)) as Hd by by destruct (handles s1 !! x).
  apply wp_bind, wp_hst; [done|]. set (s2 := put_handles _ s1).
  assert (forall z, z <> x -> handles s2 !! z = handles s !! z) as Ho2.
  { intros z Hz. unfold s2. simpl. rewrite lookup_alter_ne by done. by apply Ho1. }
  assert (keyed s2 t x v) as Hk.
  { split; [by rewrite <- Hv, <- Hv1|]. unfold s2, meta_of. simpl. rewrite lookup_alter_eq.
    destruct (handles s1 !! x); simpl in *; congruence. }
  eapply (wp_append x v s2 t T lg order ch); [| |done|done|exact Hk|].
  - eapply hashed_frame; [exact Hh|unfold s2; simpl; rewrite Ht1; apply Hh|done..|]. intros z Hz.
    unfold bkt_of, hv_of, meta_of. by rewrite Ho2 by congruence.
  - eapply in_order_frame; [exact IO|done|done|]. intros z Hz. apply Ho2. congruence.
  - intros s3 T3 Hv3 Hd3 Hz3 Hh3 IO3 Hk3.
    eapply (wp_finish_insert x v m s s3 t T3 lg order); [exact R|by rewrite Hv3| | |exact Hh3|done|exact IO3|exact Hk3| | |exact HQ].
    + intros y. rewrite Hd3, <- Hd1. apply (alter_at_some _ (Some x)).
    + rewrite Hz3, <- Hz1. apply (alter_at_size _ (Some x)).
    + intros y. rewrite elem_of_app, list_elem_of_singleton, elem_of_cons. tauto.
    + apply (map_insert_spec _ _ order); [done|done|done|]. intros y.
      rewrite elem_of_app, list_elem_of_singleton. tauto.
Qed.

(** [HASH_ADD] is the insertion. *)
Lemma wp_HASH_ADD x v m s (Q : unit -> hstate -> Prop) :
  represents s m -> vas s !! x = Some v -> m !! v = None ->
  (forall s', represents s' (<[v := x]> m) -> vas s' = vas s -> Q tt s') ->
  wp E (HASH_ADD malloc_ok 8 (Some x)) s Q.
Proof.
  intros R Hv Hm HQ. unfold HASH_ADD. apply wp_bind. eapply wp_va_at; [done|].
  eapply wp_prepare; [apply R; by eexists|]. intros s1 Pr. pose proof Pr as [Hh1 Hv1 _ Hd1 Hz1 _ Hk1].
  apply wp_bind, wp_get_head. destruct (rp_table _ _ R) as [[-> Hh0]|(t & T & lg & order & ch & Hne & Hh & IO & Hmap)].
  - rewrite Hh1, Hh0, bool_decide_eq_true_2 by done. apply wp_bind.
    assert (vas s1 !! x = Some v) as Hvx by by rewrite Hv1.
    eapply (wp_make_table x v); [by rewrite Hh1|exact Hvx|destruct (handles s1 !! x); simpl in *; congruence..|].
    intros s2 t T Hv2 Hd2 Hz2 Hh2 IO2 Hk2.
    eapply (wp_finish_insert x v ∅ s s2 t T 21 []); [exact R|by rewrite Hv2| |by rewrite Hz2|exact Hh2|
      apply not_elem_of_nil|exact IO2|exact Hk2|done| |exact HQ].
    + intros y. by rewrite Hd2.
    + apply (map_insert_spec _ _ []); [|done|done|].
      * intros k y. rewrite lookup_empty. split; [done|]. by intros [?%elem_of_nil _].
      * intros y. rewrite elem_of_cons, elem_of_nil. done.
  - destruct (head_keyed _ _ _ _ IO Hne) as (x0 & v0 & Hx0 & _).
    rewrite (bool_decide_eq_false_2 (head s1 = NULL)) by (by rewrite Hh1, Hx0).
    eapply wp_add_next; [exact R|exact Pr|exact Hv|exact Hm|exact Hne|exact Hh|exact IO|exact Hmap|exact HQ].
Qed.

End operations.

(** ** Deletion *)

Section deletion.
Context {E : fault -> Prop}.
Implicit Types (s : hstate) (T : UT_hash_table) (es order : list loc) (ch : Z -> list loc).


Lemma alter_at_links prv nxt H :
  let H' := alter_at (set_hh_prev prv) nxt (alter_at (set_hh_next nxt) prv H) in
  links_only H H' /\ forall z, bkt_of H' z = set_bwd nxt prv (set_fwd prv nxt (bkt_of H)) z.
Proof.
  intros H'. split.
  - etrans; apply links_only_bkt; eauto.
  - intros z. unfold H'. rewrite bkt_set_prev. unfold set_bwd. by rewrite bkt_set_next.
Qed.

Lemma wp_del_in_bkt x lg a es es' ch xs ys s (Q : bucket_array -> hstate -> Prop) :
  buckets_ok (handles s) a lg es ch -> 0 <= lg <= 32 -> x ∈ es -> Z.of_nat (size (handles s)) < 2 ^ 32 ->
  ch (home (handles s) lg x) = xs ++ x :: ys -> (forall z, z ∈ es' <-> z ∈ es /\ z <> x) ->
  (forall a' s' ch', kept s s' -> tables s' = tables s -> buckets_ok (handles s') a' lg es' ch' -> Q a' s') ->
  wp E (HASH_DEL_IN_BKT a (home (handles s) lg x) (Some x)) s Q.
Proof.
  intros B Hlg Hx Hsz Hch Hes HQ. set (i := home _ lg x) in *.
  assert (0 <= i < 2 ^ lg) as Hi by by apply to_bkt_range. pose proof (buckets_length _ _ _ _ _ _ B Hi) as Hlen.
  destruct (bo_bucket _ _ _ _ _ B i Hi) as (H1 & H2 & H3 & H4). pose proof (bo_size _ _ _ _ _ B) as Hbs.
  rewrite Hch in H1, H2, H3, H4, Hlen. pose proof H3 as [_ [Hxl _]]%chained_app.
  assert (forall y, y ∈ xs \/ y ∈ ys -> is_Some (handles s !! y)) as Hdom.
  { intros y Hy. apply (bo_dom _ _ _ _ _ B). apply (bo_elem _ _ _ _ _ B i); [done|]. rewrite Hch.
    apply elem_of_app. rewrite elem_of_cons. tauto. }
  assert (hd_or (xs ++ x :: ys) None = Some x <-> xs = []) as Hhd.
  { destruct xs as [|y xs]; [done|]. simpl. split; [|done]. intros [= ->]. apply NoDup_cons in H4 as [Hn _].
    destruct Hn. apply elem_of_app. right. left. }
  unfold HASH_DEL_IN_BKT. apply wp_bind, wp_bst; [lia|]. apply wp_bind, wp_bld; [simpl; lia|]. rewrite bput_eq.
  apply wp_bind. eapply (wp_hld _ hh_next snd); [exact Hxl|done|].
  set (a1 := bput _ a i). cbn [hh_head set_count snd]. rewrite H1.
  apply wp_bind. eapply (wp_mono _ _ _ (fun a2 s2 => s2 = s /\ bsize a2 = bsize a /\
    (forall j, j <> i -> bucket_at a2 j = bucket_at a j) /\ hh_head (bucket_at a2 i) = hd_or (xs ++ ys) None /\
    count (bucket_at a2 i) = count (bucket_at a1 i))).
  { case_bool_decide as Hc.
    - apply Hhd in Hc as ->. apply wp_bst; [simpl; lia|]. split_and!; [done|done| |by rewrite bput_eq|by rewrite bput_eq].
      intros j Hj. unfold a1. by rewrite !bput_ne by congruence.
    - apply wp_ret. split_and!; [done|done| | |done].
      + intros j Hj. unfold a1. by rewrite !bput_ne by congruence.
      + unfold a1. rewrite bput_eq. simpl. rewrite H1. destruct xs; [by destruct Hc|done]. }
  intros a2 s2 (-> & Hbs2 & Hoth & Hh2 & Hc2).
  apply wp_bind. eapply (wp_hld _ hh_prev fst); [exact Hxl|done|]. cbn [fst].
  apply wp_bind, wp_hst_at.
  { intros y Hy. apply Hdom. left. apply last_or_elem in Hy as [?|[? _]]; done. }
  apply wp_bind, wp_hst_at.
  { intros y Hy. cbn [handles put_handles]. apply alter_at_some, Hdom. right. by apply hd_or_elem. }
  destruct (alter_at_links (last_or None xs) (hd_or ys None) (handles s)) as [HL Hb].
  apply wp_ret. eapply HQ; [by split|done|].
  eapply (buckets_delete (handles s)); [exact B|exact HL|done|exact Hx|exact Hch|exact Hes|exact Hb|done|exact Hoth|exact Hh2|].
  fold i. rewrite Hc2. unfold a1. rewrite bput_eq. simpl. rewrite H2, Hch. apply u32_small.
  rewrite length_app in *. simpl in *. lia.
Qed.

Lemma in_order_delete s s' t T T' xs x ys :
  in_order s t T (xs ++ x :: ys) -> head s' = hd_or (xs ++ ys) None -> tail T' = last_or None (xs ++ ys) ->
  num_items T' = num_items T - 1 -> vas s' = vas s ->
  handles s' = alter_at (set_prev (last_or None xs)) (hd_or ys None)
    (alter_at (set_next (hd_or ys None)) (last_or None xs) (handles s)) ->
  in_order s' t T' (xs ++ ys).
Proof.
  intros [H1 H2 H3 H4 H5 H6] Hh Ht Hn Hv Hs. split; [done|done| | | |].
  - rewrite Hn, H3, !length_app. simpl. lia.
  - rewrite <- Permutation_middle in H4. by apply NoDup_cons in H4 as [].
  - eapply chained_ext, chained_delete, H5; [|done]. intros z _. rewrite Hs, app_set_prev. unfold set_bwd.
    by rewrite app_set_next.
  - intros z Hz. destruct (H6 z) as [u [K1 K2]].
    { apply elem_of_app in Hz. apply elem_of_app. rewrite elem_of_cons. tauto. }
    exists u. split; [by rewrite Hv|]. rewrite Hs, <- K2. unfold meta_of. by rewrite !proj_alter_same.
Qed.

Lemma map_delete_spec (vs : gmap loc Z) (m : gmap Z loc) (order order' : list loc) x v :
  (forall k y, m !! k = Some y <-> y ∈ order /\ vs !! y = Some k) -> m !! v = Some x ->
  (forall y, y ∈ order' <-> y ∈ order /\ y <> x) ->
  forall k y, delete v m !! k = Some y <-> y ∈ order' /\ vs !! y = Some k.
Proof.
  intros Hm Hv Ho k y. rewrite Ho, lookup_delete_Some, Hm. apply Hm in Hv as [Hx Hxv]. split.
  - intros [Hne [Hy Hk]]. split; [split; [done|]|done]. intros ->. congruence.
  - intros [[Hy Hne] Hk]. split_and!; [|done|done]. intros <-.
    assert (m !! v = Some x /\ m !! v = Some y) as [H1 H2] by (split; by apply Hm). congruence.
Qed.

(** The list in the order of insertion without [x]. *)
Lemma wp_unlink_order {A} t T xs x ys s (m : M hstate A) (Q : A -> hstate -> Prop) :
  let prv := last_or None xs in let nxt := hd_or ys None in
  tables s !! t = Some T -> in_order s t T (xs ++ x :: ys) ->
  (forall s' T', tables s' !! t = Some T' -> buckets T' = buckets T -> num_buckets T' = num_buckets T ->
     log2_num_buckets T' = log2_num_buckets T -> num_items T' = num_items T -> vas s' = vas s ->
     head s' = hd_or (xs ++ ys) None -> tail T' = last_or None (xs ++ ys) ->
     handles s' = alter_at (set_prev prv) nxt (alter_at (set_next nxt) prv (handles s)) -> wp E m s' Q) ->
  wp E (last ← tld tail (Some t);
        (if bool_decide (Some x = last) then tst (set_tail prv) (Some t) else mret tt);;
        (if bool_decide (prv = NULL) then set_head nxt else hst (set_next nxt) prv);;
        (if bool_decide (nxt = NULL) then mret tt else hst (set_prev prv) nxt);; m) s Q.
Proof.
  intros prv nxt Ht IO HQ. pose proof IO as [H1 H2 H3 H4 H5 H6].
  assert (forall y, y ∈ xs \/ y ∈ ys -> is_Some (handles s !! y)) as Hdom.
  { intros y Hy. destruct (H6 y) as [u [_ Hm]]; [apply elem_of_app; rewrite elem_of_cons; tauto|].
    unfold meta_of in Hm. by destruct (handles s !! y). }
  apply wp_bind. eapply wp_tld; [done|]. rewrite H2, last_or_app. simpl.
  apply wp_bind. eapply (wp_mono _ _ _ (fun _ s1 => handles s1 = handles s /\ vas s1 = vas s /\ head s1 = head s /\
    exists T', tables s1 !! t = Some T' /\ buckets T' = buckets T /\ num_buckets T' = num_buckets T /\
      log2_num_buckets T' = log2_num_buckets T /\ num_items T' = num_items T /\ tail T' = last_or None (xs ++ ys))).
  { assert (Some x = last_or (Some x) ys -> ys = []) as Hl.
    { destruct ys as [|y ys]; [done|]. intros Hl. symmetry in Hl. simpl in Hl. apply last_or_elem in Hl.
      apply NoDup_app in H4 as (_ & _ & [Hn _]%NoDup_cons). destruct Hn.
      destruct Hl as [Hl|[[= ->] _]]; [by right|by left]. }
    case_bool_decide as Hc.
    - apply Hl in Hc as ->. eapply wp_tst; [done|]. split_and!; [done..|]. exists (set_tail prv T).
      split_and!; try done; [simpl; by rewrite lookup_insert_eq|by rewrite app_nil_r].
    - apply wp_ret. split_and!; [done..|]. exists T. split_and!; try done. rewrite H2, !last_or_app.
      destruct ys; [by destruct Hc|done]. }
  intros [] s1 (Hs1 & Hv1 & Hh1 & T1 & Ht1 & Hb1 & Hn1 & Hl1 & Hi1 & Hta1).
  apply wp_bind. eapply (wp_mono _ _ _ (fun _ s2 => tables s2 = tables s1 /\ vas s2 = vas s /\
    head s2 = hd_or (xs ++ ys) None /\ handles s2 = alter_at (set_next nxt) prv (handles s))).
  { destruct xs as [|y xs _] using rev_ind; [by apply wp_set_head|]. unfold prv. rewrite last_or_app. simpl.
    apply wp_hst; [rewrite Hs1; apply Hdom; left; apply elem_of_app; right; left|].
    split_and!; [done|done| |by rewrite <- Hs1]. rewrite <- app_assoc. simpl. rewrite Hh1, H1, <- app_assoc. by destruct xs. }
  intros [] s2 (Htab2 & Hv2 & Hh2 & Hs2). apply wp_bind, wp_hst_at.
  { intros y Hy. rewrite Hs2. apply alter_at_some, Hdom. right. by apply hd_or_elem. }
  eapply HQ; try done; [simpl; by rewrite Htab2|]. simpl. by rewrite Hs2.
Qed.

(** The bucket without [x]: the second half of a deletion. *)
Lemma wp_drop_from_bucket t T lg x v order order' ch s (Q : unit -> hstate -> Prop) :
  hashed s t T lg order ch -> keyed s t x v -> x ∈ order -> order' <> [] ->
  in_order s t (set_num_items (num_items T - 1) T) order' -> (forall y, y ∈ order' <-> y ∈ order /\ y <> x) ->
  Z.of_nat (size (handles s)) < 2 ^ 32 ->
  (forall s' T' ch', kept s s' -> hashed s' t T' lg order' ch' -> in_order s' t T' order' -> Q tt s') ->
  wp E (hv ← hld hashv (Some x); hd ← get_head; t ← hld tbl hd; n ← tld num_buckets t; a ← tld buckets t;
        a ← HASH_DEL_IN_BKT a (HASH_TO_BKT hv n) (Some x); tst (set_buckets a) t;;
        tst (fun t => set_num_items (u32 (num_items t - 1)) t) t) s Q.
Proof.
  intros [Ht Hnum Hlog Hlg B] Hk Hx Hne IO Hin Hsz HQ.
  apply wp_bind. eapply (wp_hld _ hashv (fun '(_, _, _, h) => h)); [apply Hk|done|].
  apply wp_bind, wp_get_head. destruct (head_keyed _ _ _ _ IO Hne) as (x1 & v1 & -> & Hkx1).
  apply wp_bind. eapply wp_hld_tbl; [exact Hkx1|]. do 2 (apply wp_bind; eapply wp_tld; [done|]). rewrite Hnum.
  assert (HASH_TO_BKT (HASH_VALUE v) (2 ^ lg) = home (handles s) lg x) as ->
    by (unfold home; by rewrite (keyed_hv _ _ _ _ Hk)).
  assert (x ∈ ch (home (handles s) lg x)) as Hxc.
  { apply (bo_elem _ _ _ _ _ B); [apply to_bkt_range; lia|done]. }
  destruct (list_elem_of_split _ _ Hxc) as (cs & ds & Hcd).
  apply wp_bind. eapply wp_del_in_bkt; [exact B|lia|exact Hx|done|exact Hcd|exact Hin|].
  intros a2 s2 ch2 K2 Htab2 B2.
  apply wp_bind. eapply wp_tst; [by rewrite Htab2|]. eapply wp_tst; [cbn [tables put_tables]; by rewrite lookup_insert_eq|].
  set (T3 := set_num_items (u32 (num_items (set_buckets a2 T) - 1)) (set_buckets a2 T)). set (s3 := put_tables _ _).
  pose proof (io_items _ _ _ _ IO) as Hit. simpl in Hit.
  assert (length order' <= size (handles s))%nat as Hlen.
  { apply chain_size; [apply IO|]. intros y [Hy _]%Hin. by apply (bo_dom _ _ _ _ _ B). }
  assert (num_items T3 = num_items T - 1) as Hi3 by (unfold T3; simpl; apply u32_small; lia).
  apply (HQ s3 T3 ch2).
  - destruct K2. by split.
  - split; [unfold s3; cbn [tables put_tables]; by rewrite lookup_insert_eq|done|done|done|exact B2].
  - eapply (in_order_kept s); [exact IO|destruct K2; by split|done|done].
Qed.

(** The last element takes the table with it. *)
Lemma wp_delete_table t m v s (Q : unit -> hstate -> Prop) :
  represents s m -> (forall k y, delete v m !! k = Some y <-> y ∈ @nil loc /\ vas s !! y = Some k) ->
  (forall s', represents s' (delete v m) -> vas s' = vas s -> Q tt s') ->
  wp E (free_table (Some t);; set_head NULL) s Q.
Proof.
  intros [Hsz Hdom _] Hm HQ. apply wp_bind. unfold wp at 1, free_table. apply wp_set_head. apply HQ; [|done].
  split; [done|done|]. left. split; [|done]. apply map_empty. intros k.
  destruct (delete v m !! k) as [y|] eqn:Hk; [|done]. by apply Hm in Hk as [?%elem_of_nil _].
Qed.

(** [HASH_DEL] is the deletion. *)
Lemma wp_HASH_DELETE x v m s (Q : unit -> hstate -> Prop) :
  represents s m -> m !! v = Some x ->
  (forall s', represents s' (delete v m) -> vas s' = vas s -> Q tt s') -> wp E (HASH_DELETE_HH (Some x)) s Q.
Proof.
  intros R Hmx HQ. pose proof R as [Hsz Hdom Htab].
  destruct Htab as [[-> _]|(t & T & lg & order & ch & Hne & Hh & IO & Hmap)]; [by rewrite lookup_empty in Hmx|].
  pose proof Hmx as [Hx Hv]%Hmap. destruct (list_elem_of_split _ _ Hx) as (xs & ys & Ho). subst order.
  pose proof (io_chain _ _ _ _ IO) as [_ [Hxl _]]%chained_app. simpl in Hxl.
  destruct (head_keyed _ _ _ _ IO Hne) as (x0 & v0 & Hx0 & Hk0).
  assert (forall y, y ∈ xs ++ ys <-> y ∈ xs ++ x :: ys /\ y <> x) as Hin.
  { intros y. pose proof (io_nodup _ _ _ _ IO) as Hnd. rewrite <- Permutation_middle in Hnd |- *.
    apply NoDup_cons in Hnd as [Hn _]. rewrite elem_of_cons. split; [|tauto]. intros Hy. split; [by right|congruence]. }
  unfold HASH_DELETE_HH. apply wp_bind. eapply (wp_hld _ prev fst); [exact Hxl|done|].
  apply wp_bind. eapply (wp_hld _ next snd); [exact Hxl|done|]. cbn [fst snd].
  apply wp_bind, wp_get_head. rewrite Hx0. apply wp_bind. eapply wp_hld_tbl; [exact Hk0|].
  pose proof (map_delete_spec (vas s) m _ _ x v Hmap Hmx Hin) as Hmap'.
  destruct (bool_decide (last_or None xs = NULL) && bool_decide (hd_or ys None = NULL)) eqn:Hlone.
  { apply andb_prop in Hlone as [Hxs%bool_decide_eq_true Hys%bool_decide_eq_true].
    assert (xs = []) as -> by (destruct xs using rev_ind; [done|by rewrite last_or_app in Hxs]).
    assert (ys = []) as -> by by destruct ys. by eapply (wp_delete_table t). }
  assert (xs ++ ys <> []) as Hne' by by intros [-> ->]%app_eq_nil.
  eapply wp_unlink_order; [apply Hh|exact IO|]. intros s1 T1 Ht1 Hb1 Hn1 Hl1 Hi1 Hv1 Hh1 Hta1 Hs1.
  assert (forall y, bkt_of (handles s1) y = bkt_of (handles s) y /\ meta_of (handles s1) y = meta_of (handles s) y) as Hsame.
  { intros y. rewrite Hs1. unfold bkt_of, meta_of. by rewrite !proj_alter_same. }
  assert (size (handles s1) = size (handles s)) as Hz1 by (rewrite Hs1; by rewrite !alter_at_size).
  destruct (io_keyed _ _ _ _ IO x Hx) as [v' Hkx].
  eapply (wp_drop_from_bucket t T1 lg x v' _ _ ch); [| |exact Hx|exact Hne'| |exact Hin|by rewrite Hz1|].
  - eapply hashed_frame; [exact Hh|exact Ht1|done..|]. intros z _. unfold hv_of. by destruct (Hsame z) as [-> ->].
  - destruct Hkx. split; [by rewrite Hv1|by destruct (Hsame x) as [_ ->]].
  - eapply in_order_delete; [exact IO|exact Hh1|exact Hta1|simpl; by rewrite Hi1|exact Hv1|exact Hs1].
  - intros s3 T3 ch3 [Hh3 Hv3 L3] Hsh3 IO3. apply HQ; [|by rewrite Hv3].
    eapply (represents_table s3 t T3); [by rewrite (lo_size _ _ L3), Hz1| |exact Hsh3|exact IO3|done|].
    + intros y. rewrite Hv3, Hv1, (lo_some _ _ L3), Hs1, !alter_at_some. apply Hdom.
    + intros k y. rewrite Hv3, Hv1. apply Hmap'.
Qed.
End deletion.
