(* ===== verification/TrackedTable.v ===== *)
(** * The table of tracked pages as a finite map

    [core.c] uses its hash table through [add_page], [find_page] and
    [remove_page], and changes the key of a page only while the page is not
    in the table.  Any series of such steps over the pointers, buckets and
    chains of [uthash.h] returns what it returns over a finite map from
    addresses to pages: this is why the state of the other files holds such a
    map ([pages]) instead of the hash table. *)

From S2P Require Import Prelude State Fifo Uthash UthashProofs.

(** ** Steps *)

Inductive table_step :=
  | Rekey (x : loc) (v : Z)      (* [x->va = v] *)
  | Track (x : loc)              (* [add_page] *)
  | Find (v : Z)                 (* [find_page] *)
  | Untrack (x : loc).           (* [remove_page] *)

(** The abstract table: the keys of all pages, and the tracked ones by key. *)
Definition table_model : Type := gmap loc Z * gmap Z loc.

Definition key_of (a : table_model) (x : loc) : Z := default 0 (fst a !! x).

Definition model_step (c : table_step) (a : table_model) : list ptr * table_model :=
  match c with
  | Rekey x v => ([], (<[x := v]> (fst a), snd a))
  | Track x => ([], (fst a, <[key_of a x := x]> (snd a)))
  | Find v => ([snd a !! v], a)
  | Untrack x => ([], (fst a, delete (key_of a x) (snd a)))
  end.

(** A page is keyed while it is not tracked, tracked at a free key, and
    untracked while it is tracked. *)
Definition step_allowed (c : table_step) (a : table_model) : Prop :=
  match c with
  | Rekey x v => is_Some (fst a !! x) /\ map_Forall (fun _ y => y <> x) (snd a)
  | Track x => is_Some (fst a !! x) /\ snd a !! key_of a x = None
  | Find v => True
  | Untrack x => is_Some (fst a !! x) /\ snd a !! key_of a x = Some x
  end.

#[export] Instance step_allowed_dec c a : Decision (step_allowed c a).
Proof. destruct c; simpl; apply _. Defined.

Fixpoint model_steps (cs : list table_step) (a : table_model) : list ptr * table_model :=
  match cs with
  | [] => ([], a)
  | c :: cs => let '(r, a) := model_step c a in let '(rs, a) := model_steps cs a in (r ++ rs, a)
  end.

Fixpoint steps_allowed (cs : list table_step) (a : table_model) : Prop :=
  match cs with
  | [] => True
  | c :: cs => step_allowed c a /\ steps_allowed cs (snd (model_step c a))
  end.

#[export] Instance steps_allowed_dec cs a : Decision (steps_allowed cs a).
Proof. revert a. induction cs; intros a'; simpl; apply _. Defined.

(** ** The implementation *)

Section implementation.
Variable malloc_ok : hstate -> Z -> bool.

Definition set_va (x : loc) (v : Z) : M hstate unit := fun s =>
  match vas s !! x with
  | None => Fault Segv
  | Some _ => Ok tt (HState (head s) (<[x := v]> (vas s)) (handles s) (tables s))
  end.

(** The bodies of the three functions between the mutex operations. *)
Definition exec_step (c : table_step) : M hstate (list ptr) :=
  match c with
  | Rekey x v => set_va x v;; mret []
  | Track x =>
      v ← va_at (Some x);
      p ← HASH_FIND v 8;
      assert_ "p == NULL" (bool_decide (p = NULL));;
      HASH_ADD malloc_ok 8 (Some x);;
      mret []
  | Find v => p ← HASH_FIND v 8; mret [p]
  | Untrack x => HASH_DELETE_HH (Some x);; mret []
  end.

Fixpoint exec_steps (cs : list table_step) : M hstate (list ptr) :=
  match cs with
  | [] => mret []
  | c :: cs => r ← exec_step c; rs ← exec_steps cs; mret (r ++ rs)
  end.
End implementation.

(** ** Refinement *)

Record implements (s : hstate) (a : table_model) : Prop := {
  im_keys : vas s = fst a;
  im_map : represents s (snd a) }.

(** A page that is not in the table gets another key. *)
Lemma represents_rekey s m x v :
  represents s m -> (forall k, m !! k <> Some x) -> is_Some (vas s !! x) ->
  represents (HState (head s) (<[x := v]> (vas s)) (handles s) (tables s)) m.
Proof.
  intros [Hsz Hdom Htab] Hx Hd. split; simpl; [done| |].
  - intros y. rewrite lookup_insert_is_Some'. intros [<- |?]; by apply Hdom.
  - destruct Htab as [?|(t & T & lg & order & ch & Hne & [? ? ? ? ?] & [H1 H2 H3 H4 H5 H6] & Hmap)]; [by left|right].
    assert (forall y, y ∈ order -> x <> y) as Hxo.
    { intros y Hy ->. destruct (H6 y Hy) as [u [Hu _]]. apply (Hx u), Hmap. done. }
    exists t, T, lg, order, ch. split_and!; [done|by split| |].
    + split; try done. intros y Hy. destruct (H6 y Hy) as [u [K1 K2]]. exists u. split; [|done].
      simpl. by rewrite lookup_insert_ne by auto.
    + intros k y. rewrite Hmap. split; intros [Hy Hk]; (split; [done|]); [by rewrite lookup_insert_ne by auto|].
      by rewrite lookup_insert_ne in Hk by auto.
Qed.

Section refinement.
Context (malloc_ok : hstate -> Z -> bool).

(** What can end a step: an allocation that fails, or the doubling of 2 ^ 31
    buckets. *)
Definition table_failure (f : fault) : Prop :=
  f = SysFail "uthash: out of memory" \/ f = Undefined "shift by 32 bits".

Lemma wp_exec_step c s a :
  implements s a -> step_allowed c a ->
  wp table_failure (exec_step malloc_ok c) s (fun r s' => r = fst (model_step c a) /\ implements s' (snd (model_step c a))).
Proof.
  intros [Hk R] Hc. destruct c as [x v|x|v|x]; simpl in *.
  - destruct Hc as [Hx Hf]. rewrite <- Hk in Hx. apply wp_bind. unfold wp at 1, set_va. pose proof Hx as [u ->].
    apply wp_ret. split; [done|]. split; simpl; [by rewrite Hk|]. apply represents_rekey; [done| |exact Hx].
    intros k Hkx. by apply (Hf k x Hkx).
  - destruct Hc as [Hx Hf]. rewrite <- Hk in Hx. destruct Hx as [v Hx]. unfold key_of in *. rewrite <- Hk, Hx in *. simpl in *.
    apply wp_bind. eapply wp_va_at; [done|]. apply wp_bind. eapply wp_HASH_FIND; [exact R|]. rewrite Hf.
    apply wp_bind, wp_assert; [done|]. apply wp_bind. eapply wp_HASH_ADD; [by left|by right|exact R|done|done|].
    intros s' R' Hv'. apply wp_ret. split; [done|]. by split; simpl; [rewrite Hv'|].
  - apply wp_bind. eapply wp_HASH_FIND; [exact R|]. apply wp_ret. done.
  - destruct Hc as [_ Hf]. apply wp_bind. eapply wp_HASH_DELETE; [exact R|exact Hf|].
    intros s' R' Hv'. apply wp_ret. split; [done|]. by split; simpl; [rewrite Hv'|].
Qed.

(** C13: the hash table of [uthash.h] is a finite map. Any series of steps
    that keys, tracks, looks up and untracks pages the way the program does
    returns the answers of a finite map and leaves the table representing
    it, whichever hash values collide, whenever the buckets are doubled and
    whatever [malloc] grants. Two things can end it: an allocation that
    fails, and an attempt to double 2^31 buckets (an allocation of 64 GB),
    where the macro shifts by the width of its operand and the number of
    buckets would wrap to 0. Otherwise no pointer is bad, and every search and
    expansion comes to an end. *)
Theorem table_refines_map cs s a :
  implements s a -> steps_allowed cs a ->
  wp table_failure (exec_steps malloc_ok cs) s
    (fun rs s' => rs = fst (model_steps cs a) /\ implements s' (snd (model_steps cs a))).
Proof.
  revert s a. induction cs as [|c cs IH]; intros s a Hi Hc; simpl in *; [by apply wp_ret|].
  destruct Hc as [Hc Hcs]. apply wp_bind. eapply wp_mono; [by eapply wp_exec_step|]. intros r s1 [-> Hi1].
  apply wp_bind. eapply wp_mono; [by eapply IH|]. intros rs s2 [-> Hi2]. apply wp_ret.
  destruct (model_step c a) as [r1 a1]. simpl in *. by destruct (model_steps cs a1).
Qed.
End refinement.

(** ** A concrete series *)

(** Nine addresses that fall into one of the 2097152 buckets (a tenth would
    make the table double their number). *)
Definition colliding : list Z :=
  [100126720; 631894016; 1413857280; 1749495808; 3299651584; 5085265920; 7235272704; 7815135232; 8543002624].

(** One step per page. *)
Definition with_pages (f : loc -> Z -> table_step) : list table_step :=
  imap (fun i v => f (Pos.of_succ_nat i) v) colliding.

Definition collide : list table_step :=
  with_pages Rekey ++ with_pages (fun x _ => Track x) ++ with_pages (fun _ v => Find v) ++
  [Untrack 4%positive; Find 1749495808; Find 8543002624; Rekey 4%positive 4096; Track 4%positive; Find 4096].

Definition blank : UT_hash_handle := HashHandle NULL NULL NULL NULL NULL NULL 0 0.
Definition no_pages : hstate :=
  HState NULL (list_to_map ((fun i => (Pos.of_succ_nat i, 0)) <$> seq 0 9))
    (list_to_map ((fun i => (Pos.of_succ_nat i, blank)) <$> seq 0 9)) ∅.

(** At most 64 MB at a time. *)
Definition some_memory (s : hstate) (sz : Z) : bool := bool_decide (sz <= 2 ^ 26).

Lemma no_pages_empty : implements no_pages (vas no_pages, ∅).
Proof.
  split; [done|]. split; [by vm_compute| |by left].
  intros x Hx. cut (map_Forall (fun x _ => is_Some (handles no_pages !! x)) (vas no_pages)).
  - intros HF. destruct Hx as [v Hx]. by apply (HF x v).
  - apply (bool_decide_unpack _). vm_compute. reflexivity.
Qed.

Lemma table_refines_map_witness : exists s', exec_steps some_memory collide no_pages =
  Ok ((Some <$> [1; 2; 3; 4; 5; 6; 7; 8; 9]%positive) ++ [None; Some 9%positive; Some 4%positive]) s'.
Proof.
  assert (steps_allowed collide (vas no_pages, ∅)) as Hc by (apply (bool_decide_unpack _); vm_compute; reflexivity).
  pose proof (table_refines_map some_memory collide no_pages _ no_pages_empty Hc) as H.
  assert (match exec_steps some_memory collide no_pages with Ok _ _ => true | Fault _ => false end = true) as Hok
    by (vm_compute; reflexivity).
  unfold wp in H. destruct (exec_steps some_memory collide no_pages) as [rs s'|f]; [|discriminate].
  destruct H as [-> _]. exists s'. reflexivity.
Defined.
